(* ===== verification/_CoqProject ===== *)
-Q . S2P
Prelude.v
GoInt.v
GoString.v
GoTime.v
GoFloat.v
GoParse.v
FloatFacts.v
FloatExact.v
Amps.v
Block.v
WorkMode.v
Registers.v
TimedSlots.v
Rtc.v
Telemetry.v
Schedule.v
FloatFinite.v
Sidecar.v
Json.v
HomeAssistant.v
StateDocument.v
Server.v
StatusPage.v
Publisher.v
Scheduler.v
GoHttp.v
SidecarClient.v
SidecarServer.v
SidecarWire.v
LateWire.v
Config.v
PyText.v
SidecarConfig.v
Mqtt.v
Lifecycle.v
Controls.v
ControlsSafety.v
SafeRuns.v
Cmd.v
CmdSafety.v
HealthyRuns.v
Panel.v
PanelRuns.v
Recovery.v
Contract.v
Startup.v
CommandLine.v
HealthyLife.v
Interference.v
Deployment.v
