(* ===== verification/Prelude.v ===== *)
(** * Verification of the Solis inverter manager

    The program polls a Solis inverter through a sidecar (an HTTP server in front of a
    Modbus data logger), publishes what it reads to Home Assistant over MQTT, takes
    commands back from there, and keeps the inverter's timed charge slots at the
    schedule its owner configured.  This library models it function by function and
    proves what makes it correct.

    ** Conventions

    A Go integer of w bits is a [Z] with its conversions written out ([GoInt]); a
    float64 is the standard library's executable binary64 ([GoFloat]); a string is its
    bytes ([GoString]); an instant is its nanoseconds and a location ([GoTime]).  A
    fallible function returns [result]; an error keeps its chain, so [errors.Is] and
    the printed text can be computed.  Code that calls out is a [State W] computation,
    a function of the world [W] behind the interfaces it calls.  An interface of the
    program is a type class over [W], with its laws in a second class where theorems
    need them; theorems are about every instance.  Log lines are left out, except
    where a definition says otherwise.

    ** Parts, files and sources

    Standard library of Go: [GoInt], [GoString] (strings, fmt, strconv), [GoTime]
    (time, over a [TimeZone]), [GoFloat] (with [FloatFacts], [FloatExact] and
    [FloatFinite] on rounding, exactness and finiteness), [GoParse] (Atoi, ParseBool, ParseDuration, ToLower),
    [Json] (encoding/json on trees rather than bytes), [GoHttp] (net/http, net/url).
    Of Python: [PyText] (strip, lower, int and float of a str).

    Decoding (internal/inverter): [Block] (block.go), [WorkMode] (workmode.go,
    bmsfault.go, status.go), [Registers] (registers.go), [TimedSlots] (schedule.go),
    [Rtc] (rtc.go), [Amps] (controls.go), [Telemetry] (telemetry.go, with Collect of
    internal/publisher/collect.go).

    Schedule (internal/schedule): [Schedule] (schedule.go, plan.go).

    Control path (internal/controls): [Sidecar] is the register bus as an interface:
    [HoldingReadWriter], the laws of a bus that may fail anywhere ([BusLaws]), a
    healthy one ([HealthyBus]), and a device with a list of faults to run examples on.
    [Controls] is guard.go, handler.go, reconcile.go and setpoints.go over it.
    [ControlsSafety] and [SafeRuns] prove it safe on any bus and convergent on a
    healthy one.

    Home Assistant and MQTT: [HomeAssistant] (internal/homeassistant), [StateDocument]
    (that the document always builds and shows what was announced), [Publisher] (internal/publisher), [Mqtt]
    (internal/mqtt), [Contract] (that what is announced is what the handler takes).

    Status server (internal/server): [Server] (server.go and the rows of page.go),
    [StatusPage] (the template of page.go with html/template's escapes, routes.go over
    net/http's mux).

    Poll loop (internal/scheduler): [Scheduler].  Its collaborators are fields of a
    record, as in the code.

    Sidecar: [SidecarClient] (internal/sidecarclient, and waitForSidecar of
    internal/cmd/serve.go), [SidecarServer] (the Python of src/sidecar: errors.py,
    http_api.py, mock.py, transport.py), [SidecarConfig] (config.py, __main__.py and the
    reading of the mock's fixtures), [SidecarWire] (client and server put together over
    a connection that loses messages), [LateWire] (and that delivers some after the
    client gave up on them).

    Process (internal/cmd, internal/config): [Config] (config.go), [Cmd] (the pieces of
    serve.go, freshness.go, state.go over the shared [World]), [Startup] (runServe from
    the environment to the exit, newLogger of root.go, main.go), [CommandLine] (root.go:
    the commands, the .env file and the exit status), [CmdSafety] and
    [HealthyRuns] (what holds of runs), [Recovery] (what faults cannot leave behind),
    [Interference] (the reconnect hook between any two calls), [Lifecycle] (locking.go,
    the scheduler's mutex, and the shutdown, as interleavings of goroutines).

    Specification: [Panel] says what the commands and a poll are for, as pure functions
    on a record of the controls, with no register, guard or retry in it; [PanelRuns]
    proves that the assembled manager does that, and [HealthyLife] that a whole life of
    the process does.

    Deployment: [Deployment] puts the two processes together, the manager over its own
    client, the connection, the sidecar and a transport, beside a broker.

    ** How the parts fit in the proofs

    [Controls] is proved against [BusLaws].  Two instances matter: [CmdSafety.World_laws], so
    that the assembled process inherits every theorem of the control path, and
    [LateWire.late_laws], which discharges the laws for the real stack: the Go client,
    a connection that may lose any request or answer or deliver a request late, the
    Python server, and any transport that keeps [TransportLaws] (the mock does by
    [Mock_laws]; the live one does by [Live_laws] when the Solarman library keeps
    [SolarmanLaws]).  [Interference.Busy_laws] lifts any outside to one in which the
    reconnect hook runs between calls; it stays healthy and its clock steady if the hook
    leaves them so.
    [Deployment.deployed_laws] and its companions make the whole stack an outside of the
    process, so that what is proved of any outside is proved of it, and
    [deployed_working] makes it one that answers when its parts do.
    [Scheduler] is sequential: a run is a list of whole polls and commands.
    [Lifecycle.sections_serialise] is why that is what the mutexes let through.

    ** What the theorems show

    - Safety of a whole life of the deployment: [Deployment.end_to_end_safe]; what it is
      made of: [Startup.life_safe] on any outside, [ControlsSafety.guard_contract],
      [write_sequence_prefix] and, in [SafeRuns], the envelope of every command.  Stale
      readings assert nothing: [CmdSafety.stale_poll_writes_nothing].
    - What it does when things work: [HealthyLife.life_refines_panel] and
      [Panel.commands_refine_panel] against the specification, and from it
      [PanelRuns.boost_lifecycle]; [ControlsSafety.reconcile_converges];
      [PanelRuns.command_reflected]: what a command left in the registers is published,
      once, cached and shown.
    - Recovery: [Recovery.one_poll_recovers], [slots_stay_readable].
    - Refinement of the outside: [LateWire.client_refines_bus],
      [Telemetry.collect_reads_bank], [ControlsSafety.read_setpoints_faithful].
    - Status: [StatusPage.status_surface], [page_markup_fixed].
    - Goroutines: [Lifecycle.sections_serialise], [teardown_order],
      [shutdown_completes], and three races the teardown leaves, [shutdown_races].
    - Termination: [Scheduler.read_with_retry]; [SidecarClient.startup_wait_bounded], in
      time, with probes that may hang; [Startup.serve_exit], which needs the health
      branch of [waitForExit] to cancel the run context ([Cmd.exits_needs_cancel]).
    - Errors: [Config.load_reports], [SidecarClient.errors_classified],
      [StateDocument.state_document_total]; [SidecarWire.live_reconnects]: which outcome
      closes the socket, and which does not, over the calls the library saw.
    - Settings: [Config.loaded_valid], [secrets_redacted], and
      [SidecarConfig.one_environment]: both processes read one environment alike.
    - Schedule: [Schedule.plan_boost_window]; [desired_fixed_point], with the minutes
      the tariff charges and those a boost stays; [boost_select_roundtrip].
    - Codecs: [TimedSlots.slot_write_decode], [Rtc.rtc_write_read],
      [Amps.amps_roundtrip], [WorkMode.work_mode_update].
    - Home Assistant: [Contract.controls_understood], [HomeAssistant.discovery_topics],
      [StateDocument.announced_states_shown]: the template, the topic and the member of
      every announced entity agree.

    Each has a witness at a concrete input where it has hypotheses, beside it or, for
    [errors_classified], in [SidecarWire], for [one_poll_recovers] in [Interference], with
    hooks firing between the calls, and for [life_refines_panel] in [Deployment].

    ** Parameters and assumptions

    - The bus: a read changes nothing and answers some prefix of the words asked for; a
      write issues one frame and takes effect or not before the call returns, whatever
      the reply.  A request the client gives up on (after 15 s) may be carried out
      later; [LateWire] shows that the laws then hold of the bank as it is once it is,
      provided the sidecar carries requests out in the order they arrive.  Its lock does
      not promise that, and [LateWire.overtaken_late_write] is what happens otherwise.
    - The Solarman library ([PySolarmanV5]), autopaho ([Autopaho], [BrokerLaws]),
      [net/url] ([UrlParse]), the host's time zone ([TimeZone]), the conversion of an
      out-of-range float64 to uint16, which Go leaves to the platform
      ([FloatToUint16]), and [fmt.Sprint] of a JSON value ([sprint]).
    - Contexts.  A poll runs under the run context, a command under the background one, a
      reconnect hook under the hooks' own, the last publish and the disconnect under a
      timeout of five seconds ([GoTime.Ctx]); what the MQTT library is given is an
      argument of its class.  autopaho's connection ends, with a clean disconnect, some
      time after the context it was started under.
    - A request is answered or given up, and a timer fires, at most [slack] after its
      deadline ([SidecarClient.Prompt], where the startup wait is bounded in time).
    - Time passes ([TimePasses]) and a wait cut short is reported as the context's end
      ([ContextLaws]); nothing but register writes touches the inverter
      ([OutsideLaws], [ServeLaws]).  [PanelRuns] takes the clock not to be set back
      while it runs ([SteadyClock]).
    - The sidecar's file system and listening socket ([Files], [ListenSocket]); the
      commands and the .env file ([Cobra], [CobraLaws], [DotEnv]).
    - Strings in error texts are compared, never parsed, by the program; quoting with
      %q is [GoString.fmt_q], and Python's repr is [SidecarServer.repr].

    ** Fuel and bounds

    [WaitUntilServing] takes one unit per probe; [Startup.startup_fuel] is one per half
    second of SIDECAR_STARTUP_TIMEOUT plus two, which [startup_wait_bounded] proves
    enough.  [Scheduler.read_attempts] takes POLL_MAX_RETRIES + 1, the code's own bound,
    and its backoff wraps at 64 bits as the code's does.  Loops over text that consume a
    byte a round take the length of the text.  Everything else is structurally recursive.

    ** Not modelled

    - The HTTP listener: a request is answered by [StatusPage.Handler].
    - Inside cobra, godotenv and signal handling: [CommandLine] takes the first two as
      classes, and a signal is one of the causes a life ends by.
    - Log lines: they are not read back.  Which line a guarded write prints is
      ([Controls.logGuard]).
    - TLS, MQTT sessions and HTTP connections: inside the libraries.  [Lifecycle] keeps
      of a session only whether it is up; the last will is set ([Mqtt.buildClientConfig])
      but what the broker does with it is not followed.
    - The five seconds of the teardown's context: [Startup] hands it on, [Lifecycle] lets
      it run out at any moment.
    - What the reconnect hook publishes is the cache of the moment; between the calls of
      a poll [Interference] lets it publish anything, which only matters to the broker.
    - The sidecar's threads: its requests are taken one at a time, as the lock of its
      transport lets them through.
    - The acceptance features and the deployment files, which are tests and assets. *)

From Stdlib Require Export ZArith Lia Bool.
From stdpp Require Export base list option numbers strings pretty gmap.

#[global] Open Scope Z_scope.

(** ** Errors

    Go's [error] values.  [Sentinel] is a package-level [errors.New] variable,
    compared by identity; [Errorf] an error made on the spot, without a cause;
    [Wrapf m e] is [fmt.Errorf("m: %w", e)], [Wrapf2 m e n f] is
    [fmt.Errorf("m: %w" + n + "%w", e, f)]; [Typed t e] is a value of a package's own
    error type, whose [Error] is [t] and whose [Unwrap] is [e]. *)
Inductive error : Type :=
| Sentinel (name : string)
| Errorf (msg : string)
| Wrapf (msg : string) (cause : error)
| Wrapf2 (msg : string) (cause : error) (mid : string) (cause2 : error)
| Typed (text : string) (cause : error)
| Joined (first rest : error).

#[export] Instance error_eq_dec : EqDecision error.
Proof. solve_decision. Defined.

(** [errors.Is(err, target)] for a sentinel target: some link of the chain is
    that sentinel. *)
Fixpoint errors_Is (err : error) (target : string) : bool :=
  match err with
  | Sentinel n => bool_decide (n = target)
  | Errorf _ => false
  | Wrapf _ c | Typed _ c => errors_Is c target
  | Wrapf2 _ c _ d | Joined c d => errors_Is c target || errors_Is d target
  end.

(** The text [err.Error()] prints. *)
Fixpoint error_text (err : error) : string :=
  match err with
  | Sentinel n => n
  | Errorf m => m
  | Wrapf m c => m +:+ ": " +:+ error_text c
  | Wrapf2 m c n d => m +:+ ": " +:+ error_text c +:+ n +:+ error_text d
  | Typed t _ => t
  | Joined c d => error_text c +:+ String (Ascii.ascii_of_nat 10) (error_text d)
  end.

(** [errors.Join(e, es...)] of non-nil errors. *)
Fixpoint errors_Join (e : error) (es : list error) : error :=
  match es with [] => e | e' :: es => Joined e (errors_Join e' es) end.

(** ** Fallible computations

    [result A] is Go's [(A, error)] where the value is the zero value whenever
    the error is non-nil, so only one of the two is meaningful. *)
Inductive result (A : Type) : Type :=
| Ok (a : A)
| Err (e : error).
Arguments Ok {A} _.
Arguments Err {A} _.

#[export] Instance result_eq_dec {A} `{EqDecision A} : EqDecision (result A).
Proof. solve_decision. Defined.

#[export] Instance result_ret : MRet result := @Ok.
#[export] Instance result_bind : MBind result := λ A B f m,
  match m with Ok a => f a | Err e => Err e end.

(** [if err != nil { return ..., fmt.Errorf("ctx: %w", err) }] *)
Definition wrap_err {A} (ctx : string) (m : result A) : result A :=
  match m with Ok a => Ok a | Err e => Err (Wrapf ctx e) end.

Definition is_Ok {A} (m : result A) : bool :=
  match m with Ok _ => true | Err _ => false end.

Lemma bind_Ok_inv {A B} (m : result A) (f : A → result B) (b : B) :
  m ≫= f = Ok b → ∃ a, m = Ok a ∧ f a = Ok b.
Proof. destruct m; cbn; naive_solver. Qed.

Lemma bind_Err_inv {A B} (m : result A) (f : A → result B) (e : error) :
  m ≫= f = Err e → m = Err e ∨ ∃ a, m = Ok a ∧ f a = Err e.
Proof. destruct m; cbn; naive_solver. Qed.

Lemma wrap_err_Ok {A} ctx (m : result A) a : wrap_err ctx m = Ok a ↔ m = Ok a.
Proof. destruct m; cbn; naive_solver. Qed.

Lemma wrap_err_Err {A} ctx (m : result A) e :
  wrap_err ctx m = Err e → ∃ c, m = Err c ∧ e = Wrapf ctx c.
Proof. destruct m; cbn; naive_solver. Qed.

(** ** Computations that act on the world

    [State W A]: what a Go function that calls interfaces does, as a function of
    the state [W] of the world behind them. *)
Definition State (W A : Type) : Type := W → A * W.

#[export] Instance state_ret {W} : MRet (State W) := λ A a w, (a, w).
#[export] Instance state_bind {W} : MBind (State W) := λ A B f m w, let '(a, w') := m w in f a w'.

Lemma state_bind_inv {W A B} (m : State W A) (f : A → State W B) w b w' :
  (m ≫= f) w = (b, w') → ∃ a w1, m w = (a, w1) ∧ f a w1 = (b, w').
Proof. unfold mbind, state_bind. destruct (m w) as [a w1]. eauto. Qed.

Lemma state_bind_step {W A B} (m : State W A) (f : A → State W B) w a w1 :
  m w = (a, w1) → (m ≫= f) w = f a w1.
Proof. intros H. unfold mbind, state_bind. by rewrite H. Qed.

(** Breaks a run of binds into its steps. *)
Ltac state_inv :=
  repeat match goal with
  | H : (_ ≫= _) _ = (_, _) |- _ =>
      let a := fresh "r" in let w := fresh "w" in let E := fresh "E" in
      apply state_bind_inv in H as (a & w & E & H); cbv beta in H
  | H : mret _ _ = (_, _) |- _ => unfold mret, state_ret in H; injection H as H
  end.

(** Breaks a successful chain of binds into its successful steps. *)
Ltac result_inv :=
  repeat match goal with
  | H : _ ≫= _ = Ok _ |- _ => apply bind_Ok_inv in H as (? & ? & H)
  | H : wrap_err _ _ = Ok _ |- _ => apply wrap_err_Ok in H
  | H : Ok _ = Ok _ |- _ => injection H as H
  | H : mret _ = Ok _ |- _ => injection H as H
  | H : Err _ = Ok _ |- _ => discriminate H
  | H : Ok _ = Err _ |- _ => discriminate H
  end.

(** Splits boolean hypotheses into linear-arithmetic facts. *)
Ltac bool_arith :=
  repeat match goal with
  | H : _ && _ = true |- _ => apply andb_prop in H as [? ?]
  | H : _ || _ = false |- _ => apply orb_false_elim in H as [? ?]
  | H : negb _ = true |- _ => apply negb_true_iff in H
  | H : negb _ = false |- _ => apply negb_false_iff in H
  | H : (_ <? _) = true |- _ => apply Z.ltb_lt in H
  | H : (_ <? _) = false |- _ => apply Z.ltb_ge in H
  | H : (_ <=? _) = true |- _ => apply Z.leb_le in H
  | H : (_ <=? _) = false |- _ => apply Z.leb_gt in H
  | H : (_ =? _) = true |- _ => apply Z.eqb_eq in H
  | H : (_ =? _) = false |- _ => apply Z.eqb_neq in H
  end.

(** ** Hint databases

    [word]: range facts of machine words.  [go]: facts that evaluate a step of
    a modelled function. *)
Create HintDb word.
Create HintDb go.
Create Rewrite HintDb go.

(** ** Generic lemmas on lists *)

Lemma filter_ext_in {A} (P Q : A → Prop) `{∀ x, Decision (P x)} `{∀ x, Decision (Q x)} (l : list A) :
  (∀ x, x ∈ l → P x ↔ Q x) → filter P l = filter Q l.
Proof.
  induction l as [|x l IH]; intros H1; [done|].
  assert (filter P l = filter Q l) as E by (apply IH; intros y Hy; apply H1; by right).
  pose proof (H1 x ltac:(by left)) as Hx. rewrite !filter_cons, E.
  destruct (decide (P x)), (decide (Q x)); tauto.
Qed.

(** A prefix of the selected elements is the selection of a prefix, and back. *)
Lemma take_filter {A} (P : A → Prop) `{∀ x, Decision (P x)} (l : list A) j k :
  ∃ i, take j (filter P (take k l)) = take i (filter P l).
Proof.
  exists (j `min` length (filter P (take k l)))%nat.
  rewrite <- (take_drop k l) at 3. rewrite filter_app, take_app_le by lia.
  destruct (decide (j ≤ length (filter P (take k l)))%nat) as [Hj|Hj].
  - by rewrite Nat.min_l by lia.
  - rewrite Nat.min_r by lia. rewrite (take_ge (filter P (take k l)) j) by lia.
    by rewrite (take_ge (filter P (take k l))) by lia.
Qed.

Lemma elem_of_take_inv {A} (x : A) k l : x ∈ take k l → x ∈ l.
Proof. intros (i & Hi & _)%elem_of_take. apply list_elem_of_lookup. eauto. Qed.

Lemma filter_nil_in {A} (P : A → Prop) `{∀ x, Decision (P x)} (l : list A) :
  (∀ x, x ∈ l → ¬ P x) → filter P l = [].
Proof.
  induction l as [|x l IH]; intros H1; [done|]. rewrite filter_cons_False by (apply H1; by left).
  apply IH. intros y Hy. apply H1. by right.
Qed.

Lemma Forall_true_list {A} (f : A → bool) (l : list A) :
  forallb f l = true → Forall (λ x, f x = true) l.
Proof. intros H. apply Forall_forall. intros x Hx. apply list_elem_of_In in Hx. by eapply forallb_forall in H. Qed.
