(* ===== verification/GoInt.v ===== *)
(** * Fixed-width integers of Go

    A value of a w-bit type is a [Z]; this file holds the conversions Go writes
    [uint16(x)], [int16(x)], ..., the bit operations on [uint16] words and the
    arithmetic facts the decoders need. *)

From S2P Require Import Prelude.

(** ** Conversions *)

(** [uint8(x)], [uint16(x)], [uint32(x)]: the value modulo 2^w. *)
Definition to_uint8 (x : Z) : Z := x mod 2 ^ 8.
Definition to_uint16 (x : Z) : Z := x mod 2 ^ 16.
Definition to_uint32 (x : Z) : Z := x mod 2 ^ 32.

(** Two's complement reinterpretation of the low [w] bits. *)
Definition signed (w x : Z) : Z :=
  let m := x mod 2 ^ w in if m <? 2 ^ (w - 1) then m else m - 2 ^ w.

Definition to_int16 (x : Z) : Z := signed 16 x.
Definition to_int32 (x : Z) : Z := signed 32 x.
Definition to_int64 (x : Z) : Z := signed 64 x.

(** ** Ranges *)

Definition is_uint8 (x : Z) : Prop := 0 ≤ x < 2 ^ 8.
Definition is_uint16 (x : Z) : Prop := 0 ≤ x < 2 ^ 16.
Definition is_uint32 (x : Z) : Prop := 0 ≤ x < 2 ^ 32.
Definition is_int16 (x : Z) : Prop := - 2 ^ 15 ≤ x < 2 ^ 15.
Definition is_int32 (x : Z) : Prop := - 2 ^ 31 ≤ x < 2 ^ 31.
Definition is_int64 (x : Z) : Prop := - 2 ^ 63 ≤ x < 2 ^ 63.

#[export] Instance is_uint8_dec x : Decision (is_uint8 x).
Proof. unfold is_uint8. solve_decision. Defined.
#[export] Instance is_uint16_dec x : Decision (is_uint16 x).
Proof. unfold is_uint16. solve_decision. Defined.

Ltac int_unfold :=
  unfold is_uint8, is_uint16, is_uint32, is_int16, is_int32, is_int64,
    to_uint8, to_uint16, to_uint32, to_int16, to_int32, to_int64 in *;
  change (2 ^ 8) with 256 in *; change (2 ^ 15) with 32768 in *;
  change (2 ^ 16) with 65536 in *; change (2 ^ 31) with 2147483648 in *;
  change (2 ^ 32) with 4294967296 in *;
  change (2 ^ 63) with 9223372036854775808 in *;
  change (2 ^ 64) with 18446744073709551616 in *.

Ltac int_solve := int_unfold; lia.

Lemma signed_range w x : 0 < w → - 2 ^ (w - 1) ≤ signed w x < 2 ^ (w - 1).
Proof.
  intros Hw. unfold signed.
  assert (2 ^ w = 2 * 2 ^ (w - 1)) as E.
  { rewrite <- Z.pow_succ_r by lia. f_equal. lia. }
  pose proof (Z.mod_pos_bound x (2 ^ w) ltac:(apply Z.pow_pos_nonneg; lia)).
  destruct (Z.ltb_spec (x mod 2 ^ w) (2 ^ (w - 1))); lia.
Qed.

(** The signed view and the word agree modulo 2^w. *)
Lemma signed_mod w x : 0 < w → (signed w x) mod 2 ^ w = x mod 2 ^ w.
Proof.
  intros Hw. unfold signed.
  pose proof (Z.pow_pos_nonneg 2 w).
  destruct (x mod 2 ^ w <? 2 ^ (w - 1)).
  - apply Z.mod_mod. lia.
  - rewrite Zminus_mod, Z_mod_same_full, Z.sub_0_r, !Z.mod_mod by lia. done.
Qed.

(** Arithmetic may be wrapped early or late. *)
Lemma signed_mul_l w x y : 0 < w → signed w (signed w x * y) = signed w (x * y).
Proof.
  intros Hw. unfold signed at 1 3. by rewrite Zmult_mod, signed_mod, <- Zmult_mod.
Qed.

Lemma signed_small w x : 0 < w → 0 ≤ x < 2 ^ (w - 1) → signed w x = x.
Proof.
  intros Hw Hx. unfold signed.
  assert (2 ^ w = 2 * 2 ^ (w - 1)) as E.
  { rewrite <- Z.pow_succ_r by lia. f_equal. lia. }
  rewrite Z.mod_small by lia. by rewrite (proj2 (Z.ltb_lt _ _)) by lia.
Qed.

(** The word [x] read as [v] is the word [v] is stored as. *)
Lemma signed_iff w x v : 0 < w → 0 ≤ x < 2 ^ w →
  signed w x = v ↔ - 2 ^ (w - 1) ≤ v < 2 ^ (w - 1) ∧ x = v mod 2 ^ w.
Proof.
  intros Hw Hx. assert (2 ^ w = 2 * 2 ^ (w - 1)) as E.
  { rewrite <- Z.pow_succ_r by lia. f_equal. lia. }
  split.
  - intros <-. split; [by apply signed_range|]. by rewrite signed_mod, Z.mod_small.
  - intros [Hv ->]. unfold signed. rewrite Z.mod_mod by lia.
    destruct (Z.lt_ge_cases v 0) as [Hn|Hn].
    + assert (v mod 2 ^ w = v + 2 ^ w) as -> by (symmetry; apply (Z.mod_unique_pos _ _ (-1)); lia).
      destruct (Z.ltb_spec (v + 2 ^ w) (2 ^ (w - 1))); lia.
    + rewrite Z.mod_small by lia. destruct (Z.ltb_spec v (2 ^ (w - 1))); lia.
Qed.

(** ** Bit operations on words *)

(** [raw | mask] and [raw &^ mask] are [Z.lor] and [Z.ldiff]. *)
Lemma testbit_uint16_high x n : is_uint16 x → 16 ≤ n → Z.testbit x n = false.
Proof.
  intros Hx Hn. destruct (Z.eq_dec x 0) as [->|]; [apply Z.testbit_0_l|].
  apply Z.bits_above_log2; [int_solve|].
  assert (Z.log2 x < 16); [|lia]. apply Z.log2_lt_pow2; unfold is_uint16 in *; lia.
Qed.

Lemma uint16_of_bits x :
  0 ≤ x → (∀ n, 16 ≤ n → Z.testbit x n = false) → is_uint16 x.
Proof.
  intros H0 Hb. split; [done|].
  destruct (Z.eq_dec x 0) as [->|]; [done|].
  apply Z.log2_lt_pow2; [lia|]. destruct (Z.lt_ge_cases (Z.log2 x) 16) as [|Hl]; [done|].
  specialize (Hb _ Hl). rewrite Z.bit_log2 in Hb by lia. done.
Qed.

Lemma lor_uint16 x y : is_uint16 x → is_uint16 y → is_uint16 (Z.lor x y).
Proof.
  intros Hx Hy. apply uint16_of_bits.
  - apply Z.lor_nonneg. int_solve.
  - intros n Hn. by rewrite Z.lor_spec, !testbit_uint16_high.
Qed.

Lemma ldiff_uint16 x y : is_uint16 x → is_uint16 (Z.ldiff x y).
Proof.
  intros Hx. apply uint16_of_bits.
  - apply Z.ldiff_nonneg. int_solve.
  - intros n Hn. by rewrite Z.ldiff_spec, testbit_uint16_high.
Qed.

(** [raw & (1 << i) != 0] is the i-th bit. *)
Lemma land_bit_testbit x i : 0 ≤ i → negb (Z.land x (2 ^ i) =? 0) = Z.testbit x i.
Proof.
  intros Hi. destruct (Z.testbit x i) eqn:E.
  - apply negb_true_iff, Z.eqb_neq. intros H0.
    assert (Z.testbit (Z.land x (2 ^ i)) i = false) as Hf by (rewrite H0; apply Z.testbit_0_l).
    rewrite Z.land_spec, E, Z.pow2_bits_true in Hf by lia. done.
  - apply negb_false_iff, Z.eqb_eq. apply Z.bits_inj'. intros n Hn.
    rewrite Z.land_spec, Z.testbit_0_l. destruct (Z.eq_dec n i) as [->|].
    + by rewrite E.
    + rewrite Z.pow2_bits_false by lia. apply andb_false_r.
Qed.

Lemma shiftl_lor_add hi lo w : 0 ≤ w → 0 ≤ lo < 2 ^ w →
  Z.lor (Z.shiftl hi w) lo = hi * 2 ^ w + lo.
Proof.
  intros Hw Hlo. rewrite <- Z.shiftl_mul_pow2 by lia.
  assert (Z.land (Z.shiftl hi w) lo = 0) as Hl.
  { apply Z.bits_inj'. intros n Hn. rewrite Z.land_spec, Z.testbit_0_l.
    destruct (Z.lt_ge_cases n w).
    - by rewrite Z.shiftl_spec_low.
    - destruct (Z.eq_dec lo 0) as [->|]; [by rewrite Z.testbit_0_l, andb_false_r|].
      rewrite (Z.bits_above_log2 lo); [apply andb_false_r|lia|].
      assert (Z.log2 lo < w); [|lia]. apply Z.log2_lt_pow2; lia. }
  rewrite Z.add_nocarry_lxor by done. symmetry. by apply Z.lxor_lor.
Qed.

#[export] Hint Resolve lor_uint16 ldiff_uint16 : word.
