(* ===== verification/GoString.v ===== *)
(** * Strings, fmt and strconv of Go's standard library

    A Go string is its bytes, so a [string] of [ascii] bytes.  This file models
    what the program uses of [strings], [fmt] and [strconv]. *)

From Stdlib Require Import Ascii.
From S2P Require Import Prelude.

(** ** Bytes and slices *)

Definition byte_of (n : Z) : ascii := ascii_of_N (Z.to_N n).
Definition code (c : ascii) : Z := Z.of_N (N_of_ascii c).

(** The string with the given byte values. *)
Definition bytes (l : list Z) : string := foldr (λ n, String (byte_of n)) "" l.

(** [len(s)], [s[i]], [s[:n]] and [s[n:]]. *)
Definition len (s : string) : Z := Z.of_nat (String.length s).

Fixpoint char_at (s : string) (i : nat) : option ascii :=
  match s, i with
  | EmptyString, _ => None
  | String c _, O => Some c
  | String _ s', S i' => char_at s' i'
  end.

Fixpoint str_take (n : nat) (s : string) : string :=
  match n, s with
  | S n', String c s' => String c (str_take n' s')
  | _, _ => ""
  end.

Fixpoint str_drop (n : nat) (s : string) : string :=
  match n, s with
  | S n', String _ s' => str_drop n' s'
  | _, _ => s
  end.

(** ** strings *)

(** [strings.Split(s, sep)] for a one-byte separator. *)
Fixpoint Split (s : string) (sep : ascii) : list string :=
  match s with
  | EmptyString => [""]
  | String c s' =>
      let rest := Split s' sep in
      if decide (c = sep) then "" :: rest
      else match rest with
           | [] => [String c ""]
           | w :: ws => String c w :: ws
           end
  end.

(** [strings.Cut(s, sep)] for a one-byte separator: [None] when not found. *)
Fixpoint Cut (s : string) (sep : ascii) : option (string * string) :=
  match s with
  | EmptyString => None
  | String c s' =>
      if decide (c = sep) then Some ("", s')
      else match Cut s' sep with
           | Some (before, after) => Some (String c before, after)
           | None => None
           end
  end.

(** [strings.Join(l, sep)]. *)
Fixpoint Join (l : list string) (sep : string) : string :=
  match l with
  | [] => ""
  | [w] => w
  | w :: ws => w +:+ sep +:+ Join ws sep
  end.

Fixpoint strip_prefix (p s : string) : option string :=
  match p, s with
  | EmptyString, _ => Some s
  | String a p', String b s' => if decide (a = b) then strip_prefix p' s' else None
  | String _ _, EmptyString => None
  end.

(** UTF-8 encodings of the runes [unicode.IsSpace] accepts. *)
Definition space_runes : list string :=
  map (λ n, bytes [n]) [9; 10; 11; 12; 13; 32]
  ++ [bytes [194; 133]; bytes [194; 160]; bytes [225; 154; 128]]
  ++ map (λ n, bytes [226; 128; n])
       [128; 129; 130; 131; 132; 133; 134; 135; 136; 137; 138; 168; 169; 175]
  ++ [bytes [226; 129; 159]; bytes [227; 128; 128]].

Fixpoint strip_any (ps : list string) (s : string) : option string :=
  match ps with
  | [] => None
  | p :: ps' => match strip_prefix p s with Some s' => Some s' | None => strip_any ps' s end
  end.

(** Every stripped rune is at least one byte, so [length s] rounds suffice. *)
Fixpoint trim_left (fuel : nat) (runes : list string) (s : string) : string :=
  match fuel with
  | O => s
  | S fuel' =>
      match strip_any runes s with
      | Some s' => trim_left fuel' runes s'
      | None => s
      end
  end.

(** [strings.TrimSpace(s)]. *)
Definition TrimSpace (s : string) : string :=
  let l := trim_left (String.length s) space_runes s in
  String.rev (trim_left (String.length l) (map String.rev space_runes) (String.rev l)).

Definition upper_byte (c : ascii) : ascii :=
  if (97 <=? code c) && (code c <=? 122) then byte_of (code c - 32) else c.

Definition lower_byte (c : ascii) : ascii :=
  if (65 <=? code c) && (code c <=? 90) then byte_of (code c + 32) else c.

(** [strings.ToUpper(s)], as far as a comparison of the result with an ASCII
    literal sees it: the only non-ASCII runes whose upper case is ASCII are
    U+0131 (dotless i) and U+017F (long s); every other non-ASCII byte is left
    in place, where Go puts some other non-ASCII rune. *)
Fixpoint ToUpper (s : string) : string :=
  match s with
  | EmptyString => ""
  | String c s' =>
      match s' with
      | String d s'' =>
          if (code c =? 196) && (code d =? 177) then String "I" (ToUpper s'')
          else if (code c =? 197) && (code d =? 191) then String "S" (ToUpper s'')
          else String (upper_byte c) (ToUpper s')
      | EmptyString => String (upper_byte c) ""
      end
  end.

(** ** fmt *)

Definition digit_char (d : Z) : ascii := byte_of (48 + d).

(** ["%02d"] of a non-negative number. *)
Definition fmt_02d (n : Z) : string :=
  if n <? 10 then "0" +:+ pretty n else pretty n.

Definition hex_char (d : Z) : ascii := if d <? 10 then byte_of (48 + d) else byte_of (55 + d).

(** ["%04X"] of a uint16. *)
Definition fmt_04X (n : Z) : string :=
  String (hex_char (n / 4096 mod 16)) (String (hex_char (n / 256 mod 16))
    (String (hex_char (n / 16 mod 16)) (String (hex_char (n mod 16)) ""))).

(** ["%q"] is only used inside error texts; the model prints the raw bytes
    between quotes. *)
Definition quote : string := bytes [34].
Definition fmt_q (s : string) : string := quote +:+ s +:+ quote.

(** ** strconv.ParseUint(s, 10, bitSize) *)

Definition ErrSyntax : error := Sentinel "invalid syntax".
Definition ErrRange : error := Sentinel "value out of range".

Definition digit_val (c : ascii) : option Z :=
  if (48 <=? code c) && (code c <=? 57) then Some (code c - 48) else None.

Fixpoint parse_uint_loop (max acc : Z) (s : string) : result Z :=
  match s with
  | EmptyString => Ok acc
  | String c s' =>
      match digit_val c with
      | None => Err ErrSyntax
      | Some d =>
          if max <? acc * 10 + d then Err ErrRange
          else parse_uint_loop max (acc * 10 + d) s'
      end
  end.

Definition ParseUint (s : string) (bitSize : Z) : result Z :=
  wrap_err ("strconv.ParseUint: parsing " +:+ fmt_q s)
    (match s with
     | EmptyString => Err ErrSyntax
     | _ => parse_uint_loop (2 ^ bitSize - 1) 0 s
     end).

Lemma str_app_cons c s t : String c s +:+ t = String c (s +:+ t).
Proof. reflexivity. Qed.
Lemma str_app_nil t : "" +:+ t = t.
Proof. reflexivity. Qed.

Lemma str_app_assoc (s t u : string) : (s +:+ t) +:+ u = s +:+ t +:+ u.
Proof. induction s as [|c s IH]; [done|]. by rewrite !str_app_cons, IH. Qed.

(** ** Lemmas on digits *)

Lemma byte_of_code c : byte_of (code c) = c.
Proof. unfold byte_of, code. rewrite N2Z.id. apply ascii_N_embedding. Qed.

Lemma digit_val_char d : 0 ≤ d < 10 → digit_val (digit_char d) = Some d.
Proof.
  intros Hd. assert (d ∈ seqZ 0 10) as Hin by (apply elem_of_seqZ; lia).
  clear Hd. revert d Hin. apply Forall_forall. repeat (constructor; [reflexivity|]). constructor.
Qed.

Lemma digit_val_Some c d : digit_val c = Some d ↔ 0 ≤ d < 10 ∧ c = digit_char d.
Proof.
  unfold digit_val, digit_char. split.
  - destruct (andb _ _) eqn:E; [|done]. bool_arith. intros [= <-]. split; [lia|].
    rewrite <- (byte_of_code c) at 1. f_equal. lia.
  - intros [Hd ->]. by apply digit_val_char.
Qed.

(** "%02d" of a two-digit number. *)
Lemma fmt_02d_two n : 0 ≤ n < 100 →
  fmt_02d n = String (digit_char (n / 10)) (String (digit_char (n mod 10)) "").
Proof.
  intros Hn. assert (n ∈ seqZ 0 100) as Hin by (apply elem_of_seqZ; lia).
  clear Hn. revert n Hin. apply Forall_forall. repeat (constructor; [reflexivity|]). constructor.
Qed.

Lemma ParseUint_two a b n :
  ParseUint (String a (String b "")) 8 = Ok n ↔
  0 ≤ n < 100 ∧ a = digit_char (n / 10) ∧ b = digit_char (n mod 10).
Proof.
  unfold ParseUint. rewrite wrap_err_Ok. cbn [parse_uint_loop].
  change (2 ^ 8 - 1) with 255. split.
  - destruct (digit_val a) as [d1|] eqn:Ea; [|done].
    apply digit_val_Some in Ea as [H1 ->]. rewrite (proj2 (Z.ltb_ge _ _)) by lia.
    destruct (digit_val b) as [d2|] eqn:Eb; [|done].
    apply digit_val_Some in Eb as [H2 ->]. rewrite (proj2 (Z.ltb_ge _ _)) by lia.
    intros [= <-]. split; [lia|]. split; f_equal; Z.div_mod_to_equations; lia.
  - intros (Hn & -> & ->).
    assert (0 ≤ n / 10 < 10 ∧ 0 ≤ n mod 10 < 10 ∧ n / 10 * 10 + n mod 10 = n) as (H1 & H2 & H3)
      by (Z.div_mod_to_equations; lia).
    rewrite !digit_val_char by done.
    rewrite !(proj2 (Z.ltb_ge _ _)) by lia. f_equal. lia.
Qed.

(** ** Lemmas on Split *)

Fixpoint has_char (c : ascii) (s : string) : bool :=
  match s with
  | EmptyString => false
  | String d s' => bool_decide (d = c) || has_char c s'
  end.

Lemma Split_nonempty s sep : ∃ w ws, Split s sep = w :: ws.
Proof.
  induction s as [|c s (w & ws & IH)]; cbn; [by eexists _, _|]. rewrite IH.
  case_decide; by eexists _, _.
Qed.

Lemma Split_none s sep : has_char sep s = false → Split s sep = [s].
Proof.
  induction s as [|c s IH]; cbn; [done|]. intros [Hc Hs]%orb_false_iff.
  apply bool_decide_eq_false in Hc. by rewrite decide_False, IH by done.
Qed.

Lemma Split_app a b sep : Split (a +:+ String sep b) sep = Split a sep ++ Split b sep.
Proof.
  induction a as [|c a IH].
  - rewrite str_app_nil. cbn. by rewrite decide_True by done.
  - rewrite str_app_cons. cbn. rewrite IH. case_decide; [done|].
    destruct (Split_nonempty a sep) as (w & ws & ->). done.
Qed.

(** The parts hold no separator, and joining them gives the string back. *)
Lemma Split_parts s sep : Forall (λ w, has_char sep w = false) (Split s sep).
Proof.
  induction s as [|c s IH]; cbn; [by repeat constructor|].
  destruct (Split_nonempty s sep) as (w & ws & E). rewrite E in *.
  apply Forall_cons in IH as [Hw Hws]. case_decide as Hc.
  - repeat constructor; done.
  - constructor; [|done]. cbn. rewrite Hw. by rewrite bool_decide_eq_false_2.
Qed.

Lemma Join_cons w ws sep : ws ≠ [] → Join (w :: ws) sep = w +:+ sep +:+ Join ws sep.
Proof. by destruct ws. Qed.

Lemma Split_Join s sep : Join (Split s sep) (String sep "") = s.
Proof.
  induction s as [|c s IH]; cbn [Split]; [done|].
  destruct (Split_nonempty s sep) as (w & ws & E). case_decide as Hc.
  - subst c. rewrite Join_cons by (by rewrite E). by rewrite IH.
  - rewrite E in IH |- *. destruct ws as [|w' ws].
    + cbn in IH |- *. by rewrite IH.
    + rewrite Join_cons in IH |- * by done. rewrite str_app_cons. by rewrite IH.
Qed.

Lemma Join_snoc ws w sep : ws ≠ [] → Join (ws ++ [w]) sep = Join ws sep +:+ sep +:+ w.
Proof.
  induction ws as [|v ws IH]; [done|]. intros _. destruct ws as [|v' ws]; [done|].
  change ((v :: v' :: ws) ++ [w]) with (v :: ((v' :: ws) ++ [w])).
  rewrite Join_cons by done. rewrite IH by done. rewrite (Join_cons v) by done.
  by rewrite !str_app_assoc.
Qed.

(** A separator-free prefix is determined by the whole. *)
Lemma app_sep_inj (c : ascii) (a b s t : string) : has_char c a = false → has_char c b = false →
  a +:+ String c s = b +:+ String c t → a = b ∧ s = t.
Proof.
  revert b. induction a as [|x a IH]; intros [|y b]; rewrite ?str_app_nil, ?str_app_cons; cbn.
  - by intros _ _ [= ->].
  - intros _ Hb [= <- _]. by rewrite bool_decide_eq_true_2 in Hb by done.
  - intros Ha _ [= -> _]. by rewrite bool_decide_eq_true_2 in Ha by done.
  - intros [_ Ha]%orb_false_iff [_ Hb]%orb_false_iff [= -> E].
    destruct (IH b Ha Hb E) as [-> ->]. done.
Qed.
