(* ===== verification/GoTime.v ===== *)
(** * time.Time of Go's standard library

    An instant is its nanoseconds since 1970-01-01T00:00:00Z together with the
    location its clock fields are read in.  The program uses two locations,
    [time.UTC] (of the zero time) and [time.Local]; the zone table behind
    [time.Local] belongs to the host, so it is the parameter [TimeZone]. *)

From S2P Require Import Prelude GoInt.

(** ** Calendar: days since 1970-01-01 and proleptic Gregorian dates *)

Definition is_leap (y : Z) : bool :=
  (y mod 4 =? 0) && (negb (y mod 100 =? 0) || (y mod 400 =? 0)).

Definition days_in_month (y m : Z) : Z :=
  if m =? 2 then (if is_leap y then 29 else 28)
  else if (m =? 4) || (m =? 6) || (m =? 9) || (m =? 11) then 30 else 31.

(** Years are counted from March, so that the leap day is the last of a year. *)
Definition days_of (y m d : Z) : Z :=
  let y' := if m <=? 2 then y - 1 else y in
  let mp := if m <=? 2 then m + 9 else m - 3 in
  365 * y' + y' / 4 - y' / 100 + y' / 400 + (153 * mp + 2) / 5 + (d - 1) - 719468.

Definition civil (days : Z) : Z * Z * Z :=
  let z := days + 719468 in
  let a := z / 146097 in let r := z mod 146097 in
  let b := Z.min (r / 36524) 3 in let r := r - 36524 * b in
  let c := r / 1461 in let r := r - 1461 * c in
  let e := Z.min (r / 365) 3 in let doy := r - 365 * e in
  let mp := (5 * doy + 2) / 153 in
  let d := doy - (153 * mp + 2) / 5 + 1 in
  let m := if mp <? 10 then mp + 3 else mp - 9 in
  let y := 400 * a + 100 * b + 4 * c + e in
  ((if m <=? 2 then y + 1 else y), m, d).

Definition valid_date (y m d : Z) : Prop := 1 ≤ m ≤ 12 ∧ 1 ≤ d ≤ days_in_month y m.

(** Decomposition of a March-based year into its 400/100/4/1-year cycles. *)
Lemma cycles y :
  ∃ a b c e, y = 400 * a + 100 * b + 4 * c + e ∧ 0 ≤ b ≤ 3 ∧ 0 ≤ c ≤ 24 ∧ 0 ≤ e ≤ 3 ∧
    365 * y + y / 4 - y / 100 + y / 400 = 146097 * a + 36524 * b + 1461 * c + 365 * e.
Proof.
  exists (y / 400), (y mod 400 / 100), (y mod 100 / 4), (y mod 4).
  split_and!; Z.div_mod_to_equations; lia.
Qed.

Lemma civil_cycles a b c e doy :
  0 ≤ b ≤ 3 → 0 ≤ c ≤ 24 → 0 ≤ e ≤ 3 → 0 ≤ doy ≤ 365 →
  (doy = 365 → e = 3 ∧ (c = 24 → b = 3)) →
  let mp := (5 * doy + 2) / 153 in
  let m := if mp <? 10 then mp + 3 else mp - 9 in
  let y := 400 * a + 100 * b + 4 * c + e in
  civil (146097 * a + 36524 * b + 1461 * c + 365 * e + doy - 719468)
    = ((if m <=? 2 then y + 1 else y), m, doy - (153 * mp + 2) / 5 + 1).
Proof.
  intros Hb Hc He Hd Hl. unfold civil.
  replace (_ - 719468 + 719468) with (146097 * a + (36524 * b + 1461 * c + 365 * e + doy)) by lia.
  set (r := 36524 * b + 1461 * c + 365 * e + doy).
  assert (0 ≤ r < 146097) as Hr by lia.
  assert ((146097 * a + r) / 146097 = a) as -> by (Z.div_mod_to_equations; lia).
  assert ((146097 * a + r) mod 146097 = r) as -> by (Z.div_mod_to_equations; lia).
  assert (Z.min (r / 36524) 3 = b) as -> by (Z.div_mod_to_equations; lia).
  replace (r - 36524 * b) with (1461 * c + 365 * e + doy) by lia.
  assert ((1461 * c + 365 * e + doy) / 1461 = c) as -> by (Z.div_mod_to_equations; lia).
  replace (1461 * c + 365 * e + doy - 1461 * c) with (365 * e + doy) by lia.
  assert (Z.min ((365 * e + doy) / 365) 3 = e) as -> by (Z.div_mod_to_equations; lia).
  by replace (365 * e + doy - 365 * e) with doy by lia.
Qed.

Lemma civil_days_of y m d : valid_date y m d → civil (days_of y m d) = (y, m, d).
Proof.
  intros [Hm Hd]. unfold days_of.
  set (y' := if m <=? 2 then y - 1 else y).
  set (mp := if m <=? 2 then m + 9 else m - 3).
  assert (0 ≤ mp ≤ 11) as Hmp by (subst mp; destruct (Z.leb_spec m 2); lia).
  destruct (cycles y') as (a & b & c & e & Hy & Hb & Hc & He & Hs).
  set (doy := (153 * mp + 2) / 5 + (d - 1)).
  assert (Hdoy : 0 ≤ doy ≤ 365 ∧ (doy = 365 → e = 3 ∧ (c = 24 → b = 3))
    ∧ (5 * doy + 2) / 153 = mp).
  { unfold days_in_month, is_leap in Hd.
    assert (m = 1 ∨ m = 2 ∨ m = 3 ∨ m = 4 ∨ m = 5 ∨ m = 6 ∨ m = 7 ∨ m = 8 ∨ m = 9 ∨
      m = 10 ∨ m = 11 ∨ m = 12) as Hm' by lia.
    destruct Hm' as [->|[->|[->|[->|[->|[->|[->|[->|[->|[->|[->| ->]]]]]]]]]]];
      cbn in mp, y'; subst mp y' doy; cbn in Hd |- *;
      try match type of Hd with context [y mod 4] =>
        destruct (Z.eqb_spec (y mod 4) 0), (Z.eqb_spec (y mod 100) 0),
          (Z.eqb_spec (y mod 400) 0); cbn in Hd
      end;
      split_and!; intros; clear Hs; try lia; Z.div_mod_to_equations; lia. }
  destruct Hdoy as (Hd1 & Hd2 & Hd3).
  replace (_ - 719468) with (146097 * a + 36524 * b + 1461 * c + 365 * e + doy - 719468)
    by (subst doy; lia).
  rewrite civil_cycles by (lia || tauto). rewrite Hd3.
  assert ((if mp <? 10 then mp + 3 else mp - 9) = m) as ->.
  { subst mp. destruct (Z.leb_spec m 2).
    - destruct (Z.ltb_spec (m + 9) 10); lia.
    - destruct (Z.ltb_spec (m - 3) 10); lia. }
  rewrite <- Hy. subst y' doy. destruct (m <=? 2); f_equal; try f_equal; lia.
Qed.

(** Every day has a date: the fields [civil] computes are valid and denote it. *)
Lemma day_decompose r : 0 ≤ r < 146097 →
  ∃ b c e doy, r = 36524 * b + 1461 * c + 365 * e + doy ∧ 0 ≤ b ≤ 3 ∧ 0 ≤ c ≤ 24 ∧ 0 ≤ e ≤ 3 ∧
    0 ≤ doy ≤ 365 ∧ (doy = 365 → e = 3 ∧ (c = 24 → b = 3)).
Proof.
  intros Hr. set (b := Z.min (r / 36524) 3). set (r1 := r - 36524 * b).
  set (c := r1 / 1461). set (r2 := r1 - 1461 * c). set (e := Z.min (r2 / 365) 3).
  exists b, c, e, (r2 - 365 * e).
  assert (0 ≤ b ≤ 3 ∧ 0 ≤ r1 ≤ 36524 ∧ (r1 = 36524 → b = 3)) as (? & ? & ?).
  { subst r1 b. Z.div_mod_to_equations. lia. }
  assert (0 ≤ c ≤ 24 ∧ 0 ≤ r2 ≤ 1460 ∧ (c = 24 → r2 = 1460 → b = 3)) as (? & ? & ?).
  { subst r2 c. Z.div_mod_to_equations. lia. }
  assert (0 ≤ e ≤ 3 ∧ 0 ≤ r2 - 365 * e ≤ 365 ∧ (r2 - 365 * e = 365 → e = 3 ∧ r2 = 1460)) as (? & ? & ?).
  { subst e. Z.div_mod_to_equations. lia. }
  split_and!; try lia; subst r2 r1; lia.
Qed.

Lemma is_leap_false y : is_leap y = false ↔ y mod 4 ≠ 0 ∨ (y mod 100 = 0 ∧ y mod 400 ≠ 0).
Proof.
  unfold is_leap.
  destruct (Z.eqb_spec (y mod 4) 0), (Z.eqb_spec (y mod 100) 0), (Z.eqb_spec (y mod 400) 0);
    cbn; intuition lia.
Qed.

(** Evaluates the closed subterms of the calendar formulas. *)
Ltac eval_closed :=
  repeat match goal with
  | |- context [?a <=? 2] => let v := eval vm_compute in (a <=? 2) in change (a <=? 2) with v; cbv iota
  | |- context [Zpos ?a =? ?b] =>
      let v := eval vm_compute in (Zpos a =? b) in change (Zpos a =? b) with v; cbv iota
  | |- context [(153 * ?k + 2) / 5] =>
      let v := eval vm_compute in ((153 * k + 2) / 5) in change ((153 * k + 2) / 5) with v
  | H : context [(153 * ?k + 2) / 5] |- _ =>
      let v := eval vm_compute in ((153 * k + 2) / 5) in change ((153 * k + 2) / 5) with v in H
  end.

Lemma date_exists n : ∃ y m d, valid_date y m d ∧ days_of y m d = n.
Proof.
  pose proof (Z.div_mod (n + 719468) 146097 ltac:(lia)) as Hn.
  set (a := (n + 719468) / 146097) in *.
  destruct (day_decompose ((n + 719468) mod 146097)) as (b & c & e & doy & Hr & Hb & Hc & He & Hd & Hl).
  { apply Z.mod_pos_bound. lia. }
  rewrite Hr in Hn. clear Hr.
  destruct (exist (λ y, y = _) (400 * a + 100 * b + 4 * c + e) eq_refl) as [y' Hy].
  assert (y' / 4 = 100 * a + 25 * b + c ∧ y' / 100 = 4 * a + b ∧ y' / 400 = a) as (E4 & E100 & E400).
  { clear Hn. Z.div_mod_to_equations. lia. }
  set (mp := (5 * doy + 2) / 153).
  assert (Hmp : 0 ≤ mp ≤ 11 ∧ (153 * mp + 2) / 5 ≤ doy < (153 * (mp + 1) + 2) / 5).
  { subst mp. Z.div_mod_to_equations. lia. }
  set (m := if mp <? 10 then mp + 3 else mp - 9).
  exists (if m <=? 2 then y' + 1 else y'), m, (doy - (153 * mp + 2) / 5 + 1).
  assert (Hm : mp = 0 ∨ mp = 1 ∨ mp = 2 ∨ mp = 3 ∨ mp = 4 ∨ mp = 5 ∨ mp = 6 ∨ mp = 7 ∨ mp = 8 ∨
    mp = 9 ∨ mp = 10 ∨ mp = 11) by lia.
  destruct Hmp as [_ Hmp]. clearbody mp.
  repeat (destruct Hm as [->|Hm]); [..|subst mp];
    (let v := eval vm_compute in m in change m with v; clear m);
    unfold valid_date, days_of, days_in_month; eval_closed; cbn [orb];
    replace (y' + 1 - 1) with y' by lia; rewrite ?E4, ?E100, ?E400; (split; [|lia]); try lia.
  destruct (is_leap (y' + 1)) eqn:El; [lia|].
  apply is_leap_false in El. split; [lia|].
  assert (doy ≠ 365); [|lia]. intros Hdoy. destruct (Hl Hdoy) as [-> Hc24].
  clear Hn. Z.div_mod_to_equations. lia.
Qed.

(** ** Locations and instants *)

Inductive Location : Type := UTC | Local.

#[export] Instance Location_eq_dec : EqDecision Location.
Proof. solve_decision. Defined.

(** The host's zone table: [lookup sec] is the offset (seconds east of UTC) in
    effect at the UTC second [sec] and the half-open interval of UTC seconds it
    covers, as Go's [Location.lookup] returns them. *)
Class TimeZone : Type := tz_lookup : Z → Z * Z * Z.

Record Time : Type := { unixNano : Z; location : Location }.

#[export] Instance Time_eq_dec : EqDecision Time.
Proof. solve_decision. Defined.

(** [time.Duration]: an int64 count of nanoseconds. *)
Definition Millisecond : Z := 1000000.
Definition Second : Z := 1000 * Millisecond.
Definition Minute_ : Z := 60 * Second.

Definition unix (t : Time) : Z := unixNano t / Second.

(** [time.Time{}]: year 1, January 1, 00:00:00 UTC. *)
Definition zeroTime : Time := {| unixNano := -62135596800 * Second; location := UTC |}.
Definition IsZeroTime (t : Time) : bool := unixNano t =? unixNano zeroTime.

Section Zone.
Context `{tz : TimeZone}.

Definition lookup_zone (loc : Location) (sec : Z) : Z * Z * Z :=
  match loc with UTC => (0, - 2 ^ 63, 2 ^ 63 - 1) | Local => tz_lookup sec end.

Definition offset_at (loc : Location) (sec : Z) : Z := (lookup_zone loc sec).1.1.

(** Seconds of the wall clock [t] shows, counted as if it were UTC. *)
Definition wall (t : Time) : Z := unix t + offset_at (location t) (unix t).

Definition Year (t : Time) : Z := (civil (wall t / 86400)).1.1.
Definition Month (t : Time) : Z := (civil (wall t / 86400)).1.2.
Definition Day (t : Time) : Z := (civil (wall t / 86400)).2.
Definition Hour (t : Time) : Z := wall t mod 86400 / 3600.
Definition Minute (t : Time) : Z := wall t mod 3600 / 60.
Definition Sec (t : Time) : Z := wall t mod 60.

(** [time.Date]: months overflow into years, smaller fields into days; the zone
    offset is looked up at the wall time first and, if the instant that gives
    lies in another zone interval, looked up again there. *)
Definition Date (year month day hour min sec nsec : Z) (loc : Location) : Time :=
  let y := year + (month - 1) / 12 in
  let m := (month - 1) mod 12 + 1 in
  let u := days_of y m day * 86400 + hour * 3600 + min * 60 + sec + nsec / Second in
  let '(off, start, stop) := lookup_zone loc u in
  let off' :=
    if off =? 0 then 0
    else
      let utc := u - off in
      if (utc <? start) || (stop <=? utc) then offset_at loc utc else off in
  {| unixNano := (u - off') * Second + nsec mod Second; location := loc |}.

(** [appendInt(x, w)] for a number: at least [w] digits, zero-padded. *)
Definition pad_int (w : nat) (n : Z) : string :=
  let digits := pretty (Z.abs n) in
  let zeros := String.concat "" (replicate (w - String.length digits) "0") in
  (if n <? 0 then "-" else "") +:+ zeros +:+ digits.

(** [t.Format(time.RFC3339)]: "2006-01-02T15:04:05Z07:00". *)
Definition FormatRFC3339 (t : Time) : string :=
  let offset := offset_at (location t) (unix t) in
  let zone := Z.quot offset 60 in
  pad_int 4 (Year t) +:+ "-" +:+ pad_int 2 (Month t) +:+ "-" +:+ pad_int 2 (Day t) +:+ "T"
  +:+ pad_int 2 (Hour t) +:+ ":" +:+ pad_int 2 (Minute t) +:+ ":" +:+ pad_int 2 (Sec t)
  +:+ (if offset =? 0 then "Z"
       else (if zone <? 0 then "-" else "+") +:+ pad_int 2 (Z.abs zone / 60) +:+ ":"
            +:+ pad_int 2 (Z.abs zone mod 60)).

End Zone.

(** The clock the program is given ([WithNow], [time.Now] by default). *)
Class Clock_ (W : Type) : Type := Now : W → Time.

Definition minDuration : Z := - 2 ^ 63.
Definition maxDuration : Z := 2 ^ 63 - 1.

(** [t.Sub(u)]: saturates at the ends of int64. *)
Definition Sub (t u : Time) : Z :=
  Z.max minDuration (Z.min maxDuration (unixNano t - unixNano u)).

(** ** Laws of a zone table

    Each lookup returns an interval that contains the queried second and on
    which the offset is constant, offsets are within a day, and no three
    different offsets occur within three days. *)
Class TimeZoneLaws (tz : TimeZone) : Prop := {
  tz_interval s off a b : tz_lookup s = (off, a, b) →
    a ≤ s < b ∧ ∀ s', a ≤ s' < b → (tz_lookup s').1.1 = off;
  tz_bound s : - 86400 ≤ (tz_lookup s).1.1 ≤ 86400;
  tz_two s s' s'' : Z.abs (s - s') ≤ 259200 → Z.abs (s - s'') ≤ 259200 →
    (tz_lookup s').1.1 = (tz_lookup s).1.1 ∨ (tz_lookup s'').1.1 = (tz_lookup s).1.1 ∨
    (tz_lookup s').1.1 = (tz_lookup s'').1.1;
}.

(** ** Lemmas *)

Lemma Sub_range t u : is_int64 (Sub t u).
Proof. unfold Sub, minDuration, maxDuration. int_solve. Qed.

Lemma Sub_exact t u : is_int64 (unixNano t - unixNano u) → Sub t u = unixNano t - unixNano u.
Proof. unfold Sub, minDuration, maxDuration. int_unfold. lia. Qed.

Section ZoneLemmas.
Context `{tz : TimeZone}.

Lemma Hour_range t : 0 ≤ Hour t < 24.
Proof. unfold Hour. Z.div_mod_to_equations. lia. Qed.
Lemma Minute_range t : 0 ≤ Minute t < 60.
Proof. unfold Minute. Z.div_mod_to_equations. lia. Qed.
Lemma Sec_range t : 0 ≤ Sec t < 60.
Proof. unfold Sec. Z.div_mod_to_equations. lia. Qed.

(** The fields of a wall clock that shows a given valid date and time. *)
Lemma wall_fields t y m d h mi s :
  valid_date y m d → 0 ≤ h < 24 → 0 ≤ mi < 60 → 0 ≤ s < 60 →
  wall t = days_of y m d * 86400 + h * 3600 + mi * 60 + s →
  (Year t, Month t, Day t, Hour t, Minute t, Sec t) = (y, m, d, h, mi, s).
Proof.
  intros Hv Hh Hmi Hs Hw. unfold Year, Month, Day, Hour, Minute, Sec.
  assert (wall t / 86400 = days_of y m d) as -> by (Z.div_mod_to_equations; lia).
  rewrite civil_days_of by done. cbn. rewrite Hw. generalize (days_of y m d). intros n.
  repeat f_equal; Z.div_mod_to_equations; lia.
Qed.

(** A wall time that some instant shows is the one [Date] finds. *)
Lemma Date_wall (L : TimeZoneLaws tz) y m d h mi s :
  valid_date y m d →
  let w := days_of y m d * 86400 + h * 3600 + mi * 60 + s in
  (∃ u, u + offset_at Local u = w) →
  wall (Date y m d h mi s 0 Local) = w.
Proof.
  intros [Hm _] w [u Hu]. unfold Date.
  replace ((m - 1) / 12) with 0 by (Z.div_mod_to_equations; lia).
  replace ((m - 1) mod 12 + 1) with m by (Z.div_mod_to_equations; lia).
  replace (y + 0) with y by lia. change (0 / Second) with 0. change (0 mod Second) with 0.
  replace (_ + s + 0) with w by (subst w; lia).
  unfold offset_at, lookup_zone in Hu. cbn [lookup_zone].
  destruct (tz_lookup w) as [[off a] b] eqn:Ew.
  destruct (tz_interval _ _ _ _ Ew) as [Hin Hconst].
  assert (∀ v, unix {| unixNano := v * Second + 0; location := Local |} = v) as Hunix.
  { intros v. unfold unix; cbn. rewrite Z.add_0_r. by apply Z.div_mul. }
  assert (Hres : ∀ v, v + (tz_lookup v).1.1 = w →
    wall {| unixNano := v * Second + 0; location := Local |} = w).
  { intros v Hv. unfold wall. rewrite Hunix. exact Hv. }
  pose proof (tz_bound w) as Bw. pose proof (tz_bound u) as Bu. rewrite Ew in Bw; cbn in Bw.
  apply Hres. destruct (Z.eqb_spec off 0) as [->|Hoff].
  { rewrite Z.sub_0_r, Ew. cbn. lia. }
  destruct (orb _ _) eqn:Er.
  2: { bool_arith. rewrite (Hconst (w - off)) by lia. lia. }
  change (offset_at Local (w - off)) with (tz_lookup (w - off)).1.1.
  destruct (tz_two w (w - off) u ltac:(lia) ltac:(lia)) as [E|[E|E]];
    rewrite ?Ew in E; cbn in E.
  - rewrite E, E. lia.
  - assert (u = w - off) as -> by lia. rewrite E, E. lia.
  - rewrite E. replace (w - (tz_lookup u).1.1) with u by lia. lia.
Qed.
End ZoneLemmas.

(** ** Contexts (context)

    A context as it is handed from call to call: which one it is, and the timeouts put on
    it.  When one ends is the outside's to say. *)
Inductive Ctx : Type :=
| Background
| RunContext            (* the cancellable context of [runServe] *)
| HookContext           (* the context of the MQTT client's reconnect hooks *)
| TimeoutContext (parent : Ctx) (d : Z).

(** ** A zone with a daylight-saving transition, for examples

    Offset 0 before 2026-03-29T01:00:00Z, one hour from then on. *)
Definition spring_2026 : Z := 1774746000.

Definition dst_zone : TimeZone := λ s,
  if s <? spring_2026 then (0, Z.min (- 2 ^ 63) s, spring_2026)
  else (3600, spring_2026, Z.max (2 ^ 63) (s + 1)).

#[export] Instance dst_zone_laws : TimeZoneLaws dst_zone.
Proof.
  assert (∀ s, (dst_zone s).1.1 = if s <? spring_2026 then 0 else 3600) as Hoff.
  { intros s. unfold dst_zone. by destruct (s <? spring_2026). }
  split; unfold tz_lookup.
  - intros s off a b. unfold dst_zone at 1.
    destruct (Z.ltb_spec s spring_2026); intros [= <- <- <-]; (split; [lia|]);
      intros s' Hs'; rewrite Hoff; destruct (Z.ltb_spec s' spring_2026); lia.
  - intros s. rewrite Hoff. destruct (s <? spring_2026); lia.
  - intros s s' s'' _ _. rewrite !Hoff.
    destruct (s <? spring_2026), (s' <? spring_2026), (s'' <? spring_2026); lia.
Qed.
