(* ===== verification/GoFloat.v ===== *)
(** * float64 of Go

    IEEE 754 binary64 as the standard library's executable specification
    ([SpecFloat], precision 53, maximal exponent 1024), with the operations the
    program uses: conversions, [*], [/], [-], [math.Abs], [math.Round], the
    [min]/[max] built-ins, and [strconv.ParseFloat]. *)

From Stdlib Require Import Ascii.
From Stdlib Require Export SpecFloat.
From S2P Require Import Prelude GoInt GoString.

Abbreviation float64 := spec_float.
Definition prec : Z := 53.
Definition emax : Z := 1024.

#[export] Instance float64_eq_dec : EqDecision float64.
Proof. solve_decision. Defined.

(** ** Operations *)

(** [float64(n)] of an integer. *)
Definition of_int (n : Z) : float64 := binary_normalize prec emax n 0 false.

Definition fmul : float64 → float64 → float64 := SFmul prec emax.
Definition fdiv : float64 → float64 → float64 := SFdiv prec emax.
Definition fadd : float64 → float64 → float64 := SFadd prec emax.
Definition fneg : float64 → float64 := SFopp.
Definition Abs : float64 → float64 := SFabs.

(** [x == 0] *)
Definition is_zero (x : float64) : bool := SFeqb x (S754_zero false).
Definition IsNaN (x : float64) : bool := match x with S754_nan => true | _ => false end.
Definition IsInf (x : float64) : bool := match x with S754_infinity _ => true | _ => false end.

(** The [max] and [min] built-ins: NaN if either operand is, and the zeros are
    ordered -0 < +0. *)
Definition fmax (x y : float64) : float64 :=
  match SFcompare x y with
  | None => S754_nan
  | Some Gt => x
  | Some Lt => y
  | Some Eq => match x with S754_zero true => y | _ => x end
  end.

Definition fmin (x y : float64) : float64 :=
  match SFcompare x y with
  | None => S754_nan
  | Some Lt => x
  | Some Gt => y
  | Some Eq => match x with S754_zero false => y | _ => x end
  end.

(** [m * 2^e] rounded to an integer, halves up, for [m > 0]. *)
Definition nearest (m : positive) (e : Z) : Z :=
  if 0 <=? e then Zpos m * 2 ^ e else (Zpos m + 2 ^ (- e - 1)) / 2 ^ (- e).

(** [math.Round]: to the nearest integer, halves away from zero. *)
Definition Round (x : float64) : float64 :=
  match x with
  | S754_finite s m e =>
      match nearest m e with
      | Zpos q => if 0 <=? e then x else binary_round prec emax s q 0
      | _ => S754_zero s
      end
  | _ => x
  end.

(** The value of a float truncated to an integer; [None] for NaN and infinities. *)
Definition trunc (x : float64) : option Z :=
  match x with
  | S754_zero _ => Some 0
  | S754_finite s m e =>
      let q := if 0 <=? e then Zpos m * 2 ^ e else Zpos m / 2 ^ (- e) in
      Some (if s then - q else q)
  | _ => None
  end.

(** The Go specification leaves the conversion of a float outside the target's
    range to the implementation; that choice is a parameter. *)
Class FloatToUint16 : Type := uint16_out_of_range : float64 → Z.

(** [uint16(x)] *)
Definition uint16_of_float `{FloatToUint16} (x : float64) : Z :=
  match trunc x with
  | Some n => if (0 <=? n) && (n <? 65536) then n else uint16_out_of_range x
  | None => uint16_out_of_range x
  end.

(** ** strconv.ParseFloat(s, 64) *)

(** Correct rounding of [m * 10^e] and of [m * 2^e]. *)
Definition round_dec (neg : bool) (m : positive) (e : Z) : float64 :=
  if 0 <=? e then
    match Zpos m * 10 ^ e with Zpos p => binary_round prec emax neg p 0 | _ => S754_nan end
  else
    let '(q, eq, l) := SFdiv_core_binary prec emax (Zpos m) 0 (10 ^ (- e)) 0 in
    binary_round_aux prec emax neg q eq l.

Definition round_bin (neg : bool) (m : positive) (e : Z) : float64 :=
  binary_round prec emax neg m e.

(** State of the digit scanner: the digits read so far as an integer, how many
    of them follow the point, and what has been seen. *)
Record scan : Type := {
  sc_mant : Z; sc_frac : Z; sc_dot : bool; sc_digits : bool; sc_under : bool;
}.

Definition scan0 : scan :=
  {| sc_mant := 0; sc_frac := 0; sc_dot := false; sc_digits := false; sc_under := false |}.

Definition hex_digit_val (c : ascii) : option Z :=
  match digit_val c with
  | Some d => Some d
  | None =>
      let l := code (lower_byte c) in
      if (97 <=? l) && (l <=? 102) then Some (l - 87) else None
  end.

Fixpoint scan_digits (hex : bool) (st : scan) (s : string) : scan * string :=
  match s with
  | EmptyString => (st, s)
  | String c s' =>
      if decide (c = "_"%char) then
        scan_digits hex {| sc_mant := sc_mant st; sc_frac := sc_frac st;
          sc_dot := sc_dot st; sc_digits := sc_digits st; sc_under := true |} s'
      else if decide (c = "."%char) then
        if sc_dot st then (st, s)
        else scan_digits hex {| sc_mant := sc_mant st; sc_frac := sc_frac st;
          sc_dot := true; sc_digits := sc_digits st; sc_under := sc_under st |} s'
      else
        match (if hex then hex_digit_val c else digit_val c) with
        | Some d =>
            scan_digits hex {| sc_mant := sc_mant st * (if hex then 16 else 10) + d;
              sc_frac := if sc_dot st then sc_frac st + 1 else sc_frac st;
              sc_dot := sc_dot st; sc_digits := true; sc_under := sc_under st |} s'
        | None => (st, s)
        end
  end.

(** Exponent digits; the accumulator stops growing at 10000, as in Go. *)
Fixpoint scan_exp (e : Z) (under : bool) (s : string) : Z * bool * string :=
  match s with
  | EmptyString => (e, under, s)
  | String c s' =>
      if decide (c = "_"%char) then scan_exp e true s'
      else match digit_val c with
           | Some d => scan_exp (if e <? 10000 then e * 10 + d else e) under s'
           | None => (e, under, s)
           end
  end.

(** What [underscoreOK] last saw. *)
Inductive saw : Type := SawStart | SawDigit | SawUnder | SawOther.

Fixpoint underscore_loop (hex : bool) (w : saw) (s : string) : bool :=
  match s with
  | EmptyString => match w with SawUnder => false | _ => true end
  | String c s' =>
      match (if hex then hex_digit_val c else digit_val c) with
      | Some _ => underscore_loop hex SawDigit s'
      | None =>
          if decide (c = "_"%char) then
            match w with SawDigit => underscore_loop hex SawUnder s' | _ => false end
          else match w with SawUnder => false | _ => underscore_loop hex SawOther s' end
      end
  end.

(** Underscores only between digits, or between a base prefix and a digit; the
    argument has its sign removed. *)
Definition underscoreOK (s : string) : bool :=
  match s with
  | String "0" (String c s') =>
      let l := code (lower_byte c) in
      if (l =? 98) || (l =? 111) || (l =? 120) then underscore_loop (l =? 120) SawDigit s'
      else underscore_loop false SawStart s
  | _ => underscore_loop false SawStart s
  end.

Definition cut_sign (s : string) : bool * string :=
  match s with
  | String "+" s' => (false, s')
  | String "-" s' => (true, s')
  | _ => (false, s)
  end.

(** The optional exponent part after the digits: [None] is a syntax error. *)
Definition read_exp (hex : bool) (under : bool) (s : string) : option (Z * bool * string) :=
  match s with
  | String c s' =>
      if code (lower_byte c) =? (if hex then 112 else 101) then
        let '(eneg, s'') := cut_sign s' in
        match s'' with
        | String d _ =>
            match digit_val d with
            | Some _ =>
                let '(e, u, rest) := scan_exp 0 under s'' in
                Some ((if eneg then - e else e), u, rest)
            | None => None
            end
        | EmptyString => None
        end
      else if hex then None else Some (0, under, s)
  | EmptyString => if hex then None else Some (0, under, s)
  end.

(** [strconv.readFloat] on a complete string: sign, base, mantissa and
    exponent of a well-formed number. *)
Definition readFloat (s : string) : option (bool * bool * Z * Z) :=
  let '(neg, s1) := cut_sign s in
  let '(hex, s2) :=
    match s1 with
    | String "0" (String c (String d s')) =>
        if code (lower_byte c) =? 120 then (true, String d s') else (false, s1)
    | _ => (false, s1)
    end in
  let '(st, s3) := scan_digits hex scan0 s2 in
  if negb (sc_digits st) then None else
  match read_exp hex (sc_under st) s3 with
  | Some (e, under, EmptyString) =>
      if under && negb (underscoreOK s1) then None
      else Some (neg, hex, sc_mant st, if hex then e - 4 * sc_frac st else e - sc_frac st)
  | _ => None
  end.

Fixpoint lower_string (s : string) : string :=
  match s with EmptyString => "" | String c s' => String (lower_byte c) (lower_string s') end.

Definition special (s : string) : option float64 :=
  let '(neg, s1) := cut_sign s in
  if decide (lower_string s1 = "inf") then Some (S754_infinity neg)
  else if decide (lower_string s1 = "infinity") then Some (S754_infinity neg)
  else if decide (lower_string s = "nan") then Some S754_nan
  else None.

Definition ParseFloat (s : string) : result float64 :=
  match special s with
  | Some x => Ok x
  | None =>
      wrap_err ("strconv.ParseFloat: parsing " +:+ fmt_q s)
        (match readFloat s with
         | None => Err ErrSyntax
         | Some (neg, hex, m, e) =>
             match m with
             | Zpos p =>
                 let x := if hex then round_bin neg p e else round_dec neg p e in
                 if IsInf x then Err ErrRange else Ok x
             | _ => Ok (S754_zero neg)
             end
         end)
  end.

Example parse_ex1 : ParseFloat "62.5" = Ok (fdiv (of_int 625) (of_int 10)).
Proof. vm_compute. reflexivity. Qed.
Example parse_ex2 : ParseFloat "1_23.50_0_0e+1_2" = Ok (of_int 123500000000000).
Proof. vm_compute. reflexivity. Qed.
Example parse_ex3 : is_Ok (ParseFloat "1__2") = false ∧ is_Ok (ParseFloat "+nan") = false ∧
  is_Ok (ParseFloat "1e400") = false ∧ is_Ok (ParseFloat "0x1p-2") = true ∧
  is_Ok (ParseFloat "") = false ∧ is_Ok (ParseFloat ".") = false ∧ is_Ok (ParseFloat "5.") = true.
Proof. vm_compute. done. Qed.
