(* ===== verification/GoParse.v ===== *)
(** * Parsing settings (strconv, time, strings)

    The library functions the configuration is read with: lower case, integers,
    booleans and durations. *)

From Stdlib Require Import Ascii.
From S2P Require Import Prelude GoInt GoString GoTime GoFloat.

(** [strings.ToLower(s)], as far as a comparison of the result with an ASCII literal
    sees it: the only non-ASCII runes whose lower case is ASCII are U+0130 (I with a
    dot) and U+212A (the Kelvin sign); every other non-ASCII byte is left in place,
    where Go puts some other non-ASCII rune. *)
Fixpoint ToLower (s : string) : string :=
  match s with
  | EmptyString => ""
  | String c s' =>
      match s' with
      | String d s'' =>
          if (code c =? 196) && (code d =? 176) then String "i" (ToLower s'')
          else match s'' with
               | String e s''' =>
                   if (code c =? 226) && (code d =? 132) && (code e =? 170)
                   then String "k" (ToLower s''')
                   else String (lower_byte c) (ToLower s')
               | EmptyString => String (lower_byte c) (ToLower s')
               end
      | EmptyString => String (lower_byte c) ""
      end
  end.

(** [strconv.Atoi(s)]: an optional sign and digits, within 64 bits.  Digits are read
    up to the magnitude the sign allows. *)
Definition Atoi (s : string) : result Z :=
  let '(neg, digits) := cut_sign s in
  wrap_err ("strconv.Atoi: parsing " +:+ fmt_q s)
    (match digits with
     | EmptyString => Err ErrSyntax
     | _ => n ← parse_uint_loop (if neg then 2 ^ 63 else 2 ^ 63 - 1) 0 digits;
            Ok (if neg : bool then - n else n)
     end).

(** [strconv.ParseBool(s)]. *)
Definition ParseBool (s : string) : result bool :=
  if bool_decide (s ∈ ["1"; "t"; "T"; "TRUE"; "true"; "True"]) then Ok true
  else if bool_decide (s ∈ ["0"; "f"; "F"; "FALSE"; "false"; "False"]) then Ok false
  else Err (Wrapf ("strconv.ParseBool: parsing " +:+ fmt_q s) ErrSyntax).

(** ** time.ParseDuration *)

Definition uint64_max : Z := 2 ^ 64 - 1.

(** The leading digits as a number: [None] past 2^63. *)
Fixpoint leadingInt (x : Z) (s : string) : option Z * string :=
  match s with
  | EmptyString => (Some x, s)
  | String c s' =>
      match digit_val c with
      | None => (Some x, s)
      | Some d =>
          if 2 ^ 63 / 10 <? x then (None, s)
          else let x := x * 10 + d in
               if 2 ^ 63 <? x then (None, s) else leadingInt x s'
      end
  end.

(** The leading digits as a fraction: its numerator, its scale, and the rest; digits
    past what fits are skipped. *)
Fixpoint leadingFraction (x : Z) (scale : float64) (overflow : bool) (s : string) : Z * float64 * string :=
  match s with
  | EmptyString => (x, scale, s)
  | String c s' =>
      match digit_val c with
      | None => (x, scale, s)
      | Some d =>
          if overflow then leadingFraction x scale true s'
          else if (2 ^ 63 - 1) / 10 <? x then leadingFraction x scale true s'
          else let y := x * 10 + d in
               if 2 ^ 63 <? y then leadingFraction x scale true s'
               else leadingFraction y (fmul scale (of_int 10)) false s'
      end
  end.

Definition is_number_char (c : ascii) : bool :=
  (code c =? 46) || ((48 <=? code c) && (code c <=? 57)).

(** The unit: everything up to the next digit or dot. *)
Fixpoint cut_unit (s : string) : string * string :=
  match s with
  | EmptyString => ("", "")
  | String c s' =>
      if is_number_char c then ("", s) else let '(u, r) := cut_unit s' in (String c u, r)
  end.

Definition unitMap (u : string) : option Z :=
  if bool_decide (u = "ns") then Some 1
  else if bool_decide (u = "us") || bool_decide (u = bytes [194; 181; 115])
       || bool_decide (u = bytes [206; 188; 115]) then Some 1000
  else if bool_decide (u = "ms") then Some Millisecond
  else if bool_decide (u = "s") then Some Second
  else if bool_decide (u = "m") then Some Minute_
  else if bool_decide (u = "h") then Some (60 * Minute_)
  else None.

(** [uint64(x)] of a float in range, as the fraction of a unit is. *)
Definition uint64_of_float (x : float64) : Z := match trunc x with Some n => n | None => 0 end.

Definition invalid_duration (orig : string) : error := Errorf ("time: invalid duration " +:+ fmt_q orig).

(** The loop over components: each takes at least a byte, so the length is enough. *)
Fixpoint duration_loop (fuel : nat) (orig s : string) (d : Z) : result Z :=
  match fuel with
  | O => Err (invalid_duration orig)
  | S fuel =>
      match s with
      | EmptyString => Ok d
      | String c _ =>
          if negb (is_number_char c) then Err (invalid_duration orig)
          else
            match leadingInt 0 s with
            | (None, _) => Err (invalid_duration orig)
            | (Some v, s1) =>
                let pre := negb (String.length s1 =? String.length s)%nat in
                let '(f, scale, s2, post) :=
                  match s1 with
                  | String "." s1' =>
                      let '(f, scale, s2) := leadingFraction 0 (of_int 1) false s1' in
                      (f, scale, s2, negb (String.length s2 =? String.length s1')%nat)
                  | _ => (0, of_int 1, s1, false)
                  end in
                if negb pre && negb post then Err (invalid_duration orig)
                else
                  let '(u, s3) := cut_unit s2 in
                  if bool_decide (u = "") then Err (Errorf ("time: missing unit in duration " +:+ fmt_q orig))
                  else
                    match unitMap u with
                    | None => Err (Errorf ("time: unknown unit " +:+ fmt_q u +:+ " in duration " +:+ fmt_q orig))
                    | Some unit =>
                        if 2 ^ 63 / unit <? v then Err (invalid_duration orig)
                        else
                          let v := v * unit in
                          let v := if 0 <? f
                                   then v + uint64_of_float (fmul (of_int f) (fdiv (of_int unit) scale))
                                   else v in
                          if (0 <? f) && (2 ^ 63 <? v) then Err (invalid_duration orig)
                          else
                            let d := (d + v) mod 2 ^ 64 in
                            if 2 ^ 63 <? d then Err (invalid_duration orig)
                            else duration_loop fuel orig s3 d
                    end
            end
      end
  end.

Definition ParseDuration (s : string) : result Z :=
  let '(neg, rest) := cut_sign s in
  if bool_decide (rest = "0") then Ok 0
  else if bool_decide (rest = "") then Err (invalid_duration s)
  else
    d ← duration_loop (S (String.length rest)) s rest 0;
    if neg : bool then Ok (- d)
    else if 2 ^ 63 - 1 <? d then Err (invalid_duration s)
    else Ok d.

(** [d.String()]: hours, minutes and seconds, or a smaller unit below a second, without
    trailing zeros in the fraction. *)
Fixpoint trim_zeros (digits : list Z) : list Z :=
  match digits with
  | [] => []
  | d :: ds => match trim_zeros ds with [] => if d =? 0 then [] else [d] | ds => d :: ds end
  end.

(** The [prec] decimals of [n], most significant first. *)
Fixpoint decimals (prec : nat) (n : Z) : list Z :=
  match prec with
  | O => []
  | S prec => (n / 10 ^ Z.of_nat prec mod 10) :: decimals prec n
  end.

Definition fmtFrac (prec : nat) (n : Z) : string :=
  match trim_zeros (decimals prec n) with
  | [] => ""
  | ds => "." +:+ foldr (λ d, String (digit_char d)) "" ds
  end.

Definition Duration_String (d : Z) : string :=
  let u := Z.abs d in
  let sign := if d <? 0 then "-" else "" in
  let scaled (prec : nat) := pretty (u / 10 ^ Z.of_nat prec) +:+ fmtFrac prec u in
  sign +:+
  (if u =? 0 then "0s"
   else if u <? 1000 then scaled 0%nat +:+ "ns"
   else if u <? Millisecond then scaled 3%nat +:+ bytes [194; 181] +:+ "s"
   else if u <? Second then scaled 6%nat +:+ "ms"
   else
     let secs := u / Second in
     let s := pretty (secs mod 60) +:+ fmtFrac 9 u +:+ "s" in
     let mins := secs / 60 in
     if 0 <? mins then
       (if 0 <? mins / 60 then pretty (mins / 60) +:+ "h" else "") +:+ pretty (mins mod 60) +:+ "m" +:+ s
     else s).

(** ** Ranges *)

Lemma duration_loop_range fuel orig s d r :
  duration_loop fuel orig s d = Ok r → 0 ≤ d ≤ 2 ^ 63 → 0 ≤ r ≤ 2 ^ 63.
Proof.
  revert s d. induction fuel as [|fuel IH]; intros s d; cbn [duration_loop]; [done|].
  destruct s as [|c s]; [by intros [= ->]|]. destruct (negb _); [done|].
  destruct (leadingInt 0 (String c s)) as [[v|] s1]; [|done].
  destruct (match s1 with String "." s1' => _ | _ => _ end) as [[[f scale] s2] post].
  destruct (negb _ && negb post); [done|]. destruct (cut_unit s2) as [u s3].
  case_bool_decide; [done|]. destruct (unitMap u) as [unit|]; [|done].
  destruct (2 ^ 63 / unit <? v); [done|]. destruct ((0 <? f) && _); [done|].
  remember (if 0 <? f then _ else _) as v' eqn:Ev. clear Ev.
  pose proof (Z.mod_pos_bound (d + v') (2 ^ 64) ltac:(lia)).
  destruct (Z.ltb_spec (2 ^ 63) ((d + v') mod 2 ^ 64)); [done|]. intros Hr _.
  eapply IH; [exact Hr|lia].
Qed.

(** A duration that parses is an int64. *)
Lemma ParseDuration_range s d : ParseDuration s = Ok d → is_int64 d.
Proof.
  unfold ParseDuration. destruct (cut_sign s) as [neg rest].
  case_bool_decide; [by intros [= <-]|]. case_bool_decide; [done|].
  intros (r & Hr & Hd)%bind_Ok_inv. apply duration_loop_range in Hr; [|lia].
  destruct neg; [injection Hd as <-; int_unfold; lia|].
  destruct (Z.ltb_spec (2 ^ 63 - 1) r); [done|]. injection Hd as <-. int_unfold. lia.
Qed.

Lemma parse_uint_loop_range max acc s n : parse_uint_loop max acc s = Ok n → 0 ≤ acc ≤ max →
  0 ≤ n ≤ max.
Proof.
  revert acc. induction s as [|c s IH]; intros acc H Ha; cbn in H; [by injection H as <-|].
  destruct (digit_val c) as [d|] eqn:Ed; [|done]. apply digit_val_Some in Ed as [Hd _].
  destruct (Z.ltb_spec max (acc * 10 + d)); [done|]. eapply IH; [exact H|lia].
Qed.

(** An integer that parses is an int. *)
Lemma Atoi_range s n : Atoi s = Ok n → is_int64 n.
Proof.
  unfold Atoi. destruct (cut_sign s) as [neg digits]. intros H%wrap_err_Ok.
  destruct digits as [|c digits]; [done|]. apply bind_Ok_inv in H as (m & Hm & H).
  injection H as <-. apply parse_uint_loop_range in Hm; [|destruct neg; lia].
  destruct neg; int_unfold; lia.
Qed.

Example duration_whole : ParseDuration "1h30m" = Ok (90 * Minute_).
Proof. vm_compute. reflexivity. Qed.
Example duration_fraction : ParseDuration "-1.5s" = Ok (- 1500 * Millisecond).
Proof. vm_compute. reflexivity. Qed.
Example duration_unitless : is_Ok (ParseDuration "10") = false.
Proof. vm_compute. reflexivity. Qed.
Example duration_printed : Duration_String (90 * Minute_ + 250 * Millisecond) = "1h30m0.25s".
Proof. vm_compute. reflexivity. Qed.
