(* ===== verification/FloatFacts.v ===== *)
(** * Rounding facts of binary64

    The specification's rounding step brackets the exact value between two
    neighbouring multiples of a power of two.  From that: a product that is at
    most a small integer rounds to at most that integer, and a quotient by ten
    multiplied by ten is within one half of where it started. *)

From S2P Require Import Prelude GoInt GoFloat.

(** ** Shifting with guard and sticky bits *)

Lemma iter_pos_nat {A} (f : A → A) p x : iter_pos f p x = Nat.iter (Pos.to_nat p) f x.
Proof.
  revert x. induction p as [p IH|p IH|]; intros x; cbn [iter_pos].
  - rewrite !IH, Pos2Nat.inj_xI, <- Nat.iter_add, <- Nat.iter_succ_r. f_equal. lia.
  - rewrite !IH, Pos2Nat.inj_xO, <- Nat.iter_add. f_equal. lia.
  - reflexivity.
Qed.

Lemma shr_1_spec m r s : 0 ≤ m →
  shr_1 (Build_shr_record m r s) = Build_shr_record (m / 2) (Z.odd m) (r || s).
Proof.
  intros Hm. destruct m as [|[p|p|]|]; try lia; cbn; f_equal.
  - change (Z.pos p~1) with (2 * Z.pos p + 1)%Z. Z.div_mod_to_equations. lia.
  - change (Z.pos p~0) with (2 * Z.pos p)%Z. Z.div_mod_to_equations. lia.
Qed.

Lemma shr_iter m r s k : 0 ≤ m →
  let x := Nat.iter k shr_1 (Build_shr_record m r s) in
  shr_m x = m / 2 ^ Z.of_nat k ∧
  (shr_r x || shr_s x = true → r || s = true ∨ m mod 2 ^ Z.of_nat k ≠ 0).
Proof.
  intros Hm. induction k as [|k [IHm IHs]]; [|rewrite Nat.iter_succ].
  - rewrite Z.div_1_r. auto.
  - destruct (Nat.iter k shr_1 _) as [m' r' s']; cbn in IHm, IHs. subst m'.
    assert (0 < 2 ^ Z.of_nat k) as Hk by (apply Z.pow_pos_nonneg; lia).
    rewrite shr_1_spec by (apply Z.div_pos; lia). cbn [shr_m shr_r shr_s].
    rewrite Nat2Z.inj_succ, Z.pow_succ_r by lia.
    rewrite (Z.mul_comm 2), <- Z.div_div by lia. split; [done|].
    rewrite Z.rem_mul_r by lia. intros [Ho|Ho]%orb_true_iff.
    + right. pose proof (Z.mod_pos_bound m (2 ^ Z.of_nat k) Hk).
      rewrite Zodd_mod, Z.eqb_eq in Ho. lia.
    + destruct (IHs Ho) as [?|Hne]; [by left|right].
      pose proof (Z.mod_pos_bound m (2 ^ Z.of_nat k) Hk).
      pose proof (Z.mod_pos_bound (m / 2 ^ Z.of_nat k) 2). lia.
Qed.

(** [rounded m k m1]: [m1] is [m / 2^k] rounded one way or the other; up only if
    the division is inexact or [inexact] holds already. *)
Definition rounded (inexact : bool) (m k m1 : Z) : Prop :=
  m1 = m / 2 ^ k ∨ (m1 = m / 2 ^ k + 1 ∧ (inexact = true ∨ m mod 2 ^ k ≠ 0)).

Definition loc_inexact (l : SpecFloat.location) : bool :=
  match l with loc_Exact => false | _ => true end.

Lemma shr_fexp_spec m e l : 0 ≤ m →
  let n := Z.max 0 (fexp prec emax (Zdigits2 m + e) - e) in
  let '(x, e') := shr_fexp prec emax m e l in
  shr_m x = m / 2 ^ n ∧ e' = e + n ∧
  (shr_r x || shr_s x = true → loc_inexact l = true ∨ m mod 2 ^ n ≠ 0).
Proof.
  intros Hm. unfold shr_fexp.
  assert (∃ r s, shr_record_of_loc m l = Build_shr_record m r s ∧ (r || s = loc_inexact l))
    as (r & s & -> & Hl) by (destruct l as [|[]]; cbn; eauto).
  destruct (_ - e) as [|p|p] eqn:En; cbn [shr].
  - cbn. rewrite Z.div_1_r, Hl. split_and!; [done|lia|auto].
  - rewrite Z.max_r by lia. rewrite iter_pos_nat.
    destruct (shr_iter m r s (Pos.to_nat p) Hm) as [H1 H2].
    rewrite positive_nat_Z in H1, H2. split_and!; [done|lia|]. rewrite <- Hl. exact H2.
  - cbn. rewrite Z.div_1_r, Hl. split_and!; [done|lia|auto].
Qed.

Lemma round_nearest_even_spec x :
  let m1 := round_nearest_even (shr_m x) (loc_of_shr_record x) in
  m1 = shr_m x ∨ (m1 = shr_m x + 1 ∧ shr_r x || shr_s x = true).
Proof. destruct x as [m [] []]; cbn; try destruct (Z.even m); auto. Qed.

Lemma digits2_bounds p : 2 ^ (Zpos (digits2_pos p) - 1) ≤ Zpos p < 2 ^ Zpos (digits2_pos p).
Proof.
  induction p as [p IH|p IH|]; cbn [digits2_pos]; [..|cbn; lia].
  all: rewrite Pos2Z.inj_succ; unfold Z.succ.
  all: replace (Z.pos (digits2_pos p) + 1 - 1) with (Z.pos (digits2_pos p) - 1 + 1) by lia.
  all: rewrite !(Z.pow_add_r _ _ 1) by lia; rewrite ?(Pos2Z.inj_xI p), ?(Pos2Z.inj_xO p); lia.
Qed.

Lemma Zdigits2_bounds m : 0 < m → 2 ^ (Zdigits2 m - 1) ≤ m < 2 ^ Zdigits2 m ∧ 0 < Zdigits2 m.
Proof. destruct m; try lia. intros _. split; [apply digits2_bounds|cbn; lia]. Qed.

Lemma Zdigits2_le m k : 0 ≤ m < 2 ^ k → 0 ≤ k → Zdigits2 m ≤ k.
Proof.
  intros Hm Hk. destruct (Z.eq_dec m 0) as [->|Hne]; [done|].
  destruct (Zdigits2_bounds m ltac:(lia)) as [[Hlo _] Hd].
  destruct (Z.le_gt_cases (Zdigits2 m) k) as [|Hgt]; [done|].
  pose proof (Z.pow_le_mono_r 2 k (Zdigits2 m - 1) ltac:(lia) ltac:(lia)). lia.
Qed.

(** ** The rounding step *)

Lemma pow_div_lt m n : 0 ≤ n → m < 2 ^ (n + 53) → 0 ≤ m → m / 2 ^ n < 2 ^ 53.
Proof.
  intros Hn Hm H0. apply Z.div_lt_upper_bound; [apply Z.pow_pos_nonneg; lia|].
  by rewrite <- Z.pow_add_r by lia.
Qed.

(** A mantissa of at most 53 bits, or exactly 2^53, survives the second
    normalisation with its value unchanged. *)
Lemma renormalise m1 q : 0 ≤ m1 ≤ 2 ^ 53 → emin prec emax ≤ q →
  ∃ k, 0 ≤ k ≤ 1 ∧ m1 mod 2 ^ k = 0 ∧
    Z.max 0 (fexp prec emax (Zdigits2 m1 + q) - q) = k.
Proof.
  intros Hm Hq. destruct (Z.eq_dec m1 (2 ^ 53)) as [->|Hne].
  - exists 1. split; [lia|]. split; [reflexivity|].
    change (Zdigits2 (2 ^ 53)) with 54. unfold fexp, prec in *. lia.
  - exists 0. split; [lia|]. split; [by rewrite Z.mod_1_r|].
    pose proof (Zdigits2_le m1 53 ltac:(lia) ltac:(lia)). unfold fexp, prec in *. lia.
Qed.

Lemma round_aux_spec s m e l : 0 < m →
  let n := Z.max 0 (fexp prec emax (Zdigits2 m + e) - e) in
  ∃ m1, rounded (loc_inexact l) m n m1 ∧
    ((m1 = 0 ∧ binary_round_aux prec emax s m e l = S754_zero s) ∨
     ∃ m2 k, 0 ≤ k ≤ 1 ∧ Zpos m2 * 2 ^ k = m1 ∧
       binary_round_aux prec emax s m e l =
         if e + n + k <=? 971 then S754_finite s m2 (e + n + k) else S754_infinity s).
Proof.
  intros Hm n. unfold binary_round_aux.
  pose proof (shr_fexp_spec m e l ltac:(lia)) as Hshr.
  destruct (shr_fexp prec emax m e l) as [x e']. destruct Hshr as (Hx & He & Hs).
  fold n in Hx, He, Hs. subst e'.
  set (m1 := round_nearest_even (shr_m x) (loc_of_shr_record x)).
  assert (Hm1 : rounded (loc_inexact l) m n m1).
  { unfold rounded, m1. rewrite <- Hx.
    destruct (round_nearest_even_spec x) as [->|[-> Hs']]; [by left|right; auto]. }
  exists m1. split; [done|].
  assert (0 ≤ n) as Hn by lia. pose proof (Z.pow_pos_nonneg 2 n ltac:(lia) Hn).
  destruct (Zdigits2_bounds m Hm) as [[_ Hd] Hd0].
  assert (m / 2 ^ n < 2 ^ 53) as Hlt.
  { apply pow_div_lt; [done| |lia]. eapply Z.lt_le_trans; [exact Hd|].
    apply Z.pow_le_mono_r; [lia|]. subst n. unfold fexp, prec. lia. }
  assert (0 ≤ m1 ≤ 2 ^ 53) as Hb.
  { pose proof (Z.div_pos m (2 ^ n)). destruct Hm1 as [->|[-> _]]; lia. }
  destruct (renormalise m1 (e + n) Hb) as (k & Hk & Hmod & Hkeq).
  { subst n. unfold fexp, prec. lia. }
  pose proof (shr_fexp_spec m1 (e + n) loc_Exact ltac:(lia)) as Hshr.
  destruct (shr_fexp prec emax m1 (e + n) loc_Exact) as [y e']. rewrite Hkeq in Hshr.
  destruct Hshr as (Hy & -> & _).
  pose proof (Z.pow_pos_nonneg 2 k ltac:(lia) ltac:(lia)).
  assert (shr_m y * 2 ^ k = m1) as Hval by (rewrite Hy; Z.div_mod_to_equations; lia).
  destruct (shr_m y) as [|m2|m2].
  - left. split; [lia|done].
  - right. exists m2, k. split; [lia|]. split; done.
  - exfalso. lia.
Qed.

(** ** Values, scaled to integers

    Every finite binary64 is a multiple of 2^-1200; [scaled x] is its value
    times 2^1200. *)
Definition sc (m e : Z) : Z := m * 2 ^ (e + 1200).

Definition scaled (x : float64) : Z :=
  match x with
  | S754_finite s m e => if s then - sc (Zpos m) e else sc (Zpos m) e
  | _ => 0
  end.

(** [x] is a finite number that is not negative, with an exponent of at most [c]. *)
Definition nonneg (c : Z) (x : float64) : Prop :=
  match x with
  | S754_zero _ => True
  | S754_finite s _ e => s = false ∧ -1074 ≤ e ≤ c
  | _ => False
  end.

Lemma sc_shift m e k : 0 ≤ k → -1200 ≤ e → sc (m * 2 ^ k) e = sc m (e + k).
Proof.
  intros. unfold sc. replace (e + k + 1200) with (k + (e + 1200)) by lia.
  rewrite (Z.pow_add_r 2 k) by lia. lia.
Qed.

Lemma sc_pos e : -1200 ≤ e → 0 < 2 ^ (e + 1200).
Proof. intros. apply Z.pow_pos_nonneg; lia. Qed.

(** A positive value below 2^b has its leading bit below position b. *)
Lemma digits_bound m e b : 0 < m → -1200 ≤ e → -1200 ≤ b →
  sc m e < 2 ^ (b + 1200) → Zdigits2 m + e ≤ b.
Proof.
  intros Hm He Hb Hlt. destruct (Zdigits2_bounds m Hm) as [[Hlo _] Hd].
  assert (2 ^ (Zdigits2 m - 1 + (e + 1200)) < 2 ^ (b + 1200)) as Hp.
  { rewrite Z.pow_add_r by lia. pose proof (sc_pos e He). unfold sc in Hlt. nia. }
  apply Z.pow_lt_mono_r_iff in Hp; lia.
Qed.

(** Rounding a positive [m * 2^e] that is below 2^b: the result is finite and
    its value is the rounding of [m] to a multiple of some 2^n. *)
Lemma round_aux_scaled m e l b : 0 < m → -1200 ≤ e → e ≤ b - 53 → -1021 ≤ b ≤ 900 →
  sc m e < 2 ^ (b + 1200) →
  ∃ n m1, 0 ≤ n ∧ e + n ≤ b - 53 ∧ rounded (loc_inexact l) m n m1 ∧
    nonneg (b - 52) (binary_round_aux prec emax false m e l) ∧
    scaled (binary_round_aux prec emax false m e l) = sc m1 (e + n).
Proof.
  intros Hm He Heb Hb Hlt.
  pose proof (digits_bound m e b Hm He ltac:(lia) Hlt) as Hd.
  destruct (round_aux_spec false m e l Hm) as (m1 & Hr & Hres).
  set (n := Z.max 0 _) in Hr, Hres.
  assert (0 ≤ n ∧ -1074 ≤ e + n ≤ b - 53) as [Hn Hq]
    by (subst n; unfold fexp, emin, prec, emax; lia).
  exists n, m1. split; [done|]. split; [lia|]. split; [done|].
  destruct Hres as [[-> ->]|(m2 & k & Hk & <- & ->)]; [done|].
  rewrite (proj2 (Z.leb_le _ _)) by lia. cbn. split; [lia|].
  rewrite sc_shift by lia. done.
Qed.

(** [math.Round] followed by truncation is floor(x + 1/2). *)
Lemma div_scale a t : 0 ≤ t ≤ 1200 →
  (a * 2 ^ (1200 - t) + 2 ^ 1199) / 2 ^ 1200 = (if t =? 0 then a else (a + 2 ^ (t - 1)) / 2 ^ t).
Proof.
  intros Ht. destruct (Z.eqb_spec t 0) as [->|Hne].
  - change (1200 - 0) with 1200. rewrite Z.div_add_l by lia.
    rewrite Z.div_small; [lia|]. split; [lia|]. apply Z.pow_lt_mono_r; lia.
  - replace (2 ^ 1199) with (2 ^ (t - 1) * 2 ^ (1200 - t))
      by (rewrite <- Z.pow_add_r by lia; f_equal; lia).
    replace (2 ^ 1200) with (2 ^ t * 2 ^ (1200 - t))
      by (rewrite <- Z.pow_add_r by lia; f_equal; lia).
    rewrite <- Z.mul_add_distr_r. apply Z.div_mul_cancel_r; apply Z.pow_nonzero; lia.
Qed.

Lemma nearest_scaled m e : -1200 ≤ e →
  nearest m e = (sc (Zpos m) e + 2 ^ 1199) / 2 ^ 1200.
Proof.
  intros He. unfold nearest, sc. destruct (Z.leb_spec 0 e).
  - rewrite (Z.pow_add_r 2 e 1200), Z.mul_assoc by lia.
    change 1200 with (1200 - 0) at 1. by rewrite div_scale.
  - replace (e + 1200) with (1200 - (- e)) by lia. rewrite div_scale by lia.
    rewrite (proj2 (Z.eqb_neq _ _)) by lia. done.
Qed.

(** ** Integers are exact *)

Lemma iter_xO p k : Zpos (Pos.iter xO p k) = Zpos p * 2 ^ Zpos k.
Proof.
  induction k as [|k IH] using Pos.peano_ind; [cbn; lia|].
  rewrite Pos.iter_succ, Pos2Z.inj_succ, Z.pow_succ_r by lia.
  rewrite (Pos2Z.inj_xO (Pos.iter xO p k)), IH. lia.
Qed.

Lemma shl_align_spec p e e' : e' ≤ e →
  let '(m, ez) := shl_align p e e' in Zpos m = Zpos p * 2 ^ (e - e') ∧ ez = e'.
Proof.
  intros He. unfold shl_align. destruct (e' - e) as [|k|k] eqn:E; [..|].
  - replace (e - e') with 0 by lia. lia.
  - lia.
  - rewrite iter_xO. replace (e - e') with (Zpos k) by lia. done.
Qed.

Lemma binary_round_int p : Zpos p < 2 ^ 53 →
  nonneg 1 (binary_round prec emax false p 0) ∧
  scaled (binary_round prec emax false p 0) = Zpos p * 2 ^ 1200.
Proof.
  intros Hp. unfold binary_round. rewrite Z.add_0_r.
  pose proof (digits2_bounds p) as Hd.
  pose proof (Zdigits2_le (Zpos p) 53 ltac:(lia) ltac:(lia)) as Hd53. cbn in Hd53.
  set (d := Z.pos (digits2_pos p)) in *.
  assert (fexp prec emax d = d - 53) as ->.
  { subst d. unfold fexp, emin, prec, emax in *. lia. }
  pose proof (shl_align_spec p 0 (d - 53) ltac:(lia)) as Hal.
  destruct (shl_align p 0 (d - 53)) as [m ez]. destruct Hal as [Hm ->].
  assert (sc (Zpos m) (d - 53) = Zpos p * 2 ^ 1200) as Hval.
  { rewrite Hm. rewrite sc_shift by (subst d; lia). unfold sc. f_equal. f_equal. lia. }
  destruct (round_aux_scaled (Zpos m) (d - 53) loc_Exact d) as (n & m1 & Hn & Hq & Hr & Hnn & Hs);
    [subst d; lia..| |].
  { rewrite Hval. rewrite Z.pow_add_r by (subst d; lia).
    apply Z.mul_lt_mono_pos_r; [apply Z.pow_pos_nonneg; lia|tauto]. }
  split; [destruct (binary_round_aux _ _ _ _ _ _); cbn in *; intuition lia|].
  rewrite Hs. assert (n = 0) as -> by lia.
  destruct Hr as [->|[_ [?|Hmod]]]; [|done|by rewrite Z.mod_1_r in Hmod].
  by rewrite Z.div_1_r, Z.add_0_r.
Qed.

Lemma of_int_scaled r : 0 ≤ r < 2 ^ 53 → nonneg 1 (of_int r) ∧ scaled (of_int r) = r * 2 ^ 1200.
Proof.
  intros Hr. destruct r as [|p|]; [done| |lia]. apply binary_round_int. lia.
Qed.

Lemma trunc_scaled c x : nonneg c x → trunc x = Some (scaled x / 2 ^ 1200).
Proof.
  destruct x as [s| | |s m e]; cbn; try done. intros [-> He]. f_equal. unfold sc.
  destruct (Z.leb_spec 0 e).
  - rewrite Z.pow_add_r, Z.mul_assoc by lia. by rewrite Z.div_mul by (apply Z.pow_nonzero; lia).
  - replace (2 ^ 1200) with (2 ^ (- e) * 2 ^ (e + 1200))
      by (rewrite <- Z.pow_add_r by lia; f_equal; lia).
    rewrite Z.div_mul_cancel_r; [done|apply Z.pow_nonzero; lia..].
Qed.

Lemma trunc_Round c x : nonneg c x → (scaled x + 2 ^ 1199) / 2 ^ 1200 < 2 ^ 53 →
  trunc (Round x) = Some ((scaled x + 2 ^ 1199) / 2 ^ 1200).
Proof.
  destruct x as [s| | |s m e]; cbn [nonneg]; [|contradiction..|].
  { intros _ _. reflexivity. }
  intros [-> He] Hlt. cbn [scaled] in *. unfold Round. pose proof (nearest_scaled m e ltac:(lia)) as Hn. rewrite <- Hn in *.
  destruct (nearest m e) as [|q|q] eqn:Eq; [done| |].
  - destruct (Z.leb_spec 0 e).
    + rewrite <- Eq. unfold nearest, trunc. by rewrite (proj2 (Z.leb_le _ _)) by done.
    + destruct (binary_round_int q Hlt) as [Hnn Hs]. erewrite trunc_scaled by done.
      rewrite Hs. by rewrite Z.div_mul by (apply Z.pow_nonzero; lia).
  - exfalso. assert (0 ≤ Z.neg q); [|lia]. rewrite Hn. apply Z.div_pos.
    + unfold sc. pose proof (sc_pos e ltac:(lia)). pose proof (Z.pow_pos_nonneg 2 1199). nia.
    + apply Z.pow_pos_nonneg; lia.
Qed.

(** ** Bounds carried through a rounding *)

Lemma rounded_le m n m1 K : 0 ≤ n → rounded false m n m1 → m ≤ K * 2 ^ n → m1 ≤ K.
Proof.
  intros Hn Hr Hm. pose proof (Z.pow_pos_nonneg 2 n ltac:(lia) Hn).
  destruct Hr as [->|[-> [?|Hne]]]; [|done|].
  - apply Z.div_le_upper_bound; lia.
  - Z.div_mod_to_equations. nia.
Qed.

Lemma rounded_close i m n m1 : 0 ≤ n → rounded i m n m1 → Z.abs (m1 * 2 ^ n - m) ≤ 2 ^ n.
Proof.
  intros Hn Hr. pose proof (Z.pow_pos_nonneg 2 n ltac:(lia) Hn).
  pose proof (Z.mod_pos_bound m (2 ^ n)). pose proof (Z.div_mod m (2 ^ n)).
  destruct Hr as [->|[-> _]]; nia.
Qed.

(** The rounded value stays below a small integer bound and within 2^(b-53) of
    the exact one. *)
Lemma round_aux_bounds m e l b : 0 < m → -1200 ≤ e → e ≤ b - 53 → -1021 ≤ b ≤ 53 →
  sc m e < 2 ^ (b + 1200) →
  let y := binary_round_aux prec emax false m e l in
  nonneg (b - 52) y ∧ 0 ≤ scaled y ∧
  Z.abs (scaled y - sc m e) ≤ 2 ^ (b + 1147) ∧
  (l = loc_Exact → ∀ B, sc m e ≤ B * 2 ^ 1200 → scaled y ≤ B * 2 ^ 1200).
Proof.
  intros Hm He Heb Hb Hlt y.
  destruct (round_aux_scaled m e l b Hm He Heb ltac:(lia) Hlt) as (n & m1 & Hn & Hq & Hr & Hnn & Hs).
  fold y in Hnn, Hs. rewrite Hs.
  assert (0 < 2 ^ (e + 1200)) as Hpe by (apply sc_pos; lia).
  assert (0 < 2 ^ n) as Hpn by (apply Z.pow_pos_nonneg; lia).
  assert (0 < 2 ^ (e + n + 1200)) as Hpq by (apply Z.pow_pos_nonneg; lia).
  assert (2 ^ (e + n + 1200) = 2 ^ n * 2 ^ (e + 1200)) as Hsplit
    by (rewrite <- Z.pow_add_r by lia; f_equal; lia).
  split; [done|]. split; [|split].
  - unfold sc. pose proof (Z.div_pos m (2 ^ n)). destruct Hr as [->|[-> _]]; nia.
  - pose proof (rounded_close _ _ _ _ Hn Hr) as Hc.
    assert (2 ^ (e + n + 1200) ≤ 2 ^ (b + 1147)) by (apply Z.pow_le_mono_r; lia).
    unfold sc. rewrite Hsplit in *. nia.
  - intros -> B HB. unfold sc in *.
    assert (2 ^ 1200 = 2 ^ (- (e + n)) * 2 ^ (e + n + 1200)) as Hs12
      by (rewrite <- Z.pow_add_r by lia; f_equal; lia).
    assert (m1 ≤ B * 2 ^ (- (e + n))) as Hm1.
    { apply (rounded_le m n); [done..|]. rewrite Hs12, Hsplit in HB. nia. }
    rewrite Hs12. nia.
Qed.

(** ** Every parsed number is one the rounding can produce

    [float_ok]: a finite number has a mantissa of at most 2^53 units, none of
    them below 2^-1074. *)
Definition float_ok (x : float64) : Prop :=
  match x with S754_finite _ m e => -1074 ≤ e ∧ Zpos m ≤ 2 ^ 53 | _ => True end.

Lemma round_aux_ok s m e l : 0 ≤ m → float_ok (binary_round_aux prec emax s m e l).
Proof.
  intros Hm. unfold binary_round_aux.
  pose proof (shr_fexp_spec m e l Hm) as Hshr. cbv zeta in Hshr.
  set (n := Z.max 0 _) in Hshr.
  destruct (shr_fexp prec emax m e l) as [x e']. destruct Hshr as (Hx & -> & _).
  assert (0 ≤ n ∧ -1074 ≤ e + n) as [Hn He] by (subst n; unfold fexp, emin, prec, emax; lia).
  assert (0 ≤ m / 2 ^ n < 2 ^ 53) as Hb.
  { split; [apply Z.div_pos; [done|apply Z.pow_pos_nonneg; lia]|].
    apply pow_div_lt; [done| |done].
    destruct (Z.eq_dec m 0) as [->|Hne]; [apply Z.pow_pos_nonneg; lia|].
    destruct (Zdigits2_bounds m ltac:(lia)) as [[_ Hd] _].
    eapply Z.lt_le_trans; [exact Hd|]. apply Z.pow_le_mono_r; [lia|].
    subst n. unfold fexp, prec. lia. }
  set (m1 := round_nearest_even (shr_m x) (loc_of_shr_record x)).
  assert (0 ≤ m1 ≤ 2 ^ 53) as Hm1.
  { pose proof (round_nearest_even_spec x) as [E|[E _]]; fold m1 in E; lia. }
  clearbody m1. pose proof (shr_fexp_spec m1 (e + n) loc_Exact ltac:(lia)) as Hshr.
  cbv zeta in Hshr. set (k := Z.max 0 _) in Hshr.
  destruct (shr_fexp prec emax m1 (e + n) loc_Exact) as [y e'']. destruct Hshr as (Hy & -> & _).
  assert (0 ≤ k) as Hk by lia. pose proof (Z.pow_pos_nonneg 2 k ltac:(lia) Hk) as Hp.
  assert (shr_m y ≤ m1) by (rewrite Hy; apply Z.div_le_upper_bound; [done|nia]).
  destruct (shr_m y) as [|m2|m2]; cbn [float_ok]; [done| |done].
  destruct (_ <=? _); cbn [float_ok]; [|done]. lia.
Qed.

Lemma binary_round_ok s m e : float_ok (binary_round prec emax s m e).
Proof. unfold binary_round. destruct (shl_align _ _ _). by apply round_aux_ok. Qed.

Lemma round_dec_ok s m e : float_ok (round_dec s m e).
Proof.
  unfold round_dec. destruct (Z.leb_spec 0 e).
  - destruct (_ * _); [done|apply binary_round_ok|done].
  - destruct (SFdiv_core_binary _ _ _ _ _ _) as [[q e'] l] eqn:E. apply round_aux_ok.
    revert E. unfold SFdiv_core_binary.
    set (sft := 0 - 0 - _).
    assert (0 ≤ match sft with Z0 => Zpos m | Zpos _ => Z.shiftl (Zpos m) sft | Zneg _ => 0 end) as Hz.
    { destruct sft; [done| |done]. by apply Z.shiftl_nonneg. }
    generalize dependent (match sft with Z0 => Zpos m | Zpos _ => Z.shiftl (Zpos m) sft | Zneg _ => 0 end).
    intros z Hz. pose proof (Z_div_mod z (10 ^ (- e))) as Hd.
    assert (0 < 10 ^ (- e)) as H10 by (apply Z.pow_pos_nonneg; lia).
    specialize (Hd ltac:(lia)). destruct (Z.div_eucl z (10 ^ (- e))) as [q0 r0].
    intros [= <- _ _]. nia.
Qed.

Lemma ParseFloat_ok s x : ParseFloat s = Ok x → float_ok x.
Proof.
  unfold ParseFloat, special.
  destruct (cut_sign s) as [neg s1].
  repeat case_decide; try (intros [= <-]; done).
  intros E. result_inv. destruct (readFloat s) as [[[[neg' hex] m] e]|]; [|done].
  destruct m as [|p|p]; try (injection E as <-; done).
  cbv zeta in E. destruct (IsInf _); [done|]. injection E as <-.
  destruct hex; [apply binary_round_ok|apply round_dec_ok].
Qed.
