(* ===== verification/FloatExact.v ===== *)
(** * Exact float64 arithmetic on small integers

    Integers below 2^53 are floats, and their sums and products below 2^53 are computed
    without rounding. *)

From S2P Require Import Prelude GoInt GoFloat FloatFacts.

Lemma Zdigits2_unique m d : 2 ^ (d - 1) ≤ m < 2 ^ d → 0 < m → Zdigits2 m = d.
Proof.
  intros [Hl Hr] Hm. destruct (Zdigits2_bounds m Hm) as [[Hl' Hr'] Hd].
  assert (¬ Zdigits2 m < d) as Hn1. { intros H. pose proof (Z.pow_le_mono_r 2 (Zdigits2 m) (d - 1)). lia. }
  assert (¬ d < Zdigits2 m) as Hn2. { intros H. pose proof (Z.pow_le_mono_r 2 d (Zdigits2 m - 1)). lia. }
  lia.
Qed.

Lemma Zdigits2_shift n k : 0 < n → 0 ≤ k → Zdigits2 (n * 2 ^ k) = Zdigits2 n + k.
Proof.
  intros Hn Hk. destruct (Zdigits2_bounds n Hn) as [[Hl Hr] Hd]. pose proof (Z.pow_pos_nonneg 2 k).
  apply Zdigits2_unique; [|nia]. replace (Zdigits2 n + k - 1) with (Zdigits2 n - 1 + k) by lia.
  rewrite !Z.pow_add_r by lia. nia.
Qed.

(** The float of a positive integer, as it is stored. *)
Definition stored (n : Z) (x : float64) : Prop :=
  ∃ p, x = S754_finite false p (Zdigits2 n - 53) ∧ Zpos p = n * 2 ^ (53 - Zdigits2 n).

Lemma stored_unique n x y : stored n x → stored n y → x = y.
Proof. intros (p & -> & Hp) (q & -> & Hq). do 2 f_equal. lia. Qed.

Lemma round_exact n m e : 0 < n < 2 ^ 53 → e ≤ 0 → m = n * 2 ^ (- e) → 53 ≤ Zdigits2 m →
  stored n (binary_round_aux prec emax false m e loc_Exact).
Proof.
  intros Hn He Hm Hd. set (d := Zdigits2 n).
  assert (Zdigits2 m = d - e) as Hdm by (rewrite Hm, Zdigits2_shift; lia).
  assert (1 ≤ d ≤ 53) as Hd53.
  { destruct (Zdigits2_bounds n ltac:(lia)) as [_ H]. pose proof (Zdigits2_le n 53 ltac:(lia) ltac:(lia)). lia. }
  set (k := n * 2 ^ (53 - d)). pose proof (Z.pow_pos_nonneg 2 (53 - d) ltac:(lia) ltac:(lia)).
  assert (Zdigits2 k = 53) as Hk by (unfold k; rewrite Zdigits2_shift; lia).
  assert (0 < k) by (unfold k; nia).
  assert (fexp prec emax d = d - 53) as Hf by (unfold fexp, emin, prec, emax in *; lia).
  assert (m = k * 2 ^ (d - 53 - e)) as Hmk.
  { unfold k. rewrite Hm, <- Z.mul_assoc, <- Z.pow_add_r by lia. do 2 f_equal. lia. }
  pose proof (Z.pow_pos_nonneg 2 (d - 53 - e) ltac:(lia) ltac:(lia)).
  unfold binary_round_aux. pose proof (shr_fexp_spec m e loc_Exact ltac:(nia)) as HA. cbv zeta in HA.
  replace (Zdigits2 m + e) with d in HA by lia. rewrite Hf, Z.max_r in HA by lia.
  destruct (shr_fexp prec emax m e loc_Exact) as [x e']. destruct HA as (Hx & -> & Hs).
  rewrite Hmk, Z.div_mul in Hx by lia. rewrite Hmk, Z.mod_mul in Hs by lia.
  destruct (round_nearest_even_spec x) as [->|[_ Hr]]; [|by destruct (Hs Hr) as [?|?]]. rewrite Hx.
  pose proof (shr_fexp_spec k (e + (d - 53 - e)) loc_Exact ltac:(lia)) as HB. cbv zeta in HB.
  rewrite Hk in HB. replace (e + (d - 53 - e)) with (d - 53) in * by lia.
  replace (53 + (d - 53)) with d in HB by lia. rewrite Hf, Z.max_l in HB by lia.
  destruct (shr_fexp prec emax k (d - 53) loc_Exact) as [y e']. destruct HB as (Hy & -> & _).
  rewrite Z.pow_0_r, Z.div_1_r in Hy. rewrite Hy, Z.add_0_r. destruct k as [|p|p] eqn:Ek; try lia.
  rewrite (proj2 (Z.leb_le _ _)) by (unfold emax, prec; lia). exists p. split; [done|]. by rewrite <- Ek.
Qed.

Lemma binary_round_exact n p e : 0 < n < 2 ^ 53 → e ≤ 0 → Zpos p = n * 2 ^ (- e) →
  stored n (binary_round prec emax false p e).
Proof.
  intros Hn He Hp. unfold binary_round. set (d := Zdigits2 n).
  assert (1 ≤ d ≤ 53) as Hd53.
  { destruct (Zdigits2_bounds n ltac:(lia)) as [_ H]. pose proof (Zdigits2_le n 53 ltac:(lia) ltac:(lia)). lia. }
  assert (Zpos (digits2_pos p) + e = d) as ->.
  { change (Zpos (digits2_pos p)) with (Zdigits2 (Zpos p)). rewrite Hp, Zdigits2_shift by lia. lia. }
  assert (fexp prec emax d = d - 53) as -> by (unfold fexp, emin, prec, emax in *; lia).
  destruct (Z.le_gt_cases (d - 53) e) as [Hle|Hgt].
  - pose proof (shl_align_spec p e (d - 53) Hle) as Hs. destruct (shl_align p e (d - 53)) as [mz ez].
    destruct Hs as [Hm ->]. apply round_exact; [lia|lia| |].
    + rewrite Hm, Hp, <- Z.mul_assoc, <- Z.pow_add_r by lia. do 2 f_equal. lia.
    + rewrite Hm, Hp, <- Z.mul_assoc, <- Z.pow_add_r, Zdigits2_shift by lia. fold d. lia.
  - assert (shl_align p e (d - 53) = (p, e)) as -> by (unfold shl_align; by destruct (d - 53 - e) eqn:E; [..|lia]).
    apply round_exact; [lia..|done|]. rewrite Hp, Zdigits2_shift by lia. fold d. lia.
Qed.

Lemma of_int_stored n : 0 < n < 2 ^ 53 → stored n (of_int n).
Proof.
  intros Hn. destruct n as [|p|p]; [lia| |lia]. unfold of_int, binary_normalize.
  apply (binary_round_exact (Zpos p) p 0); [done|lia|]. by rewrite Z.mul_1_r.
Qed.

Lemma stored_of_int n x : 0 < n < 2 ^ 53 → stored n x → x = of_int n.
Proof. intros Hn Hx. eapply stored_unique; [exact Hx|by apply of_int_stored]. Qed.

(** ** Decimal strings, products and sums *)

Lemma round_dec_int p : Zpos p < 2 ^ 53 → round_dec false p 0 = of_int (Zpos p).
Proof.
  intros Hp. unfold round_dec. cbn [Z.leb]. change (10 ^ 0) with 1. rewrite Z.mul_1_r. reflexivity.
Qed.

Lemma fmul_int a b : 0 ≤ a → 0 ≤ b → a * b < 2 ^ 53 → a < 2 ^ 53 → b < 2 ^ 53 →
  fmul (of_int a) (of_int b) = of_int (a * b).
Proof.
  intros Ha Hb Hab Ha' Hb'.
  destruct (Z.eq_dec a 0) as [->|]; [destruct (Z.eq_dec b 0) as [->|]; [done|]|].
  { destruct (of_int_stored b ltac:(lia)) as (p & -> & _). done. }
  destruct (of_int_stored a ltac:(lia)) as (p & Ep & Hp).
  destruct (Z.eq_dec b 0) as [->|]; [by rewrite Ep, Z.mul_0_r|].
  destruct (of_int_stored b ltac:(lia)) as (q & Eq & Hq).
  apply stored_of_int; [nia|]. rewrite Ep, Eq. unfold fmul, SFmul. cbn [xorb].
  pose proof (Zdigits2_le a 53 ltac:(lia) ltac:(lia)). pose proof (Zdigits2_le b 53 ltac:(lia) ltac:(lia)).
  destruct (Zdigits2_bounds a ltac:(lia)) as [_ Hda]. destruct (Zdigits2_bounds b ltac:(lia)) as [_ Hdb].
  assert (Zpos (p * q) = a * b * 2 ^ (- (Zdigits2 a - 53 + (Zdigits2 b - 53)))) as Hpq.
  { rewrite Pos2Z.inj_mul, Hp, Hq. replace (- _) with (53 - Zdigits2 a + (53 - Zdigits2 b)) by lia.
    rewrite Z.pow_add_r by lia. lia. }
  apply round_exact; [nia|lia|exact Hpq|].
  assert (∀ k r, 0 < k → Zdigits2 k ≤ 53 → Zpos r = k * 2 ^ (53 - Zdigits2 k) → 2 ^ 52 ≤ Zpos r) as Hbig.
  { intros k r Hk Hd Hr. pose proof (Zdigits2_shift k (53 - Zdigits2 k) Hk ltac:(lia)) as Hs. rewrite <- Hr in Hs.
    destruct (Zdigits2_bounds (Zpos r) ltac:(lia)) as [[Hl _] _]. replace (Zdigits2 (Zpos r) - 1) with 52 in Hl by lia. exact Hl. }
  pose proof (Hbig a p ltac:(lia) ltac:(lia) Hp) as HA. pose proof (Hbig b q ltac:(lia) ltac:(lia) Hq) as HB.
  destruct (Zdigits2_bounds (Zpos (p * q)) ltac:(lia)) as [[_ Hlt] Hd].
  destruct (Z.le_gt_cases 53 (Zdigits2 (Zpos (p * q)))) as [|Hgt]; [done|exfalso].
  pose proof (Z.pow_le_mono_r 2 (Zdigits2 (Zpos (p * q))) 52 ltac:(lia) ltac:(lia)). rewrite Pos2Z.inj_mul in *. nia.
Qed.

Lemma fadd_int a b : 0 ≤ a → 0 ≤ b → a + b < 2 ^ 53 → fadd (of_int a) (of_int b) = of_int (a + b).
Proof.
  intros Ha Hb Hab.
  destruct (Z.eq_dec a 0) as [->|]; [destruct (Z.eq_dec b 0) as [->|]; [done|]|].
  { destruct (of_int_stored b ltac:(lia)) as (p & E & _). rewrite Z.add_0_l, E. done. }
  destruct (of_int_stored a ltac:(lia)) as (p & Ep & Hp).
  destruct (Z.eq_dec b 0) as [->|]; [by rewrite Z.add_0_r, Ep|].
  destruct (of_int_stored b ltac:(lia)) as (q & Eq & Hq).
  apply stored_of_int; [lia|]. rewrite Ep, Eq. unfold fadd, SFadd.
  pose proof (Zdigits2_le a 53 ltac:(lia) ltac:(lia)). pose proof (Zdigits2_le b 53 ltac:(lia) ltac:(lia)).
  set (da := Zdigits2 a) in *. set (db := Zdigits2 b) in *. set (ez := Z.min (da - 53) (db - 53)).
  pose proof (shl_align_spec p (da - 53) ez ltac:(lia)) as HA. pose proof (shl_align_spec q (db - 53) ez ltac:(lia)) as HB.
  destruct (shl_align p (da - 53) ez) as [mp ep]. destruct (shl_align q (db - 53) ez) as [mq eq].
  destruct HA as [HA _], HB as [HB _]. cbn [fst cond_Zopp Z.add].
  unfold binary_normalize. apply binary_round_exact; [lia|lia|].
  rewrite Pos2Z.inj_add, HA, HB, Hp, Hq, <- !Z.mul_assoc, <- !Z.pow_add_r by lia.
  replace (53 - da + (da - 53 - ez)) with (- ez) by lia. replace (53 - db + (db - 53 - ez)) with (- ez) by lia. lia.
Qed.
