(* ===== verification/Amps.v ===== *)
(** * Charge and discharge currents (internal/inverter/controls.go,
    div10/div100 of telemetry.go)

    Current registers hold tenths of an ampere; the Home Assistant range is
    0 to 62.5 A. *)

From S2P Require Import Prelude GoInt GoFloat FloatFacts.

(** ** Scales *)

Definition ten : float64 := of_int 10.
Definition hundred : float64 := of_int 100.

Definition div10 (v : float64) : float64 := fdiv v ten.
Definition div100 (v : float64) : float64 := fdiv v hundred.

(** ** The current registers *)

Definition haChargeAmpsMin : float64 := of_int 0.
(** 62.5, exactly. *)
Definition haChargeAmpsMax : float64 := fdiv (of_int 625) (of_int 10).

Definition DecodeAmps (raw : Z) : float64 := div10 (of_int raw).

Definition EncodeAmps `{FloatToUint16} (amps : float64) : Z :=
  uint16_of_float (Round (fmul amps ten)).

Definition ClampHAChargeAmps (amps : float64) : float64 :=
  fmin (fmax amps haChargeAmpsMin) haChargeAmpsMax.

(** ** Lemmas *)

Definition ten_mantissa : positive := 5629499534213120.

Lemma ten_eq : ten = S754_finite false ten_mantissa (-49).
Proof. vm_compute. reflexivity. Qed.

Definition max_mantissa : positive := 8796093022208000.

Lemma haChargeAmpsMax_eq : haChargeAmpsMax = S754_finite false max_mantissa (-47).
Proof. vm_compute. reflexivity. Qed.

Lemma sc_ten m e : -1074 ≤ e → sc (m * Zpos ten_mantissa) (e - 49) = 10 * sc m e.
Proof.
  intros He. replace (m * Zpos ten_mantissa) with ((10 * m) * 2 ^ 49) by (unfold ten_mantissa; lia).
  rewrite sc_shift by lia. unfold sc. replace (e - 49 + 49) with e by lia. lia.
Qed.

(** Multiplying by ten: the exact product, rounded. *)
Lemma fmul_ten c x b : nonneg c x → -1021 ≤ b ≤ 53 → c - 49 ≤ b - 53 →
  10 * scaled x < 2 ^ (b + 1200) →
  nonneg (b - 52) (fmul x ten) ∧ 0 ≤ scaled (fmul x ten) ∧
  Z.abs (scaled (fmul x ten) - 10 * scaled x) ≤ 2 ^ (b + 1147) ∧
  (∀ B, 10 * scaled x ≤ B * 2 ^ 1200 → scaled (fmul x ten) ≤ B * 2 ^ 1200).
Proof.
  intros Hx Hb Hc Hlt. rewrite ten_eq.
  destruct x as [s| | |s m e]; cbn [nonneg] in Hx; [|contradiction..|].
  - cbn. split; [done|]. split; [lia|]. split; [|lia]. apply Z.pow_nonneg. lia.
  - destruct Hx as [-> He]. cbn [scaled] in *.
    unfold fmul, SFmul. cbn [xorb]. change (e + -49) with (e - 49).
    rewrite <- sc_ten in * by lia.
    rewrite <- Pos2Z.inj_mul in *.
    destruct (round_aux_bounds (Zpos (m * ten_mantissa)) (e - 49) loc_Exact b)
      as (H1 & H2 & H3 & H4); [lia..|done|].
    split_and!; try done. by apply H4.
Qed.

(** [EncodeAmps] computes floor(10x + 1/2) of the rounded product. *)
Lemma EncodeAmps_scaled `{FloatToUint16} c x r :
  nonneg c (fmul x ten) → 0 ≤ r < 65536 →
  r * 2 ^ 1200 ≤ scaled (fmul x ten) + 2 ^ 1199 < (r + 1) * 2 ^ 1200 →
  EncodeAmps x = r.
Proof.
  intros Hnn Hr Hs. unfold EncodeAmps, uint16_of_float.
  assert ((scaled (fmul x ten) + 2 ^ 1199) / 2 ^ 1200 = r) as Hq.
  { symmetry. apply (Z.div_unique_pos _ _ r (scaled (fmul x ten) + 2 ^ 1199 - 2 ^ 1200 * r)); lia. }
  rewrite (trunc_Round c) by (rewrite ?Hq; done || lia). rewrite Hq.
  rewrite (proj2 (Z.leb_le _ _)), (proj2 (Z.ltb_lt _ _)) by lia. done.
Qed.

(** What the clamp returns: zero or a positive number of at most 62.5. *)
Definition in_ha_range (x : float64) : Prop :=
  nonneg (-47) x ∧ 0 ≤ scaled x ∧ 2 * scaled x ≤ 125 * 2 ^ 1200.

Lemma max_in_ha_range : in_ha_range (S754_finite false max_mantissa (-47)).
Proof.
  unfold in_ha_range; cbn [nonneg scaled].
  split; [split; [done|lia]|]. split; vm_compute; discriminate.
Qed.

Lemma sc_mono m m' e : -1200 ≤ e → 0 ≤ m ≤ m' → 0 ≤ sc m e ≤ sc m' e.
Proof. intros He Hm. unfold sc. pose proof (sc_pos e He). nia. Qed.

Lemma small_in_ha_range m e : -1074 ≤ e → Zpos m ≤ 2 ^ 53 → e < -47 →
  in_ha_range (S754_finite false m e).
Proof.
  intros He Hm He'. unfold in_ha_range; cbn [nonneg scaled]. split; [split; [done|lia]|].
  unfold sc. assert (0 < 2 ^ (e + 1200)) by (apply sc_pos; lia). split; [lia|].
  assert (2 ^ (e + 1200) * 2 ^ 48 ≤ 2 ^ 1200) as Hle
    by (rewrite <- Z.pow_add_r by lia; apply Z.pow_le_mono_r; lia).
  change (2 ^ 53) with (2 ^ 48 * 32) in Hm. nia.
Qed.

Lemma Clamp_range x : float_ok x → IsNaN x = false →
  in_ha_range (ClampHAChargeAmps x).
Proof.
  intros Hv Hn. unfold ClampHAChargeAmps. rewrite haChargeAmpsMax_eq.
  change haChargeAmpsMin with (S754_zero false).
  assert (in_ha_range (S754_zero false)) as H0.
  { split; [done|]. cbn [scaled]. split; [lia|]. vm_compute. discriminate. }
  destruct x as [[]|[]| |[] m e]; try exact H0; try exact max_in_ha_range; [discriminate Hn|].
  destruct Hv as [He Hm]. clear Hn.
  change (fmax (S754_finite false m e) (S754_zero false)) with (S754_finite false m e).
  unfold fmin. cbn [SFcompare].
  destruct (Z.compare_spec e (-47)) as [->|Hlt|Hgt].
  - replace (PosDef.Pos.compare_cont Eq m max_mantissa) with (m ?= max_mantissa)%positive by reflexivity.
    destruct (Pos.compare_spec m max_mantissa) as [->|Hm'|Hm'].
    + exact max_in_ha_range.
    + pose proof max_in_ha_range as (_ & _ & Hmax). unfold in_ha_range. cbn [nonneg scaled] in *.
      revert Hmax. generalize (125 * 2 ^ 1200). intros B Hmax. clear H0. split; [split; [reflexivity|split; [discriminate|reflexivity]]|].
      destruct (sc_mono (Zpos m) (Zpos max_mantissa) (-47)) as [Hlo Hhi]; [discriminate| |].
      { split; [apply Pos2Z.is_nonneg|apply Pos2Z.pos_le_pos, Pos.lt_le_incl, Hm']. }
      split; [exact Hlo|]. etrans; [|exact Hmax]. by apply Z.mul_le_mono_nonneg_l.
    + exact max_in_ha_range.
  - by apply small_in_ha_range.
  - exact max_in_ha_range.
Qed.

(** ** Decoding a register *)

(** The quotient the division rounds: below by less than one unit. *)
Lemma div_core_spec m1 e1 m2 e2 q e' l : 0 < m1 → 0 < m2 →
  SFdiv_core_binary prec emax m1 e1 m2 e2 = (q, e', l) →
  e' = Z.min (fexp prec emax (Zdigits2 m1 + e1 - (Zdigits2 m2 + e2))) (e1 - e2) ∧
  0 ≤ q ∧ q * m2 ≤ m1 * 2 ^ (e1 - e2 - e') < (q + 1) * m2.
Proof.
  intros H1 H2. unfold SFdiv_core_binary.
  set (ez := Z.min _ _). set (s := e1 - e2 - ez).
  assert (0 ≤ s) as Hs by (subst s ez; lia).
  assert (match s with Z0 => m1 | Zpos _ => Z.shiftl m1 s | Zneg _ => 0 end = m1 * 2 ^ s) as ->.
  { destruct s eqn:E; [lia| |lia]. rewrite Z.shiftl_mul_pow2 by lia. done. }
  pose proof (Z_div_mod (m1 * 2 ^ s) m2 ltac:(lia)) as Hdm.
  destruct (Z.div_eucl (m1 * 2 ^ s) m2) as [q0 r0]. intros [= <- <- _].
  assert (0 < 2 ^ s) by (apply Z.pow_pos_nonneg; lia).
  split; [done|]. fold s. split; nia.
Qed.

Lemma pow_unit : ∃ P, 0 < P ∧ 2 ^ 1159 = P ∧ 2 ^ (13 + 1147) = 2 * P ∧
  2 ^ (17 + 1147) = 32 * P ∧ 2 ^ 1199 = 2 ^ 40 * P ∧ 2 ^ 1200 = 2 ^ 41 * P ∧
  2 ^ (13 + 1200) = 2 ^ 54 * P ∧ 2 ^ (16 + 1200) = 2 ^ 57 * P ∧ 2 ^ (17 + 1200) = 2 ^ 58 * P.
Proof.
  exists (2 ^ 1159). split; [reflexivity|]. repeat split; vm_compute; reflexivity.
Qed.

(** A decoded register is a finite number within 2^-35 of a tenth of the word. *)
Lemma DecodeAmps_close r : 0 < r < 65536 →
  nonneg (-39) (DecodeAmps r) ∧
  Z.abs (10 * scaled (DecodeAmps r) - r * 2 ^ 1200) ≤ 30 * 2 ^ 1159.
Proof.
  intros Hr. destruct (of_int_scaled r ltac:(lia)) as [Hnn Hs].
  unfold DecodeAmps, div10. rewrite ten_eq.
  destruct pow_unit as (P & HP & E59 & E13 & _ & _ & E12 & E1213 & E1216 & _).
  rewrite E59, E12 in *.
  destruct (of_int r) as [sg| | |sg m e]; cbn [nonneg scaled] in *;
    [exfalso; lia|contradiction..|].
  destruct Hnn as [-> He]. unfold fdiv, SFdiv. cbn [xorb].
  destruct (SFdiv_core_binary _ _ _ _ _ _) as [[q e'] l] eqn:Ecore.
  apply div_core_spec in Ecore as (He' & Hq & Hle & Hlt); [|lia..].
  pose proof (digits_bound (Zpos m) e 16 ltac:(lia) ltac:(lia) ltac:(lia) ltac:(rewrite E1216; lia)) as Hd.
  change (Zdigits2 (Zpos ten_mantissa)) with 53 in He'.
  assert (-1074 ≤ e' ≤ -41) as He'' by (unfold fexp, emin, prec, emax in He'; lia).
  assert (Hu : 0 < 2 ^ (e' + 1200) ≤ P).
  { split; [apply sc_pos; lia|]. rewrite <- E59. apply Z.pow_le_mono_r; lia. }
  assert (Hval : 10 * sc q e' ≤ r * (2 ^ 41 * P) < 10 * sc q e' + 10 * 2 ^ (e' + 1200)).
  { rewrite <- Hs. assert (sc (Zpos m) e = Zpos m * 2 ^ (e - -49 - e') * 2 ^ (e' - 49 + 1200)) as ->.
    { unfold sc. rewrite <- Z.mul_assoc, <- Z.pow_add_r by lia. do 2 f_equal. lia. }
    pose proof (sc_ten q e' ltac:(lia)) as Hq10. pose proof (sc_ten 1 e' ltac:(lia)) as H110.
    unfold sc in *. assert (0 < 2 ^ (e' - 49 + 1200)) by (apply Z.pow_pos_nonneg; lia). nia. }
  assert (0 < q) as Hq0.
  { destruct (Z.eq_dec q 0) as [->|]; [|lia]. unfold sc in Hval. nia. }
  destruct (round_aux_bounds q e' l 13) as (H1 & H2 & H3 & _); [lia..| |].
  { rewrite E1213. lia. }
  split; [exact H1|]. rewrite E13 in H3. lia.
Qed.

(** ** Encoding a clamped number *)

Lemma clamp_encode_range `{FloatToUint16} (x : float64) :
  float_ok x → IsNaN x = false → 0 ≤ EncodeAmps (ClampHAChargeAmps x) ≤ 625.
Proof.
  intros Hv Hn. destruct (Clamp_range x Hv Hn) as (Hc & H0 & Hle).
  set (y := ClampHAChargeAmps x) in *.
  destruct (fmul_ten _ y 11 Hc ltac:(lia) ltac:(lia)) as (Hnn & Hs0 & _ & Hb).
  { change (2 ^ (11 + 1200)) with (2 ^ 11 * 2 ^ 1200). lia. }
  specialize (Hb 625 ltac:(lia)).
  set (z := scaled (fmul y ten)) in *.
  assert (0 < 2 ^ 1199) by (apply Z.pow_pos_nonneg; lia).
  assert (2 ^ 1200 = 2 * 2 ^ 1199) as E by (rewrite <- Z.pow_succ_r by lia; f_equal).
  set (r := (z + 2 ^ 1199) / 2 ^ 1200).
  assert (r * 2 ^ 1200 ≤ z + 2 ^ 1199 < (r + 1) * 2 ^ 1200) as Hr.
  { subst r. pose proof (Z.div_mod (z + 2 ^ 1199) (2 ^ 1200)).
    pose proof (Z.mod_pos_bound (z + 2 ^ 1199) (2 ^ 1200)). lia. }
  assert (0 ≤ r ≤ 625) as Hr' by (generalize dependent (2 ^ 1199); intros p; nia).
  rewrite (EncodeAmps_scaled _ y r Hnn ltac:(lia) Hr). done.
Qed.

Lemma EncodeAmps_DecodeAmps `{FloatToUint16} (r : Z) :
  is_uint16 r → EncodeAmps (DecodeAmps r) = r.
Proof.
  unfold is_uint16. change (2 ^ 16) with 65536. intros Hr.
  destruct (Z.eq_dec r 0) as [->|Hne]; [reflexivity|].
  destruct (DecodeAmps_close r ltac:(lia)) as [Hnn Hc].
  set (x := DecodeAmps r) in *.
  destruct pow_unit as (P & HP & E59 & _ & E17 & E99 & E12 & _ & _ & E1217).
  rewrite E59, E12 in Hc.
  destruct (fmul_ten _ x 17 Hnn ltac:(lia) ltac:(lia)) as (Hnn' & H0 & Hd & _).
  { rewrite E1217. lia. }
  rewrite E17 in Hd.
  apply (EncodeAmps_scaled _ x r Hnn' ltac:(lia)). rewrite E99, E12. lia.
Qed.

Lemma DecodeAmps_finite r : is_uint16 r → IsNaN (DecodeAmps r) = false ∧ IsInf (DecodeAmps r) = false.
Proof.
  unfold is_uint16. change (2 ^ 16) with 65536. intros Hr.
  destruct (Z.eq_dec r 0) as [->|Hne]; [split; reflexivity|].
  destruct (DecodeAmps_close r ltac:(lia)) as [Hnn _]. by destruct (DecodeAmps r).
Qed.

(** ** Properties *)

(** Whatever number a payload spells, infinities, denormals, hexadecimal and
    under-scored forms included, the word the handler would write to a current
    register lies in 0..625, that is within the 62.5 A rating, whatever the
    platform does for out-of-range float conversions. *)
Theorem encoded_clamp_in_range `{FloatToUint16} (payload : string) (x : float64) :
  ParseFloat payload = Ok x → IsNaN x = false →
  0 ≤ EncodeAmps (ClampHAChargeAmps x) ≤ 625.
Proof. intros Hp Hn. apply clamp_encode_range; [by eapply ParseFloat_ok|done]. Qed.

Lemma encoded_clamp_in_range_witness :
  let oor : FloatToUint16 := λ _, 0 in
  ∃ x, ParseFloat "1e300" = Ok x ∧ 0 ≤ EncodeAmps (ClampHAChargeAmps x) ≤ 625.
Proof.
  intros oor. eexists. split; [vm_compute; reflexivity|].
  eapply (encoded_clamp_in_range "1e300"); vm_compute; reflexivity.
Defined.

(** C35: Reading a current register and writing the value back is the identity on
    the register word, for all 65536 words: the division by ten, the
    multiplication by ten and the rounding lose nothing. *)
Theorem amps_roundtrip `{FloatToUint16} (r : Z) :
  is_uint16 r → EncodeAmps (DecodeAmps r) = r.
Proof. apply EncodeAmps_DecodeAmps. Qed.

Lemma amps_roundtrip_witness :
  let oor : FloatToUint16 := λ _, 0 in
  is_uint16 625 ∧ EncodeAmps (DecodeAmps 625) = 625.
Proof. cbv zeta. split; [vm_compute; done|]. by apply (amps_roundtrip 625). Defined.
