(* ===== verification/Block.v ===== *)
(** * Register blocks and snapshots (internal/inverter/block.go)

    A [Block] is a run of raw uint16 words from an absolute Modbus address, a
    [Snapshot] the blocks of one poll; every read is resolved by absolute
    address. *)

From S2P Require Import Prelude GoInt.

(** ** Data *)

Record Block : Type := { Base : Z; Regs : list Z }.

(** [type Snapshot []Block] *)
Abbreviation Snapshot := (list Block).

Definition ErrRegisterOutOfRange : error :=
  Sentinel "register address out of range".

(** ** Locating a register *)

Definition index (b : Block) (addr : Z) : option Z :=
  let i := addr - Base b in
  if (i <? 0) || (Z.of_nat (length (Regs b)) <=? i) then None else Some i.

Definition contains (b : Block) (addr : Z) : bool :=
  match index b addr with Some _ => true | None => false end.

Definition regAt (regs : list Z) (base addr : Z) : option Z :=
  let i := addr - base in
  if (i <? 0) || (Z.of_nat (length regs) <=? i) then None
  else regs !! Z.to_nat i.

(** ** Primitive reads *)

Definition u16 (regs : list Z) (base addr : Z) : option Z := regAt regs base addr.

Definition s16 (regs : list Z) (base addr : Z) : option Z :=
  match regAt regs base addr with
  | Some v => Some (to_int16 v)
  | None => None
  end.

Definition u32 (regs : list Z) (base addr : Z) : option Z :=
  match regAt regs base addr with
  | None => None
  | Some hi =>
      match regAt regs base (addr + 1) with
      | None => None
      | Some lo => Some (Z.lor (to_uint32 (Z.shiftl (to_uint32 hi) 16)) (to_uint32 lo))
      end
  end.

Definition s32 (regs : list Z) (base addr : Z) : option Z :=
  match u32 regs base addr with
  | Some v => Some (to_int32 v)
  | None => None
  end.

(** The error context [fmt.Errorf("<kind> %d: %w", addr, ...)] of a failed read. *)
Definition out_of_range {A} (kind : string) (addr : Z) : result A :=
  Err (Wrapf (kind +:+ " " +:+ pretty addr) ErrRegisterOutOfRange).

Definition Block_U16 (b : Block) (addr : Z) : result Z :=
  match u16 (Regs b) (Base b) addr with
  | None => out_of_range "u16" addr
  | Some v => Ok v
  end.

Definition Block_S16 (b : Block) (addr : Z) : result Z :=
  match s16 (Regs b) (Base b) addr with
  | None => out_of_range "s16" addr
  | Some v => Ok v
  end.

Definition Block_U32 (b : Block) (addr : Z) : result Z :=
  match u32 (Regs b) (Base b) addr with
  | None => out_of_range "u32" addr
  | Some v => Ok v
  end.

Definition Block_S32 (b : Block) (addr : Z) : result Z :=
  match s32 (Regs b) (Base b) addr with
  | None => out_of_range "s32" addr
  | Some v => Ok v
  end.

(** ** Snapshot reads *)

(** The first block that contains [addr]. *)
Fixpoint block (s : Snapshot) (addr : Z) : option Block :=
  match s with
  | [] => None
  | b :: s' => if contains b addr then Some b else block s' addr
  end.

Definition U16 (s : Snapshot) (addr : Z) : result Z :=
  match block s addr with
  | None => out_of_range "u16" addr
  | Some b => Block_U16 b addr
  end.

Definition S16 (s : Snapshot) (addr : Z) : result Z :=
  match block s addr with
  | None => out_of_range "s16" addr
  | Some b => Block_S16 b addr
  end.

Definition U32 (s : Snapshot) (addr : Z) : result Z :=
  match block s addr with
  | None => out_of_range "u32" addr
  | Some b => Block_U32 b addr
  end.

Definition S32 (s : Snapshot) (addr : Z) : result Z :=
  match block s addr with
  | None => out_of_range "s32" addr
  | Some b => Block_S32 b addr
  end.

(** ** Well-formedness: every word is a uint16 *)

Definition Block_wf (b : Block) : Prop := Forall is_uint16 (Regs b).
Definition Snapshot_wf (s : Snapshot) : Prop := Forall Block_wf s.

#[export] Instance Block_wf_dec b : Decision (Block_wf b).
Proof. unfold Block_wf. apply _. Defined.
#[export] Instance Snapshot_wf_dec s : Decision (Snapshot_wf s).
Proof. unfold Snapshot_wf. apply _. Defined.

(** ** Lemmas *)

Lemma regAt_Some regs base addr v :
  regAt regs base addr = Some v ↔ base ≤ addr ∧ regs !! Z.to_nat (addr - base) = Some v.
Proof.
  unfold regAt. destruct (orb _ _) eqn:E.
  - split; [done|]. intros [Hb Hl]. apply lookup_lt_Some in Hl.
    apply orb_true_iff in E as [E|E]; bool_arith; lia.
  - bool_arith. split; [intros ?; split; [lia|done]|tauto].
Qed.

Lemma regAt_None regs base addr :
  regAt regs base addr = None ↔ addr < base ∨ base + Z.of_nat (length regs) ≤ addr.
Proof.
  unfold regAt. destruct (orb _ _) eqn:E.
  - apply orb_true_iff in E. split; [intros _|done]. destruct E; bool_arith; lia.
  - bool_arith. rewrite lookup_ge_None. lia.
Qed.

Lemma contains_spec b addr :
  contains b addr = true ↔ Base b ≤ addr < Base b + Z.of_nat (length (Regs b)).
Proof.
  unfold contains, index. destruct (orb _ _) eqn:E.
  - apply orb_true_iff in E. split; [done|]. destruct E; bool_arith; lia.
  - bool_arith. split; [lia|done].
Qed.

Lemma contains_regAt b addr :
  contains b addr = true ↔ is_Some (regAt (Regs b) (Base b) addr).
Proof.
  rewrite contains_spec, <- not_eq_None_Some, regAt_None. lia.
Qed.

Lemma block_Some s addr b : block s addr = Some b → b ∈ s ∧ contains b addr = true.
Proof.
  induction s as [|b' s IH]; cbn; [done|]. destruct (contains b' addr) eqn:E.
  - intros [= ->]. split; [left|done].
  - intros H. destruct (IH H). split; [by right|done].
Qed.

Lemma block_None s addr : block s addr = None ↔ ∀ b, b ∈ s → contains b addr = false.
Proof.
  induction s as [|b' s IH]; cbn.
  - split; [intros _ b Hb; by apply elem_of_nil in Hb|done].
  - destruct (contains b' addr) eqn:E.
    + split; [done|]. intros H. rewrite (H b') in E; [done|left].
    + rewrite IH. setoid_rewrite elem_of_cons. naive_solver.
Qed.

Lemma regAt_wf regs base addr v :
  Forall is_uint16 regs → regAt regs base addr = Some v → is_uint16 v.
Proof.
  intros Hf [_ Hl]%regAt_Some. by eapply Forall_lookup_1.
Qed.

Lemma u32_Some regs base addr hi lo :
  regAt regs base addr = Some hi → regAt regs base (addr + 1) = Some lo →
  is_uint16 hi → is_uint16 lo →
  u32 regs base addr = Some (hi * 65536 + lo).
Proof.
  intros H1 H2 Hh Hl. unfold u32. rewrite H1, H2. f_equal.
  assert (to_uint32 (Z.shiftl (to_uint32 hi) 16) = Z.shiftl hi 16) as ->.
  { rewrite !Z.shiftl_mul_pow2 by lia. int_unfold.
    rewrite (Z.mod_small hi) by lia. apply Z.mod_small. lia. }
  assert (to_uint32 lo = lo) as ->.
  { int_unfold. apply Z.mod_small. lia. }
  by apply (shiftl_lor_add hi lo 16).
Qed.

Lemma out_of_range_Is {A} kind addr e :
  (out_of_range kind addr : result A) = Err e →
  errors_Is e "register address out of range" = true.
Proof. intros [= <-]. reflexivity. Qed.

Lemma u32_None regs base addr :
  u32 regs base addr = None ↔
  regAt regs base addr = None ∨ regAt regs base (addr + 1) = None.
Proof.
  unfold u32. destruct (regAt regs base addr), (regAt regs base (addr + 1)); naive_solver.
Qed.

Lemma U16_Ok s addr v :
  U16 s addr = Ok v ↔ ∃ b, block s addr = Some b ∧ regAt (Regs b) (Base b) addr = Some v.
Proof.
  unfold U16, Block_U16, u16. destruct (block s addr) as [b|]; [|naive_solver].
  destruct (regAt (Regs b) (Base b) addr) eqn:E; naive_solver.
Qed.

Lemma U16_range s addr v : Snapshot_wf s → U16 s addr = Ok v → is_uint16 v.
Proof.
  intros Hs (b & Hb & Hv)%U16_Ok. apply block_Some in Hb as [Hin _].
  eapply regAt_wf; [|done]. by eapply (proj1 (Forall_forall _ _) Hs).
Qed.

Lemma S16_U16 s addr :
  S16 s addr = match U16 s addr with
               | Ok v => Ok (to_int16 v)
               | Err _ => out_of_range "s16" addr
               end.
Proof.
  unfold S16, U16, Block_S16, Block_U16, s16, u16.
  destruct (block s addr) as [b|]; [|done]. by destruct (regAt _ _ _).
Qed.

Lemma S32_U32 s addr :
  S32 s addr = match U32 s addr with
               | Ok v => Ok (to_int32 v)
               | Err _ => out_of_range "s32" addr
               end.
Proof.
  unfold S32, U32, Block_S32, Block_U32, s32.
  destruct (block s addr) as [b|]; [|done]. by destruct (u32 _ _ _).
Qed.

Lemma words_of s a b a' v : Snapshot_wf s → block s a = Some b →
  regAt (Regs b) (Base b) a' = Some v → is_uint16 v.
Proof.
  intros Hs [Hin _]%block_Some Hv. eapply regAt_wf; [|done].
  by apply (proj1 (Forall_forall _ _) Hs).
Qed.

Lemma U32_spec s a : Snapshot_wf s → ∀ v, U32 s a = Ok v ↔ ∃ b hi lo, block s a = Some b ∧
  regAt (Regs b) (Base b) a = Some hi ∧ regAt (Regs b) (Base b) (a + 1) = Some lo ∧
  v = hi * 65536 + lo.
Proof.
  intros Hs v. unfold U32, Block_U32. destruct (block s a) as [b|] eqn:Eb; [|naive_solver].
  destruct (u32 _ _ _) as [u|] eqn:Eu.
  - pose proof Eu as Eu'. unfold u32 in Eu'.
    destruct (regAt (Regs b) (Base b) a) as [hi|] eqn:E1; [|done].
    destruct (regAt (Regs b) (Base b) (a + 1)) as [lo|] eqn:E2; [|done]. clear Eu'.
    rewrite (u32_Some _ _ _ hi lo E1 E2) in Eu by (by eapply (words_of s a b)).
    injection Eu as <-. split; [intros [= <-]; naive_solver|].
    intros (b' & hi' & lo' & [= <-] & H1 & H2 & ->). rewrite E1 in H1. rewrite E2 in H2. congruence.
  - split; [done|]. intros (b' & hi' & lo' & [= <-] & H1 & H2 & _).
    apply u32_None in Eu as [Eu|Eu]; congruence.
Qed.

Lemma Ok_inj_iff {A} (x y : A) : Ok x = Ok y ↔ x = y.
Proof. split; congruence. Qed.

(** ** Snapshots that cover an address range *)

(** [s] holds exactly [bank] on the addresses [lo .. hi-1], in one block. *)
Definition holds_bank (s : Snapshot) (bank : Z → Z) (lo hi : Z) : Prop :=
  ∀ addr, lo ≤ addr < hi →
    ∃ b, block s addr = Some b ∧
      ∀ a, lo ≤ a < hi → regAt (Regs b) (Base b) a = Some (bank a).

Lemma holds_bank_U16 s bank lo hi addr :
  holds_bank s bank lo hi → lo ≤ addr < hi → U16 s addr = Ok (bank addr).
Proof. intros H Ha. apply U16_Ok. destruct (H addr Ha) as (b & ? & ?). eauto. Qed.

Lemma holds_bank_S16 s bank lo hi addr :
  holds_bank s bank lo hi → lo ≤ addr < hi → S16 s addr = Ok (to_int16 (bank addr)).
Proof. intros H Ha. by rewrite S16_U16, (holds_bank_U16 _ _ _ _ _ H Ha). Qed.

Lemma holds_bank_U32 s bank lo hi addr :
  holds_bank s bank lo hi → lo ≤ addr → addr + 1 < hi →
  is_uint16 (bank addr) → is_uint16 (bank (addr + 1)) →
  U32 s addr = Ok (bank addr * 65536 + bank (addr + 1)).
Proof.
  intros H Ha Hb H1 H2. destruct (H addr ltac:(lia)) as (b & Hbl & Hr).
  unfold U32, Block_U32. rewrite Hbl.
  by rewrite (u32_Some _ _ _ (bank addr) (bank (addr + 1))) by (done || apply Hr; lia).
Qed.

Lemma holds_bank_S32 s bank lo hi addr :
  holds_bank s bank lo hi → lo ≤ addr → addr + 1 < hi →
  is_uint16 (bank addr) → is_uint16 (bank (addr + 1)) →
  S32 s addr = Ok (to_int32 (bank addr * 65536 + bank (addr + 1))).
Proof. intros. by erewrite S32_U32, holds_bank_U32. Qed.

(** A block read back from a bank: [n] words from [base]. *)
Definition bank_words (bank : Z → Z) (base : Z) (n : nat) : list Z :=
  (λ i, bank (base + Z.of_nat i)) <$> seq 0 n.

Lemma bank_words_ext f g a n : (∀ x, f x = g x) → bank_words f a n = bank_words g a n.
Proof. intros H. unfold bank_words. apply list_fmap_ext. intros i x _. apply H. Qed.

Lemma bank_words_length bank base n : length (bank_words bank base n) = n.
Proof. unfold bank_words. by rewrite length_fmap, length_seq. Qed.

Lemma bank_words_lookup bank base n i :
  (i < n)%nat → bank_words bank base n !! i = Some (bank (base + Z.of_nat i)).
Proof. intros H. unfold bank_words. by rewrite list_lookup_fmap, lookup_seq_lt by done. Qed.

Lemma regAt_bank_words bank base n addr :
  base ≤ addr < base + Z.of_nat n → regAt (bank_words bank base n) base addr = Some (bank addr).
Proof.
  intros H. apply regAt_Some. split; [lia|].
  rewrite bank_words_lookup by lia. f_equal. f_equal. lia.
Qed.

Lemma holds_bank_single bank base n lo hi : base ≤ lo → hi ≤ base + Z.of_nat n →
  holds_bank [ {| Base := base; Regs := bank_words bank base n |} ] bank lo hi.
Proof.
  intros Hlo Hhi addr Ha. exists {| Base := base; Regs := bank_words bank base n |}. cbn [block].
  assert (contains {| Base := base; Regs := bank_words bank base n |} addr = true) as ->.
  { apply contains_spec. cbn [Base Regs]. rewrite bank_words_length. lia. }
  split; [done|]. intros a Ha'. cbn [Base Regs]. apply regAt_bank_words. lia.
Qed.

Lemma bank_words_wf bank base n :
  (∀ a, is_uint16 (bank a)) → Forall is_uint16 (bank_words bank base n).
Proof. intros H. unfold bank_words. apply Forall_fmap, Forall_forall. intros. apply H. Qed.

#[export] Hint Rewrite bank_words_length : go.

(** ** Property *)

(** Reads resolve by absolute address.  A 32-bit read succeeds exactly when the
    first block that contains the address also contains the next one, and is then
    the high word first; the signed reads are the two's complement view, in range;
    every failing read is [ErrRegisterOutOfRange]. *)
Theorem snapshot_reads (s : Snapshot) (a : Z) : Snapshot_wf s →
  (∀ v, U32 s a = Ok v ↔ ∃ b hi lo, block s a = Some b ∧
     regAt (Regs b) (Base b) a = Some hi ∧ regAt (Regs b) (Base b) (a + 1) = Some lo ∧
     v = hi * 65536 + lo) ∧
  (∀ v, S32 s a = Ok v ↔ is_int32 v ∧ U32 s a = Ok (v mod 2 ^ 32)) ∧
  (∀ v, S16 s a = Ok v ↔ is_int16 v ∧ U16 s a = Ok (v mod 2 ^ 16)) ∧
  (∀ e, U16 s a = Err e ∨ S16 s a = Err e ∨ U32 s a = Err e ∨ S32 s a = Err e →
     errors_Is e "register address out of range" = true).
Proof.
  intros Hs. assert (H32 := U32_spec s a Hs). split; [done|]. split; [|split].
  - intros v. rewrite S32_U32. destruct (U32 s a) as [u|e]; [|split; [done|intros [_ ?]; done]].
    destruct (proj1 (H32 u) eq_refl) as (b & hi & lo & Hb & H1 & H2 & ->).
    pose proof (words_of s a b a hi Hs Hb H1). pose proof (words_of s a b (a + 1) lo Hs Hb H2).
    rewrite Ok_inj_iff, (signed_iff 32) by int_solve. rewrite Ok_inj_iff. unfold is_int32. naive_solver.
  - intros v. rewrite S16_U16. destruct (U16 s a) as [u|e] eqn:E; [|split; [done|intros [_ ?]; done]].
    pose proof (U16_range s a u Hs E).
    rewrite Ok_inj_iff, (signed_iff 16) by int_solve. rewrite Ok_inj_iff. unfold is_int16. naive_solver.
  - unfold U16, S16, U32, S32, Block_U16, Block_S16, Block_U32, Block_S32, out_of_range.
    intros e [H|[H|[H|H]]]; repeat case_match; by simplify_eq.
Qed.

Lemma snapshot_reads_witness :
  let s := [ {| Base := 10; Regs := [65535; 65534; 3] |} ] in
  (S32 s 10 = Ok (-2) ↔ is_int32 (-2) ∧ U32 s 10 = Ok ((-2) mod 2 ^ 32)) ∧ S32 s 10 = Ok (-2) ∧
  is_Ok (U32 s 12) = false.
Proof.
  intros s. split; [|split; reflexivity].
  apply (snapshot_reads s 10). apply (bool_decide_unpack _). vm_compute. exact I.
Defined.
