(* ===== verification/WorkMode.v ===== *)
(** * Bitfield and enum registers (internal/inverter/workmode.go, bmsfault.go,
    status.go)

    The work-mode word with its read-modify-write update, the two BMS fault
    words, and the display table of the status enum. *)

From S2P Require Import Prelude GoInt GoString.

(** ** Work mode *)

Definition bitSelfUse : Z := Z.shiftl 1 0.
Definition bitTimed : Z := Z.shiftl 1 1.
Definition bitAllowGridCharge : Z := Z.shiftl 1 5.

Definition WorkModeTimedOn : Z := Z.lor (Z.lor bitSelfUse bitTimed) bitAllowGridCharge.
Definition WorkModeTimedOff : Z := Z.lor bitSelfUse bitAllowGridCharge.

Record WorkMode : Type := {
  SelfUse : bool;
  Timed : bool;
  AllowGridCharge : bool;
  Raw : Z;
}.

#[export] Instance WorkMode_eq_dec : EqDecision WorkMode.
Proof. solve_decision. Defined.

(** [raw & bit != 0] *)
Definition has_bit (raw mask : Z) : bool := negb (Z.land raw mask =? 0).

Definition DecodeWorkMode (raw : Z) : WorkMode := {|
  SelfUse := has_bit raw bitSelfUse;
  Timed := has_bit raw bitTimed;
  AllowGridCharge := has_bit raw bitAllowGridCharge;
  Raw := raw;
|}.

Definition setBit (raw mask : Z) (on : bool) : Z :=
  if on then Z.lor raw mask else Z.ldiff raw mask.

Definition Encode (w : WorkMode) : Z :=
  let raw := Raw w in
  let raw := setBit raw bitSelfUse (SelfUse w) in
  let raw := setBit raw bitTimed (Timed w) in
  setBit raw bitAllowGridCharge (AllowGridCharge w).

Definition WithTimed (w : WorkMode) (on : bool) : WorkMode :=
  DecodeWorkMode (setBit (Raw w) bitTimed on).

(** ** BMS fault words *)

Definition bitBMSOverVoltage : Z := Z.shiftl 1 1.
Definition bitBMSUnderVoltage : Z := Z.shiftl 1 2.
Definition bitBMSOverTemp : Z := Z.shiftl 1 3.
Definition bitBMSUnderTemp : Z := Z.shiftl 1 4.
Definition bitBMSChargeOverTemp : Z := Z.shiftl 1 5.
Definition bitBMSChargeUnderTemp : Z := Z.shiftl 1 6.
Definition bitBMSDischargeOverCurrent : Z := Z.shiftl 1 7.

Definition bitBMSChargeOverCurrent : Z := Z.shiftl 1 0.
Definition bitBMSInternal : Z := Z.shiftl 1 3.
Definition bitBMSModuleUnbalanced : Z := Z.shiftl 1 4.

Record BMSFault1 : Type := {
  OverVoltage : bool;
  UnderVoltage : bool;
  OverTemp : bool;
  UnderTemp : bool;
  ChargeOverTemp : bool;
  ChargeUnderTemp : bool;
  DischargeOverCurrent : bool;
  Raw1 : Z;
}.

Definition DecodeBMSFault1 (raw : Z) : BMSFault1 := {|
  OverVoltage := has_bit raw bitBMSOverVoltage;
  UnderVoltage := has_bit raw bitBMSUnderVoltage;
  OverTemp := has_bit raw bitBMSOverTemp;
  UnderTemp := has_bit raw bitBMSUnderTemp;
  ChargeOverTemp := has_bit raw bitBMSChargeOverTemp;
  ChargeUnderTemp := has_bit raw bitBMSChargeUnderTemp;
  DischargeOverCurrent := has_bit raw bitBMSDischargeOverCurrent;
  Raw1 := raw;
|}.

Definition Any1 (f : BMSFault1) : bool := negb (Raw1 f =? 0).

Record BMSFault2 : Type := {
  ChargeOverCurrent : bool;
  BMSInternal : bool;
  ModuleUnbalanced : bool;
  Raw2 : Z;
}.

Definition DecodeBMSFault2 (raw : Z) : BMSFault2 := {|
  ChargeOverCurrent := has_bit raw bitBMSChargeOverCurrent;
  BMSInternal := has_bit raw bitBMSInternal;
  ModuleUnbalanced := has_bit raw bitBMSModuleUnbalanced;
  Raw2 := raw;
|}.

Definition Any2 (f : BMSFault2) : bool := negb (Raw2 f =? 0).

(** ** Status enum *)

(** The entries of the Go map literal, in source order. *)
Definition status_table : list (Z * string) := [
  (0x0000, "Waiting"); (0x0001, "OpenRun"); (0x0002, "SoftRun");
  (0x0003, "Generating"); (0x0004, "Standby"); (0x0005, "StandbySynoch");
  (0x0006, "GridToLoad"); (0x000F, "Normal"); (0x1004, "Grid Off");
  (0x1010, "OV-G-V"); (0x1011, "UN-G-V"); (0x1012, "OV-G-F");
  (0x1013, "UN-G-F"); (0x1014, "Reve-Grid"); (0x1015, "NO-Grid");
  (0x1016, "G-PHASE"); (0x1017, "G-F-FLU"); (0x1018, "OV-G-I");
  (0x1019, "IGFOL-F");
  (0x1020, "OV-DC"); (0x1021, "OV-BUS"); (0x1022, "UNB-BUS");
  (0x1023, "UN-BUS"); (0x1024, "UNB2-BUS"); (0x1025, "OV-DCA-I");
  (0x1026, "OV-DCB-I"); (0x1027, "DC-INTF."); (0x1028, "Reve-DC");
  (0x1029, "PvMidIso");
  (0x1030, "GRID-INTF."); (0x1031, "INI-FAULT"); (0x1032, "OV-TEM");
  (0x1033, "PV ISO-PRO"); (0x1034, "ILeak-PRO"); (0x1035, "RelayChk-FAIL");
  (0x1036, "DSP-B-FAULT"); (0x1037, "DCInj-FAULT"); (0x1038, "12Power-FAULT");
  (0x1039, "ILeak-Check"); (0x103A, "UN-TEM");
  (0x1040, "AFCI-Check"); (0x1041, "ARC-FAULT"); (0x1042, "RAM-FAULT");
  (0x1043, "FLASH-FAULT"); (0x1044, "PC-FAULT"); (0x1045, "REG-FAULT");
  (0x1046, "GRID-INTF02"); (0x1047, "IG-AD"); (0x1048, "IGBT-OV-I");
  (0x1050, "OV-IgTr"); (0x1051, "OV-Vbatt-H"); (0x1052, "OV-ILLC");
  (0x1053, "OV-Vbatt"); (0x1054, "UN-Vbatt"); (0x1055, "NO-Battery");
  (0x1056, "OV-VBackup"); (0x1057, "Over-Load"); (0x1058, "DspSelfChk");
  (0x2010, "Fail Safe"); (0x2011, "MET_Comm_FAIL"); (0x2012, "CAN_Comm_FAIL");
  (0x2014, "DSP_Comm_FAIL"); (0x2015, "Alarm-BMS"); (0x2016, "BatName-FAIL");
  (0x2017, "Alarm2-BMS"); (0x2018, "DRM_LINK_FAIL"); (0x2019, "MET_SEL_FAIL");
  (0x2020, "HighTemp.AMB"); (0x2021, "LowTemp.AMB");
  (0xF010, "Surge Alarm"); (0xF011, "Fan Alarm")
].

Definition statusLabels : gmap Z string := list_to_map status_table.

Definition StatusLabel (code : Z) : string :=
  match statusLabels !! code with
  | Some label => label
  | None => "0x" +:+ fmt_04X code
  end.

(** ** Lemmas *)

Lemma has_bit_testbit raw i : 0 ≤ i → has_bit raw (Z.shiftl 1 i) = Z.testbit raw i.
Proof.
  intros Hi. unfold has_bit. rewrite Z.shiftl_1_l. by apply land_bit_testbit.
Qed.

Lemma testbit_mask i n : 0 ≤ i → 0 ≤ n → Z.testbit (Z.shiftl 1 i) n = (i =? n).
Proof.
  intros Hi Hn. rewrite Z.shiftl_1_l, Z.pow2_bits_eqb by lia. done.
Qed.

(** What [setBit] does to each bit. *)
Lemma setBit_testbit raw i on n : 0 ≤ i → 0 ≤ n →
  Z.testbit (setBit raw (Z.shiftl 1 i) on) n = if i =? n then on else Z.testbit raw n.
Proof.
  intros Hi Hn. unfold setBit. destruct on.
  - rewrite Z.lor_spec, testbit_mask by done. destruct (i =? n); by rewrite ?orb_true_r, ?orb_false_r.
  - rewrite Z.ldiff_spec, testbit_mask by done.
    destruct (i =? n); by rewrite ?andb_false_r, ?andb_true_r.
Qed.

Lemma setBit_id raw i : 0 ≤ i → setBit raw (Z.shiftl 1 i) (Z.testbit raw i) = raw.
Proof.
  intros Hi. apply Z.bits_inj'. intros n Hn. rewrite setBit_testbit by done.
  by destruct (Z.eqb_spec i n) as [->|].
Qed.

Lemma setBit_uint16 raw i on : 0 ≤ i < 16 → is_uint16 raw →
  is_uint16 (setBit raw (Z.shiftl 1 i) on).
Proof.
  intros Hi Hr. unfold setBit. destruct on; [|by apply ldiff_uint16].
  apply lor_uint16; [done|]. rewrite Z.shiftl_1_l. split; [apply Z.pow_nonneg; lia|].
  apply Z.pow_lt_mono_r; lia.
Qed.

#[export] Hint Resolve setBit_uint16 : word.
#[export] Hint Rewrite setBit_testbit has_bit_testbit using lia : go.

(** Unfolds the named masks to their shift form. *)
Ltac masks :=
  unfold bitSelfUse, bitTimed, bitAllowGridCharge, bitBMSOverVoltage,
    bitBMSUnderVoltage, bitBMSOverTemp, bitBMSUnderTemp, bitBMSChargeOverTemp,
    bitBMSChargeUnderTemp, bitBMSDischargeOverCurrent, bitBMSChargeOverCurrent,
    bitBMSInternal, bitBMSModuleUnbalanced.

Lemma Encode_testbit w n : 0 ≤ n →
  Z.testbit (Encode w) n =
    if n =? 5 then AllowGridCharge w else if n =? 1 then Timed w
    else if n =? 0 then SelfUse w else Z.testbit (Raw w) n.
Proof.
  intros Hn. unfold Encode. masks. rewrite !setBit_testbit by lia.
  by rewrite (Z.eqb_sym 5), (Z.eqb_sym 1), (Z.eqb_sym 0).
Qed.

(** Status labels: the table is a map, its labels are distinct and none looks
    like a hexadecimal fallback. *)
Lemma status_table_ok :
  NoDup (status_table.*1) ∧ NoDup (status_table.*2) ∧
  Forall (λ p, strip_prefix "0x" p.2 = None) status_table.
Proof.
  split_and!.
  - apply (bool_decide_unpack _). vm_compute. exact I.
  - apply (bool_decide_unpack _). vm_compute. exact I.
  - apply (bool_decide_unpack _). vm_compute. exact I.
Qed.

Lemma statusLabels_Some code label :
  statusLabels !! code = Some label ↔ (code, label) ∈ status_table.
Proof.
  unfold statusLabels. symmetry. apply elem_of_list_to_map, status_table_ok.
Qed.

Definition hex_val (c : Ascii.ascii) : Z :=
  if code c <? 58 then code c - 48 else code c - 55.

Lemma hex_val_char d : 0 ≤ d < 16 → hex_val (hex_char d) = d.
Proof.
  intros Hd. assert (d ∈ seqZ 0 16) as Hin by (apply elem_of_seqZ; lia).
  clear Hd. revert d Hin. apply Forall_forall. repeat (constructor; [reflexivity|]). constructor.
Qed.

Lemma nibbles a : is_uint16 a →
  a = (a / 4096 mod 16) * 4096 + (a / 256 mod 16) * 256 + (a / 16 mod 16) * 16 + a mod 16.
Proof. int_unfold. intros. Z.div_mod_to_equations. lia. Qed.

Lemma fmt_04X_inj a b : is_uint16 a → is_uint16 b → fmt_04X a = fmt_04X b → a = b.
Proof.
  intros Ha Hb E. unfold fmt_04X in E. injection E as E3 E2 E1 E0.
  apply (f_equal hex_val) in E3, E2, E1, E0.
  rewrite !hex_val_char in E3, E2, E1, E0 by (apply Z.mod_pos_bound; lia).
  rewrite (nibbles a), (nibbles b) by done. congruence.
Qed.

Lemma snd_inj {A B} (l : list (A * B)) a a' b :
  NoDup (l.*2) → (a, b) ∈ l → (a', b) ∈ l → a = a'.
Proof.
  intros Hnd [i Hi]%list_elem_of_lookup [j Hj]%list_elem_of_lookup.
  assert (i = j) as ->; [|congruence].
  eapply (NoDup_lookup _ i j b); [done|by rewrite list_lookup_fmap, Hi|by rewrite list_lookup_fmap, Hj].
Qed.

Lemma work_mode_facts (raw : Z) (on : bool) :
  is_uint16 raw →
  let raw' := Encode (WithTimed (DecodeWorkMode raw) on) in
  Encode (DecodeWorkMode raw) = raw ∧
  is_uint16 raw' ∧
  Timed (DecodeWorkMode raw') = on ∧
  (∀ n, 0 ≤ n → n ≠ 1 → Z.testbit raw' n = Z.testbit raw n).
Proof.
  intros Hr. cbv zeta.
  assert (∀ r, Encode (DecodeWorkMode r) = r) as Hlossless.
  { intros r. unfold Encode, DecodeWorkMode; cbn. masks.
    rewrite !has_bit_testbit by lia. by rewrite !setBit_id by lia. }
  unfold WithTimed. rewrite !Hlossless. cbn. masks. split_and!.
  - done.
  - by apply setBit_uint16.
  - by rewrite has_bit_testbit, setBit_testbit by lia.
  - intros n Hn Hne. rewrite setBit_testbit by lia. by destruct (Z.eqb_spec 1 n); [lia|].
Qed.

Lemma timed_bit raw : Timed (DecodeWorkMode raw) = Z.testbit raw 1.
Proof. cbn. masks. by rewrite has_bit_testbit by lia. Qed.

(** ** Properties *)

(** C40: The work-mode codec.  Decoding a word and encoding it again gives the word
    back, reserved bits included; and the read-modify-write update that flips
    "optimal income" changes bit 1 to the requested value, leaves every other
    bit as it was, stays a uint16 and reads back as requested. *)
Theorem work_mode_update (raw : Z) (on : bool) :
  is_uint16 raw →
  let raw' := Encode (WithTimed (DecodeWorkMode raw) on) in
  Encode (DecodeWorkMode raw) = raw ∧
  is_uint16 raw' ∧
  Timed (DecodeWorkMode raw') = on ∧
  (∀ n, 0 ≤ n → n ≠ 1 → Z.testbit raw' n = Z.testbit raw n).
Proof. apply work_mode_facts. Qed.

Lemma work_mode_update_witness :
  is_uint16 35 ∧ Encode (WithTimed (DecodeWorkMode 35) false) = 33 ∧
  Timed (DecodeWorkMode 33) = false.
Proof.
  split; [vm_compute; done|]. split; [vm_compute; done|].
  exact (proj1 (proj2 (proj2 (work_mode_update 35 false ltac:(vm_compute; done))))).
Defined.

(** The BMS fault decode: every flag is its register bit, the raw words are
    kept, and a word is reported as "no fault" exactly when it is zero, so a
    fault on a reserved bit is never hidden. *)
Theorem bms_fault_decode (r1 r2 : Z) :
  let f1 := DecodeBMSFault1 r1 in
  let f2 := DecodeBMSFault2 r2 in
  [OverVoltage f1; UnderVoltage f1; OverTemp f1; UnderTemp f1;
   ChargeOverTemp f1; ChargeUnderTemp f1; DischargeOverCurrent f1]
    = Z.testbit r1 <$> [1; 2; 3; 4; 5; 6; 7] ∧
  [ChargeOverCurrent f2; BMSInternal f2; ModuleUnbalanced f2]
    = Z.testbit r2 <$> [0; 3; 4] ∧
  Raw1 f1 = r1 ∧ Raw2 f2 = r2 ∧
  (Any1 f1 = false ↔ r1 = 0) ∧ (Any2 f2 = false ↔ r2 = 0).
Proof.
  cbn. masks. rewrite !has_bit_testbit by lia.
  unfold Any1, Any2; cbn. rewrite !negb_false_iff, !Z.eqb_eq. done.
Qed.

(** Status labels never mislabel: a listed code prints its table entry, an
    unlisted one "0x" and its four hexadecimal digits, and two different status
    words never print the same label. *)
Theorem status_label_faithful (a b : Z) :
  is_uint16 a → is_uint16 b →
  (∀ label, (a, label) ∈ status_table → StatusLabel a = label) ∧
  (a ∉ status_table.*1 → StatusLabel a = "0x" +:+ fmt_04X a) ∧
  (StatusLabel a = StatusLabel b → a = b).
Proof.
  intros Ha Hb. destruct status_table_ok as (_ & Hnd & Hhex).
  rewrite Forall_forall in Hhex. unfold StatusLabel. split_and!.
  - intros label Hl%statusLabels_Some. by rewrite Hl.
  - intros Hn. destruct (statusLabels !! a) as [l|] eqn:E; [|done].
    apply statusLabels_Some in E. destruct Hn. apply list_elem_of_fmap. by exists (a, l).
  - destruct (statusLabels !! a) as [la|] eqn:Ea, (statusLabels !! b) as [lb|] eqn:Eb.
    + rewrite statusLabels_Some in Ea, Eb. intros ->. by eapply snd_inj.
    + apply statusLabels_Some, Hhex in Ea; cbn in Ea. intros ->. done.
    + apply statusLabels_Some, Hhex in Eb; cbn in Eb. intros <-. done.
    + intros E. apply fmt_04X_inj; [done..|]. by apply (inj (String.app "0x")) in E.
Qed.

Lemma status_label_faithful_witness :
  StatusLabel 0x2015 = "Alarm-BMS" ∧ StatusLabel 0xBEEF = "0xBEEF" ∧
  (StatusLabel 0x2015 = StatusLabel 0xBEEF → 0x2015 = 0xBEEF).
Proof.
  split; [reflexivity|]. split; [reflexivity|].
  exact (proj2 (proj2 (status_label_faithful 0x2015 0xBEEF
    ltac:(vm_compute; done) ltac:(vm_compute; done)))).
Defined.
