(* ===== verification/Registers.v ===== *)
(** * Register addresses (internal/inverter/registers.go)

    Absolute Modbus addresses the program reads or writes. *)

From S2P Require Import Prelude.

(** ** Input registers (fc04) *)

Definition RegRTCRead : Z := 33022.
Definition RegGenerationToday : Z := 33035.
Definition RegGenerationYesterday : Z := 33036.
Definition RegPV1Voltage : Z := 33049.
Definition RegPV1Current : Z := 33050.
Definition RegPV2Voltage : Z := 33051.
Definition RegPV2Current : Z := 33052.
Definition RegTotalPVPower : Z := 33057.
Definition RegACActivePower : Z := 33079.
Definition RegInverterTemperature : Z := 33093.
Definition RegGridFrequency : Z := 33094.
Definition RegInverterStatus : Z := 33095.
Definition RegOperatingStatus : Z := 33121.
Definition RegGridPower : Z := 33130.
Definition RegWorkModeReadback : Z := 33132.
Definition RegBatteryVoltage : Z := 33133.
Definition RegBatteryCurrent : Z := 33134.
Definition RegBatteryDirection : Z := 33135.
Definition RegBatterySOC : Z := 33139.
Definition RegBatterySOH : Z := 33140.
Definition RegBMSBatteryVoltage : Z := 33141.
Definition RegBMSBatteryCurrent : Z := 33142.
Definition RegBMSChargeCurrentLimit : Z := 33143.
Definition RegBMSDischargeCurrentLimit : Z := 33144.
Definition RegBMSFault1 : Z := 33145.
Definition RegBMSFault2 : Z := 33146.
Definition RegHouseLoadPower : Z := 33147.
Definition RegBatteryPower : Z := 33149.
Definition RegBatteryTotalChargeEnergy : Z := 33161.
Definition RegBatteryChargeToday : Z := 33163.
Definition RegBatteryTotalDischargeEnergy : Z := 33165.
Definition RegBatteryDischargeToday : Z := 33167.
Definition RegGridTotalImportEnergy : Z := 33169.
Definition RegGridImportToday : Z := 33171.
Definition RegGridTotalExportEnergy : Z := 33173.
Definition RegGridExportToday : Z := 33175.
Definition RegOverdischargeSOC : Z := 33213.
Definition RegForceChargeSOC : Z := 33214.

(** ** Holding registers (fc03/fc06) *)

Definition RegRTCSet : Z := 43000.
Definition RegMinSOC : Z := 43011.
Definition RegForceChargeSOCSetting : Z := 43018.
Definition RegWorkMode : Z := 43110.
Definition RegChargeDischargeEnable : Z := 43114.
Definition RegChargeDischargeDirection : Z := 43115.
Definition RegInstantCurrent : Z := 43116.
Definition RegMaxChargeCurrent : Z := 43117.
Definition RegMaxDischargeCurrent : Z := 43118.
Definition RegTimedChargeCurrent : Z := 43141.
Definition RegTimedDischargeCurrent : Z := 43142.
Definition RegTimedChargeStartHour : Z := 43143.
Definition RegTimedChargeStartMinute : Z := 43144.
Definition RegTimedChargeEndHour : Z := 43145.
Definition RegTimedChargeEndMinute : Z := 43146.
Definition RegTimedDischargeStartHour : Z := 43147.
Definition RegTimedDischargeStartMin : Z := 43148.
Definition RegTimedDischargeEndHour : Z := 43149.
Definition RegTimedDischargeEndMin : Z := 43150.
Definition RegTimedSlotStride : Z := 10.
Definition RegTimedSlot2Base : Z := RegTimedChargeCurrent + RegTimedSlotStride.
Definition RegTimedSlot3Base : Z := RegTimedChargeCurrent + 2 * RegTimedSlotStride.

(** Registers of an RTC block (y/mo/d/h/mi/s). *)
Definition rtcRegisterCount : nat := 6.

(** Unfolds every address to its number, for arithmetic. *)
Ltac regs :=
  unfold RegRTCRead, RegGenerationToday, RegGenerationYesterday, RegPV1Voltage,
    RegPV1Current, RegPV2Voltage, RegPV2Current, RegTotalPVPower,
    RegACActivePower, RegInverterTemperature, RegGridFrequency,
    RegInverterStatus, RegOperatingStatus, RegGridPower, RegWorkModeReadback,
    RegBatteryVoltage, RegBatteryCurrent, RegBatteryDirection, RegBatterySOC,
    RegBatterySOH, RegBMSBatteryVoltage, RegBMSBatteryCurrent,
    RegBMSChargeCurrentLimit, RegBMSDischargeCurrentLimit, RegBMSFault1,
    RegBMSFault2, RegHouseLoadPower, RegBatteryPower,
    RegBatteryTotalChargeEnergy, RegBatteryChargeToday,
    RegBatteryTotalDischargeEnergy, RegBatteryDischargeToday,
    RegGridTotalImportEnergy, RegGridImportToday, RegGridTotalExportEnergy,
    RegGridExportToday, RegOverdischargeSOC, RegForceChargeSOC, RegRTCSet,
    RegWorkMode, RegMaxChargeCurrent, RegMaxDischargeCurrent,
    RegTimedChargeCurrent, RegTimedDischargeCurrent, RegTimedChargeStartHour,
    RegTimedChargeStartMinute, RegTimedChargeEndHour, RegTimedChargeEndMinute,
    RegTimedDischargeStartHour, RegTimedDischargeStartMin,
    RegTimedDischargeEndHour, RegTimedDischargeEndMin, RegTimedSlotStride,
    RegTimedSlot2Base, RegTimedSlot3Base in *.
