(* ===== verification/TimedSlots.v ===== *)
(** * Timed charge slots (internal/inverter/schedule.go)

    Clocks, windows and slots, their decode from holding registers, the strict
    HH:MM parser, and the ordered expansion of a slot into register writes. *)

From Stdlib Require Import Ascii.
From S2P Require Import Prelude GoInt GoString Block Registers.

(** ** Data *)

Definition maxHour : Z := 23.
Definition maxMinute : Z := 59.

Record Clock : Type := { ClockHour : Z; ClockMinute : Z }.

Record TimedWindow : Type := { Start : Clock; End_ : Clock }.

Record TimedSlot : Type := { Charge_ : TimedWindow; Discharge_ : TimedWindow }.

(** [type TimedSlots [3]TimedSlot] *)
Record TimedSlots : Type := { slot0 : TimedSlot; slot1 : TimedSlot; slot2 : TimedSlot }.

#[export] Instance Clock_eq_dec : EqDecision Clock.
Proof. solve_decision. Defined.
#[export] Instance TimedWindow_eq_dec : EqDecision TimedWindow.
Proof. solve_decision. Defined.
#[export] Instance TimedSlot_eq_dec : EqDecision TimedSlot.
Proof. solve_decision. Defined.
#[export] Instance TimedSlots_eq_dec : EqDecision TimedSlots.
Proof. solve_decision. Defined.

(** The zero values. *)
Definition Clock0 : Clock := {| ClockHour := 0; ClockMinute := 0 |}.
Definition Window0 : TimedWindow := {| Start := Clock0; End_ := Clock0 |}.
Definition Slot0 : TimedSlot := {| Charge_ := Window0; Discharge_ := Window0 |}.
Definition Slots0 : TimedSlots := {| slot0 := Slot0; slot1 := Slot0; slot2 := Slot0 |}.

Definition Clock_String (c : Clock) : string :=
  fmt_02d (ClockHour c) +:+ ":" +:+ fmt_02d (ClockMinute c).

Definition IsZero (w : TimedWindow) : bool := bool_decide (w = Window0).

(** ** Register layout *)

Record timedWindowOffsets : Type := {
  startHour : Z; startMinute : Z; endHour : Z; endMinute : Z;
}.

Definition timedChargeOffsets : timedWindowOffsets := {|
  startHour := RegTimedChargeStartHour - RegTimedChargeCurrent;
  startMinute := RegTimedChargeStartMinute - RegTimedChargeCurrent;
  endHour := RegTimedChargeEndHour - RegTimedChargeCurrent;
  endMinute := RegTimedChargeEndMinute - RegTimedChargeCurrent;
|}.

Definition timedDischargeOffsets : timedWindowOffsets := {|
  startHour := RegTimedDischargeStartHour - RegTimedChargeCurrent;
  startMinute := RegTimedDischargeStartMin - RegTimedChargeCurrent;
  endHour := RegTimedDischargeEndHour - RegTimedChargeCurrent;
  endMinute := RegTimedDischargeEndMin - RegTimedChargeCurrent;
|}.

Definition timedSlotBase (i : Z) : Z := RegTimedChargeCurrent + i * RegTimedSlotStride.

(** ** Decoding *)

Definition decodeClock (s : Snapshot) (hourAddr minuteAddr : Z) : result Clock :=
  hour ← U16 s hourAddr;
  minute ← U16 s minuteAddr;
  if (maxHour <? hour) || (maxMinute <? minute) then
    Err (Errorf ("clock " +:+ pretty hour +:+ ":" +:+ pretty minute
      +:+ " (registers " +:+ pretty hourAddr +:+ "/" +:+ pretty minuteAddr
      +:+ ") out of range"))
  else Ok {| ClockHour := to_uint8 hour; ClockMinute := to_uint8 minute |}.

Definition decodeTimedWindow (s : Snapshot) (base : Z) (off : timedWindowOffsets)
  : result TimedWindow :=
  start ← wrap_err "start" (decodeClock s (base + startHour off) (base + startMinute off));
  stop ← wrap_err "end" (decodeClock s (base + endHour off) (base + endMinute off));
  Ok {| Start := start; End_ := stop |}.

(** One iteration of the loop of [DecodeTimedSlots]. *)
Definition decodeTimedSlot (s : Snapshot) (i : Z) : result TimedSlot :=
  let base := timedSlotBase i in
  charge ← wrap_err ("timed slot " +:+ pretty (i + 1) +:+ " charge")
    (decodeTimedWindow s base timedChargeOffsets);
  discharge ← wrap_err ("timed slot " +:+ pretty (i + 1) +:+ " discharge")
    (decodeTimedWindow s base timedDischargeOffsets);
  Ok {| Charge_ := charge; Discharge_ := discharge |}.

Definition DecodeTimedSlots (s : Snapshot) : result TimedSlots :=
  s0 ← decodeTimedSlot s 0;
  s1 ← decodeTimedSlot s 1;
  s2 ← decodeTimedSlot s 2;
  Ok {| slot0 := s0; slot1 := s1; slot2 := s2 |}.

(** ** Parsing *)

Definition invalid_clock (s why : string) : string := "invalid clock " +:+ fmt_q s +:+ why.

Definition ParseClock (s : string) : result Clock :=
  if negb (len s =? 5) || negb (bool_decide (char_at s 2 = Some ":"%char)) then
    Err (Errorf (invalid_clock s ": want HH:MM"))
  else
    hour ← wrap_err (invalid_clock s "") (ParseUint (str_take 2 s) 8);
    minute ← wrap_err (invalid_clock s "") (ParseUint (str_drop 3 s) 8);
    if (maxHour <? hour) || (maxMinute <? minute) then
      Err (Errorf (invalid_clock s ": out of range"))
    else Ok {| ClockHour := to_uint8 hour; ClockMinute := to_uint8 minute |}.

(** ** Encoding *)

Record Register : Type := { Addr : Z; Value : Z }.

#[export] Instance Register_eq_dec : EqDecision Register.
Proof. solve_decision. Defined.

Definition timedWindowRegisters (base : Z) (off : timedWindowOffsets) (w : TimedWindow)
  : list Register := [
  {| Addr := base + startHour off; Value := ClockHour (Start w) |};
  {| Addr := base + startMinute off; Value := ClockMinute (Start w) |};
  {| Addr := base + endHour off; Value := ClockHour (End_ w) |};
  {| Addr := base + endMinute off; Value := ClockMinute (End_ w) |} ].

(** [None] is the panic on an index outside 0..2. *)
Definition TimedSlotWriteRegisters (i : Z) (slot : TimedSlot) : option (list Register) :=
  if (i <? 0) || (2 <? i) then None
  else
    let base := timedSlotBase i in
    let charge := timedWindowRegisters base timedChargeOffsets (Charge_ slot) in
    let discharge := timedWindowRegisters base timedDischargeOffsets (Discharge_ slot) in
    if negb (IsZero (Charge_ slot)) && IsZero (Discharge_ slot)
    then Some (discharge ++ charge)
    else Some (charge ++ discharge).

(** ** Well-formedness *)

Definition Clock_wf (c : Clock) : Prop := 0 ≤ ClockHour c ≤ 23 ∧ 0 ≤ ClockMinute c ≤ 59.
Definition Window_wf (w : TimedWindow) : Prop := Clock_wf (Start w) ∧ Clock_wf (End_ w).
Definition Slot_wf (s : TimedSlot) : Prop := Window_wf (Charge_ s) ∧ Window_wf (Discharge_ s).
Definition Slots_wf (s : TimedSlots) : Prop := Slot_wf (slot0 s) ∧ Slot_wf (slot1 s) ∧ Slot_wf (slot2 s).

#[export] Instance Clock_wf_dec c : Decision (Clock_wf c).
Proof. unfold Clock_wf. solve_decision. Defined.
#[export] Instance Window_wf_dec w : Decision (Window_wf w).
Proof. unfold Window_wf. solve_decision. Defined.
#[export] Instance Slot_wf_dec s : Decision (Slot_wf s).
Proof. unfold Slot_wf. solve_decision. Defined.
#[export] Instance Slots_wf_dec s : Decision (Slots_wf s).
Proof. unfold Slots_wf. solve_decision. Defined.

(** ** Parsing and printing clocks *)

Lemma ParseClock_Ok s c : ParseClock s = Ok c ↔ Clock_wf c ∧ s = Clock_String c.
Proof.
  unfold ParseClock. split.
  - destruct (orb _ _) eqn:E; [done|]. bool_arith. apply bool_decide_eq_true in H0.
    destruct s as [|a [|b [|x [|d [|e [|? s]]]]]]; try (unfold len in H; cbn in H; lia).
    cbn in H0. injection H0 as ->. cbn [str_take str_drop]. intros Hp. result_inv.
    rename x into h, x0 into mi. apply ParseUint_two in H0 as (Hh & -> & ->), H1 as (Hm & -> & ->).
    destruct (orb _ _) eqn:E in Hp; [done|]. bool_arith. unfold maxHour, maxMinute in *.
    injection Hp as <-. unfold Clock_wf, Clock_String, to_uint8; cbn [ClockHour ClockMinute].
    change (2 ^ 8) with 256. rewrite !Z.mod_small by lia. split; [lia|].
    by rewrite !fmt_02d_two by lia.
  - intros [[Hh Hm] ->]. destruct c as [h mi]; cbn in Hh, Hm.
    unfold Clock_String; cbn [ClockHour ClockMinute]. rewrite !fmt_02d_two by lia.
    set (a := digit_char (h / 10)). set (b := digit_char (h mod 10)).
    set (d := digit_char (mi / 10)). set (e := digit_char (mi mod 10)).
    change (String a (String b "") +:+ ":" +:+ String d (String e ""))
      with (String a (String b (String ":" (String d (String e ""))))).
    cbn [str_take str_drop]. cbn -[ParseUint].
    rewrite (proj2 (ParseUint_two a b h)) by (split; [lia|split; reflexivity]).
    rewrite (proj2 (ParseUint_two d e mi)) by (split; [lia|split; reflexivity]). cbn.
    unfold maxHour, maxMinute. rewrite !(proj2 (Z.ltb_ge _ _)) by lia. cbn.
    unfold to_uint8. change (2 ^ 8) with 256. by rewrite !Z.mod_small by lia.
Qed.

Lemma ParseClock_print c : Clock_wf c → ParseClock (Clock_String c) = Ok c.
Proof. intros H. by apply ParseClock_Ok. Qed.

(** ** Register memory

    The holding bank as a function, and the slots it holds. *)
Abbreviation mem := (Z → Z).

Definition write_reg (m : mem) (r : Register) : mem :=
  λ a, if a =? Addr r then Value r else m a.
Definition write_regs (m : mem) (l : list Register) : mem := foldl write_reg m l.

Definition window_at (m : mem) (base : Z) (off : timedWindowOffsets) : TimedWindow := {|
  Start := {| ClockHour := m (base + startHour off); ClockMinute := m (base + startMinute off) |};
  End_ := {| ClockHour := m (base + endHour off); ClockMinute := m (base + endMinute off) |};
|}.

Definition slot_at (m : mem) (i : Z) : TimedSlot := {|
  Charge_ := window_at m (timedSlotBase i) timedChargeOffsets;
  Discharge_ := window_at m (timedSlotBase i) timedDischargeOffsets;
|}.

Definition slots_at (m : mem) : TimedSlots :=
  {| slot0 := slot_at m 0; slot1 := slot_at m 1; slot2 := slot_at m 2 |}.

(** [slots[i]] *)
Definition slot_of (s : TimedSlots) (i : Z) : TimedSlot :=
  if i =? 0 then slot0 s else if i =? 1 then slot1 s else slot2 s.

(** The state the ordering of the writes avoids. *)
Definition both_set (s : TimedSlot) : bool := negb (IsZero (Charge_ s)) && negb (IsZero (Discharge_ s)).

Lemma write_regs_app m l1 l2 : write_regs m (l1 ++ l2) = write_regs (write_regs m l1) l2.
Proof. apply foldl_app. Qed.

Lemma write_regs_other m l a : a ∉ (Addr <$> l) → write_regs m l a = m a.
Proof.
  revert m. induction l as [|r l IH]; intros m; cbn; [done|].
  rewrite not_elem_of_cons. intros [Hne Hl]. rewrite IH by done.
  unfold write_reg. by rewrite (proj2 (Z.eqb_neq _ _)).
Qed.

Lemma write_regs_in m l r : NoDup (Addr <$> l) → r ∈ l → write_regs m l (Addr r) = Value r.
Proof.
  revert m. induction l as [|r' l IH]; intros m; cbn; [by rewrite elem_of_nil|].
  rewrite NoDup_cons, elem_of_cons. intros [Hn Hl] [->|Hr]; [|by apply IH].
  rewrite write_regs_other by done. unfold write_reg. by rewrite Z.eqb_refl.
Qed.

Lemma write_regs_ext m m' l a : m a = m' a → write_regs m l a = write_regs m' l a.
Proof.
  revert m m'. induction l as [|r l IH]; intros m m' H; cbn; [done|].
  apply IH. unfold write_reg. by destruct (a =? Addr r).
Qed.

Lemma NoDup_addr_inj l r r' :
  NoDup (Addr <$> l) → r ∈ l → r' ∈ l → Addr r = Addr r' → r = r'.
Proof.
  intros Hnd [i Hi]%list_elem_of_lookup [j Hj]%list_elem_of_lookup E.
  assert (i = j) as ->; [|congruence].
  eapply (NoDup_lookup _ i j (Addr r)); [done|..]; rewrite list_lookup_fmap, ?Hi, ?Hj;
    cbn; congruence.
Qed.

(** Registers that already hold their value can be left out. *)
Lemma write_regs_filter m l (P : Register → Prop) `{∀ r, Decision (P r)} a :
  NoDup (Addr <$> l) → (∀ r, r ∈ l → ¬ P r → m (Addr r) = Value r) →
  write_regs m (filter P l) a = write_regs m l a.
Proof.
  intros Hnd Hskip. destruct (decide (a ∈ (Addr <$> l))) as [Hin|Hout].
  - apply list_elem_of_fmap in Hin as (r & -> & Hr).
    rewrite (write_regs_in m l) by done. destruct (decide (P r)) as [E|E].
    + apply write_regs_in.
      * eapply sublist_NoDup; [done|]. apply fmap_sublist, sublist_filter.
      * by apply list_elem_of_filter.
    + rewrite write_regs_other; [by apply Hskip|]. intros (r' & Ea & Hf)%list_elem_of_fmap.
      apply list_elem_of_filter in Hf as [HP Hr']. by rewrite (NoDup_addr_inj l r r') in E.
  - rewrite !write_regs_other; [done|done|].
    intros (r & -> & [_ Hr]%list_elem_of_filter)%list_elem_of_fmap.
    apply Hout, list_elem_of_fmap. eauto.
Qed.

Lemma IsZero_true w : IsZero w = true ↔ w = Window0.
Proof. unfold IsZero. apply bool_decide_eq_true. Qed.

(** The addresses of one direction of a slot. *)
Definition window_addrs (base : Z) (off : timedWindowOffsets) : list Z :=
  [base + startHour off; base + startMinute off; base + endHour off; base + endMinute off].

Lemma window_registers_addrs base off w :
  Addr <$> timedWindowRegisters base off w = window_addrs base off.
Proof. done. Qed.

Lemma window_at_ext m m' base off :
  (∀ a, a ∈ window_addrs base off → m a = m' a) → window_at m base off = window_at m' base off.
Proof. intros H. unfold window_at. by rewrite !H by (unfold window_addrs; set_solver). Qed.

(** The two directions of slot [i] use disjoint addresses. *)
Lemma window_addrs_disjoint i a :
  a ∈ window_addrs (timedSlotBase i) timedChargeOffsets →
  a ∉ window_addrs (timedSlotBase i) timedDischargeOffsets.
Proof.
  unfold window_addrs, timedSlotBase, timedChargeOffsets, timedDischargeOffsets; cbn. regs.
  rewrite !elem_of_cons, !elem_of_nil. lia.
Qed.

Lemma slot_addrs i a :
  a ∈ window_addrs (timedSlotBase i) timedChargeOffsets ++
      window_addrs (timedSlotBase i) timedDischargeOffsets ↔
  43143 + 10 * i ≤ a ≤ 43150 + 10 * i.
Proof.
  unfold window_addrs, timedSlotBase, timedChargeOffsets, timedDischargeOffsets; cbn. regs.
  rewrite !elem_of_cons, !elem_of_nil. lia.
Qed.

(** ** The expansion of a slot *)

Lemma expansion_cases i t regs : TimedSlotWriteRegisters i t = Some regs →
  0 ≤ i ≤ 2 ∧
  let charge := timedWindowRegisters (timedSlotBase i) timedChargeOffsets (Charge_ t) in
  let discharge := timedWindowRegisters (timedSlotBase i) timedDischargeOffsets (Discharge_ t) in
  (Charge_ t ≠ Window0 ∧ Discharge_ t = Window0 ∧ regs = discharge ++ charge) ∨
  ((Charge_ t = Window0 ∨ Discharge_ t ≠ Window0) ∧ regs = charge ++ discharge).
Proof.
  unfold TimedSlotWriteRegisters. destruct (orb _ _) eqn:E; [done|]. bool_arith.
  intros Hr. split; [lia|]. cbv zeta in *. unfold IsZero in Hr.
  destruct (bool_decide_reflect (Charge_ t = Window0)),
    (bool_decide_reflect (Discharge_ t = Window0)); cbn in Hr; injection Hr as <-; tauto.
Qed.

Lemma expansion_total i t : 0 ≤ i ≤ 2 → is_Some (TimedSlotWriteRegisters i t).
Proof.
  intros Hi. unfold TimedSlotWriteRegisters.
  rewrite !(proj2 (Z.ltb_ge _ _)) by lia. cbn. by destruct (_ && _).
Qed.

(** Whatever the order, the addresses are the eight of the slot, each once. *)
Lemma expansion_addrs i t regs : TimedSlotWriteRegisters i t = Some regs →
  (Addr <$> regs) ≡ₚ seqZ (43143 + 10 * i) 8.
Proof.
  intros [Hi H]%expansion_cases.
  assert (window_addrs (timedSlotBase i) timedChargeOffsets ++
      window_addrs (timedSlotBase i) timedDischargeOffsets = seqZ (43143 + 10 * i) 8) as <-.
  { unfold window_addrs, timedSlotBase, timedChargeOffsets, timedDischargeOffsets, seqZ; cbn. regs.
    change (seq 0 (Z.to_nat 8)) with (seq 0 8). cbn [seq]. rewrite !fmap_cons, fmap_nil.
    cbv beta. repeat (apply (f_equal2 cons); [lia|]). done. }
  destruct H as [(_ & _ & ->)|[_ ->]]; rewrite fmap_app, !window_registers_addrs; [|done].
  apply Permutation_app_comm.
Qed.

Lemma expansion_NoDup i t regs : TimedSlotWriteRegisters i t = Some regs → NoDup (Addr <$> regs).
Proof. intros H. rewrite (expansion_addrs i t) by done. apply NoDup_seqZ. Qed.

Lemma expansion_range i t regs a : TimedSlotWriteRegisters i t = Some regs →
  a ∈ (Addr <$> regs) ↔ 43143 + 10 * i ≤ a ≤ 43150 + 10 * i.
Proof. intros H. rewrite (expansion_addrs i t) by done. rewrite elem_of_seqZ. lia. Qed.

Lemma expansion_mem i t regs r : TimedSlotWriteRegisters i t = Some regs →
  r ∈ regs ↔ r ∈ timedWindowRegisters (timedSlotBase i) timedChargeOffsets (Charge_ t) ++
               timedWindowRegisters (timedSlotBase i) timedDischargeOffsets (Discharge_ t).
Proof.
  intros [_ [(_ & _ & ->)|[_ ->]]]%expansion_cases; rewrite !elem_of_app; tauto.
Qed.

Lemma expansion_uint16 i t regs r : TimedSlotWriteRegisters i t = Some regs → Slot_wf t →
  r ∈ regs → is_uint16 (Value r).
Proof.
  intros Hr [[[? ?] [? ?]] [[? ?] [? ?]]]. rewrite (expansion_mem i t regs r Hr).
  revert r. apply Forall_forall. unfold timedWindowRegisters; cbn [app].
  repeat (constructor; [cbn [Value]; int_solve|]). constructor.
Qed.

(** Writing the expansion of [t] makes the slot hold [t] ... *)
Lemma slot_at_written m i t regs : TimedSlotWriteRegisters i t = Some regs →
  slot_at (write_regs m regs) i = t.
Proof.
  intros H. pose proof (expansion_NoDup _ _ _ H) as Hnd.
  assert (∀ a v, {| Addr := a; Value := v |} ∈ regs → write_regs m regs a = v) as Hw.
  { intros a v Hin. by apply (write_regs_in m regs {| Addr := a; Value := v |}). }
  unfold slot_at, window_at. destruct t as [[[h1 m1] [h2 m2]] [[h3 m3] [h4 m4]]].
  repeat f_equal; apply Hw; apply (expansion_mem _ _ _ _ H);
    unfold timedWindowRegisters; rewrite elem_of_app, !elem_of_cons; cbn; tauto.
Qed.

(** ... and leaves every other slot alone. *)
Lemma slot_at_ext m m' i :
  (∀ a, 43143 + 10 * i ≤ a ≤ 43150 + 10 * i → m a = m' a) → slot_at m i = slot_at m' i.
Proof.
  intros H. unfold slot_at. f_equal; apply window_at_ext; intros a Ha; apply H;
    apply slot_addrs; apply elem_of_app; auto.
Qed.

(** ** The decode *)

Section Decode.
Context (s : Snapshot) (m : mem) (lo hi : Z).
Hypothesis Hbank : holds_bank s m lo hi.
Hypothesis Hwords : ∀ a, is_uint16 (m a).

Lemma decodeClock_spec ha ma c : lo ≤ ha < hi → lo ≤ ma < hi →
  decodeClock s ha ma = Ok c ↔
    c = {| ClockHour := m ha; ClockMinute := m ma |} ∧ Clock_wf c.
Proof.
  intros Hh Hm. unfold decodeClock. rewrite !(holds_bank_U16 _ _ _ _ _ Hbank) by done. cbn.
  pose proof (Hwords ha) as W1. pose proof (Hwords ma) as W2. unfold maxHour, maxMinute, Clock_wf.
  destruct (orb _ _) eqn:E.
  - apply orb_true_iff in E. split; [done|]. intros [-> Hwf]. cbn in Hwf.
    destruct E; bool_arith; lia.
  - bool_arith. assert (to_uint8 (m ha) = m ha ∧ to_uint8 (m ma) = m ma) as [-> ->].
    { int_unfold. rewrite !Z.mod_small by lia. done. }
    split; [intros [= <-]; cbn; int_unfold; split; [done|lia]|by intros [-> _]].
Qed.

Lemma decodeTimedWindow_spec base off w :
  Forall (λ a, lo ≤ a < hi) (window_addrs base off) →
  decodeTimedWindow s base off = Ok w ↔ w = window_at m base off ∧ Window_wf w.
Proof.
  unfold window_addrs. rewrite !Forall_cons. intros (H1 & H2 & H3 & H4 & _).
  unfold decodeTimedWindow, Window_wf, window_at. split.
  - intros Hd. result_inv. subst w.
    apply decodeClock_spec in H as [-> ?], H0 as [-> ?]; done.
  - intros [-> [Hs He]]; cbn in Hs, He.
    rewrite (proj2 (decodeClock_spec _ _ _ H1 H2) (conj eq_refl Hs)). cbn.
    by rewrite (proj2 (decodeClock_spec _ _ _ H3 H4) (conj eq_refl He)).
Qed.

Lemma decodeTimedSlot_spec i t : lo ≤ 43143 + 10 * i → 43150 + 10 * i < hi →
  decodeTimedSlot s i = Ok t ↔ t = slot_at m i ∧ Slot_wf t.
Proof.
  intros Hlo Hhi.
  assert (∀ a, a ∈ window_addrs (timedSlotBase i) timedChargeOffsets ++
    window_addrs (timedSlotBase i) timedDischargeOffsets → lo ≤ a < hi) as Ha.
  { intros a Ha%slot_addrs. lia. }
  assert (Hc : Forall (λ a, lo ≤ a < hi) (window_addrs (timedSlotBase i) timedChargeOffsets)).
  { apply Forall_forall. intros a Hin. apply Ha, elem_of_app. by left. }
  assert (Hd : Forall (λ a, lo ≤ a < hi) (window_addrs (timedSlotBase i) timedDischargeOffsets)).
  { apply Forall_forall. intros a Hin. apply Ha, elem_of_app. by right. }
  unfold decodeTimedSlot, Slot_wf, slot_at; cbv zeta. split.
  - intros H. result_inv. subst t.
    apply decodeTimedWindow_spec in H0 as [-> ?], H1 as [-> ?]; done.
  - intros [-> [Hwc Hwd]]; cbn in Hwc, Hwd.
    rewrite (proj2 (decodeTimedWindow_spec _ _ _ Hc) (conj eq_refl Hwc)). cbn.
    by rewrite (proj2 (decodeTimedWindow_spec _ _ _ Hd) (conj eq_refl Hwd)).
Qed.

Lemma DecodeTimedSlots_spec sl : lo ≤ 43143 → 43171 ≤ hi →
  DecodeTimedSlots s = Ok sl ↔ sl = slots_at m ∧ Slots_wf sl.
Proof.
  intros Hlo Hhi. unfold DecodeTimedSlots, Slots_wf, slots_at. split.
  - intros H. result_inv. subst sl.
    apply decodeTimedSlot_spec in H0 as [-> ?], H1 as [-> ?], H2 as [-> ?]; lia || done.
  - intros [-> (H0 & H1 & H2)]; cbn in H0, H1, H2.
    rewrite (proj2 (decodeTimedSlot_spec 0 _ ltac:(lia) ltac:(lia)) (conj eq_refl H0)); cbn.
    rewrite (proj2 (decodeTimedSlot_spec 1 _ ltac:(lia) ltac:(lia)) (conj eq_refl H1)); cbn.
    by rewrite (proj2 (decodeTimedSlot_spec 2 _ ltac:(lia) ltac:(lia)) (conj eq_refl H2)).
Qed.
End Decode.

(** ** Never both windows set while a slot is being written *)

Lemma window_at_zero_writes m base off l : (∀ r, r ∈ l → Value r = 0) →
  window_at m base off = Window0 → window_at (write_regs m l) base off = Window0.
Proof.
  intros Hl. assert (∀ a, m a = 0 → write_regs m l a = 0) as Ha.
  { revert m. induction l as [|r l IH]; intros m a Ha; cbn; [done|].
    apply IH; [intros; apply Hl; by right|]. unfold write_reg.
    destruct (a =? Addr r); [apply Hl; by left|done]. }
  unfold window_at. intros [= H1 H2 H3 H4]. by rewrite !Ha.
Qed.

Lemma window_at_untouched m base off l :
  (∀ r, r ∈ l → Addr r ∉ window_addrs base off) →
  window_at (write_regs m l) base off = window_at m base off.
Proof.
  intros Hl. apply window_at_ext. intros a Ha. apply write_regs_other.
  intros (r & -> & Hr)%list_elem_of_fmap. by apply (Hl r).
Qed.

(** The general step: a list that first clears direction [X] and then writes
    direction [Y], stopped anywhere, never leaves both set. *)
Lemma clear_then_set m base X Y lX lY k :
  (∀ r, r ∈ lX → Value r = 0 ∧ Addr r ∉ window_addrs base Y) →
  (∀ r, r ∈ lY → Addr r ∉ window_addrs base X) →
  window_at (write_regs m lX) base X = Window0 →
  window_at m base X = Window0 ∨ window_at m base Y = Window0 →
  let m' := write_regs m (take k (lX ++ lY)) in
  window_at m' base X = Window0 ∨ window_at m' base Y = Window0.
Proof.
  intros HX HY Hclr Hm. cbv zeta. rewrite take_app, write_regs_app.
  destruct (decide (k ≤ length lX)%nat) as [Hk|Hk].
  - replace (k - length lX)%nat with 0%nat by lia. rewrite take_0.
    change (write_regs (write_regs m (take k lX)) []) with (write_regs m (take k lX)).
    assert (∀ r, r ∈ take k lX → r ∈ lX) as Hsub.
    { intros r Hr. eapply elem_of_take in Hr as (i & Hi & _). eapply list_elem_of_lookup; eauto. }
    destruct Hm as [Hm|Hm].
    + left. apply window_at_zero_writes; [|done]. intros r Hr. by apply HX, Hsub.
    + right. rewrite window_at_untouched; [done|]. intros r Hr. by apply HX, Hsub.
  - left. rewrite take_ge by lia. rewrite window_at_untouched; [exact Hclr|].
    intros r Hr. apply HY. eapply elem_of_take in Hr as (i & Hi & _). eapply list_elem_of_lookup; eauto.
Qed.

Lemma window_addrs_NoDup i off :
  off = timedChargeOffsets ∨ off = timedDischargeOffsets →
  NoDup (window_addrs (timedSlotBase i) off).
Proof.
  unfold window_addrs, timedSlotBase, timedChargeOffsets, timedDischargeOffsets.
  intros [-> | ->]; cbn; regs;
    repeat (apply NoDup_cons; split; [rewrite ?elem_of_cons, elem_of_nil; lia|]);
    apply NoDup_nil; done.
Qed.

Lemma window_at_written m i off w :
  off = timedChargeOffsets ∨ off = timedDischargeOffsets →
  window_at (write_regs m (timedWindowRegisters (timedSlotBase i) off w)) (timedSlotBase i) off = w.
Proof.
  intros Hoff. pose proof (window_addrs_NoDup i off Hoff) as Hnd.
  assert (∀ a v, {| Addr := a; Value := v |} ∈ timedWindowRegisters (timedSlotBase i) off w →
    write_regs m (timedWindowRegisters (timedSlotBase i) off w) a = v) as Hw.
  { intros a v Hin. by apply (write_regs_in m _ {| Addr := a; Value := v |}). }
  destruct w as [[h1 m1] [h2 m2]]. unfold window_at at 1.
  repeat f_equal; apply Hw; unfold timedWindowRegisters; rewrite !elem_of_cons; cbn; tauto.
Qed.

(** The writes of an expansion that a slot needs, in order: first one direction's
    zeros, then the other direction. *)
Lemma expansion_split i t regs (P : Register → Prop) `{∀ r, Decision (P r)} :
  TimedSlotWriteRegisters i t = Some regs → both_set t = false →
  ∃ X Y wY, ((X, Y) = (timedChargeOffsets, timedDischargeOffsets) ∨
             (X, Y) = (timedDischargeOffsets, timedChargeOffsets)) ∧
    (∀ r, r ∈ timedWindowRegisters (timedSlotBase i) X Window0 → r ∈ regs) ∧
    filter P regs = filter P (timedWindowRegisters (timedSlotBase i) X Window0) ++
                    filter P (timedWindowRegisters (timedSlotBase i) Y wY).
Proof.
  intros [_ Hr]%expansion_cases Hb. cbv zeta in Hr.
  destruct Hr as [(_ & Hd & ->)|[Hc ->]].
  - exists timedDischargeOffsets, timedChargeOffsets, (Charge_ t).
    rewrite filter_app, Hd. split; [by right|]. split; [|done].
    intros r Hin. apply elem_of_app. by left.
  - exists timedChargeOffsets, timedDischargeOffsets, (Discharge_ t).
    rewrite filter_app. split; [by left|].
    assert (Charge_ t = Window0) as ->.
    2: { split; [|done]. intros r Hin. apply elem_of_app. by left. }
    apply andb_false_iff in Hb. rewrite !negb_false_iff, !IsZero_true in Hb. naive_solver.
Qed.

Lemma both_set_false m i : both_set (slot_at m i) = false ↔
  window_at m (timedSlotBase i) timedChargeOffsets = Window0 ∨
  window_at m (timedSlotBase i) timedDischargeOffsets = Window0.
Proof.
  unfold both_set, slot_at, IsZero. cbn [Charge_ Discharge_].
  rewrite andb_false_iff, !negb_false_iff, !bool_decide_eq_true. done.
Qed.

(** The same for any selection of the writes that includes every register that
    differs: the reconcile writes only those. *)
Lemma transit_safe (m : mem) i t regs k (P : Register → Prop) `{∀ r, Decision (P r)} :
  TimedSlotWriteRegisters i t = Some regs →
  (∀ r, r ∈ regs → ¬ P r → m (Addr r) = Value r) →
  both_set t = false → both_set (slot_at m i) = false →
  both_set (slot_at (write_regs m (take k (filter P regs))) i) = false.
Proof.
  intros Hr Hskip Ht Hm. rewrite both_set_false in Hm |- *.
  destruct (expansion_split i t regs P Hr Ht) as (X & Y & wY & HXY & Hin & ->).
  assert (HXo : X = timedChargeOffsets ∨ X = timedDischargeOffsets) by naive_solver.
  assert (Hdis : ∀ a, a ∈ window_addrs (timedSlotBase i) X → a ∉ window_addrs (timedSlotBase i) Y).
  { intros a. pose proof (window_addrs_disjoint i a). destruct HXY as [[= -> ->]|[= -> ->]]; tauto. }
  assert (Hgoal : window_at (write_regs m (take k
      (filter P (timedWindowRegisters (timedSlotBase i) X Window0) ++
       filter P (timedWindowRegisters (timedSlotBase i) Y wY)))) (timedSlotBase i) X = Window0 ∨
    window_at (write_regs m (take k
      (filter P (timedWindowRegisters (timedSlotBase i) X Window0) ++
       filter P (timedWindowRegisters (timedSlotBase i) Y wY)))) (timedSlotBase i) Y = Window0);
    [|destruct HXY as [[= -> ->]|[= -> ->]]; tauto].
  apply clear_then_set.
  - intros r [_ Hr']%list_elem_of_filter. split.
    + revert r Hr'. apply Forall_forall. repeat (constructor; [done|]). constructor.
    + apply Hdis. rewrite <- window_registers_addrs with (w := Window0).
      by apply list_elem_of_fmap_2.
  - intros r [_ Hr']%list_elem_of_filter Ha. apply (Hdis _ Ha).
    rewrite <- window_registers_addrs with (w := wY). by apply list_elem_of_fmap_2.
  - rewrite (window_at_ext _ (write_regs m (timedWindowRegisters (timedSlotBase i) X Window0)));
      [by apply window_at_written|].
    intros a _. apply write_regs_filter; [|auto].
    rewrite window_registers_addrs. by apply window_addrs_NoDup.
  - destruct HXY as [[= -> ->]|[= -> ->]]; tauto.
Qed.

(** ** Properties *)

(** [ParseClock] accepts exactly the texts [Clock.String] prints for a valid
    time of day, and returns that time: parsing and printing are inverse, and
    everything else (single digits, signs, hour 24, minute 60, other lengths)
    is rejected. *)
Theorem clock_parse_print (s : string) (c : Clock) :
  ParseClock s = Ok c ↔ Clock_wf c ∧ s = Clock_String c.
Proof. apply ParseClock_Ok. Qed.

(** C21: Writing the expansion of a valid slot and reading the bank back gives
    that slot, with the other two slots as they were: the eight writes cover the
    slot and touch nothing else. *)
Theorem slot_write_decode (s : Snapshot) (m : mem) lo hi i t regs :
  TimedSlotWriteRegisters i t = Some regs →
  Slot_wf t → Slots_wf (slots_at m) → (∀ a, is_uint16 (m a)) →
  holds_bank s (write_regs m regs) lo hi → lo ≤ 43143 → 43171 ≤ hi →
  ∃ sl, DecodeTimedSlots s = Ok sl ∧ slot_of sl i = t ∧
    ∀ j, 0 ≤ j ≤ 2 → j ≠ i → slot_of sl j = slot_of (slots_at m) j.
Proof.
  intros Hr Ht Hm Hu Hs Hlo Hhi. destruct (expansion_cases _ _ _ Hr) as [Hi _].
  assert (Hother : ∀ j, j ≠ i → slot_at (write_regs m regs) j = slot_at m j).
  { intros j Hj. apply slot_at_ext. intros a Ha. apply write_regs_other.
    rewrite (expansion_range i t regs a Hr). lia. }
  assert (Hwords : ∀ a, is_uint16 (write_regs m regs a)).
  { intros a. destruct (decide (a ∈ Addr <$> regs)) as [Ha|Ha].
    - apply list_elem_of_fmap in Ha as (r & -> & Hin).
      rewrite write_regs_in by (done || by eapply expansion_NoDup).
      by eapply expansion_uint16.
    - by rewrite write_regs_other. }
  exists (slots_at (write_regs m regs)).
  assert (Hat : ∀ m' j, 0 ≤ j ≤ 2 → slot_of (slots_at m') j = slot_at m' j).
  { intros m' j Hj. assert (j = 0 ∨ j = 1 ∨ j = 2) as [-> |[-> | ->]] by lia; done. }
  split; [|split].
  - rewrite (DecodeTimedSlots_spec s _ lo hi Hs Hwords) by done. split; [done|].
    assert (∀ j, 0 ≤ j ≤ 2 → Slot_wf (slot_at (write_regs m regs) j)) as Hwf.
    { intros j Hj. destruct (decide (j = i)) as [->|Hne].
      - by rewrite (slot_at_written m i t regs Hr).
      - rewrite Hother, <- Hat by done. destruct Hm as (? & ? & ?).
        assert (j = 0 ∨ j = 1 ∨ j = 2) as [-> |[-> | ->]] by lia; done. }
    split; [|split]; apply Hwf; lia.
  - rewrite Hat by done. by apply slot_at_written.
  - intros j Hj Hne. rewrite !Hat by done. by apply Hother.
Qed.

Lemma slot_write_decode_witness :
  let m := λ _ : Z, 0 in
  let t := {| Charge_ := {| Start := {| ClockHour := 14; ClockMinute := 20 |};
                            End_ := {| ClockHour := 14; ClockMinute := 45 |} |};
              Discharge_ := Window0 |} in
  ∃ regs, TimedSlotWriteRegisters 1 t = Some regs ∧
    ∃ sl, DecodeTimedSlots [ {| Base := 43141; Regs := bank_words (write_regs m regs) 43141 50 |} ]
          = Ok sl ∧ slot_of sl 1 = t ∧
      ∀ j, 0 ≤ j ≤ 2 → j ≠ 1 → slot_of sl j = slot_of (slots_at m) j.
Proof.
  eexists. split; [reflexivity|].
  eapply (slot_write_decode _ _ 43141 43191).
  - reflexivity.
  - apply (bool_decide_unpack _). vm_compute. exact I.
  - apply (bool_decide_unpack _). vm_compute. exact I.
  - intros a. split; [apply Z.le_refl|reflexivity].
  - apply holds_bank_single; lia.
  - lia.
  - lia.
Defined.

(** A slot is written one word at a time, and a device crash, a bus fault or an
    aborted command can stop the writes after any prefix.  Provided neither the
    slot the device holds nor the desired one has both directions set, no prefix
    of the writes leaves both windows of the slot set; the same for the writes a
    reconcile issues, which are those of the registers that differ. *)
Theorem slot_write_never_both_set (m : mem) i t regs k :
  TimedSlotWriteRegisters i t = Some regs →
  both_set t = false → both_set (slot_at m i) = false →
  both_set (slot_at (write_regs m (take k regs)) i) = false ∧
  both_set (slot_at (write_regs m
    (take k (filter (λ r, m (Addr r) ≠ Value r) regs))) i) = false.
Proof.
  intros Hr Ht Hm. split.
  - assert (filter (λ _ : Register, True) regs = regs) as <-.
    { clear. induction regs as [|r l IH]; [done|]. by rewrite filter_cons_True, IH. }
    by apply (transit_safe m i t).
  - apply (transit_safe m i t); try done. intros r _ Hn. by apply dec_stable.
Qed.

Lemma slot_write_never_both_set_witness :
  let t := {| Charge_ := {| Start := {| ClockHour := 14; ClockMinute := 20 |};
                            End_ := {| ClockHour := 14; ClockMinute := 45 |} |};
              Discharge_ := Window0 |} in
  let m a := if a =? 43149 then 5 else 0 in
  ∃ regs, TimedSlotWriteRegisters 0 t = Some regs ∧
    both_set (slot_at m 0) = false ∧ Discharge_ (slot_at m 0) ≠ Window0 ∧
    both_set (slot_at (write_regs m (take 5 regs)) 0) = false ∧
    both_set (slot_at (write_regs m
      (take 2 (filter (λ r, m (Addr r) ≠ Value r) regs))) 0) = false.
Proof.
  intros t m. eexists. split; [reflexivity|]. split; [reflexivity|].
  split; [intros H; vm_compute in H; discriminate H|].
  pose proof (λ k, slot_write_never_both_set m 0 t _ k eq_refl eq_refl eq_refl) as H.
  split; [apply (H 5%nat)|apply (H 2%nat)].
Defined.
