(* ===== verification/Rtc.v ===== *)
(** * The inverter's clock (internal/inverter/rtc.go)

    Six consecutive registers year-2000, month, day, hour, minute, second, read
    as a naive local time. *)

From S2P Require Import Prelude GoInt GoTime Block Registers TimedSlots.

Definition rtcEpochYear : Z := 2000.

Section Rtc.
Context `{tz : TimeZone}.

(** The loop of [decodeRTC]: the [n] words from [addr], or the address that is
    missing. *)
Fixpoint rtc_fields (regs : list Z) (base addr : Z) (n : nat) : result (list Z) :=
  match n with
  | O => Ok []
  | S n' =>
      match regAt regs base addr with
      | None => out_of_range "rtc" addr
      | Some v => rest ← rtc_fields regs base (addr + 1) n'; Ok (v :: rest)
      end
  end.

Definition decodeRTC (regs : list Z) (base yearAddr : Z) : result Time :=
  f ← rtc_fields regs base yearAddr rtcRegisterCount;
  match f with
  | [y; mo; d; h; mi; s] => Ok (Date (rtcEpochYear + y) mo d h mi s 0 Local)
  | _ => Err (Errorf "unreachable")
  end.

Definition DecodeRTC (s : Snapshot) (yearAddr : Z) : result Time :=
  match block s yearAddr with
  | None => out_of_range "rtc" yearAddr
  | Some b => decodeRTC (Regs b) (Base b) yearAddr
  end.

Definition EncodeRTC (t : Time) : list Z := [
  to_uint16 (Year t - rtcEpochYear); to_uint16 (Month t); to_uint16 (Day t);
  to_uint16 (Hour t); to_uint16 (Minute t); to_uint16 (Sec t) ].

(** [Drift(rtc, now)] *)
Definition Drift (rtc now : Time) : Z := Sub rtc now.

Definition RTCWriteRegisters (t : Time) : list Register :=
  imap (λ i v, {| Addr := RegRTCSet + Z.of_nat i; Value := v |}) (EncodeRTC t).

(** ** Lemmas *)

Lemma EncodeRTC_wall t t' : wall t = wall t' → EncodeRTC t = EncodeRTC t'.
Proof. intros E. unfold EncodeRTC, Year, Month, Day, Hour, Minute, Sec. by rewrite E. Qed.

Lemma RTCWriteRegisters_addrs t : Addr <$> RTCWriteRegisters t = seqZ RegRTCSet 6.
Proof. reflexivity. Qed.

Lemma RTCWriteRegisters_NoDup t : NoDup (Addr <$> RTCWriteRegisters t).
Proof. rewrite RTCWriteRegisters_addrs. apply NoDup_seqZ. Qed.

Lemma RTCWriteRegisters_uint16 t r : r ∈ RTCWriteRegisters t → is_uint16 (Value r).
Proof.
  revert r. apply Forall_forall. unfold RTCWriteRegisters, EncodeRTC. cbn [imap].
  assert (Hw : ∀ x, is_uint16 (to_uint16 x)) by (intros; int_unfold; Z.div_mod_to_equations; lia).
  repeat (constructor; [apply Hw|]). constructor.
Qed.

(** A block that holds the six fields is read as the date they spell. *)
Lemma decodeRTC_spec regs base addr y mo d h mi s :
  (∀ i, 0 ≤ i < 6 → regAt regs base (addr + i) =
     Some (nth (Z.to_nat i) [y; mo; d; h; mi; s] 0)) →
  decodeRTC regs base addr = Ok (Date (rtcEpochYear + y) mo d h mi s 0 Local).
Proof.
  intros H. unfold decodeRTC, rtcRegisterCount. cbn [rtc_fields].
  pose proof (H 0 ltac:(lia)) as H0. pose proof (H 1 ltac:(lia)) as H1.
  pose proof (H 2 ltac:(lia)) as H2. pose proof (H 3 ltac:(lia)) as H3.
  pose proof (H 4 ltac:(lia)) as H4. pose proof (H 5 ltac:(lia)) as H5.
  rewrite Z.add_0_r in H0. rewrite <- !Z.add_assoc. cbn [Z.add Pos.add Pos.succ].
  change (1 + 1) with 2. change (1 + 2) with 3. change (1 + 3) with 4. change (1 + 4) with 5.
  change (1 + (1 + 1)) with 3. change (1 + (1 + (1 + 1))) with 4.
  change (1 + (1 + (1 + (1 + 1)))) with 5.
  by rewrite H0, H1, H2, H3, H4, H5.
Qed.

Lemma rtc_fields_Err regs base addr n e :
  rtc_fields regs base addr n = Err e → errors_Is e "register address out of range" = true.
Proof.
  revert addr. induction n as [|n IH]; intros addr; cbn; [done|].
  destruct (regAt regs base addr) as [v|]; [|by intros [= <-]].
  destruct (rtc_fields regs base (addr + 1) n) eqn:E; cbn; [done|].
  intros [= <-]. by eapply IH.
Qed.

Lemma rtc_fields_length regs base addr n f :
  rtc_fields regs base addr n = Ok f → length f = n.
Proof.
  revert addr f. induction n as [|n IH]; intros addr f; cbn.
  - by intros [= <-].
  - destruct (regAt regs base addr) as [v|]; [|done].
    destruct (rtc_fields regs base (addr + 1) n) eqn:E; cbn; [|done].
    intros [= <-]. cbn. f_equal. by eapply IH.
Qed.

(** The only way a read of the clock fails: a register the snapshot lacks. *)
Lemma DecodeRTC_Err s addr e :
  DecodeRTC s addr = Err e → errors_Is e "register address out of range" = true.
Proof.
  unfold DecodeRTC, decodeRTC. destruct (block s addr) as [b|]; [|by intros [= <-]].
  destruct (rtc_fields _ _ _ _) eqn:E; cbn.
  - apply rtc_fields_length in E.
    destruct a as [|? [|? [|? [|? [|? [|? [|? ?]]]]]]]; done.
  - intros [= <-]. by eapply rtc_fields_Err.
Qed.

Lemma holds_bank_RTC s (m : mem) lo hi addr : holds_bank s m lo hi → lo ≤ addr → addr + 6 ≤ hi →
  DecodeRTC s addr = Ok (Date (rtcEpochYear + m addr) (m (addr + 1)) (m (addr + 2))
    (m (addr + 3)) (m (addr + 4)) (m (addr + 5)) 0 Local).
Proof.
  intros H Hlo Hhi. destruct (H addr ltac:(lia)) as (b & Hb & Hr).
  unfold DecodeRTC. rewrite Hb. apply decodeRTC_spec. intros i Hi. rewrite Hr by lia. f_equal.
  assert (i = 0 ∨ i = 1 ∨ i = 2 ∨ i = 3 ∨ i = 4 ∨ i = 5) as [->|[->|[->|[->|[->| ->]]]]] by lia;
    rewrite ?Z.add_0_r; reflexivity.
Qed.

(** The fields a clock shows are those of its wall time. *)
Lemma fields_exist t : ∃ y m d,
  valid_date y m d ∧
  wall t = days_of y m d * 86400 + Hour t * 3600 + Minute t * 60 + Sec t ∧
  Year t = y ∧ Month t = m ∧ Day t = d.
Proof.
  destruct (date_exists (wall t / 86400)) as (y & m & d & Hv & Hn).
  exists y, m, d. split; [done|].
  unfold Year, Month, Day. rewrite <- Hn, civil_days_of by done. split; [|done].
  rewrite Hn. unfold Hour, Minute, Sec. Z.div_mod_to_equations. lia.
Qed.
End Rtc.

(** ** Properties *)

(** C30: Setting the inverter's clock to a local time and reading the six registers
    back gives the same wall clock to the second: every date is encoded and
    decoded to itself, leap days and daylight-saving changes included. *)
Theorem rtc_write_read `{tz : TimeZone} (L : TimeZoneLaws tz) (s : Snapshot) (m : mem) lo hi (t : Time) :
  location t = Local → 2000 ≤ Year t < 67536 →
  holds_bank s (write_regs m (RTCWriteRegisters t)) lo hi → lo ≤ RegRTCSet → RegRTCSet + 6 ≤ hi →
  ∃ t', DecodeRTC s RegRTCSet = Ok t' ∧ wall t' = wall t ∧ location t' = Local ∧
    EncodeRTC t' = EncodeRTC t.
Proof.
  intros Hloc Hy Hs Hlo Hhi.
  rewrite (holds_bank_RTC s _ lo hi RegRTCSet Hs) by done.
  destruct (fields_exist t) as (y & mo & d & Hv & Hw & Ey & Em & Ed).
  assert (Hreg : ∀ a v, {| Addr := a; Value := v |} ∈ RTCWriteRegisters t →
    write_regs m (RTCWriteRegisters t) a = v).
  { intros a v Hin.
    by apply (write_regs_in m (RTCWriteRegisters t) {| Addr := a; Value := v |}),
      Hin; apply RTCWriteRegisters_NoDup. }
  pose proof (Hour_range t). pose proof (Minute_range t). pose proof (Sec_range t).
  pose proof Hv as [Hmo Hd].
  assert (d ≤ 31). { unfold days_in_month in Hd. repeat case_match; lia. }
  assert (∀ x, 0 ≤ x < 65536 → to_uint16 x = x) as Hid by (intros; apply Z.mod_small; int_solve).
  rewrite (Hreg _ (Year t - 2000)), (Hreg _ mo), (Hreg _ d), (Hreg _ (Hour t)), (Hreg _ (Minute t)),
    (Hreg _ (Sec t));
    try (unfold RTCWriteRegisters, EncodeRTC, rtcEpochYear; cbn [imap compose Nat.add];
      rewrite !Hid by lia; rewrite ?Em, ?Ed, !elem_of_cons; unfold RegRTCSet; tauto).
  replace (rtcEpochYear + (Year t - 2000)) with y by (unfold rtcEpochYear; lia).
  eexists. split; [reflexivity|].
  assert (Hwall : wall (Date y mo d (Hour t) (Minute t) (Sec t) 0 Local) = wall t).
  { rewrite Hw. apply (Date_wall L); [done|]. exists (unix t). rewrite <- Hw. unfold wall. by rewrite Hloc. }
  split; [done|]. split; [|by apply EncodeRTC_wall].
  unfold Date. by destruct (lookup_zone _ _) as [[? ?] ?].
Qed.

Lemma rtc_write_read_witness :
  let t := {| unixNano := (spring_2026 + 5000) * Second + 7; location := Local |} in
  ∃ t', DecodeRTC [ {| Base := 43000; Regs :=
      bank_words (write_regs (λ _, 0) (RTCWriteRegisters (tz := dst_zone) t)) 43000 6 |} ]
      RegRTCSet (tz := dst_zone) = Ok t' ∧ wall (tz := dst_zone) t' = wall (tz := dst_zone) t ∧
    location t' = Local ∧ EncodeRTC (tz := dst_zone) t' = EncodeRTC (tz := dst_zone) t.
Proof.
  intros t. apply (rtc_write_read (tz := dst_zone) dst_zone_laws _ (λ _, 0) 43000 43006).
  - reflexivity.
  - split; [vm_compute; discriminate|reflexivity].
  - apply holds_bank_single; lia.
  - reflexivity.
  - vm_compute; discriminate.
Defined.
