(* ===== verification/Telemetry.v ===== *)
(** * The telemetry decode (internal/inverter/telemetry.go)

    One reading decoded from a snapshot through a reader that latches the first
    error.  Physical values are binary64 numbers. *)

From S2P Require Import Prelude GoInt GoTime GoFloat Amps Block WorkMode Registers TimedSlots Rtc.

(** ** Data *)

Record Battery : Type := {
  VoltageV : float64; CurrentA : float64; Charging : bool;
  SOCPercent : float64; SOHPercent : float64;
  BMSVoltageV : float64; BMSCurrentA : float64;
  BMSChargeCurrentLimitA : float64; BMSDischargeCurrentLimitA : float64;
  BatFault1 : BMSFault1; BatFault2 : BMSFault2;
  OverdischargeSOCPercent : float64; ForceChargeSOCPercent : float64;
  BatPowerW : float64;
}.

Record PV : Type := {
  PV1VoltageV : float64; PV1CurrentA : float64;
  PV2VoltageV : float64; PV2CurrentA : float64; TotalPowerW : float64;
}.

Record Grid : Type := {
  GridPowerW : float64;
  TotalImportKWh : float64; ImportTodayKWh : float64;
  TotalExportKWh : float64; ExportTodayKWh : float64;
}.

Record AC : Type := {
  ActivePowerW : float64; TemperatureC : float64; FrequencyHz : float64; HouseLoadW : float64;
}.

Record Energy : Type := {
  GenerationTodayKWh : float64; GenerationYesterdayKWh : float64;
  BatteryTotalChargeKWh : float64; BatteryChargeTodayKWh : float64;
  BatteryTotalDischargeKWh : float64; BatteryDischargeTodayKWh : float64;
}.

Record System : Type := { Status : Z; OperatingStatus : Z; SysWorkMode : WorkMode }.

Record Telemetry : Type := {
  TTime : Time; TBattery : Battery; TPV : PV; TGrid : Grid; TAC : AC; TEnergy : Energy;
  TSystem : System;
}.

Definition signedByDirection (v : float64) (charging : bool) : float64 :=
  let magnitude := Abs v in
  if charging || is_zero magnitude then magnitude else fneg magnitude.

(** ** The reader: the first error is kept, later reads give zero *)

Definition reader (A : Type) : Type := option error → A * option error.

#[export] Instance reader_ret : MRet reader := λ A a err, (a, err).
#[export] Instance reader_bind : MBind reader := λ A B f m err, let '(a, err') := m err in f a err'.

Definition join (err : option error) : reader unit := λ cur,
  ((), match err, cur with Some e, None => Some e | _, _ => cur end).

(** [r.u16(addr)] and the like, over the snapshot read they call. *)
Definition read_reg (read : Z → result Z) (addr : Z) : reader Z := λ err,
  match err with
  | Some e => (0, Some e)
  | None =>
      match read addr with
      | Ok v => (v, None)
      | Err e => (0, Some e)
      end
  end.

Section Decode.
Context `{tz : TimeZone}.
Variable s : Snapshot.

Definition reader_u16 : Z → reader Z := read_reg (U16 s).
Definition reader_s16 : Z → reader Z := read_reg (S16 s).
Definition reader_u32 : Z → reader Z := read_reg (U32 s).
Definition reader_s32 : Z → reader Z := read_reg (S32 s).

(** [DecodeRTC] and the [join] of its error. *)
Definition read_rtc (addr : Z) : reader Time := λ err,
  match DecodeRTC s addr with
  | Ok t => (t, err)
  | Err e => (zeroTime, (join (Some e) err).2)
  end.

Definition decodeBattery : reader Battery :=
  direction ← reader_u16 RegBatteryDirection;
  let charging := direction =? 0 in
  voltage ← reader_u16 RegBatteryVoltage;
  current ← reader_s16 RegBatteryCurrent;
  soc ← reader_u16 RegBatterySOC;
  soh ← reader_u16 RegBatterySOH;
  bmsV ← reader_u16 RegBMSBatteryVoltage;
  bmsA ← reader_s16 RegBMSBatteryCurrent;
  climit ← reader_u16 RegBMSChargeCurrentLimit;
  dlimit ← reader_u16 RegBMSDischargeCurrentLimit;
  fault1 ← reader_u16 RegBMSFault1;
  fault2 ← reader_u16 RegBMSFault2;
  over ← reader_u16 RegOverdischargeSOC;
  force ← reader_u16 RegForceChargeSOC;
  power ← reader_s32 RegBatteryPower;
  mret {|
    VoltageV := div10 (of_int voltage);
    CurrentA := signedByDirection (div10 (of_int current)) charging;
    Charging := charging;
    SOCPercent := of_int soc;
    SOHPercent := of_int soh;
    BMSVoltageV := div100 (of_int bmsV);
    BMSCurrentA := div10 (of_int bmsA);
    BMSChargeCurrentLimitA := div10 (of_int climit);
    BMSDischargeCurrentLimitA := div10 (of_int dlimit);
    BatFault1 := DecodeBMSFault1 fault1;
    BatFault2 := DecodeBMSFault2 fault2;
    OverdischargeSOCPercent := of_int over;
    ForceChargeSOCPercent := of_int force;
    BatPowerW := signedByDirection (of_int power) charging;
  |}.

Definition decodePV : reader PV :=
  v1 ← reader_u16 RegPV1Voltage; a1 ← reader_u16 RegPV1Current;
  v2 ← reader_u16 RegPV2Voltage; a2 ← reader_u16 RegPV2Current;
  p ← reader_u32 RegTotalPVPower;
  mret {| PV1VoltageV := div10 (of_int v1); PV1CurrentA := div10 (of_int a1);
          PV2VoltageV := div10 (of_int v2); PV2CurrentA := div10 (of_int a2);
          TotalPowerW := of_int p |}.

Definition decodeGrid : reader Grid :=
  p ← reader_s32 RegGridPower;
  ti ← reader_u32 RegGridTotalImportEnergy; it ← reader_u16 RegGridImportToday;
  te ← reader_u32 RegGridTotalExportEnergy; et ← reader_u16 RegGridExportToday;
  mret {| GridPowerW := of_int p;
          TotalImportKWh := of_int ti; ImportTodayKWh := div10 (of_int it);
          TotalExportKWh := of_int te; ExportTodayKWh := div10 (of_int et) |}.

Definition decodeAC : reader AC :=
  p ← reader_s32 RegACActivePower; t ← reader_s16 RegInverterTemperature;
  f ← reader_u16 RegGridFrequency; h ← reader_u16 RegHouseLoadPower;
  mret {| ActivePowerW := of_int p; TemperatureC := div10 (of_int t);
          FrequencyHz := div100 (of_int f); HouseLoadW := of_int h |}.

Definition decodeEnergy : reader Energy :=
  gt ← reader_u16 RegGenerationToday; gy ← reader_u16 RegGenerationYesterday;
  tc ← reader_u32 RegBatteryTotalChargeEnergy; ct ← reader_u16 RegBatteryChargeToday;
  td ← reader_u32 RegBatteryTotalDischargeEnergy; dt ← reader_u16 RegBatteryDischargeToday;
  mret {| GenerationTodayKWh := div10 (of_int gt); GenerationYesterdayKWh := div10 (of_int gy);
          BatteryTotalChargeKWh := of_int tc; BatteryChargeTodayKWh := div10 (of_int ct);
          BatteryTotalDischargeKWh := of_int td; BatteryDischargeTodayKWh := div10 (of_int dt) |}.

Definition decodeSystem : reader System :=
  st ← reader_u16 RegInverterStatus; op ← reader_u16 RegOperatingStatus;
  wm ← reader_u16 RegWorkModeReadback;
  mret {| Status := st; OperatingStatus := op; SysWorkMode := DecodeWorkMode wm |}.

(** The reads of [DecodeTelemetry], in source order. *)
Definition decodeAll : reader Telemetry :=
  rtc ← read_rtc RegRTCRead;
  bat ← decodeBattery;
  pv ← decodePV;
  grid ← decodeGrid;
  ac ← decodeAC;
  energy ← decodeEnergy;
  sys ← decodeSystem;
  mret {| TTime := rtc; TBattery := bat; TPV := pv; TGrid := grid; TAC := ac; TEnergy := energy;
          TSystem := sys |}.

Definition DecodeTelemetry : result Telemetry :=
  match decodeAll None with
  | (_, Some e) => Err e
  | (t, None) => Ok t
  end.
End Decode.

(** ** Collecting a reading (internal/publisher/collect.go) *)

Definition maxReadRegisters : Z := 100.
Definition block1Base : Z := 33022.
Definition block1Count : Z := maxReadRegisters.
Definition block2Base : Z := 33122.
Definition block2Count : Z := 93.

Definition read_block_ctx (base count : Z) : string :=
  "read input block " +:+ pretty base +:+ "+" +:+ pretty count.

(** A device that answers input reads; [W] is the state of the world. *)
Class RegisterReader (W : Type) : Type := ReadInput : Z → Z → W → result (list Z) * W.

Definition Collect `{TimeZone} {W} `{RegisterReader W} (w : W) : result Telemetry * W :=
  let '(r1, w) := ReadInput block1Base block1Count w in
  match r1 with
  | Err e => (Err (Wrapf (read_block_ctx block1Base block1Count) e), w)
  | Ok regs1 =>
      let '(r2, w) := ReadInput block2Base block2Count w in
      match r2 with
      | Err e => (Err (Wrapf (read_block_ctx block2Base block2Count) e), w)
      | Ok regs2 =>
          (DecodeTelemetry [ {| Base := block1Base; Regs := regs1 |};
                             {| Base := block2Base; Regs := regs2 |} ], w)
      end
  end.

(** ** The reading a bank of input registers stands for

    The register map of the field comments, over the bank as a function: the
    specification the decode is checked against. *)

Definition word32 (m : mem) (a : Z) : Z := m a * 65536 + m (a + 1).

Definition scale10 (x : Z) : float64 := fdiv (of_int x) (of_int 10).
Definition scale100 (x : Z) : float64 := fdiv (of_int x) (of_int 100).

Definition telemetry_of `{TimeZone} (m : mem) : Telemetry :=
  let charging := m 33135 =? 0 in {|
  TTime := Date (2000 + m 33022) (m 33023) (m 33024) (m 33025) (m 33026) (m 33027) 0 Local;
  TBattery := {|
    VoltageV := scale10 (m 33133);
    CurrentA := signedByDirection (scale10 (signed 16 (m 33134))) charging;
    Charging := charging;
    SOCPercent := of_int (m 33139); SOHPercent := of_int (m 33140);
    BMSVoltageV := scale100 (m 33141); BMSCurrentA := scale10 (signed 16 (m 33142));
    BMSChargeCurrentLimitA := scale10 (m 33143); BMSDischargeCurrentLimitA := scale10 (m 33144);
    BatFault1 := DecodeBMSFault1 (m 33145); BatFault2 := DecodeBMSFault2 (m 33146);
    OverdischargeSOCPercent := of_int (m 33213); ForceChargeSOCPercent := of_int (m 33214);
    BatPowerW := signedByDirection (of_int (signed 32 (word32 m 33149))) charging |};
  TPV := {|
    PV1VoltageV := scale10 (m 33049); PV1CurrentA := scale10 (m 33050);
    PV2VoltageV := scale10 (m 33051); PV2CurrentA := scale10 (m 33052);
    TotalPowerW := of_int (word32 m 33057) |};
  TGrid := {|
    GridPowerW := of_int (signed 32 (word32 m 33130));
    TotalImportKWh := of_int (word32 m 33169); ImportTodayKWh := scale10 (m 33171);
    TotalExportKWh := of_int (word32 m 33173); ExportTodayKWh := scale10 (m 33175) |};
  TAC := {|
    ActivePowerW := of_int (signed 32 (word32 m 33079));
    TemperatureC := scale10 (signed 16 (m 33093));
    FrequencyHz := scale100 (m 33094); HouseLoadW := of_int (m 33147) |};
  TEnergy := {|
    GenerationTodayKWh := scale10 (m 33035); GenerationYesterdayKWh := scale10 (m 33036);
    BatteryTotalChargeKWh := of_int (word32 m 33161); BatteryChargeTodayKWh := scale10 (m 33163);
    BatteryTotalDischargeKWh := of_int (word32 m 33165);
    BatteryDischargeTodayKWh := scale10 (m 33167) |};
  TSystem := {| Status := m 33095; OperatingStatus := m 33121;
                SysWorkMode := DecodeWorkMode (m 33132) |};
|}.

(** Every word the decode needs: single registers, the two words of each pair
    and the six of the clock. *)
Definition telemetry_addrs : list Z :=
  seqZ 33022 6 ++
  [33035; 33036; 33049; 33050; 33051; 33052; 33057; 33058; 33079; 33080; 33093; 33094; 33095;
   33121; 33130; 33131; 33132; 33133; 33134; 33135; 33139; 33140; 33141; 33142; 33143; 33144;
   33145; 33146; 33147; 33149; 33150; 33161; 33162; 33163; 33165; 33166; 33167; 33169; 33170;
   33171; 33173; 33174; 33175; 33213; 33214].

(** ** Lemmas about the reader *)

Lemma reader_bind_Ok {A B} (m : reader A) (f : A → reader B) a :
  m None = (a, None) → (m ≫= f) None = f a None.
Proof. intros H. unfold mbind, reader_bind. by rewrite H. Qed.

Lemma read_reg_Ok read a v : read a = Ok v → read_reg read a None = (v, None).
Proof. intros H. unfold read_reg. by rewrite H. Qed.

Lemma read_reg_inv read a v : read_reg read a None = (v, None) → read a = Ok v.
Proof. unfold read_reg. destruct (read a); congruence. Qed.

(** A reader that leaves an error alone, and fails only with out-of-range. *)
Definition out_of_range_error (err : option error) : Prop :=
  ∀ e, err = Some e → errors_Is e "register address out of range" = true.

Class Latches {A} (m : reader A) : Prop := {
  latch_keeps e : (m (Some e)).2 = Some e;
  latch_fails : out_of_range_error (m None).2;
}.

#[export] Instance Latches_ret {A} (a : A) : Latches (mret a).
Proof. by split. Qed.

#[export] Instance Latches_bind {A B} (m : reader A) (f : A → reader B) :
  Latches m → (∀ a, Latches (f a)) → Latches (m ≫= f).
Proof.
  intros [Hk Hf] Hl. split.
  - intros e. unfold mbind, reader_bind. specialize (Hk e). destruct (m (Some e)) as [a err].
    cbn in Hk. subst. apply Hl.
  - unfold mbind, reader_bind. destruct (m None) as [a [e|]]; [|apply Hl].
    rewrite (@latch_keeps _ _ (Hl a)). exact Hf.
Qed.

Lemma Latches_read_reg read a :
  (∀ e, read a = Err e → errors_Is e "register address out of range" = true) →
  Latches (read_reg read a).
Proof.
  intros H. split; [done|]. unfold read_reg. destruct (read a) eqn:E; [done|].
  intros ? [= <-]. by apply H.
Qed.

Lemma reads_fail s a e : U16 s a = Err e ∨ S16 s a = Err e ∨ U32 s a = Err e ∨ S32 s a = Err e →
  errors_Is e "register address out of range" = true.
Proof.
  unfold U16, S16, U32, S32, Block_U16, Block_S16, Block_U32, Block_S32, out_of_range.
  intros [H|[H|[H|H]]]; repeat case_match; by simplify_eq.
Qed.

#[export] Instance Latches_u16 s a : Latches (reader_u16 s a).
Proof. apply Latches_read_reg. intros e H. apply (reads_fail s a). tauto. Qed.
#[export] Instance Latches_s16 s a : Latches (reader_s16 s a).
Proof. apply Latches_read_reg. intros e H. apply (reads_fail s a). tauto. Qed.
#[export] Instance Latches_u32 s a : Latches (reader_u32 s a).
Proof. apply Latches_read_reg. intros e H. apply (reads_fail s a). tauto. Qed.
#[export] Instance Latches_s32 s a : Latches (reader_s32 s a).
Proof. apply Latches_read_reg. intros e H. apply (reads_fail s a). tauto. Qed.

Lemma reader_bind_inv {A B} (m : reader A) (f : A → reader B) b `{∀ a, Latches (f a)} :
  (m ≫= f) None = (b, None) → ∃ a, m None = (a, None) ∧ f a None = (b, None).
Proof.
  unfold mbind, reader_bind. destruct (m None) as [a [e|]]; [|by eauto].
  pose proof (@latch_keeps _ (f a) _ e) as Hk. intros E. rewrite E in Hk. done.
Qed.

(** Breaks a successful chain of reads into its successful reads. *)
Ltac reader_inv :=
  repeat match goal with
  | H : (_ ≫= _) None = (_, None) |- _ =>
      apply reader_bind_inv in H as (? & ? & H); [|intros; apply _]
  | H : mret _ None = (_, None) |- _ => injection H as H
  | H : reader_u16 _ _ None = (_, None) |- _ => apply read_reg_inv in H
  | H : reader_s16 _ _ None = (_, None) |- _ => apply read_reg_inv in H
  | H : reader_u32 _ _ None = (_, None) |- _ => apply read_reg_inv in H
  | H : reader_s32 _ _ None = (_, None) |- _ => apply read_reg_inv in H
  end.

Section Facts.
Context `{tz : TimeZone}.

#[export] Instance Latches_rtc s a : Latches (read_rtc s a).
Proof.
  unfold read_rtc. destruct (DecodeRTC s a) as [t|e] eqn:E; split; try done.
  intros ? [= <-]. by eapply DecodeRTC_Err.
Qed.

#[export] Instance Latches_Battery s : Latches (decodeBattery s).
Proof. unfold decodeBattery; cbv zeta. apply _. Qed.
#[export] Instance Latches_PV s : Latches (decodePV s).
Proof. unfold decodePV. apply _. Qed.
#[export] Instance Latches_Grid s : Latches (decodeGrid s).
Proof. unfold decodeGrid. apply _. Qed.
#[export] Instance Latches_AC s : Latches (decodeAC s).
Proof. unfold decodeAC. apply _. Qed.
#[export] Instance Latches_Energy s : Latches (decodeEnergy s).
Proof. unfold decodeEnergy. apply _. Qed.
#[export] Instance Latches_System s : Latches (decodeSystem s).
Proof. unfold decodeSystem. apply _. Qed.
#[export] Instance Latches_All s : Latches (decodeAll s).
Proof. unfold decodeAll. apply _. Qed.

Lemma DecodeTelemetry_Err s e : DecodeTelemetry s = Err e →
  errors_Is e "register address out of range" = true.
Proof.
  unfold DecodeTelemetry. destruct (Latches_All s) as [_ Hf].
  destruct (decodeAll s None) as [t [e'|]]; [|done]. intros [= <-]. by apply Hf.
Qed.

(** *** A snapshot that holds the bank *)

Definition holds_input (s : Snapshot) (m : mem) : Prop :=
  holds_bank s m 33022 33122 ∧ holds_bank s m 33122 33215 ∧ ∀ a, is_uint16 (m a).

Lemma input_u16 s m a : holds_input s m → 33022 ≤ a < 33215 → U16 s a = Ok (m a).
Proof.
  intros (H1 & H2 & _) Ha. destruct (Z.lt_ge_cases a 33122).
  - apply (holds_bank_U16 _ _ _ _ _ H1). lia.
  - apply (holds_bank_U16 _ _ _ _ _ H2). lia.
Qed.

Lemma input_s16 s m a : holds_input s m → 33022 ≤ a < 33215 → S16 s a = Ok (signed 16 (m a)).
Proof. intros H Ha. by rewrite S16_U16, (input_u16 s m a). Qed.

Lemma input_u32 s m a : holds_input s m → 33022 ≤ a < 33214 → a ≠ 33121 →
  U32 s a = Ok (word32 m a).
Proof.
  intros (H1 & H2 & Hw) Ha Hne. destruct (Z.lt_ge_cases a 33122).
  - apply (holds_bank_U32 _ _ _ _ _ H1); (lia || apply Hw).
  - apply (holds_bank_U32 _ _ _ _ _ H2); (lia || apply Hw).
Qed.

Lemma input_s32 s m a : holds_input s m → 33022 ≤ a < 33214 → a ≠ 33121 →
  S32 s a = Ok (signed 32 (word32 m a)).
Proof. intros H Ha Hne. by rewrite S32_U32, (input_u32 s m a). Qed.

(** Performs the next read of a chain on a snapshot that holds [m]. *)
Ltac read_next H :=
  erewrite reader_bind_Ok;
  [|apply read_reg_Ok;
    first [apply (input_u16 _ _ _ H) | apply (input_s16 _ _ _ H)
          | apply (input_u32 _ _ _ H) | apply (input_s32 _ _ _ H)]; regs; lia].

Lemma DecodeTelemetry_holds s m : holds_input s m → DecodeTelemetry s = Ok (telemetry_of m).
Proof.
  intros H. unfold DecodeTelemetry, decodeAll.
  assert (Hrtc : read_rtc s RegRTCRead None = (TTime (telemetry_of m), None)).
  { unfold read_rtc. by rewrite (holds_bank_RTC s m 33022 33122) by (apply H || regs; lia). }
  assert (Hbat : decodeBattery s None = (TBattery (telemetry_of m), None)).
  { unfold decodeBattery. repeat read_next H. reflexivity. }
  assert (Hpv : decodePV s None = (TPV (telemetry_of m), None)).
  { unfold decodePV. repeat read_next H. reflexivity. }
  assert (Hgrid : decodeGrid s None = (TGrid (telemetry_of m), None)).
  { unfold decodeGrid. repeat read_next H. reflexivity. }
  assert (Hac : decodeAC s None = (TAC (telemetry_of m), None)).
  { unfold decodeAC. repeat read_next H. reflexivity. }
  assert (Hen : decodeEnergy s None = (TEnergy (telemetry_of m), None)).
  { unfold decodeEnergy. repeat read_next H. reflexivity. }
  assert (Hsys : decodeSystem s None = (TSystem (telemetry_of m), None)).
  { unfold decodeSystem. repeat read_next H. reflexivity. }
  rewrite (reader_bind_Ok _ _ _ Hrtc), (reader_bind_Ok _ _ _ Hbat), (reader_bind_Ok _ _ _ Hpv),
    (reader_bind_Ok _ _ _ Hgrid), (reader_bind_Ok _ _ _ Hac), (reader_bind_Ok _ _ _ Hen),
    (reader_bind_Ok _ _ _ Hsys). reflexivity.
Qed.

(** *** What a successful decode has read *)

Definition covered (s : Snapshot) (a : Z) : Prop := ∃ b, b ∈ s ∧ contains b a = true.

Lemma block_covered s a b : block s a = Some b → covered s a.
Proof. intros [Hin Hc]%block_Some. by exists b. Qed.

Lemma regAt_covered s a b a' v : block s a = Some b → regAt (Regs b) (Base b) a' = Some v →
  covered s a'.
Proof.
  intros [Hin _]%block_Some Hr. exists b. split; [done|]. apply contains_regAt. by exists v.
Qed.

Lemma U16_covered s a v : U16 s a = Ok v → covered s a.
Proof. intros (b & Hb & _)%U16_Ok. by eapply block_covered. Qed.

Lemma S16_covered s a v : S16 s a = Ok v → covered s a.
Proof. rewrite S16_U16. destruct (U16 s a) eqn:E; [|done]. intros _. by eapply U16_covered. Qed.

Lemma U32_covered s a v : U32 s a = Ok v → covered s a ∧ covered s (a + 1).
Proof.
  unfold U32, Block_U32. destruct (block s a) as [b|] eqn:Eb; [|done].
  unfold u32. destruct (regAt _ _ a) eqn:E1; [|done].
  destruct (regAt _ _ (a + 1)) eqn:E2; [|done]. intros _.
  split; by eapply regAt_covered.
Qed.

Lemma S32_covered s a v : S32 s a = Ok v → covered s a ∧ covered s (a + 1).
Proof. rewrite S32_U32. destruct (U32 s a) eqn:E; [|done]. intros _. by eapply U32_covered. Qed.

Lemma rtc_fields_covered s b a0 addr n f : block s a0 = Some b →
  rtc_fields (Regs b) (Base b) addr n = Ok f → ∀ i, addr ≤ i < addr + Z.of_nat n → covered s i.
Proof.
  intros Hb. revert addr f. induction n as [|n IH]; intros addr f; cbn; [lia|].
  destruct (regAt (Regs b) (Base b) addr) as [v|] eqn:E; [|done]. intros H i Hi. result_inv.
  destruct (Z.eq_dec i addr) as [->|]; [by eapply regAt_covered|]. eapply IH; [done|lia].
Qed.

Lemma read_rtc_covered s addr t : read_rtc s addr None = (t, None) →
  ∀ i, addr ≤ i < addr + 6 → covered s i.
Proof.
  unfold read_rtc, DecodeRTC. destruct (block s addr) as [b|] eqn:Eb; [|done].
  unfold decodeRTC. destruct (rtc_fields _ _ _ _) eqn:E; [|done].
  intros _. by eapply (rtc_fields_covered s b addr addr rtcRegisterCount).
Qed.

Lemma DecodeTelemetry_covered s t : DecodeTelemetry s = Ok t → Forall (covered s) telemetry_addrs.
Proof.
  unfold DecodeTelemetry. destruct (decodeAll s None) as [t' [e|]] eqn:E; [done|]. intros _.
  unfold decodeAll in E. reader_inv.
  unfold decodeBattery, decodePV, decodeGrid, decodeAC, decodeEnergy, decodeSystem in *.
  reader_inv.
  assert (Hrtc : ∀ i, 33022 ≤ i < 33022 + 6 → covered s i) by (eapply read_rtc_covered; eassumption).
  repeat match goal with
  | H : U16 _ _ = Ok _ |- _ => apply U16_covered in H
  | H : S16 _ _ = Ok _ |- _ => apply S16_covered in H
  | H : U32 _ _ = Ok _ |- _ => apply U32_covered in H as [? ?]
  | H : S32 _ _ = Ok _ |- _ => apply S32_covered in H as [? ?]
  end.
  unfold telemetry_addrs. apply Forall_app. split.
  - apply Forall_forall. intros i [Hi1 Hi2]%elem_of_seqZ. apply Hrtc. lia.
  - repeat (constructor; [assumption|]). constructor.
Qed.

Lemma DecodeTelemetry_battery s t : DecodeTelemetry s = Ok t →
  ∃ dir c p, U16 s 33135 = Ok dir ∧ Charging (TBattery t) = (dir =? 0) ∧
    CurrentA (TBattery t) = signedByDirection c (dir =? 0) ∧
    BatPowerW (TBattery t) = signedByDirection p (dir =? 0).
Proof.
  unfold DecodeTelemetry. destruct (decodeAll s None) as [t' [e|]] eqn:E; [done|]. intros [= ->].
  unfold decodeAll in E. reader_inv. subst t. cbn [TBattery].
  match goal with H : decodeBattery s None = _ |- _ => unfold decodeBattery in H; rename H into Hb end.
  reader_inv. subst. cbn [Charging CurrentA BatPowerW]. eauto 10.
Qed.
End Facts.

(** The two blocks of a poll hold the input bank. *)
Lemma two_blocks_hold m : (∀ a, is_uint16 (m a)) → holds_input
  [ {| Base := block1Base; Regs := bank_words m 33022 100 |};
    {| Base := block2Base; Regs := bank_words m 33122 93 |} ] m.
Proof.
  intros Hm. unfold block1Base, block2Base. split; [|split; [|done]]; intros a Ha.
  - eexists. split.
    + cbn [block]. rewrite (proj2 (contains_spec _ _)); [reflexivity|].
      cbn [Base Regs]. rewrite bank_words_length. lia.
    + intros a' Ha'. cbn [Base Regs]. apply regAt_bank_words. lia.
  - eexists. split.
    + cbn [block].
      destruct (contains {| Base := 33022; Regs := bank_words m 33022 100 |} a) eqn:E.
      * apply contains_spec in E. cbn [Base Regs] in E. rewrite bank_words_length in E. lia.
      * rewrite (proj2 (contains_spec _ _)); [reflexivity|].
        cbn [Base Regs]. rewrite bank_words_length. lia.
    + intros a' Ha'. cbn [Base Regs]. apply regAt_bank_words. lia.
Qed.

Lemma signedByDirection_sign v dir :
  let x := signedByDirection v (dir =? 0) in
  (dir = 0 → x = Abs x) ∧
  (dir ≠ 0 → x = S754_zero false ∨ (is_zero x = false ∧ x = fneg (Abs x))) ∧
  x ≠ S754_zero true.
Proof.
  unfold signedByDirection, Abs, fneg. destruct (Z.eqb_spec dir 0), v; cbn;
    repeat split; intros; try done; auto.
Qed.

(** ** Properties *)

(** C17: One poll of a device that answers both block reads with the words of its
    input bank yields exactly the reading the register map assigns to that bank:
    every field comes from its register, at its width, sign and scale, and no
    multi-word value is torn by the split into two blocks. *)
Theorem collect_reads_bank `{TimeZone} {W} `{RegisterReader W} (m : mem) (w w1 w2 : W) :
  (∀ a, is_uint16 (m a)) →
  ReadInput 33022 100 w = (Ok (bank_words m 33022 100), w1) →
  ReadInput 33122 93 w1 = (Ok (bank_words m 33122 93), w2) →
  Collect w = (Ok (telemetry_of m), w2).
Proof.
  intros Hm H1 H2. unfold Collect.
  change block1Base with 33022. change block1Count with 100. rewrite H1.
  change block2Base with 33122. change block2Count with 93. rewrite H2.
  by rewrite (DecodeTelemetry_holds _ m (two_blocks_hold m Hm)).
Qed.

Lemma collect_reads_bank_witness :
  let m a := if a =? 33149 then 65535 else if a =? 33150 then 65136
             else if a =? 33135 then 1 else a mod 7 in
  let rd : RegisterReader nat := λ a n w, (Ok (bank_words m a (Z.to_nat n)), S w) in
  let _ : TimeZone := dst_zone in
  Collect (W := nat) 0%nat = (Ok (telemetry_of m), 2%nat) ∧
  BatPowerW (TBattery (telemetry_of m)) = of_int (-400).
Proof.
  intros m rd tz. split; [|vm_compute; reflexivity].
  apply (collect_reads_bank m 0%nat 1%nat 2%nat); [|reflexivity..].
  intros a. unfold m. repeat case_match; try (split; [vm_compute; discriminate|reflexivity]).
  int_unfold. Z.div_mod_to_equations. lia.
Defined.

(** A reading is never made up: when a single word any field needs is missing
    from the snapshot (a short block, a gap between blocks), the decode fails,
    and every failure of the decode is [ErrRegisterOutOfRange]. *)
Theorem telemetry_missing_register `{TimeZone} (s : Snapshot) :
  (∀ e, DecodeTelemetry s = Err e → errors_Is e "register address out of range" = true) ∧
  (Exists (λ a, ∀ b, b ∈ s → contains b a = false) telemetry_addrs →
   is_Ok (DecodeTelemetry s) = false).
Proof.
  split; [apply DecodeTelemetry_Err|]. intros Hex.
  destruct (DecodeTelemetry s) as [t|e] eqn:E; [exfalso|done].
  apply Exists_exists in Hex as (a & Ha & Hno).
  apply DecodeTelemetry_covered in E. rewrite Forall_forall in E.
  destruct (E a Ha) as (b & Hb & Hc). by rewrite (Hno b Hb) in Hc.
Qed.

Lemma telemetry_missing_register_witness :
  let _ : TimeZone := dst_zone in
  let s := [ {| Base := 33022; Regs := replicate 100 1 |}; {| Base := 33122; Regs := replicate 92 1 |} ] in
  is_Ok (DecodeTelemetry s) = false.
Proof.
  intros tz s. apply (telemetry_missing_register s).
  apply Exists_exists. exists 33214. split.
  - apply (bool_decide_unpack _). vm_compute. exact I.
  - apply Forall_forall. repeat (constructor; [reflexivity|]). constructor.
Defined.

(** The battery's current and power take their sign from the direction flag
    alone: while it reads 0 (charge) both are magnitudes, otherwise both are
    negated magnitudes, and a resting battery reads plus zero, never minus zero. *)
Theorem battery_sign `{TimeZone} (s : Snapshot) (t : Telemetry) (x : float64) :
  DecodeTelemetry s = Ok t → x = CurrentA (TBattery t) ∨ x = BatPowerW (TBattery t) →
  ∃ dir, U16 s 33135 = Ok dir ∧ Charging (TBattery t) = (dir =? 0) ∧
    (dir = 0 → x = Abs x) ∧
    (dir ≠ 0 → x = S754_zero false ∨ (is_zero x = false ∧ x = fneg (Abs x))) ∧
    x ≠ S754_zero true.
Proof.
  intros Hd Hx. destruct (DecodeTelemetry_battery s t Hd) as (dir & c & p & Hdir & Hc & Hi & Hp).
  exists dir. split; [done|]. split; [done|].
  assert (Hsig : ∃ v, x = signedByDirection v (dir =? 0)) by (destruct Hx; subst x; eauto).
  destruct Hsig as [v ->]. apply signedByDirection_sign.
Qed.

Lemma battery_sign_witness :
  let _ : TimeZone := dst_zone in
  let m a := if a =? 33134 then 123 else if a =? 33135 then 1 else 0 in
  let s := [ {| Base := 33022; Regs := bank_words m 33022 193 |} ] in
  ∃ t, DecodeTelemetry s = Ok t ∧
    ∃ dir, U16 s 33135 = Ok dir ∧ Charging (TBattery t) = (dir =? 0) ∧
      (dir = 0 → CurrentA (TBattery t) = Abs (CurrentA (TBattery t))) ∧
      (dir ≠ 0 → CurrentA (TBattery t) = S754_zero false ∨
        (is_zero (CurrentA (TBattery t)) = false ∧
         CurrentA (TBattery t) = fneg (Abs (CurrentA (TBattery t))))) ∧
      CurrentA (TBattery t) ≠ S754_zero true.
Proof.
  intros tz m s. assert (Hd : DecodeTelemetry s = Ok (telemetry_of m)).
  { apply DecodeTelemetry_holds. split; [|split]; [apply holds_bank_single; lia..|].
    intros a. unfold m. repeat case_match; split; (vm_compute; discriminate) || reflexivity. }
  exists (telemetry_of m). split; [exact Hd|].
  apply (battery_sign s); [exact Hd|by left].
Defined.
