(* ===== verification/Schedule.v ===== *)
(** * Time-of-Use and boost (internal/schedule/schedule.go, plan.go)

    The owner's tariff window in slots 1 and 2, the ad-hoc boost in slot 3, the
    planning of a boost, and the schedule the inverter should hold. *)

From Stdlib Require Import Ascii.
From S2P Require Import Prelude GoInt GoString GoTime TimedSlots.

(** ** Reading the slots *)

(** [len(inverter.TimedSlots{}) - 1] *)
Definition boostSlot : Z := 2.

(** U+2013 in UTF-8. *)
Definition windowSeparator : string := bytes [226; 128; 147].

Definition isMidnight (c : Clock) : bool := bool_decide (c = Clock0).

(** [(window, ok)]: [None] is [ok = false]. *)
Definition ToU (slots : TimedSlots) : option TimedWindow :=
  let first := Charge_ (slot0 slots) in
  let second := Charge_ (slot1 slots) in
  if IsZero first then None
  else if IsZero second then Some first
  else if isMidnight (End_ first) && isMidnight (Start second)
  then Some {| Start := Start first; End_ := End_ second |}
  else None.

Inductive Mode : Type := Off | Charge | Discharge | ModeOther (n : Z).

#[export] Instance Mode_eq_dec : EqDecision Mode.
Proof. solve_decision. Defined.

Definition Mode_String (m : Mode) : string :=
  match m with
  | Off => "Off"
  | Charge => "Charge"
  | Discharge => "Discharge"
  | ModeOther n => "Mode(" +:+ pretty n +:+ ")"
  end.

Record Boost : Type := { BMode : Mode; Window : TimedWindow }.

Definition BoostOf (slots : TimedSlots) : Boost :=
  let slot := slot_of slots boostSlot in
  if negb (IsZero (Charge_ slot)) then {| BMode := Charge; Window := Charge_ slot |}
  else if negb (IsZero (Discharge_ slot)) then {| BMode := Discharge; Window := Discharge_ slot |}
  else {| BMode := Off; Window := Window0 |}.

Definition endsAt `{TimeZone} (w : TimedWindow) (now : Time) : Time :=
  let end_ := End_ w in
  let day := if isMidnight end_ then Day now + 1 else Day now in
  Date (Year now) (Month now) day (ClockHour end_) (ClockMinute end_) 0 0 (location now).

Definition EndsAt `{TimeZone} (b : Boost) (now : Time) : Time :=
  if decide (BMode b = Off) then zeroTime else endsAt (Window b) now.

Definition Boost_String (b : Boost) : string :=
  if decide (BMode b = Off) then Mode_String Off
  else Mode_String (BMode b) +:+ " until " +:+ Clock_String (End_ (Window b)).

Definition FormatWindow (w : TimedWindow) : string :=
  Clock_String (Start w) +:+ windowSeparator +:+ Clock_String (End_ w).

(** ** Minutes of the day *)

Definition minutesPerDay : Z := 24 * 60.
Definition boostStep : Z := 15.
Definition boostDurations : list Z := [15; 30; 45; 60].

Definition ErrCrossesMidnight : error := Sentinel "boost would cross midnight".
Definition ErrOverlapsToU : error := Sentinel "boost overlaps the time-of-use window".

Definition minuteOf `{TimeZone} (now : Time) : Z := Hour now * 60 + Minute now.

Definition minuteOfDay (c : Clock) : Z := ClockHour c * 60 + ClockMinute c.

Definition endMinuteOfDay (c : Clock) : Z :=
  if isMidnight c then minutesPerDay else minuteOfDay c.

Definition clockAt (minute : Z) : Clock :=
  {| ClockHour := to_uint8 (Z.quot minute 60); ClockMinute := to_uint8 (Z.rem minute 60) |}.

Definition roundUpToStep (minutes : Z) : Z :=
  if minutes <=? 0 then minutes else (minutes + boostStep - 1) / boostStep * boostStep.

Definition intersects (aStart aEnd bStart bEnd : Z) : bool :=
  (aStart <? bEnd) && (bStart <? aEnd).

Definition overlaps (w : TimedWindow) (start stop : Z) : bool :=
  if IsZero w then false
  else
    let windowStart := minuteOfDay (Start w) in
    let windowEnd := endMinuteOfDay (End_ w) in
    if windowStart <? windowEnd then intersects start stop windowStart windowEnd
    else intersects start stop windowStart minutesPerDay || intersects start stop 0 windowEnd.

(** ** The TOU_WINDOW setting *)

Definition invalid_tou (s why : string) : string :=
  "invalid time-of-use window " +:+ fmt_q s +:+ why.

(** [(window, enabled, err)]: [Ok None] is [enabled = false] without an error. *)
Definition ParseToUWindow (s : string) : result (option TimedWindow) :=
  if decide (s = "") then Ok None
  else
    match Cut s "-"%char with
    | None => Err (Errorf (invalid_tou s ": want HH:MM-HH:MM"))
    | Some (startText, endText) =>
        start ← wrap_err (invalid_tou s ": start") (ParseClock startText);
        stop ← wrap_err (invalid_tou s ": end") (ParseClock endText);
        if decide (start = stop)
        then Err (Errorf (invalid_tou s ": start and end are the same"))
        else Ok (Some {| Start := start; End_ := stop |})
    end.

Definition charge_only (w : TimedWindow) : TimedSlot := {| Charge_ := w; Discharge_ := Window0 |}.

Definition ToUSlots (tou : TimedWindow) : TimedSlot * TimedSlot :=
  if negb (isMidnight (End_ tou)) && (minuteOfDay (Start tou) <? minuteOfDay (End_ tou))
  then (charge_only tou, Slot0)
  else
    let beforeMidnight := charge_only {| Start := Start tou; End_ := Clock0 |} in
    if isMidnight (End_ tou) then (beforeMidnight, Slot0)
    else (beforeMidnight, charge_only {| Start := Clock0; End_ := End_ tou |}).

(** ** The schedule the inverter should hold *)

Section Now.
Context `{tz : TimeZone}.

Definition live (w : TimedWindow) (now : Time) : bool :=
  if IsZero w || isMidnight (End_ w) then false
  else
    let nowMinute := minuteOf now in
    (minuteOfDay (Start w) <=? nowMinute) && (nowMinute <? minuteOfDay (End_ w)).

Definition running (slot : TimedSlot) (now : Time) : TimedSlot := {|
  Charge_ := if live (Charge_ slot) now then Charge_ slot else Window0;
  Discharge_ := if live (Discharge_ slot) now then Discharge_ slot else Window0;
|}.

Definition Desired (tou : TimedWindow) (assertToU : bool) (slots : TimedSlots) (now : Time)
  : TimedSlots :=
  let '(d0, d1) :=
    if assertToU && negb (IsZero tou) then ToUSlots tou else (slot0 slots, slot1 slots) in
  {| slot0 := d0; slot1 := d1; slot2 := running (slot2 slots) now |}.

(** ** Planning a boost *)

Definition boostOption (mode : Mode) (minutes : Z) : string :=
  Mode_String mode +:+ " " +:+ pretty minutes +:+ " min".

Definition boost_candidates : list (Mode * Z) :=
  mode ← [Charge; Discharge]; minutes ← boostDurations; [(mode, minutes)].

Definition BoostOptions : list string :=
  Mode_String Off :: map (λ '(mode, minutes), boostOption mode minutes) boost_candidates.

(** [None] is [ok = false]. *)
Definition ParseBoostOption (s : string) : option (Mode * Z) :=
  let s := TrimSpace s in
  if decide (s = Mode_String Off) then Some (Off, 0)
  else List.find (λ '(mode, minutes), bool_decide (s = boostOption mode minutes)) boost_candidates.

(** The end of a boost of [minutes] from minute [start], in Go's 64-bit int. *)
Definition boost_end (start minutes : Z) : Z :=
  to_int64 (to_int64 ((start / boostStep + 1) * boostStep + minutes) - boostStep).

Definition PlanBoost (mode : Mode) (minutes : Z) (now : Time) (tou : TimedWindow) (assertToU : bool)
  : result TimedSlot :=
  if negb (bool_decide (mode = Charge)) && negb (bool_decide (mode = Discharge)) then
    Err (Errorf ("plan boost: mode " +:+ Mode_String mode +:+ " has no window to plan"))
  else if (minutes <=? 0) || negb (Z.rem minutes boostStep =? 0) then
    Err (Errorf ("plan boost: " +:+ pretty minutes +:+ " minutes is not a positive multiple of "
      +:+ pretty boostStep))
  else
    let start := minuteOf now in
    let stop := boost_end start minutes in
    if minutesPerDay <=? stop then
      Err (Wrapf (pretty minutes +:+ " min boost from " +:+ Clock_String (clockAt start))
        ErrCrossesMidnight)
    else
      let window := {| Start := clockAt start; End_ := clockAt stop |} in
      if assertToU && overlaps tou start stop then
        Err (Wrapf ("boost " +:+ FormatWindow window +:+ " against tariff " +:+ FormatWindow tou)
          ErrOverlapsToU)
      else if decide (mode = Discharge)
      then Ok {| Charge_ := Window0; Discharge_ := window |}
      else Ok {| Charge_ := window; Discharge_ := Window0 |}.
End Now.

(** [nil] is [None]. *)
Definition BoostSelectState (slots : TimedSlots) : option string :=
  let boost := BoostOf slots in
  if decide (BMode boost = Off) then Some (Mode_String Off)
  else
    let minutes :=
      roundUpToStep (endMinuteOfDay (End_ (Window boost)) - minuteOfDay (Start (Window boost))) in
    if bool_decide (minutes ∈ boostDurations) then Some (boostOption (BMode boost) minutes)
    else None.

(** ** Minutes and clocks *)

Lemma minuteOfDay_range c : Clock_wf c → 0 ≤ minuteOfDay c < 1440.
Proof. unfold Clock_wf, minuteOfDay. lia. Qed.

Lemma minuteOfDay_inj c c' : Clock_wf c → Clock_wf c' → minuteOfDay c = minuteOfDay c' → c = c'.
Proof. destruct c, c'; unfold Clock_wf, minuteOfDay; cbn. intros. f_equal; lia. Qed.

Lemma Clock0_wf : Clock_wf Clock0.
Proof. unfold Clock_wf; cbn. lia. Qed.

Lemma isMidnight_true c : isMidnight c = true ↔ c = Clock0.
Proof. unfold isMidnight. apply bool_decide_eq_true. Qed.

Lemma isMidnight_false c : Clock_wf c → isMidnight c = false ↔ 0 < minuteOfDay c.
Proof.
  intros Hc. unfold isMidnight. rewrite bool_decide_eq_false.
  pose proof (minuteOfDay_range c Hc). split.
  - intros Hne. destruct (Z.eq_dec (minuteOfDay c) 0) as [E|]; [|lia].
    destruct Hne. by apply minuteOfDay_inj; [..|apply Clock0_wf|].
  - intros Hp ->. vm_compute in Hp. done.
Qed.

Lemma endMinuteOfDay_cases c : Clock_wf c →
  (c = Clock0 ∧ endMinuteOfDay c = 1440) ∨
  (0 < minuteOfDay c < 1440 ∧ endMinuteOfDay c = minuteOfDay c).
Proof.
  intros Hc. unfold endMinuteOfDay. destruct (isMidnight c) eqn:E.
  - left. by apply isMidnight_true in E.
  - right. apply isMidnight_false in E; [|done]. pose proof (minuteOfDay_range c Hc). lia.
Qed.

Lemma clockAt_wf n : 0 ≤ n < 1440 → Clock_wf (clockAt n) ∧ minuteOfDay (clockAt n) = n.
Proof.
  intros Hn. unfold clockAt, Clock_wf, minuteOfDay, to_uint8; cbn [ClockHour ClockMinute].
  change (2 ^ 8) with 256. rewrite Z.quot_div_nonneg, Z.rem_mod_nonneg by lia.
  rewrite !Z.mod_small by (Z.div_mod_to_equations; lia).
  Z.div_mod_to_equations. lia.
Qed.

Lemma IsZero_false w : IsZero w = false ↔ w ≠ Window0.
Proof. unfold IsZero. apply bool_decide_eq_false. Qed.

Lemma Window0_wf : Window_wf Window0.
Proof. split; apply Clock0_wf. Qed.

Lemma Slot0_wf : Slot_wf Slot0.
Proof. split; apply Window0_wf. Qed.

Lemma window_ne0 w : Start w ≠ End_ w → IsZero w = false.
Proof. intros H. apply IsZero_false. by intros ->. Qed.

#[export] Hint Resolve Clock0_wf Window0_wf Slot0_wf : go.

(** The minutes of the day a window covers. *)
Definition in_window (w : TimedWindow) (m : Z) : bool :=
  if IsZero w then false
  else
    let a := minuteOfDay (Start w) in
    let b := endMinuteOfDay (End_ w) in
    if a <? b then (a <=? m) && (m <? b) else (a <=? m) || (m <? b).

Lemma in_window_spec w m : in_window w m = true ↔ w ≠ Window0 ∧
  let a := minuteOfDay (Start w) in let b := endMinuteOfDay (End_ w) in
  (a < b ∧ a ≤ m < b) ∨ (b ≤ a ∧ (a ≤ m ∨ m < b)).
Proof.
  unfold in_window. cbv zeta. destruct (IsZero w) eqn:E.
  - apply IsZero_true in E. split; [done|intros [? _]; done].
  - apply IsZero_false in E.
    destruct (Z.ltb_spec (minuteOfDay (Start w)) (endMinuteOfDay (End_ w))).
    + rewrite andb_true_iff, Z.leb_le, Z.ltb_lt. naive_solver lia.
    + rewrite orb_true_iff, Z.leb_le, Z.ltb_lt. naive_solver lia.
Qed.

Lemma in_window_zero m : in_window Window0 m = false.
Proof. reflexivity. Qed.

Section NowLemmas.
Context `{tz : TimeZone}.

Lemma minuteOf_range now : 0 ≤ minuteOf now < 1440.
Proof. unfold minuteOf. pose proof (Hour_range now). pose proof (Minute_range now). lia. Qed.

Lemma overlaps_in_window w start stop : Window_wf w → 0 ≤ start < stop → stop ≤ 1440 →
  overlaps w start stop = true ↔ ∃ m, start ≤ m < stop ∧ in_window w m = true.
Proof.
  intros [Hs He] Hr Hd. unfold overlaps. setoid_rewrite in_window_spec. cbv zeta.
  destruct (IsZero w) eqn:Ez; [apply IsZero_true in Ez; naive_solver|apply IsZero_false in Ez].
  pose proof (minuteOfDay_range _ Hs). set (a := minuteOfDay (Start w)) in *.
  assert (0 < endMinuteOfDay (End_ w) ≤ 1440).
  { destruct (endMinuteOfDay_cases _ He) as [[_ ->]|[? ->]]; lia. }
  set (b := endMinuteOfDay (End_ w)) in *. unfold intersects, minutesPerDay.
  destruct (Z.ltb_spec a b).
  - rewrite andb_true_iff, !Z.ltb_lt. split.
    + intros. exists (Z.max start a). split; [lia|]. split; [done|]. left. lia.
    + intros (m & ? & _ & [?|?]); lia.
  - rewrite orb_true_iff, !andb_true_iff, !Z.ltb_lt. split.
    + intros [?|?].
      * exists (Z.max start a). split; [lia|]. split; [done|]. right. lia.
      * exists start. split; [lia|]. split; [done|]. right. lia.
    + intros (m & ? & _ & [?|?]); lia.
Qed.

Lemma boost_end_exact start minutes : 0 ≤ start < 1440 → 0 < minutes < 2 ^ 62 →
  boost_end start minutes = start / 15 * 15 + minutes.
Proof.
  intros Hs Hm. unfold boost_end, boostStep, to_int64.
  assert (0 ≤ start / 15 ≤ 96) by (Z.div_mod_to_equations; lia).
  assert (2 ^ (64 - 1) = 2 * 2 ^ 62) as E by reflexivity.
  assert (2000 < 2 ^ 62) by reflexivity.
  rewrite (signed_small 64 ((start / 15 + 1) * 15 + minutes)) by (rewrite ?E; lia).
  rewrite signed_small by (rewrite ?E; lia). lia.
Qed.

(** *** Liveness *)

Lemma live_spec w now : Window_wf w → live w now = true ↔
  w ≠ Window0 ∧ End_ w ≠ Clock0 ∧ minuteOfDay (Start w) ≤ minuteOf now < minuteOfDay (End_ w).
Proof.
  intros _. unfold live. destruct (orb _ _) eqn:E.
  - apply orb_true_iff in E. rewrite IsZero_true, isMidnight_true in E. split; [done|tauto].
  - apply orb_false_iff in E as [E1 E2]. apply IsZero_false in E1.
    unfold isMidnight in E2. apply bool_decide_eq_false in E2.
    rewrite andb_true_iff, Z.leb_le, Z.ltb_lt. tauto.
Qed.

Lemma live_zero now : live Window0 now = false.
Proof. reflexivity. Qed.

Lemma running_idem slot now : running (running slot now) now = running slot now.
Proof.
  unfold running; cbn [Charge_ Discharge_].
  destruct (live (Charge_ slot) now) eqn:E1, (live (Discharge_ slot) now) eqn:E2;
    rewrite ?E1, ?E2, ?live_zero; done.
Qed.

Lemma running_dir (dir : TimedSlot → TimedWindow) slot now : dir = Charge_ ∨ dir = Discharge_ →
  dir (running slot now) = if live (dir slot) now then dir slot else Window0.
Proof. by intros [-> | ->]. Qed.

Lemma ToUSlots_wf w : Window_wf w → Slot_wf (ToUSlots w).1 ∧ Slot_wf (ToUSlots w).2.
Proof.
  intros [Hs He]. unfold ToUSlots, charge_only.
  pose proof Clock0_wf. pose proof Window0_wf. pose proof Slot0_wf.
  repeat case_match; cbn [fst snd]; (split; [|done]) || idtac; repeat (split; try done).
Qed.

Lemma ToUSlots_discharge w :
  Discharge_ (ToUSlots w).1 = Window0 ∧ Discharge_ (ToUSlots w).2 = Window0.
Proof. unfold ToUSlots. by repeat case_match. Qed.

Lemma running_wf slot now : Slot_wf slot → Slot_wf (running slot now).
Proof.
  intros [Hc Hd]. split; unfold running; cbn [Charge_ Discharge_];
    case_match; auto using Window0_wf.
Qed.

Lemma Desired_wf tou a slots now : Window_wf tou → Slots_wf slots → Slots_wf (Desired tou a slots now).
Proof.
  intros Ht (H0 & H1 & H2). pose proof (ToUSlots_wf tou Ht) as [? ?].
  unfold Desired. destruct (_ && _); [destruct (ToUSlots tou)|];
    (split; [done|]; split; [done|]; by apply running_wf).
Qed.
End NowLemmas.

(** *** Strings *)

Lemma digit_char_ne d c : 0 ≤ d < 10 → digit_val c = None → digit_char d ≠ c.
Proof. intros Hd Hc <-. by rewrite digit_val_char in Hc. Qed.

Lemma Clock_String_chars c : Clock_wf c → ∃ a b d e,
  Clock_String c = String a (String b (String ":" (String d (String e "")))) ∧
  a ≠ "-"%char ∧ b ≠ "-"%char ∧ d ≠ "-"%char ∧ e ≠ "-"%char.
Proof.
  intros [Hh Hm]. unfold Clock_String. rewrite !fmt_02d_two by lia. eexists _, _, _, _.
  split; [reflexivity|].
  split_and!; apply digit_char_ne; try reflexivity; Z.div_mod_to_equations; lia.
Qed.

Lemma Cut_app s sep a b : Cut s sep = Some (a, b) → s = a +:+ String sep b.
Proof.
  revert a b. induction s as [|c s IH]; intros a b; cbn; [done|].
  destruct (decide (c = sep)) as [->|]; [by intros [= <- <-]|].
  destruct (Cut s sep) as [[a' b']|]; [|done].
  intros [= <- <-]. by rewrite (IH a' b' eq_refl) at 1.
Qed.

Lemma Cut_clock c t : Clock_wf c →
  Cut (Clock_String c +:+ String "-" t) "-"%char = Some (Clock_String c, t).
Proof.
  intros Hc. destruct (Clock_String_chars c Hc) as (a & b & d & e & -> & Ha & Hb & Hd & He).
  rewrite !str_app_cons, str_app_nil. cbn [Cut].
  rewrite decide_False by done. rewrite decide_False by done. rewrite decide_False by done.
  rewrite decide_False by done. rewrite decide_False by done. by rewrite decide_True by done.
Qed.

Lemma ParseToUWindow_Some s w : ParseToUWindow s = Ok (Some w) ↔
  Window_wf w ∧ Start w ≠ End_ w ∧
  s = Clock_String (Start w) +:+ "-" +:+ Clock_String (End_ w).
Proof.
  unfold ParseToUWindow. split.
  - destruct (decide (s = "")); [done|].
    destruct (Cut s "-"%char) as [[a b]|] eqn:E; [|done]. apply Cut_app in E.
    intros H. result_inv. destruct (decide _) as [|Hne]; [done|]. injection H as <-.
    apply ParseClock_Ok in H0 as [? ->], H1 as [? ->]. done.
  - intros ([Hs He] & Hne & ->). rewrite decide_False.
    2: { destruct (Clock_String_chars _ Hs) as (? & ? & ? & ? & -> & _). done. }
    change ("-" +:+ Clock_String (End_ w)) with (String "-" (Clock_String (End_ w))).
    rewrite Cut_clock by done.
    rewrite (ParseClock_print (Start w)) by done. cbn.
    rewrite (ParseClock_print (End_ w)) by done. cbn.
    rewrite decide_False by done. by destruct w.
Qed.

(** ** Properties *)

(** [ParseToUWindow] accepts exactly the text "HH:MM-HH:MM" of two valid and
    different times of day, and returns them; only the empty text turns the
    assertion off. *)
Theorem tou_setting (s : string) (w : TimedWindow) :
  (ParseToUWindow s = Ok (Some w) ↔
    Window_wf w ∧ Start w ≠ End_ w ∧
    s = Clock_String (Start w) +:+ "-" +:+ Clock_String (End_ w)) ∧
  (ParseToUWindow s = Ok None ↔ s = "").
Proof.
  split; [apply ParseToUWindow_Some|]. split.
  - unfold ParseToUWindow. destruct (decide (s = "")); [done|].
    destruct (Cut s "-"%char) as [[a b]|]; [|done]. intros H. result_inv. by case_match.
  - intros ->. reflexivity.
Qed.

(** A tariff window survives its split at midnight: the two slots are valid,
    charge only, never cross midnight themselves, cover together exactly the
    minutes of the tariff, and [ToU] reads the tariff back from them. *)
Theorem tou_slots_roundtrip (tou : TimedWindow) (s2 : TimedSlot) :
  Window_wf tou → Start tou ≠ End_ tou →
  let a := (ToUSlots tou).1 in
  let b := (ToUSlots tou).2 in
  ToU {| slot0 := a; slot1 := b; slot2 := s2 |} = Some tou ∧
  Slot_wf a ∧ Slot_wf b ∧ Discharge_ a = Window0 ∧ Discharge_ b = Window0 ∧
  (∀ w, w = Charge_ a ∨ w = Charge_ b → w ≠ Window0 →
     minuteOfDay (Start w) < endMinuteOfDay (End_ w)) ∧
  (∀ m, 0 ≤ m < 1440 → in_window tou m = in_window (Charge_ a) m || in_window (Charge_ b) m).
Proof.
  intros Hwf Hne. cbv zeta.
  destruct (ToUSlots_wf tou Hwf) as [Hw1 Hw2], (ToUSlots_discharge tou) as [Hd1 Hd2].
  destruct Hwf as [Hs He]. destruct tou as [s e]; cbn [Start End_] in *.
  pose proof (minuteOfDay_range s Hs). pose proof (minuteOfDay_range e He).
  assert (minuteOfDay s ≠ minuteOfDay e) by (intros E; by apply Hne, minuteOfDay_inj).
  assert (Hnz : ∀ c c', c ≠ c' → IsZero {| Start := c; End_ := c' |} = false) by
    (intros; by apply window_ne0).
  pose proof (endMinuteOfDay_cases e He) as Hend.
  assert (Hcov : ∀ m, 0 ≤ m < 1440 → in_window {| Start := s; End_ := e |} m =
      in_window (Charge_ (ToUSlots {| Start := s; End_ := e |}).1) m ||
      in_window (Charge_ (ToUSlots {| Start := s; End_ := e |}).2) m).
  { intros m Hm. apply eq_true_iff_eq. rewrite orb_true_iff, !in_window_spec. cbv zeta.
    rewrite <- !IsZero_false. unfold ToUSlots, charge_only. cbn [Start End_].
    destruct Hend as [[-> E]|[Hpos E]].
    - change (isMidnight Clock0) with true. cbn [negb andb fst snd Charge_ Start End_ Slot0].
      change (IsZero Window0) with true. intuition done.
    - rewrite (proj2 (isMidnight_false e He)) by lia. cbn [negb andb].
      assert (s ≠ Clock0 ∨ 0 < minuteOfDay e ∧ minuteOfDay s = 0) as Hs0.
      { destruct (decide (s = Clock0)) as [->|]; [right|by left]. by split; [lia|]. }
      assert (Clock0 ≠ e) by (intros <-; vm_compute in Hpos; destruct Hpos; done).
      destruct (Z.ltb_spec (minuteOfDay s) (minuteOfDay e)); cbn [fst snd Charge_ Start End_ Slot0].
      + change (IsZero Window0) with true. intuition done.
      + assert (s ≠ Clock0) by (destruct Hs0 as [?|[_ ?]]; [done|lia]).
        rewrite (Hnz s e), (Hnz s Clock0), (Hnz Clock0 e), E by done.
        change (endMinuteOfDay Clock0) with 1440. change (minuteOfDay Clock0) with 0. intuition lia. }
  unfold ToUSlots, charge_only in *. cbn [Start End_] in *.
  destruct Hend as [[-> E]|[Hpos E]].
  - change (isMidnight Clock0) with true in *. cbn [negb andb fst snd Charge_] in *.
    split_and!; try done.
    + unfold ToU; cbn [slot0 slot1 Charge_ Slot0]. by rewrite Hnz.
    + intros w [-> | ->] Hw; [|done]. cbn [Start End_]. rewrite E. lia.
  - rewrite (proj2 (isMidnight_false e He)) in * by lia. cbn [negb andb] in *.
    destruct (Z.ltb_spec (minuteOfDay s) (minuteOfDay e)); cbn [fst snd Charge_] in *;
      split_and!; try done.
    + unfold ToU; cbn [slot0 slot1 Charge_ Slot0]. by rewrite Hnz.
    + intros w [-> | ->] Hw; [|done]. cbn [Start End_]. lia.
    + unfold ToU; cbn [slot0 slot1 Charge_ Start End_].
      assert (minuteOfDay Clock0 = 0) by reflexivity. assert (s ≠ Clock0) by (intros ->; lia).
      assert (Clock0 ≠ e) by (intros <-; vm_compute in Hpos; destruct Hpos; done).
      by rewrite !Hnz by done.
    + intros w [-> | ->] Hw; cbn [Start End_].
      * change (endMinuteOfDay Clock0) with 1440. lia.
      * change (minuteOfDay Clock0) with 0. lia.
Qed.

Lemma tou_slots_roundtrip_witness :
  let tou := {| Start := {| ClockHour := 23; ClockMinute := 30 |};
                End_ := {| ClockHour := 5; ClockMinute := 29 |} |} in
  ToU {| slot0 := (ToUSlots tou).1; slot1 := (ToUSlots tou).2; slot2 := Slot0 |} = Some tou ∧
  ∀ m, 0 ≤ m < 1440 →
    in_window tou m = in_window (Charge_ (ToUSlots tou).1) m || in_window (Charge_ (ToUSlots tou).2) m.
Proof.
  intros tou. destruct (tou_slots_roundtrip tou Slot0) as (H1 & _ & _ & _ & _ & _ & H2).
  - apply (bool_decide_unpack _). vm_compute. exact I.
  - discriminate.
  - split; [exact H1|exact H2].
Defined.

(** [overlaps] is exactly "some minute of the boost lies in the tariff", for
    tariffs that cross midnight, end at midnight, or are unset. *)
Theorem overlaps_shares_minute (w : TimedWindow) (start stop : Z) :
  Window_wf w → 0 ≤ start < stop → stop ≤ 1440 →
  overlaps w start stop = true ↔ ∃ m, start ≤ m < stop ∧ in_window w m = true.
Proof. intros. by apply overlaps_in_window. Qed.

Lemma overlaps_shares_minute_witness :
  let w := {| Start := {| ClockHour := 23; ClockMinute := 30 |};
              End_ := {| ClockHour := 5; ClockMinute := 30 |} |} in
  (overlaps w 315 345 = true ↔ ∃ m, 315 ≤ m < 345 ∧ in_window w m = true) ∧
  overlaps w 315 345 = true ∧ overlaps w 330 345 = false.
Proof.
  intros w. split; [|split; reflexivity].
  apply (overlaps_shares_minute w 315 345); [|lia|lia].
  apply (bool_decide_unpack _). vm_compute. exact I.
Defined.

(** The window [PlanBoost] writes in the direction of the mode, the other unset. *)
Definition boost_slot (mode : Mode) (w : TimedWindow) : TimedSlot :=
  if decide (mode = Discharge) then {| Charge_ := Window0; Discharge_ := w |}
  else {| Charge_ := w; Discharge_ := Window0 |}.

Section Plan.
Context `{tz : TimeZone}.

Lemma PlanBoost_cases mode minutes now tou a :
  mode = Charge ∨ mode = Discharge → 0 < minutes < 2 ^ 62 → minutes mod 15 = 0 → Window_wf tou →
  let start := minuteOf now in
  let stop := start - start mod 15 + minutes in
  (1440 ≤ stop ∧ ∃ ctx, PlanBoost mode minutes now tou a = Err (Wrapf ctx ErrCrossesMidnight)) ∨
  (stop < 1440 ∧ a = true ∧ (∃ m, start ≤ m < stop ∧ in_window tou m = true) ∧
     ∃ ctx, PlanBoost mode minutes now tou a = Err (Wrapf ctx ErrOverlapsToU)) ∨
  (stop < 1440 ∧ (a = true → ∀ m, start ≤ m < stop → in_window tou m = false) ∧
     ∃ w, PlanBoost mode minutes now tou a = Ok (boost_slot mode w) ∧ Window_wf w ∧
       minuteOfDay (Start w) = start ∧ minuteOfDay (End_ w) = stop).
Proof.
  intros Hmode Hmin Hmod Htou start stop. pose proof (minuteOf_range now) as Hs. fold start in Hs.
  assert (Hend : boost_end start minutes = stop).
  { rewrite boost_end_exact by lia. subst stop. Z.div_mod_to_equations. lia. }
  assert (Hlt : start < stop) by (subst stop; Z.div_mod_to_equations; lia).
  unfold PlanBoost. fold start.
  assert (negb (bool_decide (mode = Charge)) && negb (bool_decide (mode = Discharge)) = false) as ->.
  { destruct Hmode as [-> | ->]; reflexivity. }
  rewrite (proj2 (Z.leb_gt minutes 0)) by lia.
  unfold boostStep, minutesPerDay. rewrite Z.rem_mod_nonneg, Hmod by lia. cbn [negb orb Z.eqb].
  cbv zeta. rewrite Hend. change (24 * 60) with 1440.
  destruct (Z.leb_spec 1440 stop); [left; eauto|right].
  pose proof (overlaps_in_window tou start stop Htou ltac:(lia) ltac:(lia)) as Hov.
  destruct (a && overlaps tou start stop) eqn:Ea.
  - left. apply andb_true_iff in Ea as [-> Ea]. apply Hov in Ea. eauto 10.
  - right. split; [done|]. split.
    + intros -> m Hm. cbn in Ea. destruct (in_window tou m) eqn:E; [|done].
      rewrite (proj2 Hov) in Ea; [done|]. eauto.
    + exists {| Start := clockAt start; End_ := clockAt stop |}.
      destruct (clockAt_wf start ltac:(lia)) as [W1 M1], (clockAt_wf stop ltac:(lia)) as [W2 M2].
      split; [unfold boost_slot; by destruct (decide (mode = Discharge))|]. done.
Qed.

Lemma running_boost_slot mode w now :
  running (boost_slot mode w) now = boost_slot mode (if live w now then w else Window0).
Proof.
  unfold boost_slot, running. destruct (decide (mode = Discharge)); cbn [Charge_ Discharge_];
    by destruct (live w now).
Qed.

Lemma boost_window_live w now : Window_wf w → minuteOfDay (Start w) < minuteOfDay (End_ w) →
  live w now = bool_decide (minuteOfDay (Start w) ≤ minuteOf now < minuteOfDay (End_ w)).
Proof.
  intros Hw Hlt. apply eq_true_iff_eq. rewrite live_spec, bool_decide_eq_true by done.
  split; [tauto|]. intros H. pose proof (minuteOfDay_range _ (proj1 Hw)). split_and!; [| |lia..].
  - intros ->. change (minuteOfDay (End_ Window0)) with 0 in Hlt. lia.
  - intros E. rewrite E in Hlt. change (minuteOfDay Clock0) with 0 in Hlt. lia.
Qed.

Lemma boostDurations_spec minutes : minutes ∈ boostDurations →
  0 < minutes < 2 ^ 62 ∧ minutes mod 15 = 0.
Proof.
  revert minutes. apply Forall_forall. unfold boostDurations.
  repeat (constructor; [repeat split; reflexivity|]). constructor.
Qed.

Lemma boost_candidates_spec mode minutes : (mode, minutes) ∈ boost_candidates ↔
  (mode = Charge ∨ mode = Discharge) ∧ minutes ∈ boostDurations.
Proof.
  unfold boost_candidates. rewrite list_elem_of_bind. split.
  - intros (mo & (mi & E & Hd)%list_elem_of_bind & Hm). apply list_elem_of_singleton in E as [= -> ->].
    rewrite !elem_of_cons, elem_of_nil in Hm. tauto.
  - intros [Hm Hd]. exists mode. split; [|rewrite !elem_of_cons; tauto].
    apply list_elem_of_bind. exists minutes. by rewrite list_elem_of_singleton.
Qed.

Lemma BoostSelectState_boost s0 s1 mode w minutes : Window_wf w →
  mode = Charge ∨ mode = Discharge → minutes ∈ boostDurations →
  0 < minuteOfDay (End_ w) → minutes - 15 < minuteOfDay (End_ w) - minuteOfDay (Start w) ≤ minutes →
  BoostSelectState {| slot0 := s0; slot1 := s1; slot2 := boost_slot mode w |} =
    Some (boostOption mode minutes).
Proof.
  intros [Hs He] Hm Hin Hpos Hd. set (s := {| slot0 := s0; slot1 := s1; slot2 := boost_slot mode w |}).
  assert (Hz : IsZero w = false).
  { apply IsZero_false. intros ->. change (minuteOfDay (End_ Window0)) with 0 in Hpos. lia. }
  assert (BoostOf s = {| BMode := mode; Window := w |}) as Hb.
  { unfold BoostOf, s. change (slot_of _ boostSlot) with (boost_slot mode w). unfold boost_slot.
    destruct Hm as [-> | ->].
    - rewrite decide_False by done. cbn [Charge_ Discharge_]. by rewrite Hz.
    - rewrite decide_True by done. cbn [Charge_ Discharge_].
      change (IsZero Window0) with true. by rewrite Hz. }
  unfold BoostSelectState. rewrite Hb. cbn [BMode Window].
  rewrite decide_False by (destruct Hm as [-> | ->]; done).
  destruct (endMinuteOfDay_cases _ He) as [[E _]|[_ ->]].
  { rewrite E in Hpos. change (minuteOfDay Clock0) with 0 in Hpos. lia. }
  assert (0 < minutes ∧ minutes mod 15 = 0) as [Hm0 Hmod].
  { destruct (boostDurations_spec minutes Hin). lia. }
  assert (roundUpToStep (minuteOfDay (End_ w) - minuteOfDay (Start w)) = minutes) as ->.
  { assert (15 ≤ minutes) by (Z.div_mod_to_equations; lia).
    unfold roundUpToStep, boostStep. rewrite (proj2 (Z.leb_gt _ _)) by lia.
    Z.div_mod_to_equations. lia. }
  by rewrite bool_decide_eq_true_2.
Qed.

End Plan.

(** C20: A boost is granted exactly when it ends before midnight and, while the tariff
    is asserted, shares no minute with it; a refusal names the reason that holds.
    A granted boost sets the window of its direction only, starts at the current
    minute and ends on the quarter-hour grid at most [minutes] later, more than
    [minutes] - 15. *)
Theorem plan_boost_window `{TimeZone} (mode : Mode) (minutes : Z) (now : Time) (tou : TimedWindow) (a : bool) :
  mode = Charge ∨ mode = Discharge → 0 < minutes < 2 ^ 62 → minutes mod 15 = 0 → Window_wf tou →
  let start := minuteOf now in
  let stop := start - start mod 15 + minutes in
  let busy := ∃ m, start ≤ m < stop ∧ in_window tou m = true in
  minutes - 15 < stop - start ≤ minutes ∧ stop mod 15 = 0 ∧
  match PlanBoost mode minutes now tou a with
  | Ok slot => stop < 1440 ∧ (a = true → ¬ busy) ∧
      ∃ w, slot = boost_slot mode w ∧ Window_wf w ∧
        minuteOfDay (Start w) = start ∧ minuteOfDay (End_ w) = stop
  | Err e => (1440 ≤ stop ∧ errors_Is e "boost would cross midnight" = true) ∨
      (stop < 1440 ∧ a = true ∧ busy ∧
       errors_Is e "boost overlaps the time-of-use window" = true)
  end.
Proof.
  intros Hmode Hmin Hmod Htou start stop busy.
  split; [subst stop; Z.div_mod_to_equations; lia|].
  split; [subst stop; Z.div_mod_to_equations; lia|].
  destruct (PlanBoost_cases mode minutes now tou a Hmode Hmin Hmod Htou) as
    [(Hs & ctx & ->)|[(Hs & Ha & Hb & ctx & ->)|(Hs & Hn & w & -> & Hw)]]; [left; done|right; done|].
  split; [done|]. split; [|eauto]. intros Ha (m & Hm & Hc). by rewrite (Hn Ha m Hm) in Hc.
Qed.

Lemma plan_boost_window_witness :
  let _ : TimeZone := dst_zone in
  let now := {| unixNano := (spring_2026 - 36000) * Second; location := Local |} in
  let tou := {| Start := {| ClockHour := 15; ClockMinute := 45 |};
                End_ := {| ClockHour := 5; ClockMinute := 30 |} |} in
  let start := minuteOf now in
  let stop := start - start mod 15 + 45 in
  let busy := ∃ m, start ≤ m < stop ∧ in_window tou m = true in
  minuteOf now = 900 ∧ is_Ok (PlanBoost Charge 45 now tou true) = true ∧
  (45 - 15 < stop - start ≤ 45 ∧ stop mod 15 = 0 ∧
  match PlanBoost Charge 45 now tou true with
  | Ok slot => stop < 1440 ∧ (true = true → ¬ busy) ∧
      ∃ w, slot = boost_slot Charge w ∧ Window_wf w ∧
        minuteOfDay (Start w) = start ∧ minuteOfDay (End_ w) = stop
  | Err e => (1440 ≤ stop ∧ errors_Is e "boost would cross midnight" = true) ∨
      (stop < 1440 ∧ true = true ∧ busy ∧
       errors_Is e "boost overlaps the time-of-use window" = true)
  end).
Proof.
  intros tz now tou start stop busy. split; [reflexivity|]. split; [vm_compute; reflexivity|].
  apply (plan_boost_window Charge 45 now tou true); [by left|split; reflexivity|reflexivity|].
  apply (bool_decide_unpack _). vm_compute. exact I.
Defined.

(** C29: The select reflects what it was used to choose, and the reconcile keeps it:
    while a boost just planned from an option runs, the boost select reads that
    option, the desired schedule keeps its window for exactly the minutes it
    covers, and clears it from its end on. *)
Theorem boost_select_roundtrip `{TimeZone} mode minutes now later tou a slot s0 s1 :
  mode = Charge ∨ mode = Discharge → minutes ∈ boostDurations → Window_wf tou →
  PlanBoost mode minutes now tou a = Ok slot →
  let start := minuteOf now in
  let stop := start - start mod 15 + minutes in
  BoostSelectState {| slot0 := s0; slot1 := s1; slot2 := slot |} = Some (boostOption mode minutes) ∧
  (start ≤ minuteOf later < stop → running slot later = slot) ∧
  (stop ≤ minuteOf later ∨ minuteOf later < start → running slot later = Slot0).
Proof.
  intros Hmode Hin Htou Hp start stop. destruct (boostDurations_spec _ Hin) as [Hmin Hmod].
  destruct (PlanBoost_cases mode minutes now tou a Hmode Hmin Hmod Htou) as
    [(_ & ctx & E)|[(_ & _ & _ & ctx & E)|(Hs & _ & w & E & Hw & Hst & Hen)]];
    rewrite E in Hp; [done|done|]. injection Hp as <-. fold start in Hst. fold start stop in Hen, Hs.
  pose proof (minuteOf_range now) as Hr. fold start in Hr.
  assert (minutes - 15 < stop - start ≤ minutes) by (subst stop; Z.div_mod_to_equations; lia).
  assert (start < stop) by (subst stop; Z.div_mod_to_equations; lia).
  split; [|split].
  - apply BoostSelectState_boost; rewrite ?Hst, ?Hen; done || lia.
  - intros Hl. rewrite running_boost_slot, boost_window_live by (done || lia).
    by rewrite Hst, Hen, bool_decide_eq_true_2 by lia.
  - intros Hl. rewrite running_boost_slot, boost_window_live by (done || lia).
    rewrite Hst, Hen, bool_decide_eq_false_2 by lia. unfold boost_slot. by case_match.
Qed.

Lemma boost_select_roundtrip_witness :
  let _ : TimeZone := dst_zone in
  let now := {| unixNano := (spring_2026 - 36000 + 125) * Second; location := Local |} in
  let slot := boost_slot Discharge {| Start := {| ClockHour := 15; ClockMinute := 2 |};
                                      End_ := {| ClockHour := 15; ClockMinute := 30 |} |} in
  PlanBoost Discharge 30 now Window0 true = Ok slot ∧
  BoostSelectState {| slot0 := Slot0; slot1 := Slot0; slot2 := slot |} =
    Some (boostOption Discharge 30) ∧ running slot now = slot.
Proof.
  intros tz now slot. split; [vm_compute; reflexivity|].
  destruct (boost_select_roundtrip Discharge 30 now now Window0 true slot Slot0 Slot0) as (H1 & H2 & _).
  - by right.
  - apply (bool_decide_unpack _). vm_compute. exact I.
  - apply (bool_decide_unpack _). vm_compute. exact I.
  - vm_compute. reflexivity.
  - split; [exact H1|]. apply H2. split; [vm_compute; discriminate|reflexivity].
Defined.

(** Every option the select offers is understood and means what it says, no two
    options are the same, and a command is understood only if it is, up to
    surrounding space, one of the options. *)
Theorem boost_options_parse (s : string) (mode : Mode) (minutes : Z) :
  NoDup BoostOptions ∧
  (ParseBoostOption s = Some (mode, minutes) ↔
    (TrimSpace s = "Off" ∧ mode = Off ∧ minutes = 0) ∨
    ((mode = Charge ∨ mode = Discharge) ∧ minutes ∈ boostDurations ∧
      TrimSpace s = boostOption mode minutes)) ∧
  Forall (λ o, TrimSpace o = o ∧ is_Some (ParseBoostOption o)) BoostOptions.
Proof.
  split; [|split].
  - apply (bool_decide_unpack _). vm_compute. exact I.
  - unfold ParseBoostOption. generalize (TrimSpace s). clear s. intros s.
    destruct (decide (s = Mode_String Off)) as [->|Hs].
    + split; [intros [= <- <-]; by left|].
      intros [(_ & -> & ->)|(Hm & Hd & E)]; [done|]. exfalso.
      destruct Hm as [-> | ->]; unfold boostOption in E; cbn in E; discriminate E.
    + split.
      * intros [Hin Hb]%find_some. apply bool_decide_eq_true in Hb as ->. right.
        apply list_elem_of_In, boost_candidates_spec in Hin. tauto.
      * intros [(E & _ & _)|(Hm & Hd & ->)]; [done|].
        clear Hs. destruct Hm as [-> | ->]; revert minutes Hd; apply Forall_forall;
          repeat (constructor; [vm_compute; reflexivity|]); constructor.
  - apply (bool_decide_unpack _). vm_compute. exact I.
Qed.

(** C22: The schedule the inverter should hold.  Computed from valid slots it is valid,
    and computing it again from itself changes nothing.  While the tariff is asserted,
    slots 1 and 2 charge, and never discharge, in windows that do not cross midnight and
    cover together exactly the minutes of the tariff, which [ToU] reads back from them;
    otherwise they are left as they are.  The boost slot keeps a window, in either
    direction, from the minute it starts until just before the minute it ends, and is
    cleared at every other minute; a window that ends at midnight is cleared at once. *)
Theorem desired_fixed_point `{TimeZone} (tou : TimedWindow) (a : bool) (slots : TimedSlots) (now : Time) :
  Window_wf tou → Slots_wf slots →
  let d := Desired tou a slots now in
  Slots_wf d ∧ Desired tou a d now = d ∧
  (a = true → Start tou ≠ End_ tou →
     ToU d = Some tou ∧ Discharge_ (slot0 d) = Window0 ∧ Discharge_ (slot1 d) = Window0 ∧
     (∀ w, w = Charge_ (slot0 d) ∨ w = Charge_ (slot1 d) → w ≠ Window0 →
        minuteOfDay (Start w) < endMinuteOfDay (End_ w)) ∧
     (∀ m, 0 ≤ m < 1440 →
        in_window tou m = in_window (Charge_ (slot0 d)) m || in_window (Charge_ (slot1 d)) m)) ∧
  (a = false ∨ tou = Window0 → slot0 d = slot0 slots ∧ slot1 d = slot1 slots) ∧
  (∀ dir, dir = Charge_ ∨ dir = Discharge_ →
     let w := dir (slot2 slots) in
     let kept := End_ w ≠ Clock0 ∧ minuteOfDay (Start w) ≤ minuteOf now < minuteOfDay (End_ w) in
     (kept → dir (slot2 d) = w) ∧ (¬ kept → dir (slot2 d) = Window0)).
Proof.
  intros Ht Hs d. split; [by apply Desired_wf|].
  assert (Hd2 : slot2 d = running (slot2 slots) now).
  { subst d. unfold Desired. by destruct (if _ : bool then _ else _). }
  split; [|split; [|split]].
  - subst d. unfold Desired. destruct (a && negb (IsZero tou)).
    + destruct (ToUSlots tou). cbn [slot2]. by rewrite running_idem.
    + cbn [slot0 slot1 slot2]. by rewrite running_idem.
  - intros -> Hne. destruct (tou_slots_roundtrip tou (slot2 d) Ht Hne) as (Hr & _ & _ & Hd0 & Hd1 & Hw & Hc).
    assert (d = {| slot0 := (ToUSlots tou).1; slot1 := (ToUSlots tou).2; slot2 := slot2 d |}) as E.
    { subst d. unfold Desired. rewrite window_ne0 by exact Hne. cbn [andb negb]. by destruct (ToUSlots tou). }
    rewrite E. cbn [slot0 slot1]. done.
  - intros Hn. subst d. unfold Desired. destruct Hn as [-> | ->]; [done|].
    change (IsZero Window0) with true. by rewrite andb_false_r.
  - intros dir Hdir w kept. pose proof (running_dir dir (slot2 slots) now Hdir) as E. fold w in E.
    assert (Window_wf w) as Hw by (destruct Hs as (_ & _ & ? & ?); subst w; by destruct Hdir as [-> | ->]).
    rewrite Hd2, E. destruct (live w now) eqn:El.
    + apply live_spec in El as (_ & El); [|done]. split; [done|]. intros Hk. by destruct Hk.
    + split; [|done]. intros [Hk1 Hk2]. rewrite <- not_true_iff_false, live_spec in El by done.
      destruct El. split; [|done]. intros ->. cbn in Hk1. done.
Qed.

Lemma desired_fixed_point_witness :
  let _ : TimeZone := dst_zone in
  let now := {| unixNano := (spring_2026 - 36000 + 125) * Second; location := Local |} in
  let tou := {| Start := {| ClockHour := 23; ClockMinute := 30 |};
                End_ := {| ClockHour := 5; ClockMinute := 29 |} |} in
  let boost := {| Start := {| ClockHour := 14; ClockMinute := 17 |};
                  End_ := {| ClockHour := 15; ClockMinute := 3 |} |} in
  let slots := {| slot0 := Slot0; slot1 := Slot0; slot2 := boost_slot Discharge boost |} in
  let d := Desired tou true slots now in
  minuteOf now = 902 ∧ ToU d = Some tou ∧
  (∀ m, 0 ≤ m < 1440 →
     in_window tou m = in_window (Charge_ (slot0 d)) m || in_window (Charge_ (slot1 d)) m) ∧
  Discharge_ (slot2 d) = boost.
Proof.
  intros tz now tou boost slots d. split; [vm_compute; reflexivity|].
  destruct (desired_fixed_point tou true slots now) as (_ & _ & Ht & _ & Hb).
  - apply (bool_decide_unpack _). vm_compute. exact I.
  - apply (bool_decide_unpack _). vm_compute. exact I.
  - destruct (Ht eq_refl ltac:(discriminate)) as (Hr & _ & _ & _ & Hc).
    split; [exact Hr|]. split; [exact Hc|].
    apply (Hb Discharge_ (or_intror eq_refl)). split; [discriminate|].
    split; [vm_compute; discriminate|reflexivity].
Defined.
