(* ===== verification/FloatFinite.v ===== *)
(** * Which computations stay finite

    The conversions, divisions and additions of the decode never reach an infinity
    or a NaN: exponents stay far below the limit.  [fin E x]: a finite number whose
    unit is at most 2^E. *)

From S2P Require Import Prelude GoInt GoString GoFloat FloatFacts Amps.

Definition fin (E : Z) (x : float64) : Prop :=
  match x with
  | S754_zero _ => True
  | S754_finite _ m e => Zpos m ≤ 2 ^ 53 ∧ e ≤ E
  | _ => False
  end.

Lemma fin_number E x : fin E x → IsNaN x = false ∧ IsInf x = false.
Proof. by destruct x. Qed.

Lemma fin_mono E E' x : E ≤ E' → fin E x → fin E' x.
Proof. destruct x; cbn; naive_solver lia. Qed.

(** Rounding a mantissa of value below 2^(E+52). *)
Lemma round_aux_fin s m e l E : 0 ≤ m → e < E → Zdigits2 m + e ≤ E + 52 → -1073 ≤ E ≤ 971 →
  fin E (binary_round_aux prec emax s m e l).
Proof.
  intros Hm He Hd HE. unfold binary_round_aux.
  pose proof (shr_fexp_spec m e l Hm) as Hshr. cbv zeta in Hshr.
  set (n := Z.max 0 _) in Hshr.
  destruct (shr_fexp prec emax m e l) as [x e']. destruct Hshr as (Hx & -> & _).
  assert (0 ≤ n ∧ e + n ≤ E - 1 ∧ -1074 ≤ e + n) as (Hn & Hen & Hlo)
    by (subst n; unfold fexp, emin, prec, emax in *; lia).
  assert (0 ≤ m / 2 ^ n < 2 ^ 53) as Hb.
  { split; [apply Z.div_pos; [done|apply Z.pow_pos_nonneg; lia]|].
    apply pow_div_lt; [done| |done].
    destruct (Z.eq_dec m 0) as [->|Hne]; [apply Z.pow_pos_nonneg; lia|].
    destruct (Zdigits2_bounds m ltac:(lia)) as [[_ Hdm] _].
    eapply Z.lt_le_trans; [exact Hdm|]. apply Z.pow_le_mono_r; [lia|].
    subst n. unfold fexp, prec. lia. }
  set (m1 := round_nearest_even (shr_m x) (loc_of_shr_record x)).
  assert (0 ≤ m1 ≤ 2 ^ 53) as Hm1.
  { pose proof (round_nearest_even_spec x) as [E1|[E1 _]]; fold m1 in E1; lia. }
  clearbody m1. destruct (renormalise m1 (e + n) Hm1) as (k & Hk & _ & Hkeq).
  { unfold emin, prec, emax. lia. }
  pose proof (shr_fexp_spec m1 (e + n) loc_Exact ltac:(lia)) as Hshr.
  cbv zeta in Hshr. rewrite Hkeq in Hshr.
  destruct (shr_fexp prec emax m1 (e + n) loc_Exact) as [y e'']. destruct Hshr as (Hy & -> & _).
  pose proof (Z.pow_pos_nonneg 2 k ltac:(lia) ltac:(lia)) as Hp.
  assert (0 ≤ shr_m y ≤ m1) as [Hy0 Hy1].
  { rewrite Hy. split; [apply Z.div_pos; lia|apply Z.div_le_upper_bound; [done|nia]]. }
  destruct (shr_m y) as [|m2|m2]; [done| |lia].
  rewrite (proj2 (Z.leb_le _ _)) by (unfold emax, prec; lia). cbn [fin]. lia.
Qed.

Lemma digits_pow m k b : 0 ≤ k → 0 ≤ b → 0 ≤ m < 2 ^ b → Zdigits2 (m * 2 ^ k) ≤ b + k.
Proof.
  intros Hk Hb Hm. apply Zdigits2_le; [|lia]. rewrite Z.pow_add_r by lia.
  pose proof (Z.pow_pos_nonneg 2 k). nia.
Qed.

Lemma binary_round_fin s p e E b : 0 ≤ b → Zpos p < 2 ^ b → e < E → b + e ≤ E + 52 → -1073 ≤ E ≤ 971 →
  fin E (binary_round prec emax s p e).
Proof.
  intros Hb Hp He Hbe HE. unfold binary_round.
  set (f := fexp prec emax (Zpos (digits2_pos p) + e)).
  destruct (Z.le_gt_cases f e) as [Hf|Hf].
  - pose proof (shl_align_spec p e f Hf) as H. destruct (shl_align p e f) as [m ez]. destruct H as [Hm ->].
    apply round_aux_fin; [lia|lia| |done]. rewrite Hm.
    pose proof (digits_pow (Zpos p) (e - f) b). lia.
  - unfold shl_align. destruct (f - e) eqn:Ef; try lia.
    apply round_aux_fin; [lia..| |done]. pose proof (Zdigits2_le (Zpos p) b). lia.
Qed.

(** [binary_normalize]: an integer times a power of two. *)
Lemma normalize_fin m e szero E b : 0 ≤ b → Z.abs m < 2 ^ b → e < E → b + e ≤ E + 52 → -1073 ≤ E ≤ 971 →
  fin E (binary_normalize prec emax m e szero).
Proof. intros Hb Hm. destruct m as [|p|p]; [done|..]; cbn in Hm; by apply binary_round_fin. Qed.

Lemma of_int_fin n : is_int64 n → fin 20 (of_int n).
Proof.
  intros Hn. apply (normalize_fin _ _ _ _ 64); try lia. unfold is_int64 in Hn.
  change (2 ^ 63) with 9223372036854775808 in Hn. change (2 ^ 64) with 18446744073709551616. lia.
Qed.

Lemma fneg_fin E x : fin E x → fin E (fneg x).
Proof. by destruct x. Qed.

Lemma Abs_fin E x : fin E x → fin E (Abs x).
Proof. by destruct x. Qed.

Lemma fmax_fin E x y : fin E x → fin E y → fin E (fmax x y).
Proof.
  intros Hx Hy. unfold fmax. destruct (SFcompare x y) as [[]|] eqn:Ec; [..|by destruct x, y]; try done.
  by destruct x as [[]| | |].
Qed.

(** Dividing by a constant of the decode: ten, a hundred, a thousand million. *)
Definition divisor (y : float64) : bool :=
  match y with S754_finite false m e => (2 ^ 52 <=? Zpos m) && (-52 <=? e) && (e <=? 0) | _ => false end.

Lemma fdiv_fin E x y : divisor y = true → -1000 ≤ E ≤ 900 → fin E x → fin (E + 60) (fdiv x y).
Proof.
  intros Hy HE Hx. destruct y as [| | |[] m2 e2]; try done. cbn [divisor] in Hy. bool_arith.
  destruct x as [s| | |s m1 e1]; try done. destruct Hx as [Hm He].
  unfold fdiv, SFdiv. destruct (SFdiv_core_binary _ _ _ _ _ _) as [[q e'] l] eqn:Ec.
  apply div_core_spec in Ec as (He' & Hq & Hle & _); [|lia..].
  assert (0 ≤ e1 - e2 - e') as Hk by lia.
  apply round_aux_fin; [done|lia| |lia].
  assert (q < 2 ^ (2 + (e1 - e2 - e'))) as Hlt.
  { rewrite Z.pow_add_r by lia. pose proof (Z.pow_pos_nonneg 2 (e1 - e2 - e') ltac:(lia) Hk) as Hp.
    change (2 ^ 53) with (2 * 2 ^ 52) in Hm. change (2 ^ 2) with 4.
    generalize dependent (2 ^ (e1 - e2 - e')). generalize dependent (2 ^ 52). intros; nia. }
  pose proof (Zdigits2_le q (2 + (e1 - e2 - e')) (conj Hq Hlt)). lia.
Qed.

Lemma fadd_fin E x y : -1000 ≤ E ≤ 900 → fin E x → fin E y → fin (E + 60) (fadd x y).
Proof.
  intros HE Hx Hy. assert (∀ z, fin E z → fin (E + 60) z) as Hup by (intros; eapply fin_mono; [|done]; lia).
  destruct x as [s1| | |s1 m1 e1], y as [s2| | |s2 m2 e2]; try done; unfold fadd, SFadd;
    [by destruct s1, s2|by apply Hup..|].
  destruct Hx as [Hm1 He1], Hy as [Hm2 He2].
  set (ez := Z.min e1 e2).
  pose proof (shl_align_spec m1 e1 ez ltac:(lia)) as H1.
  pose proof (shl_align_spec m2 e2 ez ltac:(lia)) as H2.
  destruct (shl_align m1 e1 ez) as [p1 q1], (shl_align m2 e2 ez) as [p2 q2].
  destruct H1 as [H1 ->], H2 as [H2 ->]. cbn [fst].
  set (K := E - ez). assert (0 ≤ K) as HK by lia.
  apply (normalize_fin _ _ _ _ (55 + K)); try lia.
  assert (∀ m e p, Zpos m ≤ 2 ^ 53 → ez ≤ e ≤ E → Zpos p = Zpos m * 2 ^ (e - ez) →
    Zpos p ≤ 2 ^ 53 * 2 ^ K) as Hsc.
  { intros m e p Hm He ->. apply Z.mul_le_mono_nonneg;
      [lia|done|apply Z.pow_nonneg; lia|apply Z.pow_le_mono_r; lia]. }
  pose proof (Hsc m1 e1 p1 Hm1 ltac:(lia) H1). pose proof (Hsc m2 e2 p2 Hm2 ltac:(lia) H2).
  assert (2 ^ (55 + K) = 4 * (2 ^ 53 * 2 ^ K)) as ->.
  { rewrite Z.pow_add_r by lia. change (2 ^ 55) with (4 * 2 ^ 53). by rewrite Z.mul_assoc. }
  generalize dependent (2 ^ 53 * 2 ^ K). intros X _ Hp1 Hp2.
  destruct s1, s2; cbn [cond_Zopp Z.opp]; lia.
Qed.
