(* ===== verification/Sidecar.v ===== *)
(** * The register bus (HoldingReadWriter of internal/controls/guard.go)

    The program reaches the inverter through an interface of three calls.  The
    bus behind it is outside the program, so it is a type class over the state of
    the world; what the program relies on is stated as laws, in two strengths:
    a bus that may fail anywhere, and a healthy one. *)

From S2P Require Import Prelude GoInt GoTime Block Registers TimedSlots.

(** ** The interface *)

Class HoldingReadWriter (W : Type) : Type := {
  ReadHolding : Z → Z → State W (result (list Z));
  WriteHolding : Z → Z → State W (result unit);
}.

(** ** What is true of the bus, whatever fails

    [holding] is the inverter's holding bank; [landed] the writes that took
    effect, [frames] the write frames issued, both oldest first.  A read does not
    change the bank, and returns some prefix of the registers asked for when it
    succeeds; a write issues one frame, and takes effect or does not, whatever the
    reply says: a reply can be lost after the write landed, and an acknowledged
    write can be ignored by the inverter. *)
Class BusLaws (W : Type) `{HoldingReadWriter W} : Type := {
  holding : W → mem;
  landed : W → list Register;
  frames : W → list Register;
  bus_words w a : is_uint16 (holding w a);
  bus_read a n w r w' : ReadHolding a n w = (r, w') →
    (∀ b, holding w' b = holding w b) ∧ landed w' = landed w ∧ frames w' = frames w ∧
    ∀ l, r = Ok l → l `prefix_of` bank_words (holding w) a (Z.to_nat n);
  bus_write a v w r w' : is_uint16 v → WriteHolding a v w = (r, w') →
    let reg := {| Addr := a; Value := v |} in
    frames w' = frames w ++ [reg] ∧
    (((∀ b, holding w' b = holding w b) ∧ landed w' = landed w) ∨
     ((∀ b, holding w' b = write_reg (holding w) reg b) ∧ landed w' = landed w ++ [reg]));
}.

(** A healthy bus: from a [healthy] state every read of 1 to 125 registers, the most
    one Modbus request carries, is answered in full, every write of a word to a
    register is acknowledged and lands, and the state stays healthy. *)
Definition MaxCount : Z := 125.

Class HealthyBus (W : Type) `{BusLaws W} : Type := {
  healthy : W → Prop;
  healthy_read a n w : is_uint16 a → 1 ≤ n ≤ MaxCount → healthy w →
    ∃ w', ReadHolding a n w = (Ok (bank_words (holding w) a (Z.to_nat n)), w') ∧ healthy w';
  healthy_write a v w : healthy w → is_uint16 a → is_uint16 v →
    ∃ w', WriteHolding a v w = (Ok tt, w') ∧ healthy w' ∧
      (∀ b, holding w' b = write_reg (holding w) {| Addr := a; Value := v |} b) ∧
      landed w' = landed w ++ [ {| Addr := a; Value := v |} ];
}.

(** ** A bus that follows a script of faults

    It shows the laws can hold, and is what the concrete runs below execute on. *)
Inductive fault : Type :=
| Fine             (* the call works *)
| NoReply          (* a read or write frame is lost: error, nothing happens *)
| Empty            (* a read is answered without registers *)
| ReplyLost        (* a write lands, its reply is lost: error *)
| Ignored.         (* a write is acknowledged but has no effect *)

Record Device : Type := {
  bank : mem;
  landed_log : list Register;
  frame_log : list Register;
  script : list fault;
  clock : Time;
}.

Definition next_fault (d : Device) : fault * list fault :=
  match script d with [] => (Fine, []) | f :: fs => (f, fs) end.

Definition lost : error := Errorf "no reply".

(** Words on the wire are 16 bits wide. *)
Definition device_word (d : Device) (a : Z) : Z := to_uint16 (bank d a).

#[export] Instance Device_rw : HoldingReadWriter Device := {
  ReadHolding a n d :=
    let '(f, fs) := next_fault d in
    let d' := {| bank := bank d; landed_log := landed_log d; frame_log := frame_log d;
                 script := fs; clock := clock d |} in
    (match f with
     | NoReply => Err lost
     | Empty => Ok []
     | _ => Ok (bank_words (device_word d) a (Z.to_nat n))
     end, d');
  WriteHolding a v d :=
    let '(f, fs) := next_fault d in
    let reg := {| Addr := a; Value := v |} in
    let lands := match f with NoReply | Ignored => false | _ => true end in
    let d' := {| bank := if lands then write_reg (device_word d) reg else bank d;
                 landed_log := if lands then landed_log d ++ [reg] else landed_log d;
                 frame_log := frame_log d ++ [reg];
                 script := fs; clock := clock d |} in
    (match f with NoReply | ReplyLost => Err lost | _ => Ok tt end, d');
}.

#[export] Instance Device_clock : Clock_ Device := clock.

(** Waiting takes time. *)
Definition device_tick (d : Z) (v : Device) : Device := {|
  bank := bank v; landed_log := landed_log v; frame_log := frame_log v; script := script v;
  clock := {| unixNano := unixNano (clock v) + d; GoTime.location := GoTime.location (clock v) |} |}.

Lemma device_word_range d a : is_uint16 (device_word d a).
Proof. unfold device_word. int_unfold. Z.div_mod_to_equations. lia. Qed.

#[export, refine] Instance Device_laws : BusLaws Device := {
  holding := device_word;
  landed := landed_log;
  frames := frame_log;
}.
Proof.
  - apply device_word_range.
  - intros a n d r d'. unfold ReadHolding; cbn.
    destruct (next_fault d) as [f fs]. intros [= <- <-]. cbn. split_and!; try done.
    destruct f; intros l [= <-]; try done. apply prefix_nil.
  - intros a v d r d' Hv. unfold WriteHolding; cbn.
    destruct (next_fault d) as [f fs]. intros [= <- <-]. cbn. split; [done|].
    assert (Hw : ∀ b, to_uint16 (write_reg (device_word d) {| Addr := a; Value := v |} b) =
      write_reg (device_word d) {| Addr := a; Value := v |} b).
    { intros b. unfold write_reg; cbn. destruct (b =? a); [|pose proof (device_word_range d b)];
        apply Z.mod_small; int_solve. }
    destruct f; (right; split; [exact Hw|done]) || (left; done).
Defined.

(** A device whose script has run out works from then on. *)
#[export, refine] Instance Device_healthy : HealthyBus Device := {
  healthy d := script d = [];
}.
Proof.
  - intros a n d _ _ Hd. unfold ReadHolding; cbn. unfold next_fault. rewrite Hd. eauto.
  - intros a v d Hd _ Hv. unfold WriteHolding; cbn. unfold next_fault. rewrite Hd.
    eexists. split; [reflexivity|]. split; [done|]. split; [|done]. intros b. cbn.
    unfold device_word at 1; cbn. unfold write_reg; cbn. unfold device_word.
    destruct (b =? a); int_unfold; [|rewrite Z.mod_mod by lia; done]. rewrite Z.mod_small; lia.
Defined.
