(* ===== verification/Json.v ===== *)
(** * JSON (encoding/json)

    What [json.Marshal] prints and the decoder reads is kept as a value: a payload is
    a tree, not its bytes. *)

From Stdlib Require Import Ascii.
From S2P Require Import Prelude GoInt GoString GoFloat.

(** ** Values *)

Inductive json : Type :=
| JNull | JBool (b : bool) | JInt (n : Z) | JNum (x : float64) | JStr (s : string)
| JArr (l : list json) | JObj (fields : list (string * json)).

(** A [*string] without omitempty. *)
Definition jopt (o : option string) : json := match o with Some s => JStr s | None => JNull end.

(** What a message carries: the members of a struct in order, the entries of a
    map, or raw text. *)
Inductive Payload : Type :=
| PStruct (fields : list (string * json))
| PMap (m : gmap string json)
| PText (s : string).

(** The only values [json.Marshal] refuses among those used here. *)
Definition bad_number (j : json) : bool :=
  match j with JNum x => IsNaN x || IsInf x | _ => false end.

Definition Marshal (fields : list (string * json)) : result Payload :=
  if existsb (λ '(_, j), bad_number j) fields then Err (Errorf "json: unsupported value")
  else Ok (PStruct fields).

(** ** Decoding

    What the decoder makes of some bytes: their first value and whether anything
    follows it, or an error. *)
Abbreviation Doc := (result (json * bool)).

(** What a decoder reads back from a payload that was printed. *)
Definition decoded (p : Payload) : Doc :=
  match p with
  | PStruct fields => Ok (JObj fields, false)
  | PMap m => Ok (JObj (map_to_list m), false)
  | PText _ => Err (Errorf "invalid character")
  end.

(** *** Into structs

    A member goes to the field whose name its key folds to: ASCII case, and the two
    other characters that fold to ASCII letters, the long s and the Kelvin sign.  The
    first type error fails the decode; an array's null elements are left zero (a key
    repeated in one object starts from zero again). *)
Fixpoint fold_name (s : string) : string :=
  match s with
  | EmptyString => EmptyString
  | String c r =>
      match r with
      | String d r' =>
          if (code c =? 197) && (code d =? 191) then String "s" (fold_name r')
          else
            match r' with
            | String e r'' =>
                if (code c =? 226) && (code d =? 132) && (code e =? 170) then String "k" (fold_name r'')
                else String (lower_byte c) (fold_name r)
            | EmptyString => String (lower_byte c) (fold_name r)
            end
      | EmptyString => String (lower_byte c) EmptyString
      end
  end.

Definition type_error (what : string) : error := Errorf ("json: cannot unmarshal into Go value of type " +:+ what).

Definition into_int (cur : Z) (j : json) : result Z :=
  match j with
  | JNull => Ok cur
  | JInt n => if decide (is_int64 n) then Ok n else Err (type_error "int")
  | _ => Err (type_error "int")
  end.

Definition into_uint16 (cur : Z) (j : json) : result Z :=
  match j with
  | JNull => Ok cur
  | JInt n => if decide (is_uint16 n) then Ok n else Err (type_error "uint16")
  | _ => Err (type_error "uint16")
  end.

Definition into_bool (cur : bool) (j : json) : result bool :=
  match j with JNull => Ok cur | JBool b => Ok b | _ => Err (type_error "bool") end.

Definition into_string (cur : string) (j : json) : result string :=
  match j with JNull => Ok cur | JStr s => Ok s | _ => Err (type_error "string") end.

Fixpoint into_each {A} (into : json → result A) (l : list json) : result (list A) :=
  match l with
  | [] => Ok []
  | j :: l => x ← into j; xs ← into_each into l; Ok (x :: xs)
  end.

Definition into_uint16s (cur : list Z) (j : json) : result (list Z) :=
  match j with
  | JNull => Ok []
  | JArr l => into_each (into_uint16 0) l
  | _ => Err (type_error "[]uint16")
  end.

(** An object into a struct: [field] gives a member's effect, by its folded key. *)
Definition into_struct {A} (field : string → json → A → result A) (cur : A) (j : json) : result A :=
  match j with
  | JNull => Ok cur
  | JObj fields => foldl (λ acc '(k, v), a ← acc; field (fold_name k) v a) (Ok cur) fields
  | _ => Err (type_error "struct")
  end.

(** [json.NewDecoder(body).Decode(out)], which ignores what follows the value, and
    [json.Unmarshal], which does not. *)
Definition Decode {A} (field : string → json → A → result A) (zero : A) (d : Doc) : result A :=
  v ← d; into_struct field zero v.1.

Definition Unmarshal {A} (field : string → json → A → result A) (zero : A) (d : Doc) : result A :=
  v ← d; if v.2 : bool then Err (Errorf "invalid character after top-level value")
         else into_struct field zero v.1.

Lemma into_each_Forall {A} (into : json → result A) (P : A → Prop) l xs :
  (∀ j x, into j = Ok x → P x) → into_each into l = Ok xs → Forall P xs.
Proof.
  intros Hp. revert xs. induction l as [|j l IH]; intros xs H; cbn in H; [by injection H as <-|].
  apply bind_Ok_inv in H as (x & Hx & H). apply bind_Ok_inv in H as (ys & Hy & H).
  injection H as <-. constructor; eauto.
Qed.

Lemma into_uint16_word cur j n : is_uint16 cur → into_uint16 cur j = Ok n → is_uint16 n.
Proof. intros Hc. destruct j; cbn; try done; [by intros [= <-]|]. case_decide; [by intros [= <-]|done]. Qed.

(** Decoded words are words. *)
Lemma into_uint16s_words cur j l : into_uint16s cur j = Ok l → Forall is_uint16 l.
Proof.
  destruct j; cbn; try done; [by intros [= <-]|]. apply into_each_Forall. intros j x.
  by apply into_uint16_word.
Qed.

(** A property of every field survives the struct. *)
Lemma into_struct_inv {A} (field : string → json → A → result A) (P : A → Prop) zero j a :
  P zero → (∀ k v x y, P x → field k v x = Ok y → P y) → into_struct field zero j = Ok a → P a.
Proof.
  intros H0 Hf. destruct j; cbn; try done; [by intros [= <-]|].
  assert (∀ acc, (∀ x, acc = Ok x → P x) →
    ∀ a, foldl (λ acc '(k, v), a ← acc; field (fold_name k) v a) acc fields = Ok a → P a) as H.
  { clear a. induction fields as [|[k v] fields IH]; intros acc Hacc a; cbn [foldl]; [apply Hacc|].
    apply IH. intros x Hx. apply bind_Ok_inv in Hx as (y & Hy & Hx). by eapply Hf; [apply Hacc|]. }
  apply H. by intros x [= <-].
Qed.
