(* ===== verification/HomeAssistant.v ===== *)
(** * Home Assistant documents (internal/homeassistant)

    The state document, the entity catalogue and the discovery messages. *)

From Stdlib Require Import Ascii.
From S2P Require Import Prelude GoInt GoString GoTime GoFloat Json Amps Block WorkMode TimedSlots Rtc.
From S2P Require Import Telemetry Schedule.

(** ** Topics (entities.go) *)

Definition Sensor : string := "sensor".
Definition BinarySensor : string := "binary_sensor".
Definition Number : string := "number".
Definition Switch : string := "switch".
Definition Select : string := "select".
Definition Button : string := "button".

Definition Manufacturer : string := "Solis".
Definition Model : string := "RHI-3.6K-48ES-5G".
Definition DeviceName : string := "Solis Inverter".
Definition DefaultObjectIDPrefix : string := "solis_inverter".

Record HAConfig : Type := {
  DiscoveryPrefix : string; TopicPrefix : string; Serial : string;
  ObjectIDPrefix : string; ControlsEnabled : bool;
}.

Definition objectID (c : HAConfig) (key : string) : string :=
  let prefix := if decide (ObjectIDPrefix c = "") then DefaultObjectIDPrefix else ObjectIDPrefix c in
  prefix +:+ "_" +:+ key.

Definition BaseTopic (c : HAConfig) : string := TopicPrefix c +:+ "/" +:+ Serial c.
Definition StateTopic (c : HAConfig) : string := BaseTopic c +:+ "/state".
Definition AvailabilityTopic (c : HAConfig) : string := BaseTopic c +:+ "/availability".

Record Message : Type := { MTopic : string; MPayload : Payload }.

Record Entity : Type := {
  Component : string; Key : string; Name : string; DeviceClass : string; StateClass : string;
  Unit : string; Category : string; Precision : Z; Command : bool;
  Min : float64; Max : float64; Step : float64; EMode : string;
  Options : list string; PayloadPress : string;
}.

(** A read-only entity: the control fields are zero. *)
Definition entity (component key name deviceClass stateClass unit category : string) (precision : Z)
  : Entity := {|
  Component := component; Key := key; Name := name; DeviceClass := deviceClass;
  StateClass := stateClass; Unit := unit; Category := category; Precision := precision;
  Command := false; Min := of_int 0; Max := of_int 0; Step := of_int 0; EMode := "";
  Options := []; PayloadPress := "" |}.

Definition Entities : list Entity := [
  entity Sensor "battery_voltage" "Battery voltage"
    "voltage" "measurement" "V" "" 1;
  entity Sensor "battery_current" "Battery current"
    "current" "measurement" "A" "" 1;
  entity Sensor "battery_power" "Battery power"
    "power" "measurement" "W" "" 0;
  entity Sensor "battery_charge_power" "Battery charge power"
    "power" "measurement" "W" "" 0;
  entity Sensor "battery_discharge_power" "Battery discharge power"
    "power" "measurement" "W" "" 0;
  entity BinarySensor "battery_charging" "Battery charging"
    "battery_charging" "" "" "" 0;
  entity Sensor "battery_soc" "Battery SOC"
    "battery" "measurement" "%" "" 0;
  entity Sensor "battery_soh" "Battery SOH"
    "battery" "measurement" "%" "diagnostic" 0;
  entity Sensor "bms_voltage" "BMS voltage"
    "voltage" "measurement" "V" "diagnostic" 2;
  entity Sensor "bms_current" "BMS current"
    "current" "measurement" "A" "diagnostic" 1;
  entity Sensor "bms_charge_current_limit" "BMS charge current limit"
    "current" "measurement" "A" "diagnostic" 1;
  entity Sensor "bms_discharge_current_limit" "BMS discharge current limit"
    "current" "measurement" "A" "diagnostic" 1;
  entity Sensor "bms_fault_1" "BMS fault word 1"
    "" "" "" "diagnostic" 0;
  entity Sensor "bms_fault_2" "BMS fault word 2"
    "" "" "" "diagnostic" 0;
  entity BinarySensor "bms_over_voltage" "BMS over voltage"
    "problem" "" "" "diagnostic" 0;
  entity BinarySensor "bms_under_voltage" "BMS under voltage"
    "problem" "" "" "diagnostic" 0;
  entity BinarySensor "bms_over_temp" "BMS over temperature"
    "problem" "" "" "diagnostic" 0;
  entity BinarySensor "bms_under_temp" "BMS under temperature"
    "problem" "" "" "diagnostic" 0;
  entity BinarySensor "bms_charge_over_temp" "BMS charge over temperature"
    "problem" "" "" "diagnostic" 0;
  entity BinarySensor "bms_charge_under_temp" "BMS charge under temperature"
    "problem" "" "" "diagnostic" 0;
  entity BinarySensor "bms_discharge_over_current" "BMS discharge over current"
    "problem" "" "" "diagnostic" 0;
  entity BinarySensor "bms_charge_over_current" "BMS charge over current"
    "problem" "" "" "diagnostic" 0;
  entity BinarySensor "bms_internal_protection" "BMS internal protection"
    "problem" "" "" "diagnostic" 0;
  entity BinarySensor "bms_module_unbalanced" "BMS module unbalanced"
    "problem" "" "" "diagnostic" 0;
  entity Sensor "overdischarge_soc" "Over-discharge SOC"
    "" "" "%" "diagnostic" 0;
  entity Sensor "force_charge_soc" "Force-charge SOC"
    "" "" "%" "diagnostic" 0;
  entity Sensor "pv1_voltage" "PV1 voltage"
    "voltage" "measurement" "V" "" 1;
  entity Sensor "pv1_current" "PV1 current"
    "current" "measurement" "A" "" 1;
  entity Sensor "pv2_voltage" "PV2 voltage"
    "voltage" "measurement" "V" "" 1;
  entity Sensor "pv2_current" "PV2 current"
    "current" "measurement" "A" "" 1;
  entity Sensor "pv_total_power" "PV total power"
    "power" "measurement" "W" "" 0;
  entity Sensor "grid_power" "Grid power"
    "power" "measurement" "W" "" 0;
  entity Sensor "grid_total_import" "Grid total import"
    "energy" "total_increasing" "kWh" "" 0;
  entity Sensor "grid_import_today" "Grid import today"
    "energy" "total" "kWh" "" 1;
  entity Sensor "grid_total_export" "Grid total export"
    "energy" "total_increasing" "kWh" "" 0;
  entity Sensor "grid_export_today" "Grid export today"
    "energy" "total" "kWh" "" 1;
  entity Sensor "ac_active_power" "AC active power"
    "power" "measurement" "W" "" 0;
  entity Sensor "inverter_temperature" "Inverter temperature"
    "temperature" "measurement" "°C" "" 1;
  entity Sensor "grid_frequency" "Grid frequency"
    "frequency" "measurement" "Hz" "" 2;
  entity Sensor "house_load" "House load"
    "power" "measurement" "W" "" 0;
  entity Sensor "generation_today" "Generation today"
    "energy" "total" "kWh" "" 1;
  entity Sensor "generation_yesterday" "Generation yesterday"
    "energy" "" "kWh" "diagnostic" 1;
  entity Sensor "battery_total_charge" "Battery total charge"
    "energy" "total_increasing" "kWh" "" 0;
  entity Sensor "battery_charge_today" "Battery charge today"
    "energy" "total" "kWh" "" 1;
  entity Sensor "battery_total_discharge" "Battery total discharge"
    "energy" "total_increasing" "kWh" "" 0;
  entity Sensor "battery_discharge_today" "Battery discharge today"
    "energy" "total" "kWh" "" 1;
  entity Sensor "status" "Status"
    "" "" "" "diagnostic" 0;
  entity Sensor "status_text" "Status text"
    "" "" "" "diagnostic" 0;
  entity Sensor "operating_status" "Operating status"
    "" "" "" "diagnostic" 0;
  entity Sensor "work_mode" "Energy storage mode"
    "" "" "" "diagnostic" 0;
  entity Sensor "rtc" "RTC"
    "timestamp" "" "" "diagnostic" 0;
  entity Sensor "rtc_drift" "RTC drift"
    "duration" "" "s" "diagnostic" 0;
  entity Sensor "tou_window" "Time-of-use window"
    "" "" "" "" 0;
  entity Sensor "boost" "Boost"
    "" "" "" "" 0;
  entity Sensor "boost_ends_at" "Boost ends at"
    "timestamp" "" "" "" 0;
  entity Sensor "inverter_max_charge_current" "Inverter max charge current"
    "current" "" "A" "diagnostic" 1;
  entity Sensor "inverter_max_discharge_current" "Inverter max discharge current"
    "current" "" "A" "diagnostic" 1;
  {| Component := Number; Key := "set_charge_current"; Name := "Timed charge current"; DeviceClass := "";
     StateClass := ""; Unit := "A"; Category := ""; Precision := 0;
     Command := true; Min := of_int 0; Max := haChargeAmpsMax; Step := fdiv (of_int 1) (of_int 10);
     EMode := "box"; Options := []; PayloadPress := "" |};
  {| Component := Number; Key := "set_discharge_current"; Name := "Timed discharge current"; DeviceClass := "";
     StateClass := ""; Unit := "A"; Category := ""; Precision := 0;
     Command := true; Min := of_int 0; Max := haChargeAmpsMax; Step := fdiv (of_int 1) (of_int 10);
     EMode := "box"; Options := []; PayloadPress := "" |};
  {| Component := Select; Key := "optimal_income"; Name := "Optimal income"; DeviceClass := "";
     StateClass := ""; Unit := ""; Category := ""; Precision := 0;
     Command := true; Min := of_int 0; Max := of_int 0; Step := of_int 0;
     EMode := ""; Options := ["Run"; "Stop"]; PayloadPress := "" |};
  {| Component := Select; Key := "boost_select"; Name := "Boost control"; DeviceClass := "";
     StateClass := ""; Unit := ""; Category := ""; Precision := 0;
     Command := true; Min := of_int 0; Max := of_int 0; Step := of_int 0;
     EMode := ""; Options := BoostOptions; PayloadPress := "" |};
  {| Component := Button; Key := "rtc_sync"; Name := "Sync RTC now"; DeviceClass := "";
     StateClass := ""; Unit := ""; Category := "diagnostic"; Precision := 0;
     Command := true; Min := of_int 0; Max := of_int 0; Step := of_int 0;
     EMode := ""; Options := []; PayloadPress := "PRESS" |}
].

(** ** The state document (state.go) *)

Record HASetpoints : Type := {
  HASetChargeCurrent : float64; HASetDischargeCurrent : float64;
  HAMaxChargeCurrent : float64; HAMaxDischargeCurrent : float64;
  HAOptimalIncome : bool; HASlots : TimedSlots; BoostEndsAt : Time;
}.

(** The struct's fields, named by their json tags. *)
Record StateDoc : Type := {
  st_battery_voltage : float64;
  st_battery_current : float64;
  st_battery_power : float64;
  st_battery_charge_power : float64;
  st_battery_discharge_power : float64;
  st_battery_charging : bool;
  st_battery_soc : float64;
  st_battery_soh : float64;
  st_bms_voltage : float64;
  st_bms_current : float64;
  st_bms_charge_current_limit : float64;
  st_bms_discharge_current_limit : float64;
  st_bms_fault_1 : Z;
  st_bms_fault_2 : Z;
  st_bms_over_voltage : bool;
  st_bms_under_voltage : bool;
  st_bms_over_temp : bool;
  st_bms_under_temp : bool;
  st_bms_charge_over_temp : bool;
  st_bms_charge_under_temp : bool;
  st_bms_discharge_over_current : bool;
  st_bms_charge_over_current : bool;
  st_bms_internal_protection : bool;
  st_bms_module_unbalanced : bool;
  st_overdischarge_soc : float64;
  st_force_charge_soc : float64;
  st_pv1_voltage : float64;
  st_pv1_current : float64;
  st_pv2_voltage : float64;
  st_pv2_current : float64;
  st_pv_total_power : float64;
  st_grid_power : float64;
  st_grid_total_import : float64;
  st_grid_import_today : float64;
  st_grid_total_export : float64;
  st_grid_export_today : float64;
  st_ac_active_power : float64;
  st_inverter_temperature : float64;
  st_grid_frequency : float64;
  st_house_load : float64;
  st_generation_today : float64;
  st_generation_yesterday : float64;
  st_battery_total_charge : float64;
  st_battery_charge_today : float64;
  st_battery_total_discharge : float64;
  st_battery_discharge_today : float64;
  st_status : Z;
  st_status_text : string;
  st_operating_status : Z;
  st_work_mode : string;
  st_rtc : string;
  st_rtc_drift : float64;
  st_tou_window : option string;
  st_boost : string;
  st_boost_ends_at : option string;
  st_boost_select : option string;
  st_set_charge_current : float64;
  st_set_discharge_current : float64;
  st_inverter_max_charge_current : float64;
  st_inverter_max_discharge_current : float64;
  st_optimal_income : string;
}.

(** The members [json.Marshal] prints, in order. *)
Definition state_fields (st : StateDoc) : list (string * json) := [
  ("battery_voltage", JNum (st_battery_voltage st));
  ("battery_current", JNum (st_battery_current st));
  ("battery_power", JNum (st_battery_power st));
  ("battery_charge_power", JNum (st_battery_charge_power st));
  ("battery_discharge_power", JNum (st_battery_discharge_power st));
  ("battery_charging", JBool (st_battery_charging st));
  ("battery_soc", JNum (st_battery_soc st));
  ("battery_soh", JNum (st_battery_soh st));
  ("bms_voltage", JNum (st_bms_voltage st));
  ("bms_current", JNum (st_bms_current st));
  ("bms_charge_current_limit", JNum (st_bms_charge_current_limit st));
  ("bms_discharge_current_limit", JNum (st_bms_discharge_current_limit st));
  ("bms_fault_1", JInt (st_bms_fault_1 st));
  ("bms_fault_2", JInt (st_bms_fault_2 st));
  ("bms_over_voltage", JBool (st_bms_over_voltage st));
  ("bms_under_voltage", JBool (st_bms_under_voltage st));
  ("bms_over_temp", JBool (st_bms_over_temp st));
  ("bms_under_temp", JBool (st_bms_under_temp st));
  ("bms_charge_over_temp", JBool (st_bms_charge_over_temp st));
  ("bms_charge_under_temp", JBool (st_bms_charge_under_temp st));
  ("bms_discharge_over_current", JBool (st_bms_discharge_over_current st));
  ("bms_charge_over_current", JBool (st_bms_charge_over_current st));
  ("bms_internal_protection", JBool (st_bms_internal_protection st));
  ("bms_module_unbalanced", JBool (st_bms_module_unbalanced st));
  ("overdischarge_soc", JNum (st_overdischarge_soc st));
  ("force_charge_soc", JNum (st_force_charge_soc st));
  ("pv1_voltage", JNum (st_pv1_voltage st));
  ("pv1_current", JNum (st_pv1_current st));
  ("pv2_voltage", JNum (st_pv2_voltage st));
  ("pv2_current", JNum (st_pv2_current st));
  ("pv_total_power", JNum (st_pv_total_power st));
  ("grid_power", JNum (st_grid_power st));
  ("grid_total_import", JNum (st_grid_total_import st));
  ("grid_import_today", JNum (st_grid_import_today st));
  ("grid_total_export", JNum (st_grid_total_export st));
  ("grid_export_today", JNum (st_grid_export_today st));
  ("ac_active_power", JNum (st_ac_active_power st));
  ("inverter_temperature", JNum (st_inverter_temperature st));
  ("grid_frequency", JNum (st_grid_frequency st));
  ("house_load", JNum (st_house_load st));
  ("generation_today", JNum (st_generation_today st));
  ("generation_yesterday", JNum (st_generation_yesterday st));
  ("battery_total_charge", JNum (st_battery_total_charge st));
  ("battery_charge_today", JNum (st_battery_charge_today st));
  ("battery_total_discharge", JNum (st_battery_total_discharge st));
  ("battery_discharge_today", JNum (st_battery_discharge_today st));
  ("status", JInt (st_status st));
  ("status_text", JStr (st_status_text st));
  ("operating_status", JInt (st_operating_status st));
  ("work_mode", JStr (st_work_mode st));
  ("rtc", JStr (st_rtc st));
  ("rtc_drift", JNum (st_rtc_drift st));
  ("tou_window", jopt (st_tou_window st));
  ("boost", JStr (st_boost st));
  ("boost_ends_at", jopt (st_boost_ends_at st));
  ("boost_select", jopt (st_boost_select st));
  ("set_charge_current", JNum (st_set_charge_current st));
  ("set_discharge_current", JNum (st_set_discharge_current st));
  ("inverter_max_charge_current", JNum (st_inverter_max_charge_current st));
  ("inverter_max_discharge_current", JNum (st_inverter_max_discharge_current st));
  ("optimal_income", JStr (st_optimal_income st))
].

Definition splitBatteryPower (powerW : float64) : float64 * float64 :=
  (fmax powerW (of_int 0), fmax (fneg powerW) (of_int 0)).

Definition touWindowLabel (slots : TimedSlots) : option string :=
  match ToU slots with None => None | Some window => Some (FormatWindow window) end.

Definition workModeLabel (w : WorkMode) : string :=
  if SelfUse w then "Self Use"
  else
    let flags := (if Timed w then ["timed"] else []) ++
                 (if AllowGridCharge w then ["allow_grid_charge"] else []) in
    match flags with [] => pretty (Raw w) | _ => Join flags "+" end.

(** [d.Seconds()] *)
Definition Seconds (d : Z) : float64 :=
  fadd (of_int (Z.quot d Second)) (fdiv (of_int (Z.rem d Second)) (of_int 1000000000)).

Section Build.
Context `{tz : TimeZone}.

Definition timestampLabel (at_ : Time) : option string :=
  if IsZeroTime at_ then None else Some (FormatRFC3339 at_).

Definition state_of (t : Telemetry) (drift : Z) (sp : HASetpoints) : StateDoc :=
  let optimalIncome := if HAOptimalIncome sp then "Run" else "Stop" in
  let '(chargeW, dischargeW) := splitBatteryPower (BatPowerW (TBattery t)) in {|
    st_battery_voltage := VoltageV (TBattery t);
    st_battery_current := CurrentA (TBattery t);
    st_battery_power := BatPowerW (TBattery t);
    st_battery_charge_power := chargeW;
    st_battery_discharge_power := dischargeW;
    st_battery_charging := Charging (TBattery t);
    st_battery_soc := SOCPercent (TBattery t);
    st_battery_soh := SOHPercent (TBattery t);
    st_bms_voltage := BMSVoltageV (TBattery t);
    st_bms_current := BMSCurrentA (TBattery t);
    st_bms_charge_current_limit := BMSChargeCurrentLimitA (TBattery t);
    st_bms_discharge_current_limit := BMSDischargeCurrentLimitA (TBattery t);
    st_bms_fault_1 := Raw1 (BatFault1 (TBattery t));
    st_bms_fault_2 := Raw2 (BatFault2 (TBattery t));
    st_bms_over_voltage := OverVoltage (BatFault1 (TBattery t));
    st_bms_under_voltage := UnderVoltage (BatFault1 (TBattery t));
    st_bms_over_temp := OverTemp (BatFault1 (TBattery t));
    st_bms_under_temp := UnderTemp (BatFault1 (TBattery t));
    st_bms_charge_over_temp := ChargeOverTemp (BatFault1 (TBattery t));
    st_bms_charge_under_temp := ChargeUnderTemp (BatFault1 (TBattery t));
    st_bms_discharge_over_current := DischargeOverCurrent (BatFault1 (TBattery t));
    st_bms_charge_over_current := ChargeOverCurrent (BatFault2 (TBattery t));
    st_bms_internal_protection := BMSInternal (BatFault2 (TBattery t));
    st_bms_module_unbalanced := ModuleUnbalanced (BatFault2 (TBattery t));
    st_overdischarge_soc := OverdischargeSOCPercent (TBattery t);
    st_force_charge_soc := ForceChargeSOCPercent (TBattery t);
    st_pv1_voltage := PV1VoltageV (TPV t);
    st_pv1_current := PV1CurrentA (TPV t);
    st_pv2_voltage := PV2VoltageV (TPV t);
    st_pv2_current := PV2CurrentA (TPV t);
    st_pv_total_power := TotalPowerW (TPV t);
    st_grid_power := GridPowerW (TGrid t);
    st_grid_total_import := TotalImportKWh (TGrid t);
    st_grid_import_today := ImportTodayKWh (TGrid t);
    st_grid_total_export := TotalExportKWh (TGrid t);
    st_grid_export_today := ExportTodayKWh (TGrid t);
    st_ac_active_power := ActivePowerW (TAC t);
    st_inverter_temperature := TemperatureC (TAC t);
    st_grid_frequency := FrequencyHz (TAC t);
    st_house_load := HouseLoadW (TAC t);
    st_generation_today := GenerationTodayKWh (TEnergy t);
    st_generation_yesterday := GenerationYesterdayKWh (TEnergy t);
    st_battery_total_charge := BatteryTotalChargeKWh (TEnergy t);
    st_battery_charge_today := BatteryChargeTodayKWh (TEnergy t);
    st_battery_total_discharge := BatteryTotalDischargeKWh (TEnergy t);
    st_battery_discharge_today := BatteryDischargeTodayKWh (TEnergy t);
    st_status := Status (TSystem t);
    st_status_text := StatusLabel (Status (TSystem t));
    st_operating_status := OperatingStatus (TSystem t);
    st_work_mode := workModeLabel (SysWorkMode (TSystem t));
    st_rtc := FormatRFC3339 (TTime t);
    st_rtc_drift := Seconds drift;
    st_tou_window := touWindowLabel (HASlots sp);
    st_boost := Boost_String (BoostOf (HASlots sp));
    st_boost_ends_at := timestampLabel (BoostEndsAt sp);
    st_boost_select := BoostSelectState (HASlots sp);
    st_set_charge_current := HASetChargeCurrent sp;
    st_set_discharge_current := HASetDischargeCurrent sp;
    st_inverter_max_charge_current := HAMaxChargeCurrent sp;
    st_inverter_max_discharge_current := HAMaxDischargeCurrent sp;
    st_optimal_income := optimalIncome;
  |}.

Definition BuildState (c : HAConfig) (t : Telemetry) (drift : Z) (sp : HASetpoints) : result Message :=
  body ← wrap_err "marshal state" (Marshal (state_fields (state_of t drift sp)));
  Ok {| MTopic := StateTopic c; MPayload := body |}.
End Build.

(** ** Discovery (discovery.go) *)

Definition DiscoveryTopic (c : HAConfig) (component key : string) : string :=
  DiscoveryPrefix c +:+ "/" +:+ component +:+ "/" +:+ Serial c +:+ "_" +:+ key +:+ "/config".

Definition device_block (c : HAConfig) : json := JObj [
  ("identifiers", JArr [JStr (Serial c)]); ("manufacturer", JStr Manufacturer);
  ("model", JStr Model); ("name", JStr DeviceName) ].

(** [p[k] = v] under a condition. *)
Definition set_if (b : bool) (k : string) (v : json) (p : gmap string json) : gmap string json :=
  if b then <[k := v]> p else p.

Definition nonempty (s : string) : bool := negb (bool_decide (s = "")).

Definition value_template (key : string) : json := JStr ("{{ value_json." +:+ key +:+ " }}").

Definition buildEntityPayload (c : HAConfig) (e : Entity) : gmap string json :=
  let id := objectID c (Key e) in
  let p : gmap string json := list_to_map [
    ("~", JStr (BaseTopic c)); ("name", JStr (Name e));
    ("unique_id", JStr (Serial c +:+ "_" +:+ Key e)); ("object_id", JStr id);
    ("default_entity_id", JStr (Component e +:+ "." +:+ id));
    ("availability_topic", JStr "~/availability"); ("payload_available", JStr "online");
    ("payload_not_available", JStr "offline"); ("device", device_block c) ] in
  let p := set_if (nonempty (DeviceClass e)) "device_class" (JStr (DeviceClass e)) p in
  let p := set_if (nonempty (StateClass e)) "state_class" (JStr (StateClass e)) p in
  let p := set_if (nonempty (Unit e)) "unit_of_measurement" (JStr (Unit e)) p in
  let p := set_if (nonempty (Category e)) "entity_category" (JStr (Category e)) p in
  let p := set_if (0 <? Precision e) "suggested_display_precision" (JInt (Precision e)) p in
  let p := set_if (Command e) "command_topic" (JStr ("~/" +:+ Key e +:+ "/set")) p in
  if decide (Component e = BinarySensor) then
    <["value_template" := JStr ("{{ 'ON' if value_json." +:+ Key e +:+ " else 'OFF' }}")]>
    (<["payload_off" := JStr "OFF"]> (<["payload_on" := JStr "ON"]>
    (<["state_topic" := JStr "~/state"]> p)))
  else if decide (Component e = Select) then
    <["value_template" := value_template (Key e)]>
    (<["options" := JArr (map JStr (Options e))]> (<["state_topic" := JStr "~/state"]> p))
  else if decide (Component e = Number) then
    <["value_template" := value_template (Key e)]> (<["mode" := JStr (EMode e)]>
    (<["step" := JNum (Step e)]> (<["max" := JNum (Max e)]> (<["min" := JNum (Min e)]>
    (<["state_topic" := JStr "~/state"]> p)))))
  else if decide (Component e = Button) then <["payload_press" := JStr (PayloadPress e)]> p
  else <["value_template" := value_template (Key e)]> (<["state_topic" := JStr "~/state"]> p).

Definition published (c : HAConfig) (e : Entity) : bool := negb (Command e && negb (ControlsEnabled c)).

(** [json.Marshal] of these maps of strings, small numbers and lists cannot fail. *)
Definition BuildDiscovery (c : HAConfig) : list Message :=
  (λ e, {| MTopic := DiscoveryTopic c (Component e) (Key e);
           MPayload := PMap (buildEntityPayload c e) |})
    <$> List.filter (published c) Entities.

Definition BuildDiscoveryRemovals (c : HAConfig) : list Message :=
  [ {| MTopic := DiscoveryTopic c Switch "optimal_income"; MPayload := PText "" |} ].

(** ** Facts about the catalogue *)

Definition stateful (e : Entity) : bool := negb (bool_decide (Component e = Button)).

Lemma entity_keys_NoDup : NoDup (Key <$> Entities).
Proof. apply (bool_decide_unpack _). vm_compute. exact I. Qed.

Lemma entity_slashes : Forall (λ e, has_char "/" (Component e) = false ∧ has_char "/" (Key e) = false) Entities.
Proof. unfold Entities. repeat (constructor; [split; reflexivity|]). constructor. Qed.

Lemma DiscoveryTopic_inj c k1 k2 t1 t2 :
  has_char "/" t1 = false → has_char "/" t2 = false →
  has_char "/" k1 = false → has_char "/" k2 = false →
  DiscoveryTopic c t1 k1 = DiscoveryTopic c t2 k2 → t1 = t2 ∧ k1 = k2.
Proof.
  intros T1 T2 K1 K2. unfold DiscoveryTopic. intros E.
  apply (inj (String.app (DiscoveryPrefix c))) in E. apply (inj (String.app "/")) in E.
  change ("/" +:+ ?s) with (String "/" s) in E.
  apply app_sep_inj in E as [-> E]; [|done..]. split; [done|].
  apply (inj (String.app (Serial c))) in E. apply (inj (String.app "_")) in E.
  change "/config" with (String "/" "config") in E. by apply app_sep_inj in E as [-> _].
Qed.

Lemma entity_by_key e e' : e ∈ Entities → e' ∈ Entities → Key e = Key e' → e = e'.
Proof.
  intros [i Hi]%list_elem_of_lookup [j Hj]%list_elem_of_lookup E.
  assert (i = j) as ->; [|congruence].
  eapply (NoDup_lookup _ i j (Key e)); [apply entity_keys_NoDup|..]; rewrite list_lookup_fmap, ?Hi, ?Hj;
    cbn; congruence.
Qed.

Lemma BoostSelectState_option slots o : BoostSelectState slots = Some o → o ∈ BoostOptions.
Proof.
  unfold BoostSelectState, BoostOptions. case_decide as Hm; [intros [= <-]; by left|].
  destruct (bool_decide_reflect (roundUpToStep (endMinuteOfDay (End_ (Window (BoostOf slots))) -
    minuteOfDay (Start (Window (BoostOf slots)))) ∈ boostDurations)) as [Hin|]; [|done].
  intros [= <-]. right. apply list_elem_of_fmap.
  eexists (BMode (BoostOf slots), _). split; [reflexivity|]. apply boost_candidates_spec. split; [|done].
  clear -Hm. revert Hm. unfold BoostOf. cbv zeta.
  destruct (negb (IsZero (Charge_ _))); [by left|].
  destruct (negb (IsZero (Discharge_ _))); [by right|done].
Qed.

Lemma set_if_lookup b k v p k' : k ≠ k' → set_if b k v p !! k' = p !! k'.
Proof. intros H. unfold set_if. destruct b; [|done]. by rewrite lookup_insert_ne. Qed.

(** Reads one key of an entity payload. *)
Ltac payload_lookup :=
  repeat first [rewrite lookup_insert_eq | rewrite lookup_insert_ne by discriminate
               | rewrite set_if_lookup by discriminate].

Lemma payload_command_topic c e : buildEntityPayload c e !! "command_topic" =
  if Command e then Some (JStr ("~/" +:+ Key e +:+ "/set")) else None.
Proof.
  unfold buildEntityPayload; cbv zeta.
  repeat case_decide; payload_lookup; unfold set_if at 1; destruct (Command e); payload_lookup; reflexivity.
Qed.

Lemma payload_state_topic c e : buildEntityPayload c e !! "state_topic" =
  if stateful e then Some (JStr "~/state") else None.
Proof.
  unfold buildEntityPayload, stateful; cbv zeta.
  destruct (bool_decide_reflect (Component e = Button)) as [E|E].
  - rewrite E, !decide_False, decide_True by done. payload_lookup. reflexivity.
  - repeat case_decide; try contradiction; payload_lookup; reflexivity.
Qed.

Lemma discovery_mem c msg : msg ∈ BuildDiscovery c → ∃ e, e ∈ Entities ∧ published c e = true ∧
  msg = {| MTopic := DiscoveryTopic c (Component e) (Key e);
           MPayload := PMap (buildEntityPayload c e) |}.
Proof.
  unfold BuildDiscovery. generalize Entities. intros l H.
  apply list_elem_of_fmap in H as (e & -> & He).
  apply list_elem_of_In, filter_In in He as [He Hp]. apply list_elem_of_In in He. eauto.
Qed.

Lemma entity_no_slash e : e ∈ Entities → has_char "/" (Component e) = false ∧ has_char "/" (Key e) = false.
Proof. revert e. apply Forall_forall, entity_slashes. Qed.

Lemma discovery_topics_NoDup c : NoDup (MTopic <$> BuildDiscovery c).
Proof.
  unfold BuildDiscovery. generalize (published c). intros f.
  rewrite <- list_fmap_compose. apply NoDup_fmap_2_strong.
  - intros e e' He He' E. apply list_elem_of_In, filter_In in He as [He _], He' as [He' _].
    apply list_elem_of_In in He, He'.
    destruct (entity_no_slash e He), (entity_no_slash e' He').
    apply entity_by_key; [done..|]. by apply DiscoveryTopic_inj in E as [_ ?].
  - apply NoDup_ListNoDup, List.NoDup_filter, NoDup_ListNoDup.
    eapply NoDup_fmap_1, entity_keys_NoDup.
Qed.

Lemma published_count b : length (List.filter (λ e, negb (Command e && negb b)) Entities) =
  (if b then 62 else 57)%nat.
Proof. destruct b; vm_compute; reflexivity. Qed.

Lemma discovery_length c : length (BuildDiscovery c) = (if ControlsEnabled c then 62 else 57)%nat.
Proof. unfold BuildDiscovery. rewrite length_fmap. apply published_count. Qed.

Lemma entity_not_switch e : e ∈ Entities → Component e ≠ Switch.
Proof.
  revert e. apply Forall_forall. unfold Entities. repeat (constructor; [discriminate|]). constructor.
Qed.

Lemma discovery_not_removed c msg : msg ∈ BuildDiscovery c →
  MTopic msg ∉ (MTopic <$> BuildDiscoveryRemovals c).
Proof.
  intros (e & He & _ & ->)%discovery_mem. unfold BuildDiscoveryRemovals.
  rewrite fmap_cons, fmap_nil, list_elem_of_singleton. cbn [MTopic]. intros E.
  destruct (entity_no_slash e He). apply DiscoveryTopic_inj in E as [Hc Hk]; [|done..].
  by apply (entity_not_switch e He).
Qed.

Lemma select_entities e : e ∈ Entities → Component e = Select →
  (Key e = "optimal_income" ∧ Options e = ["Run"; "Stop"]) ∨
  (Key e = "boost_select" ∧ Options e = BoostOptions).
Proof.
  intros He. cut (Forall (λ e, Component e = Select →
    (Key e = "optimal_income" ∧ Options e = ["Run"; "Stop"]) ∨
    (Key e = "boost_select" ∧ Options e = BoostOptions)) Entities).
  { intros Hall. by apply (proj1 (Forall_forall _ _) Hall). }
  unfold Entities. repeat (constructor; [first [discriminate|intros _; auto]|]). constructor.
Qed.

(** The catalogue and the document: the entities that show a state are, key for key, the
    document's members, each once; the only entity without a member is the button. *)
Lemma document_members (st : StateDoc) :
  (Key <$> List.filter stateful Entities) ≡ₚ (state_fields st).*1 ∧
  (Key <$> List.filter (λ e, negb (stateful e)) Entities) = ["rtc_sync"].
Proof.
  split; [|reflexivity].
  apply NoDup_Permutation; try (apply (bool_decide_unpack _); vm_compute; exact I).
  intros k. split; revert k; apply Forall_forall; apply (bool_decide_unpack _); vm_compute; exact I.
Qed.

Lemma state_fields_NoDup (st : StateDoc) : NoDup (state_fields st).*1.
Proof. apply (bool_decide_unpack _). vm_compute. exact I. Qed.

(** What the templates render: one member of the document. *)
Definition template_of (e : Entity) : json :=
  JStr (if decide (Component e = BinarySensor) then "{{ 'ON' if value_json." +:+ Key e +:+ " else 'OFF' }}"
        else "{{ value_json." +:+ Key e +:+ " }}").

Lemma payload_value_template c e : buildEntityPayload c e !! "value_template" =
  if stateful e then Some (template_of e) else None.
Proof.
  unfold buildEntityPayload, stateful, template_of; cbv zeta.
  destruct (bool_decide_reflect (Component e = Button)) as [E|E].
  - rewrite E, !decide_False, decide_True by done. payload_lookup. reflexivity.
  - repeat case_decide; try contradiction; payload_lookup; reflexivity.
Qed.

Lemma payload_base c e : buildEntityPayload c e !! "~" = Some (JStr (BaseTopic c)).
Proof. unfold buildEntityPayload; cbv zeta. repeat case_decide; payload_lookup; reflexivity. Qed.

(** The member an entity shows, by its kind. *)
Definition member (k : string) (fields : list (string * json)) : option json :=
  snd <$> List.find (λ f, bool_decide (f.1 = k)) fields.

Lemma member_mem k fields v : member k fields = Some v → (k, v) ∈ fields.
Proof.
  unfold member. destruct (List.find _ fields) as [[k1 v1]|] eqn:E; [|done]. cbn. intros [= ->].
  apply List.find_some in E as [Hin Hk]. apply bool_decide_eq_true in Hk. cbn in Hk. subst.
  by apply list_elem_of_In.
Qed.

Definition of_kind (st : StateDoc) (e : Entity) (v : json) : Prop :=
  (Unit e ≠ "" ∨ StateClass e ≠ "" ∨ Component e = Number → ∃ x, v = JNum x) ∧
  (Component e = BinarySensor → ∃ b, v = JBool b) ∧
  (Component e = Select → (Key e = "optimal_income" ∧ v = JStr (st_optimal_income st)) ∨
     (Key e = "boost_select" ∧ v = jopt (st_boost_select st))) ∧
  (DeviceClass e = "timestamp" → v = JStr (st_rtc st) ∨ v = jopt (st_boost_ends_at st)).

Ltac kind_tac :=
  first [discriminate | by intros [?|[?|?]] | intros _; eexists; reflexivity
        | intros _; left; split; reflexivity | intros _; right; split; reflexivity
        | intros _; left; reflexivity | intros _; right; reflexivity].

Lemma member_kinds (st : StateDoc) e : e ∈ Entities → stateful e = true →
  ∃ v, member (Key e) (state_fields st) = Some v ∧ of_kind st e v.
Proof.
  intros He. cut (Forall (λ e, stateful e = true →
    ∃ v, member (Key e) (state_fields st) = Some v ∧ of_kind st e v) Entities).
  { intros Hall. by apply (proj1 (Forall_forall _ _) Hall). }
  unfold Entities, entity. clear He.
  repeat (apply Forall_cons; split;
    [first [discriminate | intros _; eexists; split; [reflexivity|];
       unfold of_kind; cbn [Unit StateClass Component DeviceClass Key];
       split; [kind_tac|]; split; [kind_tac|]; split; kind_tac]|]).
  by apply Forall_nil.
Qed.

(** ** Properties *)

(** C36: Discovery announces every entity under its own topic: 62 messages with
    controls enabled and 57 without, no two on the same topic, commands announced
    only when enabled, each with the command topic of its key, and every stateful
    entity reading the shared state topic. *)
Theorem discovery_topics (c : HAConfig) :
  NoDup (MTopic <$> BuildDiscovery c) ∧
  length (BuildDiscovery c) = (if ControlsEnabled c then 62 else 57)%nat ∧
  (∀ msg, msg ∈ BuildDiscovery c → ∃ e p, e ∈ Entities ∧ MPayload msg = PMap p ∧
     MTopic msg = DiscoveryTopic c (Component e) (Key e) ∧
     (Command e = true → ControlsEnabled c = true) ∧
     (p !! "command_topic" =
        if Command e then Some (JStr ("~/" +:+ Key e +:+ "/set")) else None) ∧
     (p !! "state_topic" = if stateful e then Some (JStr "~/state") else None)) ∧
  (∀ msg, msg ∈ BuildDiscovery c → MTopic msg ∉ (MTopic <$> BuildDiscoveryRemovals c)).
Proof.
  split; [apply discovery_topics_NoDup|]. split; [apply discovery_length|].
  split; [|apply discovery_not_removed].
  intros msg (e & He & Hp & ->)%discovery_mem. exists e, (buildEntityPayload c e). split_and!; try done.
  - intros Hc. unfold published in Hp. rewrite Hc in Hp. by destruct (ControlsEnabled c).
  - apply payload_command_topic.
  - apply payload_state_topic.
Qed.

(** The state document never puts a select outside its options: optimal income is
    "Run" or "Stop", and the boost select is one of its options or null. *)
Theorem published_selects `{TimeZone} (t : Telemetry) (drift : Z) (sp : HASetpoints) (e : Entity) :
  e ∈ Entities → Component e = Select →
  let st := state_of t drift sp in
  (Key e = "optimal_income" → st_optimal_income st ∈ Options e) ∧
  (Key e = "boost_select" → ∀ o, st_boost_select st = Some o → o ∈ Options e) ∧
  (Key e = "optimal_income" ∨ Key e = "boost_select").
Proof.
  intros He Hc st.
  assert (Hsel : (Key e = "optimal_income" ∧ Options e = ["Run"; "Stop"]) ∨
                 (Key e = "boost_select" ∧ Options e = BoostOptions)) by (by apply select_entities).
  destruct Hsel as [[-> ->]|[-> ->]]; (split; [|split]); try done; auto.
  - intros _. unfold st, state_of. destruct (splitBatteryPower _). cbn [st_optimal_income].
    destruct (HAOptimalIncome sp); rewrite !elem_of_cons; auto.
  - intros _ o. unfold st, state_of. destruct (splitBatteryPower _). cbn [st_boost_select].
    apply BoostSelectState_option.
Qed.

Definition demo_telemetry `{TimeZone} : Telemetry := telemetry_of (λ a, if a =? 33135 then 1 else a mod 7).

Definition demo_setpoints : HASetpoints := {|
  HASetChargeCurrent := of_int 30; HASetDischargeCurrent := of_int 30;
  HAMaxChargeCurrent := of_int 62; HAMaxDischargeCurrent := of_int 62;
  HAOptimalIncome := true; HASlots := Slots0; BoostEndsAt := zeroTime |}.

Lemma published_selects_witness :
  let _ : TimeZone := dst_zone in
  ∃ e, e ∈ Entities ∧ Key e = "boost_select" ∧
    ∀ o, st_boost_select (state_of demo_telemetry 0 demo_setpoints) = Some o → o ∈ Options e.
Proof.
  intros tz. pose proof (list_elem_of_lookup_2 Entities 60 _ eq_refl) as Hin.
  eexists. split; [exact Hin|]. split; [reflexivity|].
  apply (published_selects demo_telemetry 0 demo_setpoints _ Hin eq_refl). reflexivity.
Defined.

(** The signed battery power is split without loss: at most one half is not plus
    zero, and that half is the power itself (charging) or its negation
    (discharging); neither half is ever minus zero. *)
Theorem battery_power_split (x : float64) : IsNaN x = false →
  let '(chargeW, dischargeW) := splitBatteryPower x in
  (is_zero x = true ∧ chargeW = S754_zero false ∧ dischargeW = S754_zero false) ∨
  (is_zero x = false ∧ x = Abs x ∧ chargeW = x ∧ dischargeW = S754_zero false) ∨
  (is_zero x = false ∧ x = fneg (Abs x) ∧ chargeW = S754_zero false ∧ dischargeW = fneg x).
Proof. destruct x as [[]|[]| |[] m e]; cbn; intros H; try discriminate H; auto 10. Qed.

Lemma battery_power_split_witness :
  let x := of_int (-400) in
  let '(chargeW, dischargeW) := splitBatteryPower x in
  (is_zero x = true ∧ chargeW = S754_zero false ∧ dischargeW = S754_zero false) ∨
  (is_zero x = false ∧ x = Abs x ∧ chargeW = x ∧ dischargeW = S754_zero false) ∨
  (is_zero x = false ∧ x = fneg (Abs x) ∧ chargeW = S754_zero false ∧ dischargeW = fneg x).
Proof. intros x. apply (battery_power_split x). vm_compute. reflexivity. Defined.
