(* ===== verification/StateDocument.v ===== *)
(** * The state document

    It can always be built: [json.Marshal] refuses NaN and the infinities, and no reading
    of the inverter decodes to one, so the document of a poll is never lost to its own
    numbers.  And it is what the discovery messages say: every entity announced with a
    state topic finds a member of its own in it, of its own kind. *)

From S2P Require Import Prelude GoInt GoString GoTime GoFloat FloatFacts Amps FloatFinite Block.
From S2P Require Import WorkMode TimedSlots Rtc Telemetry Schedule Json HomeAssistant.

(** A number [json.Marshal] prints. *)
Definition num (x : float64) : Prop := bad_number (JNum x) = false.

Lemma fin_num E x : fin E x → num x.
Proof. intros H. unfold num, bad_number. by destruct (fin_number E x H) as [-> ->]. Qed.

(** The two divisors of the decode and the one of [Seconds]. *)
Lemma ten_divisor : divisor (of_int 10) = true. Proof. reflexivity. Qed.
Lemma hundred_divisor : divisor (of_int 100) = true. Proof. reflexivity. Qed.
Lemma giga_divisor : divisor (of_int 1000000000) = true. Proof. reflexivity. Qed.

Create HintDb num.

Lemma num_of_int n : is_int64 n → num (of_int n).
Proof. intros H. by eapply fin_num, of_int_fin. Qed.

Lemma num_scale10 n : is_int64 n → num (scale10 n).
Proof. intros H. eapply fin_num, (fdiv_fin 20), of_int_fin; [apply ten_divisor|lia|done]. Qed.

Lemma num_scale100 n : is_int64 n → num (scale100 n).
Proof. intros H. eapply fin_num, (fdiv_fin 20), of_int_fin; [apply hundred_divisor|lia|done]. Qed.

Lemma num_DecodeAmps n : is_uint16 n → num (DecodeAmps n).
Proof. intros H. unfold num, bad_number. by destruct (DecodeAmps_finite n H) as [-> ->]. Qed.

Lemma num_signed x dir : num x → num (signedByDirection x dir).
Proof. unfold num, bad_number, signedByDirection. by destruct x, dir. Qed.

Lemma num_fneg x : num x → num (fneg x).
Proof. by destruct x. Qed.

Lemma num_fmax x y : num x → num y → num (fmax x y).
Proof.
  unfold fmax. intros Hx Hy. destruct (SFcompare x y) as [[]|] eqn:Ec; try done.
  - by destruct x as [[]| | |].
  - by destruct x as [|[]| |], y as [|[]| |].
Qed.

Lemma num_Seconds d : is_int64 d → num (Seconds d).
Proof.
  intros Hd. assert (is_int64 (Z.quot d Second) ∧ is_int64 (Z.rem d Second)) as [Hq Hr].
  { pose proof (Z.quot_rem' d Second). unfold is_int64 in *.
    change Second with 1000000000 in *. change (2 ^ 63) with 9223372036854775808 in *.
    Z.quot_rem_to_equations. lia. }
  unfold Seconds. eapply fin_num, (fadd_fin 80); [lia| |].
  - eapply fin_mono; [|by apply of_int_fin]. lia.
  - apply (fdiv_fin 20); [apply giga_divisor|lia|by apply of_int_fin].
Qed.

(** Registers at their widths. *)
Section Words.
Context (m : mem) (Hm : ∀ a, is_uint16 (m a)).

Lemma word_int64 a : is_int64 (m a).
Proof using Hm. specialize (Hm a). int_solve. Qed.

Lemma word32_int64 a : is_int64 (word32 m a).
Proof using Hm. pose proof (Hm a). pose proof (Hm (a + 1)). unfold word32. int_solve. Qed.

Lemma signed16_int64 x : is_int64 (signed 16 x).
Proof. pose proof (signed_range 16 x ltac:(lia)). change (2 ^ (16 - 1)) with 32768 in *. int_solve. Qed.

Lemma signed32_int64 x : is_int64 (signed 32 x).
Proof. pose proof (signed_range 32 x ltac:(lia)). change (2 ^ (32 - 1)) with 2147483648 in *. int_solve. Qed.
End Words.

#[export] Hint Resolve num_of_int num_scale10 num_scale100 num_DecodeAmps num_signed num_fneg num_fmax
  num_Seconds word_int64 word32_int64 signed16_int64 signed32_int64 : num.

Lemma Marshal_ok fields : Forall (λ f, bad_number f.2 = false) fields → Marshal fields = Ok (PStruct fields).
Proof.
  intros H. unfold Marshal. assert (existsb (λ '(_, j), bad_number j) fields = false) as ->; [|done].
  induction H as [|[k j] fs Hj _ IH]; [done|]. cbn in Hj |- *. by rewrite Hj.
Qed.

(** The members of the setpoints that are numbers. *)
Definition setpoints_num (sp : HASetpoints) : Prop :=
  num (HASetChargeCurrent sp) ∧ num (HASetDischargeCurrent sp) ∧
  num (HAMaxChargeCurrent sp) ∧ num (HAMaxDischargeCurrent sp).

(** The members of a reading that are numbers. *)
Definition telemetry_num (t : Telemetry) : Prop :=
  Forall num [VoltageV (TBattery t); CurrentA (TBattery t); BatPowerW (TBattery t);
    SOCPercent (TBattery t); SOHPercent (TBattery t); BMSVoltageV (TBattery t); BMSCurrentA (TBattery t);
    BMSChargeCurrentLimitA (TBattery t); BMSDischargeCurrentLimitA (TBattery t);
    OverdischargeSOCPercent (TBattery t); ForceChargeSOCPercent (TBattery t)] ∧
  Forall num [PV1VoltageV (TPV t); PV1CurrentA (TPV t); PV2VoltageV (TPV t); PV2CurrentA (TPV t);
    TotalPowerW (TPV t)] ∧
  Forall num [GridPowerW (TGrid t); TotalImportKWh (TGrid t); ImportTodayKWh (TGrid t);
    TotalExportKWh (TGrid t); ExportTodayKWh (TGrid t)] ∧
  Forall num [ActivePowerW (TAC t); TemperatureC (TAC t); FrequencyHz (TAC t); HouseLoadW (TAC t)] ∧
  Forall num [GenerationTodayKWh (TEnergy t); GenerationYesterdayKWh (TEnergy t);
    BatteryTotalChargeKWh (TEnergy t); BatteryChargeTodayKWh (TEnergy t);
    BatteryTotalDischargeKWh (TEnergy t); BatteryDischargeTodayKWh (TEnergy t)].

Lemma telemetry_of_num `{TimeZone} m : (∀ a, is_uint16 (m a)) → telemetry_num (telemetry_of m).
Proof.
  intros Hm. unfold telemetry_num. split_and!;
    repeat (apply Forall_cons; split; [unfold telemetry_of; cbn; auto 5 with num|]); by apply Forall_nil.
Qed.

Lemma state_num `{TimeZone} t drift sp : telemetry_num t → is_int64 drift → setpoints_num sp →
  Forall (λ f, bad_number f.2 = false) (state_fields (state_of t drift sp)).
Proof.
  intros Ht Hd (H1 & H2 & H3 & H4).
  assert (num (of_int 0)) as H0 by reflexivity. pose proof (num_Seconds drift Hd) as Hdr.
  destruct t as [tt [] [] [] [] [] []], sp. unfold telemetry_num in Ht. cbn in Ht, H1, H2, H3, H4.
  rewrite !Forall_cons in Ht. destruct_and! Ht.
  unfold state_of, splitBatteryPower, state_fields. cbn -[Seconds of_int fmax fneg StatusLabel workModeLabel
    FormatRFC3339 touWindowLabel Boost_String BoostOf timestampLabel BoostSelectState bad_number].
  repeat (apply Forall_cons; split; [cbn [snd]; first
    [ lazymatch goal with |- bad_number (JNum ?x) = false => change (num x); auto 3 with num end
    | lazymatch goal with |- bad_number (jopt ?x) = false => by destruct x end
    | done ]|]).
  by apply Forall_nil.
Qed.

Lemma BuildState_ok `{TimeZone} c t drift sp : telemetry_num t → is_int64 drift → setpoints_num sp →
  BuildState c t drift sp =
    Ok {| MTopic := StateTopic c; MPayload := PStruct (state_fields (state_of t drift sp)) |}.
Proof. intros Ht Hd Hs. unfold BuildState. by rewrite Marshal_ok by (by apply state_num). Qed.

(** ** Properties *)

(** C28: A poll's document always builds: for every content of the input bank, every
    drift the code can compute and setpoints decoded from any registers, the message
    goes to the state topic and carries all 61 members. *)
Theorem state_document_total `{TimeZone} (c : HAConfig) (m h : mem) (rtc now : Time) (sp : HASetpoints) :
  (∀ a, is_uint16 (m a)) → (∀ a, is_uint16 (h a)) →
  HASetChargeCurrent sp = DecodeAmps (h 43141) → HASetDischargeCurrent sp = DecodeAmps (h 43142) →
  HAMaxChargeCurrent sp = DecodeAmps (h 43117) → HAMaxDischargeCurrent sp = DecodeAmps (h 43118) →
  ∃ fields, BuildState c (telemetry_of m) (Drift rtc now) sp =
      Ok {| MTopic := StateTopic c; MPayload := PStruct fields |} ∧ length fields = 61%nat.
Proof.
  intros Hm Hh E1 E2 E3 E4. exists (state_fields (state_of (telemetry_of m) (Drift rtc now) sp)).
  split; [|reflexivity]. apply BuildState_ok; [by apply telemetry_of_num|apply Sub_range|].
  unfold setpoints_num. rewrite E1, E2, E3, E4. auto with num.
Qed.

Lemma state_document_total_witness :
  let _ : TimeZone := dst_zone in
  let m a := if a =? 33150 then 65136 else a mod 7 in
  let sp := {| HASetChargeCurrent := DecodeAmps 0; HASetDischargeCurrent := DecodeAmps 0;
               HAMaxChargeCurrent := DecodeAmps 0; HAMaxDischargeCurrent := DecodeAmps 0;
               HAOptimalIncome := true; HASlots := Slots0; BoostEndsAt := zeroTime |} in
  let c := {| DiscoveryPrefix := "homeassistant"; TopicPrefix := "solis"; Serial := "1";
              ObjectIDPrefix := ""; ControlsEnabled := true |} in
  ∃ fields, BuildState c (telemetry_of m) (Drift zeroTime zeroTime) sp =
      Ok {| MTopic := "solis/1/state"; MPayload := PStruct fields |} ∧ length fields = 61%nat.
Proof.
  intros tz m sp c. apply (state_document_total c m (λ _, 0)); try reflexivity; [|done].
  intros a. unfold m. destruct (a =? 33150); [split; [discriminate|reflexivity]|].
  int_unfold. Z.div_mod_to_equations. lia.
Defined.

Lemma member_unique (fields : list (string * json)) k v v' : NoDup fields.*1 →
  (k, v) ∈ fields → (k, v') ∈ fields → v = v'.
Proof.
  intros Hnd [i Hi]%list_elem_of_lookup [j Hj]%list_elem_of_lookup.
  assert (i = j) as ->; [|congruence].
  eapply (NoDup_lookup _ i j k Hnd); rewrite list_lookup_fmap, ?Hi, ?Hj; done.
Qed.

(** What Home Assistant takes as the state of an entity of this kind. *)
Definition admissible `{TimeZone} (e : Entity) (v : json) : Prop :=
  (Unit e ≠ "" ∨ StateClass e ≠ "" ∨ Component e = Number → ∃ x, v = JNum x ∧ IsNaN x || IsInf x = false) ∧
  (Component e = BinarySensor → ∃ b, v = JBool b) ∧
  (Component e = Select → v = JNull ∨ ∃ o, v = JStr o ∧ o ∈ Options e) ∧
  (DeviceClass e = "timestamp" → v = JNull ∨ ∃ at_, v = JStr (FormatRFC3339 at_)).

Lemma state_admissible `{TimeZone} t drift sp e : telemetry_num t → is_int64 drift → setpoints_num sp →
  e ∈ Entities → stateful e = true →
  ∃ v, (Key e, v) ∈ state_fields (state_of t drift sp) ∧ admissible e v.
Proof.
  intros Ht Hd Hs He Hst. set (st := state_of t drift sp).
  destruct (member_kinds st e He Hst) as (v & Hv & Hn & Hb & Hsel & Hts). apply member_mem in Hv.
  exists v. split; [exact Hv|]. split; [|split; [exact Hb|split]].
  - intros [x ->]%Hn. exists x. split; [done|]. pose proof (state_num t drift sp Ht Hd Hs) as Hf.
    fold st in Hf. rewrite Forall_forall in Hf. exact (Hf _ Hv).
  - intros Hc. destruct (published_selects t drift sp e He Hc) as (H1 & H2 & _).
    fold st in H1, H2. destruct (Hsel Hc) as [[Hk ->]|[Hk ->]]; [right; eauto|].
    destruct (st_boost_select st) as [o|]; [right; eauto|by left].
  - intros Hc. destruct (Hts Hc) as [-> | ->]; unfold st, state_of; destruct (splitBatteryPower _).
    + right. by eexists.
    + cbn [st_boost_ends_at]. unfold timestampLabel. destruct (IsZeroTime _); [by left|right; by eexists].
Qed.

(** C37: Every state announced is shown.  For any settings, and any contents of the
    inverter's registers: an entity announced by a discovery message reads the topic the
    state document goes to and, in its value template, a member that the document has,
    once, and whose value is one for that kind of entity: a finite number for a quantity
    or a number, true or false for a binary sensor, one of its options or null for a
    select, an RFC 3339 instant or null for a timestamp.  Only the button shows nothing;
    and the document has no member that no entity shows. *)
Theorem announced_states_shown `{TimeZone} (c : HAConfig) (m h : mem) (rtc now : Time) (sp : HASetpoints) :
  (∀ a, is_uint16 (m a)) → (∀ a, is_uint16 (h a)) →
  HASetChargeCurrent sp = DecodeAmps (h 43141) → HASetDischargeCurrent sp = DecodeAmps (h 43142) →
  HAMaxChargeCurrent sp = DecodeAmps (h 43117) → HAMaxDischargeCurrent sp = DecodeAmps (h 43118) →
  ∃ base fields, BuildState c (telemetry_of m) (Drift rtc now) sp =
      Ok {| MTopic := base +:+ "/state"; MPayload := PStruct fields |} ∧
  (∀ msg, msg ∈ BuildDiscovery c → ∃ e p, e ∈ Entities ∧ MPayload msg = PMap p ∧
     MTopic msg = DiscoveryTopic c (Component e) (Key e) ∧
     p !! "~" = Some (JStr base) ∧
     ((Component e = Button ∧ p !! "state_topic" = None ∧ p !! "value_template" = None) ∨
      (p !! "state_topic" = Some (JStr "~/state") ∧ p !! "value_template" = Some (template_of e) ∧
       ∃ v, (Key e, v) ∈ fields ∧ (∀ v', (Key e, v') ∈ fields → v' = v) ∧ admissible e v))) ∧
  (∀ k v, (k, v) ∈ fields → ∃ e, e ∈ Entities ∧ Key e = k ∧ Component e ≠ Button).
Proof.
  intros Hm Hh E1 E2 E3 E4.
  assert (setpoints_num sp) as Hs by (unfold setpoints_num; rewrite E1, E2, E3, E4; auto with num).
  assert (telemetry_num (telemetry_of m)) as Ht by (by apply telemetry_of_num).
  assert (is_int64 (Drift rtc now)) as Hd by apply Sub_range.
  set (st := state_of (telemetry_of m) (Drift rtc now) sp).
  exists (BaseTopic c), (state_fields st). split; [by apply BuildState_ok|]. split.
  - intros msg (e & He & _ & ->)%discovery_mem. exists e, (buildEntityPayload c e).
    split; [done|]. split; [done|]. split; [done|]. split; [apply payload_base|].
    rewrite payload_state_topic, payload_value_template. destruct (stateful e) eqn:Est; cbn [negb].
    + right. split; [done|]. split; [done|].
      destruct (state_admissible (telemetry_of m) (Drift rtc now) sp e Ht Hd Hs He Est) as (v & Hv & Ha).
      exists v. split; [exact Hv|]. split; [|exact Ha]. intros v' Hv'.
      exact (member_unique (state_fields st) (Key e) v' v (state_fields_NoDup st) Hv' Hv).
    + left. split; [|done]. unfold stateful in Est. apply negb_false_iff in Est.
      by apply bool_decide_eq_true in Est.
  - intros k v Hv. assert (k ∈ (state_fields st).*1) as Hk by (apply list_elem_of_fmap; by exists (k, v)).
    rewrite <- (proj1 (document_members st)) in Hk. apply list_elem_of_fmap in Hk as (e & -> & He).
    apply list_elem_of_In, filter_In in He as [He Hst]. apply list_elem_of_In in He.
    exists e. split; [done|]. split; [done|]. unfold stateful in Hst.
    apply negb_true_iff in Hst. by apply bool_decide_eq_false in Hst.
Qed.

Lemma announced_states_shown_witness :
  let _ : TimeZone := dst_zone in
  let m a := if a =? 33150 then 65136 else a mod 7 in
  let sp := {| HASetChargeCurrent := DecodeAmps 0; HASetDischargeCurrent := DecodeAmps 0;
               HAMaxChargeCurrent := DecodeAmps 0; HAMaxDischargeCurrent := DecodeAmps 0;
               HAOptimalIncome := true; HASlots := Slots0; BoostEndsAt := zeroTime |} in
  let c := {| DiscoveryPrefix := "homeassistant"; TopicPrefix := "solis"; Serial := "1";
              ObjectIDPrefix := ""; ControlsEnabled := true |} in
  ∃ base fields, BuildState c (telemetry_of m) (Drift zeroTime zeroTime) sp =
      Ok {| MTopic := base +:+ "/state"; MPayload := PStruct fields |} ∧
    length (BuildDiscovery c) = 62%nat ∧
    ∀ k v, (k, v) ∈ fields → ∃ e, e ∈ Entities ∧ Key e = k ∧ Component e ≠ Button.
Proof.
  intros tz m sp c.
  destruct (announced_states_shown c m (λ _, 0) zeroTime zeroTime sp) as (base & fields & E & _ & H);
    try reflexivity; [|done|].
  - intros a. unfold m. destruct (a =? 33150); [split; [discriminate|reflexivity]|].
    int_unfold. Z.div_mod_to_equations. lia.
  - exists base, fields. split; [exact E|]. split; [reflexivity|exact H].
Defined.
