(* ===== verification/Server.v ===== *)
(** * The status server (internal/server)

    Readiness with its consecutive-failure counter, the last recorded reading and the
    two probes; the page and the routes are in [StatusPage].  Requests are handled one at a time here: every
    method holds the server's mutex for its whole body. *)

From stdpp Require Import sorting.
From S2P Require Import Prelude GoInt GoString GoTime Json HomeAssistant.

(** ** Readiness (server.go) *)

Record valueRow : Type := { RowKey : string; RowValue : string }.

Record reading : Type := { rows : list valueRow; at_ : Time; setpointsAt : Time }.

Record ServerConfig : Type := { FailureThreshold : Z; PollInterval : Z }.

Record Server : Type := {
  ready : bool;
  consecutiveFailures : Z;
  threshold : Z;
  last : option reading;
  scfg : ServerConfig;
  startedAt : Time;
}.

Definition New (cfg : ServerConfig) (now : Time) : Server := {|
  ready := false; consecutiveFailures := 0;
  threshold := if FailureThreshold cfg <? 1 then 1 else FailureThreshold cfg;
  last := None; scfg := cfg; startedAt := now |}.

Definition set_readiness (s : Server) (r : bool) (failures : Z) : Server := {|
  ready := r; consecutiveFailures := failures; threshold := threshold s; last := last s;
  scfg := scfg s; startedAt := startedAt s |}.

Definition MarkSuccess (s : Server) : Server := set_readiness s true 0.

Definition MarkFailure (s : Server) : Server :=
  let n := to_int64 (consecutiveFailures s + 1) in
  set_readiness s (if threshold s <=? n then false else ready s) n.

Definition SetReady (s : Server) (r : bool) : Server :=
  set_readiness s r (if r then 0 else consecutiveFailures s).

Definition Ready (s : Server) : bool := ready s.

(** ** The state document as rows (page.go) *)

Section Page.
(** [fmt.Sprint] of a decoded JSON value. *)
Context (sprint : json → string).

Definition formatValue (value : json) : string :=
  match value with JNull => "null" | _ => sprint value end.

Definition row_le (a b : valueRow) : Prop := String.leb (RowKey a) (RowKey b) = true.

#[local] Instance row_le_dec a b : Decision (row_le a b).
Proof. unfold row_le. apply _. Defined.

Definition decodeValues (doc : Doc) : result (list valueRow) :=
  match doc with
  | Err e => Err (Wrapf "decode state document" e)
  | Ok (JNull, _) => Err (Errorf "state document is JSON null, want an object")
  | Ok (JObj fields, trailing) =>
      if trailing : bool then Err (Errorf "trailing data after the state document")
      else
        let m : gmap string json := foldl (λ m '(k, v), <[k := v]> m) ∅ fields in
        Ok (merge_sort row_le
          ((λ '(k, v), {| RowKey := k; RowValue := formatValue v |}) <$> map_to_list m))
  | Ok _ => Err (Errorf "decode state document: not an object")
  end.

Definition RecordReading (s : Server) (doc : Doc) (setpointsStale : bool) (now : Time)
  : Server * option error :=
  match decodeValues doc with
  | Err e => (s, Some (Wrapf "record reading" e))
  | Ok rs =>
      let setpoints :=
        if setpointsStale then match last s with Some r => setpointsAt r | None => zeroTime end
        else now in
      ({| ready := ready s; consecutiveFailures := consecutiveFailures s; threshold := threshold s;
          last := Some {| rows := rs; at_ := now; setpointsAt := setpoints |};
          scfg := scfg s; startedAt := startedAt s |}, None)
  end.

Definition snapshot (s : Server) : bool * option reading := (ready s, last s).

(** ** The probes (server.go) *)

Definition handleLivez : Z * string := (200, "ok").

Definition handleReadyz (s : Server) : Z * string :=
  if Ready s then (200, "ready") else (503, "not ready").

(** ** Lemmas *)

Lemma decodeValues_fields m fields : NoDup (fields.*1) →
  (∀ k, k ∈ fields.*1 → (m : gmap string json) !! k = None) →
  map_to_list (foldl (λ m '(k, v), <[k := v]> m) m fields) ≡ₚ map_to_list m ++ fields.
Proof.
  revert m. induction fields as [|[k v] fields IH]; intros m Hnd Hm; cbn; [by rewrite app_nil_r|].
  rewrite fmap_cons, NoDup_cons in Hnd. destruct Hnd as [Hk Hnd]. cbn in Hk.
  rewrite IH; [|done|].
  - rewrite map_to_list_insert by (apply Hm; by left). cbn. by rewrite <- Permutation_middle.
  - intros k' Hk'. rewrite lookup_insert_ne by (intros ->; done). apply Hm. by right.
Qed.

(** One poll outcome after another: [true] is a success. *)
Definition mark (s : Server) (ok : bool) : Server := if ok then MarkSuccess s else MarkFailure s.

(** Failures since the last success. *)
Fixpoint trailing (failed : Z) (outcomes : list bool) : Z :=
  match outcomes with
  | [] => failed
  | true :: os => trailing 0 os
  | false :: os => trailing (failed + 1) os
  end.

Lemma trailing_bound failed os : 0 ≤ failed → 0 ≤ trailing failed os ≤ failed + Z.of_nat (length os).
Proof.
  revert failed. induction os as [|[] os IH]; intros failed Hf; cbn [trailing length]; [lia|..].
  - specialize (IH 0). lia.
  - specialize (IH (failed + 1)). lia.
Qed.

Lemma mark_all s os : 0 ≤ consecutiveFailures s →
  consecutiveFailures s + Z.of_nat (length os) < 2 ^ 63 →
  (ready s = true → consecutiveFailures s < threshold s) → 1 ≤ threshold s →
  let s' := foldl mark s os in
  consecutiveFailures s' = trailing (consecutiveFailures s) os ∧ threshold s' = threshold s ∧
  last s' = last s ∧
  (ready s' = true ↔ (ready s = true ∨ existsb id os = true) ∧
     trailing (consecutiveFailures s) os < threshold s ∧
     (existsb id os = false → ready s = true)).
Proof.
  revert s. induction os as [|o os IH]; intros s H0 Hlen Hr Ht; cbn [foldl].
  - cbn. split_and!; try done. naive_solver.
  - cbn [length] in Hlen. destruct o; cbn [mark].
    + destruct (IH (MarkSuccess s)) as (E1 & E2 & E3 & E4); cbn in *; [lia..|done|].
      split_and!; try done. rewrite E4. cbn. naive_solver.
    + assert (to_int64 (consecutiveFailures s + 1) = consecutiveFailures s + 1) as En.
      { apply signed_small; [lia|]. change (2 ^ (64 - 1)) with (2 ^ 63). lia. }
      assert (Hc : consecutiveFailures (MarkFailure s) = consecutiveFailures s + 1) by exact En.
      assert (Hrd : ready (MarkFailure s) = if threshold s <=? consecutiveFailures s + 1 then false else ready s)
        by (cbn; by rewrite En).
      destruct (IH (MarkFailure s)) as (E1 & E2 & E3 & E4).
      * rewrite Hc. lia.
      * rewrite Hc. lia.
      * rewrite Hrd, Hc. change (threshold (MarkFailure s)) with (threshold s).
        destruct (Z.leb_spec (threshold s) (consecutiveFailures s + 1)); [done|lia].
      * done.
      * rewrite Hc in E1, E4. rewrite Hrd in E4. change (threshold (MarkFailure s)) with (threshold s) in *.
        cbn [trailing existsb id orb]. split_and!; try done. rewrite E4.
        pose proof (trailing_bound (consecutiveFailures s + 1) os ltac:(lia)).
        destruct (Z.leb_spec (threshold s) (consecutiveFailures s + 1)) as [Hle|Hgt]; [|done].
        destruct (existsb id os) eqn:Ex; [naive_solver|].
        assert (trailing (consecutiveFailures s + 1) os = consecutiveFailures s + 1 + Z.of_nat (length os)) as ->.
        { clear -Ex. revert Ex. generalize (consecutiveFailures s + 1). induction os as [|[] os IH];
            intros f; cbn [existsb id orb trailing length]; [lia|done|]. intros Ex. rewrite IH by done. lia. }
        split; [intros [[?|?] _]; done|]. intros (_ & Hlt & _). lia.
Qed.
End Page.

(** ** Properties *)

(** Readiness over any history of polls. *)
Lemma ready_history (cfg : ServerConfig) (started : Time) (outcomes : list bool) :
  Z.of_nat (length outcomes) < 2 ^ 63 →
  Ready (foldl mark (New cfg started) outcomes) = true ↔ existsb id outcomes = true ∧
    trailing 0 outcomes < Z.max 1 (FailureThreshold cfg).
Proof.
  intros Hlen.
  assert (threshold (New cfg started) = Z.max 1 (FailureThreshold cfg)) as Ht.
  { cbn. destruct (Z.ltb_spec (FailureThreshold cfg) 1); lia. }
  destruct (mark_all (New cfg started) outcomes) as (_ & _ & _ & Hr).
  - done.
  - cbn [New consecutiveFailures]. lia.
  - done.
  - rewrite Ht. lia.
  - rewrite Ht in Hr. change (consecutiveFailures (New cfg started)) with 0 in Hr.
    change (ready (New cfg started)) with false in Hr.
    unfold Ready. rewrite Hr. destruct (existsb id outcomes); naive_solver.
Qed.

(** The page's table shows the state document as published: a document is
    accepted exactly when it is one JSON object with nothing after it, its rows are
    its members, each once, sorted by key. *)
Theorem decode_values_rows (sprint : json → string) (doc : Doc) :
  (is_Ok (decodeValues sprint doc) = true ↔ ∃ fields, doc = Ok (JObj fields, false)) ∧
  (∀ fields rs, doc = Ok (JObj fields, false) → NoDup (fields.*1) →
     decodeValues sprint doc = Ok rs →
     rs ≡ₚ (λ '(k, v), {| RowKey := k; RowValue := formatValue sprint v |}) <$> fields ∧
     Sorted row_le rs).
Proof.
  split.
  - destruct doc as [[[] []]|]; cbn; split; intros H; try done; try (destruct H; congruence); eauto.
  - intros fields rs -> Hnd [= <-]. split.
    + rewrite merge_sort_Permutation. apply fmap_Permutation.
      rewrite decodeValues_fields; [|done|intros; apply lookup_empty].
      by rewrite map_to_list_empty.
    + apply Sorted_merge_sort. intros a b. unfold row_le.
      destruct (String.leb_total (RowKey a) (RowKey b)); auto.
Qed.

(** The date of the setpoints on the page: after any run of recorded readings it
    is the time of the last one whose setpoints were read from the inverter, or the
    zero time, which the page reports as "not yet read", when there was none. *)
Theorem setpoints_date (sprint : json → string) (s : Server) (readings : list (Doc * bool * Time)) :
  last s = None →
  let s' := foldl (λ s '(d, stale, now), (RecordReading sprint s d stale now).1) s readings in
  let accepted := List.filter (λ '(d, _, _), is_Ok (decodeValues sprint d)) readings in
  match list.last accepted with
  | None => last s' = None
  | Some (_, _, now) => ∃ r, last s' = Some r ∧ at_ r = now ∧
      setpointsAt r = match list.last (List.filter (λ '(_, stale, _), negb stale) accepted) with
                      | Some (_, _, t) => t
                      | None => zeroTime
                      end
  end.
Proof.
  intros Hs. cbv zeta. induction readings as [|[[d stale] now] readings IH] using rev_ind; [done|].
  rewrite foldl_app, List.filter_app. cbn [foldl].
  set (s1 := foldl _ s readings) in *.
  set (acc := List.filter _ readings) in *. cbn [List.filter].
  unfold RecordReading. destruct (decodeValues sprint d) as [rs|e]; cbn [is_Ok fst].
  - rewrite last_snoc. eexists. split; [reflexivity|]. split; [done|]. cbn [setpointsAt].
    rewrite List.filter_app. cbn [List.filter]. destruct stale; cbn [negb].
    + rewrite app_nil_r. destruct (list.last acc) as [[[d1 st1] n1]|] eqn:El.
      * destruct IH as (r & -> & _ & ->). done.
      * apply last_None in El. rewrite IH. by rewrite El.
    + by rewrite last_snoc.
  - rewrite app_nil_r. exact IH.
Qed.

Lemma setpoints_date_witness :
  let cfg := {| FailureThreshold := 3; PollInterval := 60 * Second |} in
  let t1 := {| unixNano := 5 * Second; location := UTC |} in
  let t2 := {| unixNano := 65 * Second; location := UTC |} in
  let doc := Ok (JObj [("battery_soc", JInt 42)], false) in
  let s := foldl (λ s '(d, stale, now), (RecordReading (λ _, "42") s d stale now).1) (New cfg zeroTime)
    [(doc, false, t1); (doc, true, t2)] in
  ∃ r, last s = Some r ∧ at_ r = t2 ∧ setpointsAt r = t1.
Proof.
  intros cfg t1 t2 doc s.
  exact (setpoints_date (λ _, "42") (New cfg zeroTime) [(doc, false, t1); (doc, true, t2)] eq_refl).
Defined.
