(* ===== verification/StatusPage.v ===== *)
(** * The status page and the routes (internal/server/page.go, routes.go)

    What a request is answered: the route table of net/http's mux, and the HTML the
    template makes of a snapshot of the server, escapes included. *)

From Stdlib Require Import Ascii.
From S2P Require Import Prelude GoInt GoString GoTime GoFloat GoParse Json HomeAssistant Server.

(** ** html/template

    What its escapers make of a string in text, in the title and in a quoted
    attribute: one replacement table for the three. *)
Definition html_escape_char (c : ascii) : string :=
  let n := nat_of_ascii c in
  if (n =? 0)%nat then bytes [239; 191; 189]
  else if (n =? 34)%nat then "&#34;"
  else if (n =? 38)%nat then "&amp;"
  else if (n =? 39)%nat then "&#39;"
  else if (n =? 43)%nat then "&#43;"
  else if (n =? 60)%nat then "&lt;"
  else if (n =? 62)%nat then "&gt;"
  else String c "".

Fixpoint html_escape (s : string) : string :=
  match s with EmptyString => "" | String c s => html_escape_char c +:+ html_escape s end.

(** The template's text.  A backquote stands for a double quote: the Go source is a raw
    string and holds none. *)
Fixpoint markup (s : string) : string :=
  match s with
  | EmptyString => ""
  | String c s => String (if decide (c = "`"%char) then ascii_of_nat 34 else c) (markup s)
  end.

(** A template once its control flow is resolved: text, and values to escape. *)
Inductive node : Type := Text (s : string) | Value_ (s : string).

Definition node_html (n : node) : string :=
  match n with Text s => markup s | Value_ s => html_escape s end.

Definition Execute (t : list node) : string := foldr (λ n rest, node_html n +:+ rest) "" t.

Definition newline : node := Text (bytes [10]).

(** ** The page (page.go) *)

Definition serviceName : string := "solis-inverter-manager".

(** [d.Round(m)]: half away from zero, saturating. *)
Definition Duration_Round (d m : Z) : Z :=
  if m <=? 0 then d
  else
    let r := Z.rem d m in
    if d <? 0 then
      let r := - r in
      if r + r <? m then d + r
      else let d1 := d - m + r in if minDuration <=? d1 then d1 else minDuration
    else if r + r <? m then d - r
    else let d1 := d + m - r in if d1 <=? maxDuration then d1 else maxDuration.

Definition refreshSeconds (poll : Z) : Z :=
  if poll <? Second then 0 else Z.quot (Duration_Round poll Second) Second.

Definition setpointsLine (r : reading) (now : Time) : string :=
  if IsZeroTime (setpointsAt r) then "Setpoints: not yet read from the inverter"
  else if unixNano (setpointsAt r) =? unixNano (at_ r) then ""
  else "Setpoints: last read " +:+ Duration_String (Duration_Round (Sub now (setpointsAt r)) Second)
    +:+ " ago (holding registers unreadable since)".

Record statusView : Type := {
  VService : string; VReady : bool; VUptime : string; VGoVersion : string; VPollInterval : string;
  VRefresh : Z; HaveReading : bool; ValuesAge : string; VSetpoints : string; Values : list valueRow;
}.

Definition row_nodes (r : valueRow) : list node :=
  [Text "<tr><td>"; Value_ (RowKey r); Text "</td><td>"; Value_ (RowValue r); Text "</td></tr>"; newline].

Definition statusTmpl (v : statusView) : list node :=
  [Text "<!DOCTYPE html>"; newline;
   Text "<html lang=`en`>"; newline;
   Text "<head>"; newline;
   Text "<meta charset=`utf-8`>"; newline;
   Text "<meta name=`viewport` content=`width=device-width, initial-scale=1`>"; newline] ++
  (if VRefresh v =? 0 then []
   else [Text "<meta http-equiv=`refresh` content=`"; Value_ (pretty (VRefresh v)); Text "`>"; newline]) ++
  [Text "<title>"; Value_ (VService v); Text " status</title>"; newline;
   Text "</head>"; newline;
   Text "<body>"; newline;
   Text "<h1>"; Value_ (VService v); Text "</h1>"; newline;
   Text "<p>Status: "; Text (if VReady v then "ready" else "not ready"); Text "</p>"; newline;
   Text "<p>Uptime: "; Value_ (VUptime v); Text "</p>"; newline;
   Text "<h2>Inverter values</h2>"; newline] ++
  (if HaveReading v then
     [newline; Text "<p>Last reading: as of "; Value_ (ValuesAge v); Text " ago</p>"; newline] ++
     (if bool_decide (VSetpoints v = "") then []
      else [Text "<p>"; Value_ (VSetpoints v); Text "</p>"; newline]) ++
     [Text "<table>"; newline;
      Text "<tr><th>Key</th><th>Value</th></tr>"; newline] ++
     (Values v ≫= row_nodes) ++
     [Text "</table>"; newline]
   else [newline; Text "<p>Last reading: no readings yet</p>"; newline]) ++
  [newline;
   Text "<h2>Schedule</h2>"; newline;
   Text "<ul>"; newline;
   Text "<li>Poll interval: "; Value_ (VPollInterval v); Text "</li>"; newline;
   Text "</ul>"; newline;
   Text "<p>Go: "; Value_ (VGoVersion v); Text "</p>"; newline;
   Text "</body>"; newline;
   Text "</html>"; newline].

Record Response : Type := { Code : Z; Headers : list (string * string); Body : string }.

Section Page.
(** [runtime.Version()] *)
Context (goVersion : string).

Definition view_of (s : Server) (now : Time) : statusView :=
  let '(rdy, lst) := snapshot s in
  let since t := Duration_String (Duration_Round (Sub now t) Second) in {|
    VService := serviceName; VReady := rdy; VUptime := since (startedAt s); VGoVersion := goVersion;
    VPollInterval := Duration_String (PollInterval (scfg s)); VRefresh := refreshSeconds (PollInterval (scfg s));
    HaveReading := match lst with Some _ => true | None => false end;
    ValuesAge := match lst with Some r => since (at_ r) | None => "" end;
    VSetpoints := match lst with Some r => setpointsLine r now | None => "" end;
    Values := match lst with Some r => rows r | None => [] end |}.

Definition handleRoot (s : Server) (now : Time) : Response := {|
  Code := 200;
  Headers := [("Content-Type", "text/html; charset=utf-8"); ("Cache-Control", "no-store")];
  Body := Execute (statusTmpl (view_of s now)) |}.

(** ** The mux (net/http) *)

(** [path.Clean] of a rooted path, on its segments. *)
Definition clean_step (acc : list string) (seg : string) : list string :=
  if decide (seg = "" ∨ seg = ".") then acc
  else if decide (seg = "..") then removelast acc
  else acc ++ [seg].

Definition clean_segments (p : string) : list string := foldl clean_step [] (Split p "/"%char).

Definition rooted (segs : list string) : string := foldr (λ s rest, String "/" s +:+ rest) "" segs.

(** [cleanPath(p)]: a trailing slash is kept. *)
Definition cleanPath (p : string) : string :=
  match clean_segments p with
  | [] => "/"
  | segs => rooted segs +:+ (if decide (list.last (Split p "/"%char) = Some "") then "/" else "")
  end.

(** [pathUnescape(seg)]: percent escapes decoded, or the segment as it is when one is
    malformed. *)
Fixpoint unescape (s : string) : option string :=
  match s with
  | EmptyString => Some ""
  | String "%" (String a (String b s)) =>
      x ← hex_digit_val a; y ← hex_digit_val b;
      rest ← unescape s; Some (String (ascii_of_nat (Z.to_nat (16 * x + y))) rest)
  | String c s => if decide (c = "%"%char) then None else rest ← unescape s; Some (String c rest)
  end.

Definition pathUnescape (s : string) : string := default s (unescape s).

(** The segments the routing tree is walked with: a final slash is a segment "/". *)
Fixpoint walk (segs : list string) : list string :=
  match segs with
  | [] => []
  | [""] => ["/"]
  | s :: segs => pathUnescape s :: walk segs
  end.

Inductive Route : Type := Root | Livez | Readyz.

(** [addRoutes]; every pattern is for GET, which matches HEAD as well. *)
Definition addRoutes : list (list string * Route) :=
  [(["/"], Root); (["healthz"], Livez); (["readyz"], Readyz)].

Definition matched (path : string) : option Route :=
  snd <$> List.find (λ '(pat, _), bool_decide (walk (drop 1 (Split path "/"%char)) = pat)) addRoutes.

Definition get_or_head (method : string) : bool := bool_decide (method = "GET" ∨ method = "HEAD").

Definition plain (code : Z) (headers : list (string * string)) (text : string) : Response := {|
  Code := code; Headers := headers ++ [("Content-Type", "text/plain; charset=utf-8"); ("X-Content-Type-Options", "nosniff")];
  Body := text +:+ bytes [10] |}.

(** [Handler().ServeHTTP]: [path] is the escaped path of the request, which starts with
    a slash; where a redirect leads and its page are left out. *)
Definition Handler (s : Server) (now : Time) (method path : string) : Response :=
  let clean := if decide (method = "CONNECT") then path else cleanPath path in
  if negb (bool_decide (clean = path)) then
    {| Code := 301; Headers := []; Body := "" |}
  else
    match matched path with
    | None => plain 404 [] "404 page not found"
    | Some route =>
        if get_or_head method then
          match route with
          | Root => handleRoot s now
          | Livez => {| Code := handleLivez.1; Headers := []; Body := handleLivez.2 |}
          | Readyz => {| Code := (handleReadyz s).1; Headers := []; Body := (handleReadyz s).2 |}
          end
        else plain 405 [("Allow", "GET, HEAD")] "Method Not Allowed"
    end.
End Page.

Example clean_1 : cleanPath "/a/./b//../c/" = "/a/c/".
Proof. reflexivity. Qed.
Example clean_2 : cleanPath "/.." = "/".
Proof. reflexivity. Qed.
Example routed_1 : matched "/healthz" = Some Livez.
Proof. reflexivity. Qed.
Example routed_2 : matched "/%72eadyz" = Some Readyz.
Proof. reflexivity. Qed.
Example routed_3 : matched "/healthz/" = None.
Proof. reflexivity. Qed.
Example routed_4 : matched "/" = Some Root.
Proof. reflexivity. Qed.

(** ** Lemmas *)

(** The characters that open, close and quote markup. *)
Definition is_markup (c : ascii) : bool := bool_decide (nat_of_ascii c ∈ [34; 39; 60; 62])%nat.

Fixpoint skeleton (s : string) : list ascii :=
  match s with EmptyString => [] | String c s => (if is_markup c then [c] else []) ++ skeleton s end.

Lemma skeleton_app a b : skeleton (a +:+ b) = skeleton a ++ skeleton b.
Proof. induction a as [|c a IH]; [done|]. rewrite str_app_cons. cbn [skeleton]. by rewrite IH, app_assoc. Qed.

Lemma skeleton_escape s : skeleton (html_escape s) = [].
Proof.
  induction s as [|c s IH]; [done|]. cbn [html_escape]. rewrite skeleton_app, IH, app_nil_r.
  destruct c as [[] [] [] [] [] [] [] []]; reflexivity.
Qed.

(** The page with nothing in it: the same shape, every text blank. *)
Definition blank_row (r : valueRow) : valueRow := {| RowKey := ""; RowValue := "" |}.

Definition blank (v : statusView) : statusView := {|
  VService := ""; VReady := VReady v; VUptime := ""; VGoVersion := ""; VPollInterval := "";
  VRefresh := if VRefresh v =? 0 then 0 else 1; HaveReading := HaveReading v; ValuesAge := "";
  VSetpoints := if bool_decide (VSetpoints v = "") then "" else "-"; Values := blank_row <$> Values v |}.

Definition blank_node (n : node) : node := match n with Text s => Text s | Value_ _ => Value_ "" end.

Lemma skeleton_Execute t : skeleton (Execute t) = skeleton (Execute (blank_node <$> t)).
Proof.
  induction t as [|n t IH]; [done|]. cbn [Execute foldr fmap list_fmap]. fold (Execute t) (Execute (blank_node <$> t)).
  rewrite !skeleton_app, IH. f_equal. destruct n; [done|]. exact (skeleton_escape s).
Qed.

Lemma Execute_app t t' : Execute (t ++ t') = Execute t +:+ Execute t'.
Proof.
  induction t as [|n t IH]; [done|]. cbn [app Execute foldr]. fold (Execute (t ++ t')) (Execute t).
  by rewrite IH, str_app_assoc.
Qed.

(** [r] has a row of its own in [t]. *)
Definition has_row (r : valueRow) (t : list node) : Prop := ∃ a b, t = a ++ row_nodes r ++ b.

Lemma has_row_l r t t' : has_row r t → has_row r (t ++ t').
Proof. intros (a & b & ->). exists a, (b ++ t'). by rewrite <- !app_assoc. Qed.

Lemma has_row_r r t t' : has_row r t' → has_row r (t ++ t').
Proof. intros (a & b & ->). exists (t ++ a), b. by rewrite <- !app_assoc. Qed.

Lemma has_row_rows r rs : r ∈ rs → has_row r (rs ≫= row_nodes).
Proof.
  intros (l1 & l2 & ->)%list_elem_of_split. rewrite bind_app, bind_cons. apply has_row_r.
  by exists [], (l2 ≫= row_nodes).
Qed.

Lemma has_row_page r v : HaveReading v = true → r ∈ Values v → has_row r (statusTmpl v).
Proof.
  intros Hv Hr. unfold statusTmpl. rewrite Hv.
  apply has_row_r, has_row_r, has_row_r, has_row_l. apply has_row_r, has_row_r, has_row_r, has_row_l.
  by apply has_row_rows.
Qed.

Lemma blank_shape v : blank_node <$> statusTmpl v = blank_node <$> statusTmpl (blank v).
Proof.
  unfold statusTmpl. rewrite !fmap_app. cbn [blank VRefresh VReady HaveReading VSetpoints Values].
  f_equal. f_equal; [by destruct (VRefresh v =? 0)|]. f_equal. f_equal. destruct (HaveReading v); [|done].
  rewrite !fmap_app. f_equal. f_equal; [by destruct (bool_decide_reflect (VSetpoints v = ""))|].
  f_equal. f_equal. induction (Values v) as [|r rs IH]; [done|].
  rewrite fmap_cons, !bind_cons, !fmap_app, IH. done.
Qed.

(** What a reader of HTML makes of the references the escapers write. *)
Fixpoint html_text (s : string) : string :=
  match s with
  | EmptyString => ""
  | String "&" (String "#" (String "3" (String "4" (String ";" s)))) => String (ascii_of_nat 34) (html_text s)
  | String "&" (String "a" (String "m" (String "p" (String ";" s)))) => String "&" (html_text s)
  | String "&" (String "#" (String "3" (String "9" (String ";" s)))) => String "'" (html_text s)
  | String "&" (String "#" (String "4" (String "3" (String ";" s)))) => String "+" (html_text s)
  | String "&" (String "l" (String "t" (String ";" s))) => String "<" (html_text s)
  | String "&" (String "g" (String "t" (String ";" s))) => String ">" (html_text s)
  | String c s => String c (html_text s)
  end.

Lemma html_text_escape s : has_char (ascii_of_nat 0) s = false → html_text (html_escape s) = s.
Proof.
  induction s as [|c s IH]; [done|]. cbn [has_char html_escape]. intros H. apply orb_false_iff in H as [Hc Hs].
  specialize (IH Hs). revert Hc. generalize dependent (html_escape s). intros t IH Hc.
  rewrite <- IH. destruct c as [[] [] [] [] [] [] [] []]; try discriminate Hc; reflexivity.
Qed.

(** *** Routes *)

Lemma unescape_plain s : has_char "%" s = false → unescape s = Some s.
Proof.
  induction s as [|c s IH]; [done|]. cbn [has_char]. intros [Hc Hs]%orb_false_iff.
  apply bool_decide_eq_false in Hc.
  assert (unescape (String c s) = if decide (c = "%"%char) then None else rest ← unescape s; Some (String c rest)) as ->.
  { destruct c as [[] [] [] [] [] [] [] []]; try reflexivity. done. }
  rewrite decide_False by done. by rewrite (IH Hs).
Qed.

Lemma walk_plain segs : Forall (λ s, has_char "%" s = false) segs →
  walk segs = match list.last segs with Some "" => removelast segs ++ ["/"] | _ => segs end.
Proof.
  induction 1 as [|s segs Hs H IH]; [done|]. cbn [walk]. unfold pathUnescape. rewrite unescape_plain by done.
  destruct segs as [|s' segs]; [by destruct s|]. rewrite IH.
  change (list.last (s :: s' :: segs)) with (list.last (s' :: segs)).
  destruct s as [|c s]; cbn [default]; destruct (list.last (s' :: segs)) as [[|? ?]|]; done.
Qed.

Lemma has_char_app c a b : has_char c (a +:+ b) = has_char c a || has_char c b.
Proof. induction a as [|d a IH]; [done|]. rewrite str_app_cons. cbn. by rewrite IH, orb_assoc. Qed.

Lemma Split_has c s sep : has_char c s = false → Forall (λ w, has_char c w = false) (Split s sep).
Proof.
  induction s as [|d s IH]; cbn [Split has_char]; [by repeat constructor|]. intros [Hd Hs]%orb_false_iff.
  specialize (IH Hs). destruct (decide (d = sep)); [by constructor|].
  destruct (Split s sep) as [|w ws]; inversion IH; subst; constructor; try done; cbn; by rewrite Hd.
Qed.

(** Without percent escapes a path is matched as it is spelled. *)
Lemma matched_spec path : has_char "%" path = false →
  matched (String "/" path) =
    if decide (path = "") then Some Root else if decide (path = "healthz") then Some Livez
    else if decide (path = "readyz") then Some Readyz else None.
Proof.
  intros Hp. unfold matched. cbn [Split]. rewrite decide_True by done. cbn [drop].
  pose proof (Split_Join path "/") as Hj. pose proof (Split_parts path "/") as Hparts.
  rewrite walk_plain by (by apply Split_has).
  set (segs := Split path "/") in *.
  assert (∀ lit, has_char "/" lit = false → segs = [lit] ↔ path = lit) as Hlit.
  { intros lit Hl. split; [intros E; rewrite E in Hj; by rewrite <- Hj|]. intros ->. by apply Split_none. }
  assert (∀ lit, has_char "/" lit = false → lit ≠ "" →
    (match list.last segs with Some "" => removelast segs ++ ["/"] | _ => segs end) = [lit] ↔ path = lit) as Hl.
  { intros lit Hl Hne. rewrite <- (Hlit lit Hl). destruct (list.last segs) as [[|c l]|] eqn:El; [|done..].
    split; intros E; exfalso.
    - apply (f_equal list.last) in E. rewrite last_snoc in E. injection E as <-. done.
    - rewrite E in El. injection El as ->. done. }
  assert ((match list.last segs with Some "" => removelast segs ++ ["/"] | _ => segs end) = ["/"] ↔ path = "") as Hr.
  { rewrite <- (Hlit "") by done. split.
    - destruct (list.last segs) as [[|c l]|] eqn:El.
      + intros E. apply last_Some in El as [l E']. rewrite E' in *. rewrite removelast_last in E. by destruct l as [|? [|]].
      + intros E. rewrite E in Hparts. rewrite Forall_singleton in Hparts. vm_compute in Hparts. done.
      + intros E. by rewrite E in El.
    - intros ->. done. }
  unfold addRoutes. cbn [List.find].
  pose proof (Hl "healthz" eq_refl ltac:(done)) as Hh. pose proof (Hl "readyz" eq_refl ltac:(done)) as Hz.
  set (x := match list.last segs with Some "" => _ | _ => _ end) in *.
  repeat (case_decide; [rewrite bool_decide_eq_true_2 by tauto; done|rewrite bool_decide_eq_false_2 by tauto]). done.
Qed.

(** ** Properties *)

(** C32: The page cannot be broken by what it shows.  Whatever the texts of the page (the
    keys and values of the state document, the ages, the notes), the characters of the
    page that open, close or quote markup are, in order, those of the same page with
    every text blank: nothing published by the inverter or the broker adds markup.  A
    text without NUL is read back from its cell exactly. *)
Theorem page_markup_fixed (goVersion : string) (s : Server) (now : Time) :
  let v := view_of goVersion s now in
  skeleton (Body (handleRoot goVersion s now)) = skeleton (Execute (statusTmpl (blank v))) ∧
  (∀ r, r ∈ Values v → HaveReading v = true →
     has_char (ascii_of_nat 0) (RowKey r) = false → has_char (ascii_of_nat 0) (RowValue r) = false →
     (∃ before after, Body (handleRoot goVersion s now) = before +:+ Execute (row_nodes r) +:+ after) ∧
     html_text (html_escape (RowKey r)) = RowKey r ∧ html_text (html_escape (RowValue r)) = RowValue r).
Proof.
  intros v. split.
  - cbn [handleRoot Body]. fold v.
    by rewrite (skeleton_Execute (statusTmpl v)), (skeleton_Execute (statusTmpl (blank v))), blank_shape.
  - intros r Hr Hv Hk Hval. split; [|split; by apply html_text_escape].
    destruct (has_row_page r v Hv Hr) as (a & b & E). cbn [handleRoot Body]. fold v.
    rewrite E, !Execute_app. by eexists _, _.
Qed.

Lemma page_markup_fixed_witness :
  let _ : TimeZone := dst_zone in
  let doc := Ok (JObj [("battery_soc", JStr "<b>")], false) in
  let s := (RecordReading (λ _, "<b>") (New {| FailureThreshold := 3; PollInterval := 60 * Second |} zeroTime)
    doc false zeroTime).1 in
  let r := {| RowKey := "battery_soc"; RowValue := "<b>" |} in
  html_escape (RowValue r) = "&lt;b&gt;" ∧ html_text (html_escape (RowValue r)) = RowValue r.
Proof.
  intros tz doc s r. split; [reflexivity|].
  destruct (page_markup_fixed "go1.26" s zeroTime) as [_ H].
  assert (Values (view_of "go1.26" s zeroTime) = [r]) as E by (vm_compute; reflexivity).
  destruct (H r) as (_ & _ & Hr); [by rewrite E; left|reflexivity|reflexivity|reflexivity|exact Hr].
Defined.

(** C31: The status surface, after any history of polls.  A clean path without percent
    escapes is answered 404 unless it is [/], [/healthz] or [/readyz]; those answer GET and
    HEAD only, others 405; [/] and [/healthz] answer 200, and [/readyz] 200 exactly when
    some poll has succeeded and fewer than FAILURE_THRESHOLD polls (at least one) have
    failed since the last success, else 503. *)
Theorem status_surface (goVersion : string) (cfg : ServerConfig) (started now : Time) (outcomes : list bool)
    (method path : string) :
  Z.of_nat (length outcomes) < 2 ^ 63 →
  has_char "%" path = false → method ≠ "CONNECT" → cleanPath (String "/" path) = String "/" path →
  Code (Handler goVersion (foldl mark (New cfg started) outcomes) now method (String "/" path)) =
    if decide (path ∉ [""; "healthz"; "readyz"]) then 404
    else if decide (method ≠ "GET" ∧ method ≠ "HEAD") then 405
    else if decide (path = "readyz" ∧ (existsb id outcomes = false ∨
                    Z.max 1 (FailureThreshold cfg) ≤ trailing 0 outcomes)) then 503
    else 200.
Proof.
  intros Hlen Hp Hm Hc. pose proof (ready_history cfg started outcomes Hlen) as Hr.
  set (s := foldl mark _ outcomes) in *.
  unfold Handler. rewrite decide_False by done. rewrite Hc, bool_decide_eq_true_2 by done. cbn [negb].
  rewrite matched_spec by done. unfold get_or_head.
  assert (bool_decide (method = "GET" ∨ method = "HEAD") = negb (bool_decide (method ≠ "GET" ∧ method ≠ "HEAD"))) as ->.
  { rewrite <- bool_decide_not. apply bool_decide_ext. destruct (decide (method = "GET")), (decide (method = "HEAD")); tauto. }
  destruct (decide (method ≠ "GET" ∧ method ≠ "HEAD")) as [Hg|Hg];
    [rewrite (bool_decide_eq_true_2 _ Hg)|rewrite (bool_decide_eq_false_2 _ Hg)]; cbn [negb].
  - repeat (case_decide; [subst; by rewrite decide_False by (rewrite !elem_of_cons; tauto)|]).
    rewrite decide_True; [done|]. rewrite !elem_of_cons, elem_of_nil. tauto.
  - unfold handleReadyz. destruct (decide (path = "")) as [->|H1]; [done|].
    destruct (decide (path = "healthz")) as [->|H2]; [done|].
    destruct (decide (path = "readyz")) as [->|H3].
    + rewrite (decide_False (P := _ ∉ _)) by (rewrite !elem_of_cons; tauto).
      destruct (Ready s), (existsb id outcomes), (decide ("readyz" = "readyz" ∧ _)) as [H|H]; cbn [Code fst]; try done.
      all: exfalso; naive_solver lia.
    + rewrite decide_True; [done|]. rewrite !elem_of_cons, elem_of_nil. tauto.
Qed.

Lemma status_surface_witness :
  let cfg := {| FailureThreshold := 2; PollInterval := 5 * Second |} in
  let s := foldl mark (New cfg zeroTime) [false; true; false] in
  let _ : TimeZone := dst_zone in
  Code (Handler "go1.26" s zeroTime "HEAD" "/readyz") = 200 ∧
  Code (Handler "go1.26" (MarkFailure s) zeroTime "GET" "/readyz") = 503 ∧
  Code (Handler "go1.26" s zeroTime "POST" "/readyz") = 405.
Proof.
  intros cfg s tz. split; [|split].
  - apply (status_surface "go1.26" cfg zeroTime zeroTime [false; true; false] "HEAD" "readyz"); done.
  - apply (status_surface "go1.26" cfg zeroTime zeroTime [false; true; false; false] "GET" "readyz"); done.
  - apply (status_surface "go1.26" cfg zeroTime zeroTime [false; true; false] "POST" "readyz"); done.
Defined.
