(* ===== verification/Publisher.v ===== *)
(** * Publishing (internal/publisher)

    The service that turns the documents of [HomeAssistant] into MQTT messages.
    The transport is a type class: what the program hands it, and the error it
    answers, is all the program sees of the broker.  [Collect] is in [Telemetry]. *)

From S2P Require Import Prelude GoInt GoString GoTime Rtc Telemetry Json HomeAssistant.

(** ** The transport (publisher.go) *)

Class Publisher (W : Type) : Type := Publish : Ctx → string → Payload → bool → State W (option error).

(** What a transport has been given, oldest first. *)
Definition Sent : Type := list (Message * bool).

(** A transport: [sent] records every call, with its retain flag, whatever the
    call answers. *)
Class PublisherLaws (W : Type) `{Publisher W} : Type := {
  sent : W → Sent;
  publish_sent ctx topic payload retain w r w' : Publish ctx topic payload retain w = (r, w') →
    sent w' = sent w ++ [({| MTopic := topic; MPayload := payload |}, retain)];
}.

(** The transport of a run without a broker. *)
Definition Discard_Publish {W} : Ctx → string → Payload → bool → State W (option error) :=
  λ _ _ _ _, mret None.

(** ** The service *)

Section Service.
Context {W : Type} `{pub : Publisher W} `{clk : Clock_ W} `{tz : TimeZone}.
Context (cfg : HAConfig).

(** [for _, m := range msgs { if err := Publish(...); err != nil { return ... } }] *)
Fixpoint publish_all (what : string) (ctx : Ctx) (msgs : list Message) : State W (option error) :=
  match msgs with
  | [] => mret None
  | m :: rest =>
      r ← Publish ctx (MTopic m) (MPayload m) true;
      match r with
      | Some e => mret (Some (Wrapf (what +:+ " " +:+ MTopic m) e))
      | None => publish_all what ctx rest
      end
  end.

Definition PublishDiscovery (ctx : Ctx) : State W (option error) :=
  publish_all "publish discovery" ctx (BuildDiscovery cfg).

Definition PublishDiscoveryRemovals (ctx : Ctx) : State W (option error) :=
  publish_all "publish discovery removal" ctx (BuildDiscoveryRemovals cfg).

Definition PublishAvailability (ctx : Ctx) (online : bool) : State W (option error) :=
  r ← Publish ctx (AvailabilityTopic cfg) (PText (if online then "online" else "offline")) true;
  mret (match r with Some e => Some (Wrapf "publish availability" e) | None => None end).

(** The message is returned even when the broker refused it; [None] is the zero
    message of a failed build. *)
Definition PublishState (ctx : Ctx) (t : Telemetry) (sp : HASetpoints)
  : State W (option Message * option error) :=
  now ← (λ w, (Now w, w));
  match BuildState cfg t (Drift (TTime t) now) sp with
  | Err e => mret (None, Some (Wrapf "build state" e))
  | Ok msg =>
      r ← Publish ctx (MTopic msg) (MPayload msg) true;
      mret (Some msg, match r with Some e => Some (Wrapf "publish state" e) | None => None end)
  end.
End Service.

(** ** The recording transport (recording.go) *)

Record Rec : Type := { RPayload : Payload; RRetain : bool }.

Record RecordingPublisher : Type := { records : gmap string Rec; order : list string }.

Definition NewRecordingPublisher : RecordingPublisher := {| records := ∅; order := [] |}.

#[export] Instance RecordingPublisher_Publish : Publisher RecordingPublisher :=
  λ _ topic payload retain r,
    let order' := match records r !! topic with Some _ => order r | None => order r ++ [topic] end in
    (None, {| records := <[topic := {| RPayload := payload; RRetain := retain |}]> (records r);
              order := order' |}).

Definition Get (r : RecordingPublisher) (topic : string) : option Rec := records r !! topic.

Definition Topics (r : RecordingPublisher) : list string := order r.

(** ** Lemmas *)

Section Lemmas.
Context {W : Type} `{pub : Publisher W} `{laws : !PublisherLaws W} `{clk : Clock_ W} `{tz : TimeZone}.

Definition retained (m : Message) : Message * bool := (m, true).

Lemma publish_all_sent what ctx msgs w r w' : publish_all what ctx msgs w = (r, w') →
  ∃ k, sent w' = sent w ++ (retained <$> take k msgs) ∧ (k ≤ length msgs)%nat ∧
    (r = None → k = length msgs).
Proof.
  revert w. induction msgs as [|m msgs IH]; intros w H; cbn in H.
  - injection H as <- <-. exists 0%nat. cbn. by rewrite app_nil_r.
  - apply state_bind_inv in H as (a & w1 & E & H). apply publish_sent in E. destruct a as [e|].
    + injection H as <- <-. exists 1%nat. rewrite E. destruct m; cbn.
      split; [by rewrite take_0|]. split; [lia|done].
    + apply IH in H as (k & E' & Hk & Hr). exists (S k). rewrite E', E. destruct m; cbn.
      rewrite <- app_assoc. split; [done|]. split; [lia|]. intros. f_equal. auto.
Qed.

Lemma PublishState_sent cfg ctx t sp w r w' : PublishState cfg ctx t sp w = (r, w') →
  ∃ drift, drift = Drift (TTime t) (Now w) ∧
  match BuildState cfg t drift sp with
  | Err e => r = (None, Some (Wrapf "build state" e)) ∧ w' = w
  | Ok msg => ∃ err, r = (Some msg, err) ∧ sent w' = sent w ++ [retained msg] ∧
      ∃ res, Publish ctx (MTopic msg) (MPayload msg) true w = (res, w') ∧ (err = None ↔ res = None)
  end.
Proof.
  unfold PublishState, mbind, state_bind. intros H. cbv beta iota in H.
  eexists. split; [reflexivity|]. destruct (BuildState _ _ _ _) as [msg|e].
  - destruct (Publish _ _ _ _ w) as [res w1] eqn:E. injection H as <- <-. eexists. split; [done|].
    split; [by rewrite (publish_sent _ _ _ _ _ _ _ E); destruct msg|]. eexists. split; [reflexivity|].
    by destruct res.
  - by injection H as <- <-.
Qed.
End Lemmas.

Lemma records_publish_all what ctx msgs r : (publish_all what ctx msgs r).1 = None.
Proof. revert r. induction msgs as [|m msgs IH]; intros r; cbn; [done|]. apply IH. Qed.

(** A run of publishes on a recording: the last message of each topic, and the
    topics in the order first seen. *)
Lemma records_publish_fresh what ctx msgs r : NoDup (MTopic <$> msgs) →
  (∀ m, m ∈ msgs → records r !! MTopic m = None) →
  let r' := (publish_all what ctx msgs r).2 in
  order r' = order r ++ (MTopic <$> msgs) ∧
  (∀ m, m ∈ msgs → records r' !! MTopic m = Some {| RPayload := MPayload m; RRetain := true |}) ∧
  (∀ t, t ∉ MTopic <$> msgs → records r' !! t = records r !! t).
Proof.
  revert r. induction msgs as [|m msgs IH]; intros r Hnd Hf.
  - cbn. rewrite app_nil_r. split_and!; try done. intros m Hm. by apply elem_of_nil in Hm.
  - rewrite fmap_cons, NoDup_cons in Hnd. destruct Hnd as [Hm Hnd].
    set (r1 := {| records := <[MTopic m := {| RPayload := MPayload m; RRetain := true |}]> (records r);
                  order := order r ++ [MTopic m] |}).
    assert (publish_all what ctx (m :: msgs) r = publish_all what ctx msgs r1) as Er.
    { cbn. unfold mbind, state_bind, Publish, RecordingPublisher_Publish.
      by rewrite (Hf m) by (by left). }
    cbn zeta. rewrite Er. destruct (IH r1 Hnd) as (H1 & H2 & H3).
    { intros m' Hm'. cbn. rewrite lookup_insert_ne; [apply Hf; by right|].
      intros Heq. apply Hm. rewrite Heq. by apply list_elem_of_fmap_2. }
    split; [rewrite H1; cbn; by rewrite <- app_assoc|]. split.
    + intros m' [->|Hm']%elem_of_cons; [|by apply H2]. rewrite H3 by done. cbn. by rewrite lookup_insert_eq.
    + intros t Ht. rewrite H3 by set_solver. cbn. rewrite lookup_insert_ne; [done|set_solver].
Qed.

(** ** Properties *)

(** Announcing the manager.  Whatever the broker answers, discovery sends a
    prefix of the entities' messages, every one retained, and the whole list when it
    reports no error; on the recording transport every entity then has its own topic
    holding its own payload. *)
Theorem discovery_published {W} `{pub : Publisher W} `{laws : !PublisherLaws W} (cfg : HAConfig) (ctx : Ctx) (w : W) :
  let out := PublishDiscovery cfg ctx w in
  (∃ k, sent out.2 = sent w ++ (retained <$> take k (BuildDiscovery cfg)) ∧
     (out.1 = None → k = length (BuildDiscovery cfg))) ∧
  let rec := PublishDiscovery cfg ctx NewRecordingPublisher in
  rec.1 = None ∧ Topics rec.2 = MTopic <$> BuildDiscovery cfg ∧
  ∀ m, m ∈ BuildDiscovery cfg →
    Get rec.2 (MTopic m) = Some {| RPayload := MPayload m; RRetain := true |}.
Proof.
  cbv zeta. unfold PublishDiscovery. pose proof (discovery_topics_NoDup cfg) as Hnd. revert Hnd.
  generalize (BuildDiscovery cfg). intros msgs Hnd. split.
  - destruct (publish_all _ ctx msgs w) as [r w'] eqn:E.
    apply publish_all_sent in E as (k & H1 & _ & H2). eauto.
  - split; [apply records_publish_all|].
    destruct (records_publish_fresh "publish discovery" ctx msgs NewRecordingPublisher Hnd) as (H1 & H2 & _); [done|].
    split; [exact H1|exact H2].
Qed.
