(* ===== verification/Scheduler.v ===== *)
(** * The poll loop (internal/scheduler)

    One poll: read with retries, remember, publish, report health, then the opt-in
    clock sync and the schedule reconcile.  The scheduler's collaborators are the
    fields of a record, as in the code; they act on the same world as the scheduler,
    which also holds its cache.  The mutex [apiMu] is held for the whole of a poll
    and of a command, so a run is a sequence of whole polls and whole commands
    ([Lifecycle.sections_serialise]). *)

From S2P Require Import Prelude GoInt GoString GoTime GoFloat WorkMode Rtc Telemetry TimedSlots.
From S2P Require Import Json HomeAssistant.

(** ** What the scheduler is given *)

(** [context.Context] with the clock's [After]: [Wait d] is the select between
    [ctx.Done()] and [after(d)], answering [ctx.Err()] when the context ended. *)
Class Context_ (W : Type) : Type := {
  ctx_Err : W → option error;
  Wait : Z → State W (option error);
}.

Class ContextLaws (W : Type) `{Context_ W} : Prop := {
  wait_err d w e w' : Wait d w = (Some e, w') → ctx_Err w' = Some e;
}.

(** The last-good cache. *)
Record Cache : Type := { CTel : Telemetry; CSp : HASetpoints; have : bool }.

(** The world holds the cache: the reader and the command refresh reach it too. *)
Class HasCache (W : Type) : Type := {
  cache : W → Cache;
  put_cache : Cache → W → W;
  cache_put c w : cache (put_cache c w) = c;
}.

Record Config : Type := {
  PollInterval : Z; MaxRetries : Z; RTCSyncEnabled : bool; RTCDriftThreshold : Z;
}.

(** The zero values of a cold start. *)
Definition zeroTelemetry : Telemetry :=
  let z := of_int 0 in {|
  TTime := zeroTime;
  TBattery := {| VoltageV := z; CurrentA := z; Charging := false; SOCPercent := z; SOHPercent := z;
    BMSVoltageV := z; BMSCurrentA := z; BMSChargeCurrentLimitA := z; BMSDischargeCurrentLimitA := z;
    BatFault1 := DecodeBMSFault1 0; BatFault2 := DecodeBMSFault2 0;
    OverdischargeSOCPercent := z; ForceChargeSOCPercent := z; BatPowerW := z |};
  TPV := {| PV1VoltageV := z; PV1CurrentA := z; PV2VoltageV := z; PV2CurrentA := z; TotalPowerW := z |};
  TGrid := {| GridPowerW := z; TotalImportKWh := z; ImportTodayKWh := z; TotalExportKWh := z;
    ExportTodayKWh := z |};
  TAC := {| ActivePowerW := z; TemperatureC := z; FrequencyHz := z; HouseLoadW := z |};
  TEnergy := {| GenerationTodayKWh := z; GenerationYesterdayKWh := z; BatteryTotalChargeKWh := z;
    BatteryChargeTodayKWh := z; BatteryTotalDischargeKWh := z; BatteryDischargeTodayKWh := z |};
  TSystem := {| Status := 0; OperatingStatus := 0; SysWorkMode := DecodeWorkMode 0 |} |}.

Definition zeroHASetpoints : HASetpoints := {|
  HASetChargeCurrent := of_int 0; HASetDischargeCurrent := of_int 0;
  HAMaxChargeCurrent := of_int 0; HAMaxDischargeCurrent := of_int 0;
  HAOptimalIncome := false; HASlots := Slots0; BoostEndsAt := zeroTime |}.

Section Scheduler.
Context {W : Type} `{ctx : Context_ W} `{hc : HasCache W} `{clk : Clock_ W}.

(** The three seams of the controls are nil when controls are disabled. *)
Record Scheduler : Type := {
  Read : State W (result (Telemetry * HASetpoints));
  publishState : Telemetry → HASetpoints → State W (option error);
  MarkSuccess : State W unit;
  MarkFailure : State W unit;
  rtc : option (State W (bool * option error));
  commander : option (string → string → State W unit);
  reconciler : option (TimedSlots → State W (bool * option error));
  cfg : Config;
}.

(** The clamp of [New]. *)
Definition New (read : State W (result (Telemetry * HASetpoints)))
    (pub : Telemetry → HASetpoints → State W (option error)) (ok failed : State W unit)
    (rtc : option (State W (bool * option error)))
    (commander : option (string → string → State W unit))
    (reconciler : option (TimedSlots → State W (bool * option error))) (cfg : Config) : Scheduler := {|
  Read := read; publishState := pub; MarkSuccess := ok; MarkFailure := failed;
  rtc := rtc; commander := commander; reconciler := reconciler;
  cfg := {| PollInterval := PollInterval cfg;
            MaxRetries := if MaxRetries cfg <? 0 then 0 else MaxRetries cfg;
            RTCSyncEnabled := RTCSyncEnabled cfg; RTCDriftThreshold := RTCDriftThreshold cfg |} |}.

Definition LastState (w : W) : Telemetry * HASetpoints * bool :=
  (CTel (cache w), CSp (cache w), have (cache w)).

Definition RememberState (tel : Telemetry) (sp : HASetpoints) : State W unit :=
  λ w, (tt, put_cache {| CTel := tel; CSp := sp; have := true |} w).

(** ** Reading with retries

    The loop over [attempt]: [again] is [attempt > 0], [tries] the number of
    attempts still allowed, [MaxRetries + 1] at the start.  The code's counter
    cannot wrap before it passes [MaxRetries]. *)
Fixpoint read_attempts (read : State W (result (Telemetry * HASetpoints))) (tries : nat) (again : bool)
    (backoff : Z) (lastErr : error) : State W (result (Telemetry * HASetpoints)) :=
  match tries with
  | O => mret (Err lastErr)
  | S tries =>
      stop ← (if again then Wait backoff else mret None);
      match stop with
      | Some e => mret (Err e)
      | None =>
          let backoff := if again then to_int64 (backoff * 2) else backoff in
          r ← read;
          match r with
          | Ok v => mret (Ok v)
          | Err e =>
              c ← (λ w, (ctx_Err w, w));
              match c with
              | Some ce => mret (Err ce)
              | None => read_attempts read tries true backoff e
              end
          end
      end
  end.

(** No attempt leaves [lastErr] nil: at least one is made, [MaxRetries] being
    clamped. *)
Definition readWithRetry (s : Scheduler) : State W (result (Telemetry * HASetpoints)) :=
  read_attempts (Read s) (S (Z.to_nat (MaxRetries (cfg s)))) false Second (Errorf "").

(** ** The poll *)

Definition abs (d : Z) : Z := if d <? 0 then to_int64 (- d) else d.

Definition maybeSyncRTC (s : Scheduler) (tel : Telemetry) : State W unit :=
  match rtc s with
  | Some sync =>
      if negb (RTCSyncEnabled (cfg s)) then mret tt
      else
        now ← (λ w, (Now w, w));
        let drift := Drift (TTime tel) now in
        if abs drift <=? RTCDriftThreshold (cfg s) then mret tt
        else _ ← sync; mret tt
  | None => mret tt
  end.

Definition maybeReconcile (s : Scheduler) (slots : TimedSlots) : State W unit :=
  match reconciler s with
  | None => mret tt
  | Some f => _ ← f slots; mret tt
  end.

Definition poll (s : Scheduler) : State W unit :=
  r ← readWithRetry s;
  match r with
  | Err _ =>
      c ← (λ w, (ctx_Err w, w));
      match c with
      | Some _ => mret tt
      | None => MarkFailure s
      end
  | Ok (tel, sp) =>
      _ ← RememberState tel sp;
      err ← publishState s tel sp;
      match err with
      | Some _ => MarkFailure s
      | None =>
          _ ← MarkSuccess s;
          _ ← maybeSyncRTC s tel;
          maybeReconcile s (HASlots sp)
      end
  end.

Definition PollNow (s : Scheduler) : State W unit := poll s.

Definition ApplyCommand (s : Scheduler) (topic payload : string) : State W unit :=
  match commander s with
  | None => mret tt
  | Some apply => apply topic payload
  end.

(** ** Runs

    What the mutex lets through: after the immediate first poll, ticks and inbound
    messages in any order until the context ends. *)
Inductive event : Type := Tick | Inbound (topic payload : string).

Definition handle (s : Scheduler) (e : event) : State W unit :=
  match e with Tick => poll s | Inbound topic payload => ApplyCommand s topic payload end.

Fixpoint run_events (s : Scheduler) (es : list event) : State W unit :=
  match es with
  | [] => mret tt
  | e :: es => _ ← handle s e; run_events s es
  end.

Definition Run (s : Scheduler) (es : list event) : State W unit :=
  _ ← poll s; run_events s es.

(** ** How a read goes

    [attempt i]: the i-th attempt, counted from zero, after its wait: none for the
    first, then 1, 2, 4, ... seconds, wrapping at 64 bits.  [failures n]: attempts 0
    to n-1 failed in a row, the context alive after each. *)
Section Attempts.
Context (read : State W (result (Telemetry * HASetpoints))).

Definition backoff (i : nat) : Z := to_int64 (Second * 2 ^ Z.of_nat (i - 1)).

Definition attempt (i : nat) (w : W) (r : result (Telemetry * HASetpoints)) (w' : W) : Prop :=
  ∃ w1, (if (0 <? i)%nat then Wait (backoff i) w = (None, w1) else w1 = w) ∧ read w1 = (r, w').

Inductive failures : nat → W → W → Prop :=
| failures_none w : failures 0 w w
| failures_more n w w1 w2 e : failures n w w1 → attempt n w1 (Err e) w2 → ctx_Err w2 = None →
    failures (S n) w w2.

Lemma backoff_next i : (0 < i)%nat → to_int64 (backoff i * 2) = backoff (S i).
Proof.
  intros Hi. unfold backoff. replace (S i - 1)%nat with (S (i - 1)) by lia.
  rewrite Nat2Z.inj_succ, Z.pow_succ_r by lia. rewrite (Z.mul_comm 2), Z.mul_assoc.
  by apply signed_mul_l.
Qed.

(** A relation every wait and every read respects holds over the whole loop. *)
Lemma read_attempts_inv (R : W → W → Prop) `{!PreOrder R} (Post : Telemetry * HASetpoints → W → Prop)
    tries again b e0 w r w' :
  (∀ d w c w', Wait d w = (c, w') → R w w') →
  (∀ w r w', read w = (r, w') → R w w' ∧ ∀ v, r = Ok v → Post v w') →
  read_attempts read tries again b e0 w = (r, w') → R w w' ∧ ∀ v, r = Ok v → Post v w'.
Proof.
  intros Hwait Hread. revert again b e0 w.
  induction tries as [|tries IH]; intros again b e0 w H; cbn [read_attempts] in H.
  { by injection H as <- <-. }
  apply state_bind_inv in H as (stop & w1 & E1 & H).
  assert (R w w1) as R1.
  { destruct again; [by eapply Hwait|]. unfold mret, state_ret in E1. by injection E1 as _ <-. }
  destruct stop as [e|]; [by injection H as <- <-|].
  apply state_bind_inv in H as (r1 & w2 & E2 & H). destruct (Hread _ _ _ E2) as [R2 P2].
  assert (R w w2) as R12 by (by transitivity w1).
  destruct r1 as [v|e]; [by injection H as <- <-|].
  apply state_bind_inv in H as (c & w3 & E3 & H). injection E3 as <- <-.
  destruct (ctx_Err w2); [by injection H as <- <-|].
  destruct (IH _ _ _ _ H) as [R3 P3]. split; [by transitivity w2|done].
Qed.

(** The loop, entered after [n] failures. *)
Lemma read_attempts_spec `{!ContextLaws W} tries n w0 w b e0 r w' :
  failures n w0 w → b = (if (0 <? n)%nat then backoff n else Second) →
  read_attempts read tries (0 <? n)%nat b e0 w = (r, w') →
  match r with
  | Ok v => ∃ i w1, (n ≤ i < n + tries)%nat ∧ failures i w0 w1 ∧ attempt i w1 (Ok v) w'
  | Err e => ctx_Err w' = Some e ∨
      (failures (n + tries) w0 w' ∧
       match tries with
       | O => e = e0
       | S t => ∃ w1, failures (n + t) w0 w1 ∧ attempt (n + t) w1 (Err e) w'
       end)
  end.
Proof.
  revert n w b e0. induction tries as [|tries IH]; intros n w b e0 Hf Hb H;
    cbn [read_attempts] in H.
  { injection H as <- <-. right. by rewrite Nat.add_0_r. }
  apply state_bind_inv in H as (stop & w1 & E1 & H). destruct stop as [e|].
  { injection H as <- <-. left. destruct (0 <? n)%nat; [by apply (wait_err b w)|].
    unfold mret, state_ret in E1. congruence. }
  apply state_bind_inv in H as (r1 & w2 & E2 & H).
  assert (Hat : attempt n w r1 w2).
  { exists w1. split; [|done]. subst b. destruct (0 <? n)%nat; [done|].
    unfold mret, state_ret in E1. congruence. }
  destruct r1 as [v|e].
  { injection H as <- <-. exists n, w. split; [lia|done]. }
  apply state_bind_inv in H as (c & w3 & E3 & H). injection E3 as <- <-.
  destruct (ctx_Err w2) as [ce|] eqn:Ec; [injection H as <- <-; by left|].
  pose proof (failures_more _ _ _ _ _ Hf Hat Ec) as Hf'.
  assert (Hb' : (if (0 <? n)%nat then to_int64 (b * 2) else b) =
    if (0 <? S n)%nat then backoff (S n) else Second).
  { subst b. destruct n as [|n]; [reflexivity|]. cbn [Nat.ltb Nat.leb]. apply backoff_next. lia. }
  destruct tries as [|t].
  { injection H as <- <-. right. rewrite Nat.add_1_r, Nat.add_0_r. split; [exact Hf'|]. by exists w. }
  apply (IH (S n) w2 _ e Hf' Hb') in H. rewrite !Nat.add_succ_r in *. cbn [plus] in *. destruct r as [v|e1].
  - destruct H as (i & w4 & Hi & H). exists i, w4. split; [lia|done].
  - destruct H as [H|[H1 H2]]; [by left|right]. split; [exact H1|exact H2].
Qed.

Lemma read_attempts_skip n w0 w k e0 : failures n w0 w → ∃ e,
  read_attempts read (n + k) false Second e0 w0 =
  read_attempts read k (0 <? n)%nat (if (0 <? n)%nat then backoff n else Second) e w.
Proof.
  intros Hf. revert k. induction Hf as [w|n w w1 w2 e Hf IH (w3 & H1 & H2) Hc]; intros k; [eauto|].
  destruct (IH (S k)) as [e1 E]. exists e. rewrite Nat.add_succ_comm, E. cbn [read_attempts].
  unfold mbind, state_bind.
  assert ((if (0 <? n)%nat then Wait (if (0 <? n)%nat then backoff n else Second) else mret None) w1
    = (None, w3)) as -> by (destruct (0 <? n)%nat; [done|by rewrite H1]).
  rewrite H2, Hc. f_equal. destruct n as [|n]; [reflexivity|]. cbn [Nat.ltb Nat.leb].
  apply backoff_next. lia.
Qed.

Lemma read_attempts_success n w0 w v w' k e0 : failures n w0 w → attempt n w (Ok v) w' →
  read_attempts read (n + S k) false Second e0 w0 = (Ok v, w').
Proof.
  intros Hf (w3 & H1 & H2). destruct (read_attempts_skip n w0 w (S k) e0 Hf) as [e ->].
  cbn [read_attempts]. unfold mbind, state_bind.
  assert ((if (0 <? n)%nat then Wait (if (0 <? n)%nat then backoff n else Second) else mret None) w
    = (None, w3)) as -> by (destruct (0 <? n)%nat; [done|by rewrite H1]).
  by rewrite H2.
Qed.
End Attempts.

(** ** Properties *)

(** C15: A poll's read.  It returns a reading exactly when one of the attempts
    0 to POLL_MAX_RETRIES succeeds after all the earlier ones failed with the
    context alive, the i-th retry coming 2^(i-1) seconds after its failure; and an
    error only when the context ended, or after POLL_MAX_RETRIES + 1 failures,
    being then that of the last attempt. *)
Theorem read_with_retry `{!ContextLaws W} (s : Scheduler) (w : W) :
  let M := Z.to_nat (MaxRetries (cfg s)) in
  (∀ v w', readWithRetry s w = (Ok v, w') ↔
     ∃ n w1, (n ≤ M)%nat ∧ failures (Read s) n w w1 ∧ attempt (Read s) n w1 (Ok v) w') ∧
  (∀ e w', readWithRetry s w = (Err e, w') → ctx_Err w' = Some e ∨
     (failures (Read s) (S M) w w' ∧
      ∃ w1, failures (Read s) M w w1 ∧ attempt (Read s) M w1 (Err e) w')).
Proof.
  cbv zeta. unfold readWithRetry. set (M := Z.to_nat (MaxRetries (cfg s))).
  pose proof (failures_none (Read s) w) as H0. split.
  - intros v w'. split.
    + intros H. apply (read_attempts_spec _ (S M) 0 w w) in H; [|done..].
      destruct H as (i & w1 & Hi & H). exists i, w1. split; [lia|done].
    + intros (n & w1 & Hn & Hf & Ha). replace (S M) with (n + S (M - n))%nat by lia.
      by apply (read_attempts_success _ n w w1).
  - intros e w' H. by apply (read_attempts_spec _ (S M) 0 w w) in H.
Qed.

(** The opt-in clock sync runs exactly when it is enabled and the inverter's
    clock is off by more than the threshold, in either direction. *)
Theorem rtc_sync_threshold (s : Scheduler) (sync : State W (bool * option error)) (tel : Telemetry) (w : W) :
  rtc s = Some sync → Z.abs (unixNano (TTime tel) - unixNano (Now w)) < 2 ^ 63 →
  maybeSyncRTC s tel w =
    (tt, if RTCSyncEnabled (cfg s) &&
            (RTCDriftThreshold (cfg s) <? Z.abs (unixNano (TTime tel) - unixNano (Now w)))
         then (sync w).2 else w).
Proof.
  intros Hs Hd. unfold maybeSyncRTC. rewrite Hs. destruct (RTCSyncEnabled (cfg s)); [|done].
  cbn [negb andb]. unfold mbind, state_bind, Drift. rewrite Sub_exact by int_solve.
  set (d := unixNano (TTime tel) - unixNano (Now w)) in *.
  assert (abs d = Z.abs d) as ->.
  { unfold abs. destruct (Z.ltb_spec d 0); [|lia]. unfold to_int64.
    rewrite signed_small; [lia|lia|]. change (2 ^ (64 - 1)) with (2 ^ 63). lia. }
  destruct (Z.leb_spec (Z.abs d) (RTCDriftThreshold (cfg s))), (Z.ltb_spec (RTCDriftThreshold (cfg s)) (Z.abs d));
    try lia; [done|]. by destruct (sync w).
Qed.
End Scheduler.
Arguments Scheduler : clear implicits.

(** ** A scripted reader *)

Record Script : Type := {
  replies : list (result (Telemetry * HASetpoints));
  waited : list Z;
  cancelled : option error;
  time : Time;
  remembered : Cache;
}.

#[export] Instance Script_context : Context_ Script := {
  ctx_Err := cancelled;
  Wait d w := (cancelled w, {| replies := replies w; waited := waited w ++ [d]; cancelled := cancelled w;
                               time := time w; remembered := remembered w |});
}.

#[export] Instance Script_context_laws : ContextLaws Script.
Proof. constructor. intros d w e w' [= H <-]. done. Qed.

#[export] Instance Script_clock : Clock_ Script := time.

#[export, refine] Instance Script_cache : HasCache Script := {
  cache := remembered;
  put_cache c w := {| replies := replies w; waited := waited w; cancelled := cancelled w;
                      time := time w; remembered := c |};
}.
Proof. done. Defined.

Definition scripted_read : State Script (result (Telemetry * HASetpoints)) := λ w,
  (default (Err (Errorf "script over")) (head (replies w)),
   {| replies := tail (replies w); waited := waited w; cancelled := cancelled w; time := time w;
      remembered := remembered w |}).

Definition scripted (retries : Z) (enabled : bool) : Scheduler Script :=
  New scripted_read (λ _ _, mret None) (mret tt) (mret tt)
    (Some (λ w, ((true, None), {| replies := []; waited := [7]; cancelled := None; time := time w;
                                  remembered := remembered w |}))) None None
    {| PollInterval := 60 * Second; MaxRetries := retries; RTCSyncEnabled := enabled;
       RTCDriftThreshold := 60 * Second |}.

Definition script (rs : list (result (Telemetry * HASetpoints))) : Script := {|
  replies := rs; waited := []; cancelled := None;
  time := {| unixNano := unixNano zeroTime + 61 * Second; GoTime.location := UTC |};
  remembered := {| CTel := zeroTelemetry; CSp := zeroHASetpoints; have := false |} |}.

(** Two failures, then a reading: it is returned after waits of one and two seconds. *)
Lemma read_with_retry_witness :
  let lost := Errorf "no reply" in
  let v := (zeroTelemetry, zeroHASetpoints) in
  let out := readWithRetry (scripted 3 false) (script [Err lost; Err lost; Ok v]) in
  out.1 = Ok v ∧ waited out.2 = [Second; 2 * Second] ∧
  ∃ n w1, (n ≤ 3)%nat ∧ failures (Read (scripted 3 false)) n (script [Err lost; Err lost; Ok v]) w1 ∧
    attempt (Read (scripted 3 false)) n w1 (Ok v) out.2.
Proof.
  intros lost v out. assert (out.1 = Ok v) as H by reflexivity. split; [done|].
  split; [reflexivity|].
  apply (read_with_retry (scripted 3 false) (script [Err lost; Err lost; Ok v])).
  rewrite <- H. unfold out. by destruct (readWithRetry _ _).
Defined.

(** A clock 61 seconds slow is synced at a threshold of 60. *)
Lemma rtc_sync_threshold_witness :
  ∃ sync, rtc (scripted 0 true) = Some sync ∧
    maybeSyncRTC (scripted 0 true) zeroTelemetry (script []) = (tt, (sync (script [])).2) ∧
    waited (sync (script [])).2 = [7].
Proof.
  eexists. split; [reflexivity|]. split; [|reflexivity].
  rewrite (rtc_sync_threshold (scripted 0 true) _ zeroTelemetry (script []) eq_refl); [reflexivity|].
  reflexivity.
Defined.
