(* ===== verification/GoHttp.v ===== *)
(** * HTTP and URLs (net/http, net/url)

    What a client hands to its transport and gets back.  Parsing a URL and the
    transport itself are outside the program: the first is a parameter, the second a
    class. *)

From S2P Require Import Prelude GoInt GoString Json.

(** [url.Parse]: the path the server will see, when the URL is accepted. *)
Class UrlParse : Type := url_Parse : string → result string.

(** [ReqDeadline] is that of the context the request is made under, if it has one, in
    nanoseconds. *)
Record Request : Type := {
  Method : string; URL : string; ReqBody : option Payload; Header : list (string * string);
  ReqDeadline : option Z;
}.

(** [Body] is what a JSON decoder makes of the body, [BodyErr] the error a read to
    its end meets. *)
Record Response : Type := {
  StatusCode : Z; StatusText : string; Body : Doc; BodyErr : option error;
}.

(** [Do] of the [http.Client] a handle names. *)
Class httpDoer (W : Type) : Type := Do : nat → Request → State W (result Response).

(** [http.NewRequestWithContext] with a constant method. *)
Definition NewRequest `{UrlParse} (deadline : option Z) (method url : string) (body : option Payload)
  : result Request :=
  _ ← url_Parse url;
  Ok {| Method := method; URL := url; ReqBody := body; Header := []; ReqDeadline := deadline |}.

(** [strings.TrimRight(s, "/")], for any one-byte cutset. *)
Fixpoint TrimRight (s : string) (c : Ascii.ascii) : string :=
  match s with
  | EmptyString => EmptyString
  | String d s' =>
      match TrimRight s' c with
      | EmptyString => if Ascii.eqb d c then EmptyString else String d EmptyString
      | t => String d t
      end
  end.

Fixpoint last_char (s : string) : option Ascii.ascii :=
  match s with
  | EmptyString => None
  | String d EmptyString => Some d
  | String _ s' => last_char s'
  end.

Lemma TrimRight_last s c : last_char (TrimRight s c) ≠ Some c.
Proof.
  induction s as [|d s IH]; [done|]. cbn.
  destruct (TrimRight s c) as [|e t] eqn:E; [|exact IH].
  destruct (Ascii.eqb_spec d c); cbn; congruence.
Qed.

(** A parser that knows the default sidecar's address only. *)
Definition demo_url : UrlParse := λ s,
  match strip_prefix "http://127.0.0.1:8081" s with
  | Some path => Ok path
  | None => Err (Errorf "parse error")
  end.
