(* ===== verification/SidecarClient.v ===== *)
(** * The sidecar client (internal/sidecarclient)

    The typed HTTP client the manager reaches the register bus through: requests,
    their answers, and the errors the answers are turned into. *)

From S2P Require Import Prelude GoInt GoString GoTime Json GoHttp Scheduler.

(** ** Wire bodies

    A struct with JSON tags is printed as its members in order, and read back field
    by field. *)

Record readRequest : Type := { rqAddr : Z; rqCount : Z }.
Record readResponse : Type := { rsAddr : Z; rsCount : Z; Regs : list Z }.
Record writeRequest : Type := { wqAddr : Z; wqValue : Z }.
Record writeResponse : Type := { wsAddr : Z; wsValue : Z; wsOK : bool }.
Record Health_ : Type := { HOK : bool; InverterReachable : bool; HMode : string }.
Record errorEnvelope : Type := { eCode : string; eMessage : string }.

Definition readRequest_json (r : readRequest) : list (string * json) :=
  [("addr", JInt (rqAddr r)); ("count", JInt (rqCount r))].
Definition writeRequest_json (r : writeRequest) : list (string * json) :=
  [("addr", JInt (wqAddr r)); ("value", JInt (wqValue r))].

Definition readResponse0 : readResponse := {| rsAddr := 0; rsCount := 0; Regs := [] |}.
Definition writeResponse0 : writeResponse := {| wsAddr := 0; wsValue := 0; wsOK := false |}.
Definition Health0 : Health_ := {| HOK := false; InverterReachable := false; HMode := "" |}.
Definition errorEnvelope0 : errorEnvelope := {| eCode := ""; eMessage := "" |}.

Definition readResponse_field (k : string) (v : json) (r : readResponse) : result readResponse :=
  if bool_decide (k = "addr") then
    n ← into_int (rsAddr r) v; Ok {| rsAddr := n; rsCount := rsCount r; Regs := Regs r |}
  else if bool_decide (k = "count") then
    n ← into_int (rsCount r) v; Ok {| rsAddr := rsAddr r; rsCount := n; Regs := Regs r |}
  else if bool_decide (k = "regs") then
    l ← into_uint16s (Regs r) v; Ok {| rsAddr := rsAddr r; rsCount := rsCount r; Regs := l |}
  else Ok r.

Definition writeResponse_field (k : string) (v : json) (r : writeResponse) : result writeResponse :=
  if bool_decide (k = "addr") then
    n ← into_int (wsAddr r) v; Ok {| wsAddr := n; wsValue := wsValue r; wsOK := wsOK r |}
  else if bool_decide (k = "value") then
    n ← into_uint16 (wsValue r) v; Ok {| wsAddr := wsAddr r; wsValue := n; wsOK := wsOK r |}
  else if bool_decide (k = "ok") then
    b ← into_bool (wsOK r) v; Ok {| wsAddr := wsAddr r; wsValue := wsValue r; wsOK := b |}
  else Ok r.

Definition Health_field (k : string) (v : json) (h : Health_) : result Health_ :=
  if bool_decide (k = "ok") then
    b ← into_bool (HOK h) v;
    Ok {| HOK := b; InverterReachable := InverterReachable h; HMode := HMode h |}
  else if bool_decide (k = "inverter_reachable") then
    b ← into_bool (InverterReachable h) v;
    Ok {| HOK := HOK h; InverterReachable := b; HMode := HMode h |}
  else if bool_decide (k = "mode") then
    s ← into_string (HMode h) v;
    Ok {| HOK := HOK h; InverterReachable := InverterReachable h; HMode := s |}
  else Ok h.

Definition errorEnvelope_inner (k : string) (v : json) (e : errorEnvelope) : result errorEnvelope :=
  if bool_decide (k = "code") then
    s ← into_string (eCode e) v; Ok {| eCode := s; eMessage := eMessage e |}
  else if bool_decide (k = "message") then
    s ← into_string (eMessage e) v; Ok {| eCode := eCode e; eMessage := s |}
  else Ok e.

Definition errorEnvelope_field (k : string) (v : json) (e : errorEnvelope) : result errorEnvelope :=
  if bool_decide (k = "error") then into_struct errorEnvelope_inner e v else Ok e.

(** ** Errors (errors.go) *)

Definition ErrBadRequest : error := Sentinel "sidecar: bad request".
Definition ErrTimeout : error := Sentinel "sidecar: timeout".
Definition ErrIllegalAddress : error := Sentinel "sidecar: illegal address".
Definition ErrFrame : error := Sentinel "sidecar: frame error".
Definition ErrConnection : error := Sentinel "sidecar: connection error".
Definition ErrNotFound : error := Sentinel "sidecar: not found".
Definition ErrInternal : error := Sentinel "sidecar: internal error".

Definition codeSentinels : gmap string error := list_to_map [
  ("bad_request", ErrBadRequest); ("timeout", ErrTimeout); ("illegal_address", ErrIllegalAddress);
  ("frame_error", ErrFrame); ("connection_error", ErrConnection); ("not_found", ErrNotFound);
  ("internal_error", ErrInternal)].

Definition sentinelForCode (code : string) : error :=
  match codeSentinels !! code with Some s => s | None => ErrInternal end.

Record SidecarError : Type := { Code : string; Message : string; Status : Z }.

Definition SidecarError_Error (e : SidecarError) : string :=
  "sidecar: " +:+ Message e +:+ " (code=" +:+ Code e +:+ ", http=" +:+ pretty (Status e) +:+ ")".
Definition SidecarError_Unwrap (e : SidecarError) : error := sentinelForCode (Code e).

(** A [*SidecarError] as an [error]. *)
Definition as_error (e : SidecarError) : error := Typed (SidecarError_Error e) (SidecarError_Unwrap e).

(** ** The client

    [http] names an [*http.Client]: options act on the client it points to, so the
    clients' timeouts are a store. *)
Record Client : Type := { baseURL : string; http : nat }.
Abbreviation Timeouts := (list Z).

Definition defaultTimeout : Z := 15 * Second.

Inductive Option_ : Type := WithHTTPClient (hc : option nat) | WithTimeout (d : Z).

Definition apply_option (o : Option_) (c : Client) (ts : Timeouts) : Client * Timeouts :=
  match o with
  | WithHTTPClient (Some hc) => ({| baseURL := baseURL c; http := hc |}, ts)
  | WithHTTPClient None => (c, ts)
  | WithTimeout d => (c, <[http c := d]> ts)
  end.

(** The new default client is the next cell of the store. *)
Definition New (url : string) (opts : list Option_) (ts : Timeouts) : Client * Timeouts :=
  foldl (λ '(c, ts) o, apply_option o c ts)
    ({| baseURL := TrimRight url (Ascii.ascii_of_nat 47); http := length ts |}, ts ++ [defaultTimeout])
    opts.

(** The two options together: [WithTimeout] after [WithHTTPClient] sets the timeout of
    the caller's own client, and before it that of the client it replaces. *)
Lemma timeout_retunes_shared url hc d ts : (hc < length ts)%nat →
  (New url [WithHTTPClient (Some hc); WithTimeout d] ts).2 !! hc = Some d ∧
  (New url [WithTimeout d; WithHTTPClient (Some hc)] ts).2 !! hc = ts !! hc.
Proof.
  intros H. cbn. split.
  - rewrite list_lookup_insert_eq; [done|]. rewrite length_app. lia.
  - rewrite list_lookup_insert_ne by lia. by rewrite lookup_app_l.
Qed.

Definition StatusOK : Z := 200.

(** A response to a request that was not accepted. *)
Definition parseError (resp : Response) : error :=
  match BodyErr resp with
  | Some e => Wrapf ("http " +:+ StatusText resp +:+ ": read error body") e
  | None =>
      match Unmarshal errorEnvelope_field errorEnvelope0 (Body resp) with
      | Ok env =>
          if negb (bool_decide (eCode env = "")) then
            as_error {| Code := eCode env; Message := eMessage env; Status := StatusCode resp |}
          else Errorf ("http " +:+ StatusText resp +:+ ": unexpected response body")
      | Err _ => Errorf ("http " +:+ StatusText resp +:+ ": unexpected response body")
      end
  end.

Section Client.
Context {W : Type} `{up : UrlParse} `{doer : httpDoer W} `{ctx : Context_ W}.

(** One request, under the run context or that of a message, neither of which has a
    deadline.  [out] is what the answer decodes into, nil when it is not wanted:
    the decoder of a field and the zero value. *)
Definition do {A} (c : Client) (method path : string) (reqBody : option (list (string * json)))
    (field : string → json → A → result A) (out : A) : State W (result A) :=
  match (match reqBody with
         | None => Ok None
         | Some b => p ← wrap_err "encode request" (Marshal b); Ok (Some p)
         end) with
  | Err e => mret (Err e)
  | Ok body =>
      match wrap_err "build request" (NewRequest None method (baseURL c +:+ path) body) with
      | Err e => mret (Err e)
      | Ok req =>
          let req := match reqBody with
                     | None => req
                     | Some _ => {| Method := Method req; URL := URL req; ReqBody := ReqBody req;
                                    Header := [("Content-Type", "application/json")];
                                    ReqDeadline := ReqDeadline req |}
                     end in
          r ← Do (http c) req;
          match r with
          | Err e => mret (Err (Wrapf ("http " +:+ method +:+ " " +:+ path) e))
          | Ok resp =>
              if (StatusCode resp <? 200) || (300 <=? StatusCode resp) then mret (Err (parseError resp))
              else mret (wrap_err "decode response" (Decode field out (Body resp)))
          end
      end
  end.

(** [addr+count-1] in an error text: an int. *)
Definition span_text (what : string) (addr count : Z) : string :=
  what +:+ " " +:+ pretty addr +:+ ".." +:+ pretty (to_int64 (addr + count - 1)).

Definition read (c : Client) (path : string) (addr count : Z) : State W (result (list Z)) :=
  r ← do c "POST" path (Some (readRequest_json {| rqAddr := addr; rqCount := count |}))
        readResponse_field readResponse0;
  mret (resp ← r; Ok (Regs resp)).

Definition ReadInput (c : Client) (addr count : Z) : State W (result (list Z)) :=
  r ← read c "/read_input" addr count; mret (wrap_err (span_text "read_input" addr count) r).

Definition ReadHolding (c : Client) (addr count : Z) : State W (result (list Z)) :=
  r ← read c "/read_holding" addr count; mret (wrap_err (span_text "read_holding" addr count) r).

Definition write_text (addr value : Z) : string :=
  "write_holding " +:+ pretty addr +:+ "=" +:+ pretty value.

Definition WriteHolding (c : Client) (addr value : Z) : State W (result unit) :=
  r ← do c "POST" "/write_holding" (Some (writeRequest_json {| wqAddr := addr; wqValue := value |}))
        writeResponse_field writeResponse0;
  mret (match r with
        | Err e => Err (Wrapf (write_text addr value) e)
        | Ok resp =>
            if negb (wsOK resp) then Err (Errorf (write_text addr value +:+ ": sidecar reported ok=false"))
            else Ok tt
        end).

Definition Health (c : Client) : State W (result Health_) :=
  r ← do c "GET" "/health" None Health_field Health0; mret (wrap_err "health" r).

(** ** The startup wait *)

(** [deadline] is the context's. *)
Definition probeServing (deadline : option Z) (c : Client) : State W (option error) :=
  match wrap_err "build request" (NewRequest deadline "GET" (baseURL c +:+ "/health") None) with
  | Err e => mret (Some e)
  | Ok req =>
      r ← Do (http c) req;
      match r with
      | Err e => mret (Some (Wrapf "http GET /health" e))
      | Ok resp => if negb (StatusCode resp =? StatusOK) then mret (Some (parseError resp)) else mret None
      end
  end.

(** The loop runs until it is answered or the context ends: [None] when [fuel]
    probes do not settle it. *)
Fixpoint WaitUntilServing (fuel : nat) (deadline : option Z) (c : Client) (every : Z)
  : State W (option (option error)) :=
  match fuel with
  | O => mret None
  | S fuel =>
      lastErr ← probeServing deadline c;
      match lastErr with
      | None => mret (Some None)
      | Some e =>
          stop ← Wait every;
          match stop with
          | Some ce => mret (Some (Some (Wrapf2 "wait for sidecar" ce ": last error: " e)))
          | None => WaitUntilServing fuel deadline c every
          end
      end
  end.
End Client.

(** ** How a call ends *)

Definition refused (resp : Response) : bool := (StatusCode resp <? 200) || (300 <=? StatusCode resp).

Definition sentinel_names : list string :=
  ["sidecar: bad request"; "sidecar: timeout"; "sidecar: illegal address"; "sidecar: frame error";
   "sidecar: connection error"; "sidecar: not found"; "sidecar: internal error"].

(** The class an answer belongs to: none unless it is refused with an envelope. *)
Definition class_of (resp : Response) : option error :=
  if refused resp then
    match BodyErr resp with
    | Some _ => None
    | None =>
        match Unmarshal errorEnvelope_field errorEnvelope0 (Body resp) with
        | Ok env => if bool_decide (eCode env = "") then None else Some (sentinelForCode (eCode env))
        | Err _ => None
        end
    end
  else None.

(** An error that is none of the client's classes. *)
Definition foreign (e : error) : Prop := ∀ s, s ∈ sentinel_names → errors_Is e s = false.

Lemma sentinel_named code : ∃ n, sentinelForCode code = Sentinel n ∧ n ∈ sentinel_names.
Proof.
  unfold sentinelForCode. destruct (codeSentinels !! code) as [e|] eqn:E.
  - apply elem_of_list_to_map_2 in E. rewrite !elem_of_cons, elem_of_nil in E.
    destruct_or! E; try done; injection E as -> ->; eexists; (split; [reflexivity|]);
      by apply (bool_decide_unpack _).
  - eexists. split; [reflexivity|]. by apply (bool_decide_unpack _).
Qed.

Lemma foreign_Errorf m : foreign (Errorf m).
Proof. done. Qed.
Lemma foreign_Wrapf m e : foreign e → foreign (Wrapf m e).
Proof. done. Qed.
#[export] Hint Resolve foreign_Errorf foreign_Wrapf : go.

(** Type errors are the decoder's own. *)
Definition field_foreign {A} (field : string → json → A → result A) : Prop :=
  ∀ k v a e, field k v a = Err e → foreign e.

Lemma into_struct_foreign {A} (field : string → json → A → result A) out v e :
  field_foreign field → into_struct field out v = Err e → foreign e.
Proof.
  intros Hf. destruct v as [| | | | | |fields]; cbn; try (by intros [= <-]).
  assert (∀ acc, (∀ e, acc = Err e → foreign e) →
    ∀ e, foldl (λ acc '(k, v), a ← acc; field (fold_name k) v a) acc fields = Err e → foreign e) as H.
  { induction fields as [|[k v] fields IH]; intros acc Hacc; [done|]. apply IH.
    intros e0 [H0|(a & _ & H0)]%bind_Err_inv; [by apply Hacc|by eapply Hf]. }
  by apply H.
Qed.

Lemma Decode_foreign {A} (field : string → json → A → result A) out d e :
  field_foreign field → (∀ e, d = Err e → foreign e) → Decode field out d = Err e → foreign e.
Proof.
  intros Hf Hd [H|(v & _ & H)]%bind_Err_inv; [by apply Hd|]. by eapply into_struct_foreign.
Qed.

Lemma into_each_foreign {A} (into : json → result A) l e :
  (∀ j e, into j = Err e → foreign e) → into_each into l = Err e → foreign e.
Proof.
  intros Hi. revert e. induction l as [|j l IH]; intros e H; cbn in H; [done|].
  apply bind_Err_inv in H as [H|(x & _ & H)]; [by eapply Hi|].
  apply bind_Err_inv in H as [H|(xs & _ & H)]; [by apply IH|done].
Qed.

Lemma into_uint16_foreign cur j e : into_uint16 cur j = Err e → foreign e.
Proof. destruct j; cbn; try case_decide; try done; by intros [= <-]. Qed.

(** Runs through a decoder of fields. *)
Ltac field_foreign :=
  intros k v a e; cbv beta delta [readResponse_field writeResponse_field Health_field];
  repeat case_bool_decide; try done;
  intros [Eq|(x & _ & Eq)]%bind_Err_inv; try done; revert Eq;
  try apply into_uint16_foreign;
  destruct v; cbn; try case_decide; try done; try (by intros [= <-]);
  apply into_each_foreign, into_uint16_foreign.

Lemma readResponse_foreign : field_foreign readResponse_field.
Proof. field_foreign. Qed.
Lemma writeResponse_foreign : field_foreign writeResponse_field.
Proof. field_foreign. Qed.
Lemma Health_foreign : field_foreign Health_field.
Proof. field_foreign. Qed.

Section Calls.
Context {W : Type} `{up : UrlParse} `{doer : httpDoer W} `{ctx : Context_ W}.

(** What a call sends. *)
Definition request (c : Client) (method path : string) (body : option (list (string * json))) : Request := {|
  Method := method; URL := baseURL c +:+ path; ReqBody := PStruct <$> body;
  Header := match body with Some _ => [("Content-Type", "application/json")] | None => [] end;
  ReqDeadline := None |}.

Definition read_request (c : Client) (path : string) (addr count : Z) : Request :=
  request c "POST" path (Some (readRequest_json {| rqAddr := addr; rqCount := count |})).
Definition write_request (c : Client) (addr value : Z) : Request :=
  request c "POST" "/write_holding" (Some (writeRequest_json {| wqAddr := addr; wqValue := value |})).
Definition health_request (c : Client) : Request := request c "GET" "/health" None.

Definition sends (c : Client) (req : Request) (w : W) (r : result Response) (w' : W) : Prop :=
  (∃ p, url_Parse (URL req) = Ok p) ∧ Do (http c) req w = (r, w').

(** A request body of numbers is always printed. *)
Definition plain (body : option (list (string * json))) : Prop :=
  ∀ b, body = Some b → existsb (λ '(_, j), bad_number j) b = false.

Lemma do_run {A} c method path body (field : string → json → A → result A) out w :
  plain body →
  let req := request c method path body in
  do c method path body field out w =
  match url_Parse (URL req) with
  | Err e => (Err (Wrapf "build request" e), w)
  | Ok _ =>
      let '(r, w') := Do (http c) req w in
      (match r with
       | Err e => Err (Wrapf ("http " +:+ method +:+ " " +:+ path) e)
       | Ok resp => if refused resp then Err (parseError resp)
                    else wrap_err "decode response" (Decode field out (Body resp))
       end, w')
  end.
Proof.
  intros Hp. cbv zeta. unfold do, NewRequest, request, refused.
  assert ((match body with
           | None => Ok None
           | Some b => p ← wrap_err "encode request" (Marshal b); Ok (Some p)
           end) = Ok (PStruct <$> body)) as ->.
  { destruct body as [b|]; [|done]. unfold Marshal. by rewrite (Hp b eq_refl). }
  cbn [URL]. destruct (url_Parse (baseURL c +:+ path)) as [p|e]; [|done]. cbn.
  destruct body; cbn; unfold mbind, state_bind;
    destruct (Do _ _ w) as [[resp|e] w']; try done; by case_match.
Qed.

Lemma read_plain addr count : plain (Some (readRequest_json {| rqAddr := addr; rqCount := count |})).
Proof. by intros b [= <-]. Qed.
Lemma write_plain addr value : plain (Some (writeRequest_json {| wqAddr := addr; wqValue := value |})).
Proof. by intros b [= <-]. Qed.
Lemma none_plain : plain None.
Proof. by intros b. Qed.

(** The errors of the outside are none of the client's. *)
Class ForeignErrors : Prop := {
  foreign_url url e : url_Parse url = Err e → foreign e;
  foreign_do h req w e w' : Do h req w = (Err e, w') → foreign e;
  foreign_body h req w resp w' e : Do h req w = (Ok resp, w') → BodyErr resp = Some e → foreign e;
  foreign_doc h req w resp w' e : Do h req w = (Ok resp, w') → Body resp = Err e → foreign e;
}.

Lemma parseError_class resp s : refused resp = true → (∀ e, BodyErr resp = Some e → foreign e) →
  s ∈ sentinel_names → errors_Is (parseError resp) s = true ↔ class_of resp = Some (Sentinel s).
Proof.
  intros Hr Hb Hs. unfold parseError, class_of. rewrite Hr.
  destruct (BodyErr resp) as [e|]; [cbn; rewrite Hb by done; naive_solver|].
  destruct (Unmarshal _ _ _) as [env|e]; [|cbn; naive_solver].
  case_bool_decide; cbn [negb]; [cbn; naive_solver|].
  cbn [as_error errors_Is SidecarError_Unwrap Code]. unfold as_error, SidecarError_Unwrap. cbn [errors_Is Code].
  destruct (sentinel_named (eCode env)) as (n & -> & _). cbn. rewrite bool_decide_eq_true. naive_solver.
Qed.

(** The class of a failed request. *)
Lemma do_class `{fe : !ForeignErrors} {A} c method path body (field : string → json → A → result A) out w e w' s :
  plain body → field_foreign field → s ∈ sentinel_names →
  do c method path body field out w = (Err e, w') →
  errors_Is e s = true ↔
    ∃ resp, sends c (request c method path body) w (Ok resp) w' ∧ class_of resp = Some (Sentinel s).
Proof.
  intros Hp Hf Hs. rewrite do_run by done. cbv zeta. unfold sends.
  destruct (url_Parse _) as [p|eu] eqn:Eu.
  2:{ intros [= <- <-]. cbn. rewrite (foreign_url _ _ Eu s Hs). naive_solver. }
  destruct (Do (http c) _ w) as [[resp|ed] w1] eqn:Ed.
  2:{ intros [= <- <-]. cbn. rewrite (foreign_do _ _ _ _ _ Ed s Hs). naive_solver. }
  destruct (refused resp) eqn:Er; intros H.
  - injection H as <- <-. rewrite (parseError_class resp s Er (λ e Hb, foreign_body _ _ _ _ _ e Ed Hb) Hs). naive_solver.
  - injection H as H <-. apply wrap_err_Err in H as (e1 & H & ->). cbn [errors_Is].
    rewrite (Decode_foreign _ _ _ _ Hf (λ e He, foreign_doc _ _ _ _ _ e Ed He) H s Hs).
    unfold class_of. split; [done|]. intros (resp' & [_ [= <-]] & Hc). by rewrite Er in Hc.
Qed.

(** A failed call, with the request it sent. *)
Inductive failed (c : Client) (w : W) : Request → error → W → Prop :=
| failed_input a n e w' : ReadInput c a n w = (Err e, w') →
    failed c w (read_request c "/read_input" a n) e w'
| failed_holding a n e w' : ReadHolding c a n w = (Err e, w') →
    failed c w (read_request c "/read_holding" a n) e w'
| failed_write a v e w' : WriteHolding c a v w = (Err e, w') → failed c w (write_request c a v) e w'
| failed_health e w' : Health c w = (Err e, w') → failed c w (health_request c) e w'.

Lemma read_class `{fe : !ForeignErrors} c path a n ctx_text w e w' s : s ∈ sentinel_names →
  (r ← read c path a n; mret (wrap_err ctx_text r)) w = (Err e, w') →
  errors_Is e s = true ↔
    ∃ resp, sends c (read_request c path a n) w (Ok resp) w' ∧ class_of resp = Some (Sentinel s).
Proof.
  intros Hs H. apply state_bind_inv in H as (r & w1 & E & H).
  unfold read in E. apply state_bind_inv in E as (r0 & w2 & E & E').
  unfold mret, state_ret in H, E'. injection E' as <- <-. injection H as H <-.
  apply wrap_err_Err in H as (e0 & H & ->). cbn [errors_Is].
  apply bind_Err_inv in H as [->|(resp & _ & H)]; [|done].
  by eapply (do_class c "POST" path _ readResponse_field); [apply read_plain|apply readResponse_foreign| |].
Qed.

(** C19: How failures are told apart.  When a call fails, [errors.Is] holds between its
    error and one of the package's sentinels exactly when the sidecar answered the
    call's one request with a status outside 200-299 and a well-formed envelope with
    a code, the sentinel being that of the code; unknown codes count as internal.  No
    other failure (a request that cannot be built or delivered, a body cut short, an
    answer that does not decode, ok=false) is any of the classes. *)
Theorem errors_classified `{fe : !ForeignErrors} (c : Client) (w : W) req e w' s :
  s ∈ sentinel_names → failed c w req e w' →
  errors_Is e s = true ↔ ∃ resp, sends c req w (Ok resp) w' ∧ class_of resp = Some (Sentinel s).
Proof.
  intros Hs [a n e0 w0 H|a n e0 w0 H|a v e0 w0 H|e0 w0 H].
  - by eapply read_class.
  - by eapply read_class.
  - unfold WriteHolding in H. apply state_bind_inv in H as (r & w1 & E & H).
    unfold mret, state_ret in H. injection H as H <-. destruct r as [resp|e1].
    + destruct (wsOK resp); cbn in H; [done|]. injection H as <-. cbn [errors_Is].
      split; [done|]. intros (resp' & [[p Hu] Hd] & Hc).
      rewrite do_run in E by apply write_plain. cbv zeta in E. unfold write_request in *.
      rewrite Hu, Hd in E. unfold class_of in Hc. by destruct (refused resp').
    + injection H as <-. cbn [errors_Is].
      by eapply do_class; [apply write_plain|apply writeResponse_foreign| |].
  - unfold Health in H. apply state_bind_inv in H as (r & w1 & E & H).
    unfold mret, state_ret in H. injection H as H <-. apply wrap_err_Err in H as (e1 & -> & ->).
    cbn [errors_Is]. by eapply do_class; [apply none_plain|apply Health_foreign| |].
Qed.
End Calls.

(** ** The startup wait, characterised *)

Section Waiting.
Context {W : Type} `{up : UrlParse} `{doer : httpDoer W}.

(** [n] probes failed in a row, each followed by a full interval. *)
Inductive probing `{ctx : Context_ W} (dl : option Z) (c : Client) (every : Z) : nat → W → W → Prop :=
| probing_none w : probing dl c every 0 w w
| probing_more n w w1 w2 w3 e : probeServing dl c w = (Some e, w1) → Wait every w1 = (None, w2) →
    probing dl c every n w2 w3 → probing dl c every (S n) w w3.

(** The request of a probe. *)
Definition probe_request (dl : option Z) (c : Client) : Request := {|
  Method := "GET"; URL := baseURL c +:+ "/health"; ReqBody := None; Header := []; ReqDeadline := dl |}.

(** Any 200 is an answer, whatever its body. *)
Lemma probe_serving dl c w w' : probeServing dl c w = (None, w') ↔
  ∃ resp, sends c (probe_request dl c) w (Ok resp) w' ∧ StatusCode resp = 200.
Proof.
  unfold probeServing, sends, probe_request, NewRequest, StatusOK; cbn [URL fmap option_fmap option_map].
  destruct (url_Parse _) as [p|e]; cbn; [|naive_solver]. unfold mbind, state_bind.
  destruct (Do _ _ w) as [[resp|e] w1]; unfold mret, state_ret; [|naive_solver].
  destruct (Z.eqb_spec (StatusCode resp) 200); cbn; naive_solver.
Qed.

(** What the loop answers when it answers. *)
Lemma WaitUntilServing_inv `{ctx : Context_ W} fuel dl c every w r w' :
  WaitUntilServing fuel dl c every w = (Some r, w') → ∃ n w1, (n < fuel)%nat ∧ probing dl c every n w w1 ∧
  match r with
  | None => probeServing dl c w1 = (None, w')
  | Some e => ∃ pe ce w2, probeServing dl c w1 = (Some pe, w2) ∧ Wait every w2 = (Some ce, w') ∧
      e = Wrapf2 "wait for sidecar" ce ": last error: " pe
  end.
Proof.
  revert w. induction fuel as [|fuel IH]; intros w H; [done|]. cbn [WaitUntilServing] in H.
  apply state_bind_inv in H as ([e|] & w1 & E1 & H).
  2:{ injection H as <- <-. exists 0%nat, w. split; [lia|]. split; [constructor|done]. }
  apply state_bind_inv in H as ([ce|] & w2 & E2 & H).
  - injection H as <- <-. exists 0%nat, w. split; [lia|]. split; [constructor|]. by exists e, ce, w1.
  - destruct (IH w2 H) as (n & w3 & Hn & Hp & Hr). exists (S n), w3. split; [lia|].
    split; [by econstructor|done].
Qed.

(** [context.WithTimeout]: the parent, or the deadline if it comes first.  With the
    timer and the deadline due at the same instant the timer wins. *)
Definition DeadlineExceeded : error := Sentinel "context deadline exceeded".

Definition WithDeadline `{ctx : Context_ W} `{clk : Clock_ W} (dl : Z) : Context_ W := {|
  ctx_Err w := match ctx_Err w with
               | Some e => Some e
               | None => if dl <=? unixNano (Now w) then Some DeadlineExceeded else None
               end;
  Wait d w := let left := dl - unixNano (Now w) in
              if left <=? 0 then (Some DeadlineExceeded, w)
              else if left <? d then
                let '(r, w') := Wait left w in
                (match r with Some e => Some e | None => Some DeadlineExceeded end, w')
              else Wait d w |}.

(** Time passes: a wait lasts as long as it should, and no call turns the clock back. *)
Class TimePasses `{ctx : Context_ W} `{clk : Clock_ W} : Prop := {
  wait_time d w w' : Wait d w = (None, w') → unixNano (Now w) + d ≤ unixNano (Now w');
  do_time h req w r w' : Do h req w = (r, w') → unixNano (Now w) ≤ unixNano (Now w');
}.

(** The outside is prompt, up to [slack]: a wait lasts no longer than it should, and a
    request returns when its context's deadline passes, answered or not. *)
Class Prompt `{ctx : Context_ W} `{clk : Clock_ W} (slack : Z) : Prop := {
  slack_nonneg : 0 ≤ slack;
  wait_prompt d w r w' : 0 ≤ d → Wait d w = (r, w') → unixNano (Now w') ≤ unixNano (Now w) + d + slack;
  do_prompt h req dl w r w' : ReqDeadline req = Some dl → Do h req w = (r, w') →
    unixNano (Now w') ≤ Z.max (unixNano (Now w)) dl + slack;
}.

Section Bounded.
Context `{ctx : Context_ W} `{clk : Clock_ W} `{tp : !TimePasses}.

Lemma probe_time dl c w r w' : probeServing dl c w = (r, w') → unixNano (Now w) ≤ unixNano (Now w').
Proof.
  unfold probeServing. destruct (wrap_err _ _) as [req|e]; [|by intros [= _ <-]].
  intros H. apply state_bind_inv in H as (a & w1 & E & H). apply do_time in E.
  destruct a as [resp|e]; [destruct (negb _)|]; by injection H as _ <-.
Qed.

(** One probe more than the intervals left before the deadline settles the wait. *)
Lemma wait_settles fuel c every dl rdl w : 0 < every → dl - unixNano (Now w) < Z.of_nat fuel * every →
  ∃ r w', WaitUntilServing (ctx := WithDeadline dl) (S fuel) rdl c every w = (Some r, w').
Proof.
  intros He. revert w. induction fuel as [|fuel IH]; intros w Hd;
    cbn [WaitUntilServing]; unfold mbind, state_bind, mret, state_ret;
    destruct (probeServing rdl c w) as [[e|] w1] eqn:E1; [|by eauto| |by eauto];
    apply probe_time in E1; cbn [Wait WithDeadline].
  - rewrite (proj2 (Z.leb_le _ _)) by lia. eauto.
  - destruct (Z.leb_spec (dl - unixNano (Now w1)) 0); [by eauto|].
    destruct (Z.ltb_spec (dl - unixNano (Now w1)) every).
    { destruct (Wait _ w1) as [[ce|] w2]; eauto. }
    destruct (Wait every w1) as [[ce|] w2] eqn:E2; [by eauto|]. apply IH.
    apply wait_time in E2. lia.
Qed.

Context {slack : Z} `{pr : !Prompt slack}.

Lemma probe_prompt dl c w r w' : probeServing (Some dl) c w = (r, w') →
  unixNano (Now w') ≤ Z.max (unixNano (Now w)) dl + slack.
Proof.
  pose proof slack_nonneg as Hs.
  unfold probeServing. destruct (wrap_err _ _) as [req|e] eqn:Er; [|intros [= _ <-]; lia].
  intros H. apply state_bind_inv in H as (a & w1 & E & H). apply wrap_err_Ok in Er.
  unfold NewRequest in Er. apply bind_Ok_inv in Er as (p & _ & [= <-]).
  apply (do_prompt _ _ dl) in E; [|done]. destruct a as [resp|e]; [destruct (negb _)|]; by injection H as _ <-.
Qed.

(** A probe may overrun the deadline by the slack, and so may the wait after it; there is
    no probe after that. *)
Lemma wait_ends fuel c every dl w r w' : 0 < every → unixNano (Now w) ≤ dl + slack →
  WaitUntilServing (ctx := WithDeadline dl) fuel (Some dl) c every w = (r, w') →
  unixNano (Now w') ≤ dl + 2 * slack.
Proof.
  pose proof slack_nonneg as Hs. intros He. revert w. induction fuel as [|fuel IH]; intros w Hd H;
    cbn [WaitUntilServing] in H; [injection H as _ <-; lia|].
  apply state_bind_inv in H as (le & w1 & E1 & H). apply probe_prompt in E1.
  destruct le as [e|]; [|injection H as _ <-; lia].
  apply state_bind_inv in H as (stop & w2 & E2 & H). cbn [Wait WithDeadline] in E2.
  assert (unixNano (Now w2) ≤ dl + 2 * slack ∧ (stop = None → unixNano (Now w2) ≤ dl + slack)) as [H2 H3].
  { destruct (Z.leb_spec (dl - unixNano (Now w1)) 0); [injection E2 as <- <-; split; [lia|done]|].
    destruct (Z.ltb_spec (dl - unixNano (Now w1)) every).
    - destruct (Wait _ w1) as [x w3] eqn:E3. injection E2 as <- <-. apply wait_prompt in E3; [lia|lia].
    - apply wait_prompt in E2; lia. }
  destruct stop as [ce|]; [injection H as _ <-; exact H2|]. apply (IH w2); [by apply H3|exact H].
Qed.
End Bounded.

(** ** waitForSidecar (cmd/serve.go)

    What it logs is left out; [None] when [fuel] probes do not settle it. *)
Definition sidecarProbeInterval : Z := 500 * Millisecond.

Definition waitForSidecar `{ctx : Context_ W} `{clk : Clock_ W} (fuel : nat) (c : Client) (timeout : Z)
  : State W (option unit) := λ w,
  if timeout <=? 0 then (Some tt, w)
  else let dl := unixNano (Now w) + timeout in
       let '(r, w') := WaitUntilServing (ctx := WithDeadline dl) fuel (Some dl) c sidecarProbeInterval w in
       ((λ _, tt) <$> r, w').

(** The wait in all its outcomes. *)
Lemma waitForSidecar_outcome `{ctx : Context_ W} `{clk : Clock_ W} `{tp : !TimePasses} (c : Client) (timeout : Z) (w : W) :
  let dl := unixNano (Now w) + timeout in
  ∃ w', waitForSidecar (Z.to_nat (timeout / sidecarProbeInterval) + 2) c timeout w = (Some tt, w') ∧
    (timeout ≤ 0 ∧ w' = w ∨ ∃ fuel r, 0 < timeout ∧
      WaitUntilServing (ctx := WithDeadline dl) fuel (Some dl) c sidecarProbeInterval w = (Some r, w')).
Proof.
  cbv zeta. unfold waitForSidecar. destruct (Z.leb_spec timeout 0) as [Ht|Ht]; [eauto|].
  set (dl := unixNano (Now w) + timeout). rewrite Nat.add_comm.
  destruct (wait_settles (S (Z.to_nat (timeout / sidecarProbeInterval))) c sidecarProbeInterval dl (Some dl) w)
    as (r & w' & E); [done| |].
  { unfold sidecarProbeInterval, Millisecond, dl. rewrite Nat2Z.inj_succ, Z2Nat.id;
      Z.div_mod_to_equations; lia. }
  cbn [plus]. rewrite E. exists w'. split; [done|]. right. eauto.
Qed.

Lemma waitForSidecar_total `{ctx : Context_ W} `{clk : Clock_ W} `{tp : !TimePasses} (c : Client) (timeout : Z) (w : W) :
  ∃ w', waitForSidecar (Z.to_nat (timeout / sidecarProbeInterval) + 2) c timeout w = (Some tt, w').
Proof. destruct (waitForSidecar_outcome c timeout w) as (w' & E & _). eauto. Qed.

(** C33: Startup always goes on, in time.  The wait for the sidecar ends, whatever the
    sidecar does, hanging included: within one probe per half second of
    SIDECAR_STARTUP_TIMEOUT plus two, and no later than the timeout plus twice what a
    request or a timer may overrun, because every probe carries the deadline; with no
    timeout there is no wait.  When it has waited at all it ends because a probe of
    /health was answered 200, whatever the body, or because the context ended or the
    deadline passed. *)
Theorem startup_wait_bounded `{ctx : Context_ W} `{clk : Clock_ W} `{tp : !TimePasses} `{cl : !ContextLaws W}
    {slack : Z} `{pr : !Prompt slack} (c : Client) (timeout : Z) (w : W) :
  let dl := unixNano (Now w) + timeout in
  ∃ w', waitForSidecar (Z.to_nat (timeout / sidecarProbeInterval) + 2) c timeout w = (Some tt, w') ∧
    (timeout ≤ 0 ∧ w' = w ∨
     (0 < timeout ∧ unixNano (Now w') ≤ dl + 2 * slack ∧
      ((∃ w1 resp, sends c (probe_request (Some dl) c) w1 (Ok resp) w' ∧ StatusCode resp = 200) ∨
       (∃ e, ctx_Err w' = Some e) ∨ dl ≤ unixNano (Now w')))).
Proof.
  cbv zeta. destruct (waitForSidecar_outcome c timeout w) as (w' & E & H). exists w'. split; [exact E|].
  destruct H as [H|(fuel & r & Ht & H)]; [by left|right]. split; [exact Ht|].
  set (dl := unixNano (Now w) + timeout) in *. split.
  { eapply wait_ends; [|..|exact H]; [done|]. pose proof slack_nonneg. unfold dl. lia. }
  apply WaitUntilServing_inv in H as (n & w1 & _ & _ & Hr). destruct r as [e|].
  - destruct Hr as (pe & ce & w2 & _ & Hw & _). right. cbn [Wait WithDeadline] in Hw.
    destruct (Z.leb_spec (dl - unixNano (Now w2)) 0); [right; injection Hw as _ <-; lia|].
    destruct (Z.ltb_spec (dl - unixNano (Now w2)) sidecarProbeInterval).
    + destruct (Wait _ w2) as [[e1|] w3] eqn:Ew; injection Hw as _ <-.
      * left. apply wait_err in Ew. by exists e1.
      * right. apply wait_time in Ew. lia.
    + left. apply wait_err in Hw. by exists ce.
  - left. apply probe_serving in Hr as (resp & Hs & H2). by exists w1, resp.
Qed.
End Waiting.

(** ** A sidecar that comes up after a while

    Until then the connection is refused or, if it hangs, accepted and never answered: a
    request then lasts until its deadline or the client's own timeout. *)

Record Boot : Type := { boot_clock : Z; up_at : Z; hangs : bool }.

Definition set_boot_clock (t : Z) (b : Boot) : Boot := {| boot_clock := t; up_at := up_at b; hangs := hangs b |}.

Definition demo_client : Client := (New "http://127.0.0.1:8081/" [] []).1.

#[export] Instance Boot_doer : httpDoer Boot := λ _ req b,
  if up_at b <=? boot_clock b then
    (Ok {| StatusCode := 200; StatusText := "200 OK"; Body := Err (Errorf "EOF"); BodyErr := None |}, b)
  else if hangs b then
    let own := boot_clock b + 15 * Second in
    (Err (Errorf "context deadline exceeded"),
     set_boot_clock (match ReqDeadline req with Some dl => Z.max (boot_clock b) (Z.min dl own) | None => own end) b)
  else (Err (Errorf "connection refused"), b).
#[export] Instance Boot_context : Context_ Boot := {
  ctx_Err _ := None;
  Wait d b := (None, set_boot_clock (boot_clock b + d) b);
}.
#[export] Instance Boot_clock : Clock_ Boot := λ b, {| unixNano := boot_clock b; GoTime.location := UTC |}.

#[export] Instance Boot_time : TimePasses (W := Boot).
Proof.
  split; [by intros d w w' [= <-]|]. intros h req w r w'. unfold Do, Boot_doer.
  destruct (_ <=? _); [by intros [= _ <-]|]. destruct (hangs w); intros [= _ <-]; [|done].
  unfold Now, Boot_clock; cbn. change Second with 1000000000. destruct (ReqDeadline req); lia.
Qed.
#[export] Instance Boot_laws : ContextLaws Boot.
Proof. by split. Qed.
#[export] Instance Boot_prompt : Prompt (W := Boot) 0.
Proof.
  split; [done| |].
  - intros d w r w' Hd [= _ <-]. unfold Now, Boot_clock; cbn. lia.
  - intros h req dl w r w' Hdl. unfold Do, Boot_doer. rewrite Hdl.
    destruct (_ <=? _); [intros [= _ <-]; lia|]. destruct (hangs w); intros [= _ <-]; [|lia].
    unfold Now, Boot_clock; cbn. lia.
Qed.

(** Two seconds late, with the default timeout; and hanging for good, where the second
    probe is cut off by the deadline. *)
Lemma startup_wait_bounded_witness :
  (∃ w', waitForSidecar (up := demo_url) 62 demo_client (30 * Second)
     {| boot_clock := 0; up_at := 2 * Second; hangs := false |} = (Some tt, w') ∧ boot_clock w' = 2 * Second) ∧
  (∃ w', waitForSidecar (up := demo_url) 62 demo_client (30 * Second)
     {| boot_clock := 0; up_at := 3600 * Second; hangs := true |} = (Some tt, w') ∧ boot_clock w' = 30 * Second).
Proof.
  split.
  - destruct (startup_wait_bounded (up := demo_url) demo_client (30 * Second)
      {| boot_clock := 0; up_at := 2 * Second; hangs := false |}) as (w' & E & _).
    exists w'. split; [exact E|]. vm_compute in E. injection E as <-. reflexivity.
  - destruct (startup_wait_bounded (up := demo_url) demo_client (30 * Second)
      {| boot_clock := 0; up_at := 3600 * Second; hangs := true |}) as (w' & E & _).
    exists w'. split; [exact E|]. vm_compute in E. injection E as <-. reflexivity.
Defined.
