(* ===== verification/SidecarServer.v ===== *)
(** * The sidecar's HTTP server (src/sidecar, Python)

    The other end of the client's requests: routing, validation, the error envelope
    and the two transports.  The Solarman library under the live transport is outside
    the program, so it is a class.  Requests are handled one at a time, which is what
    the transport's lock lets through. *)

From S2P Require Import Prelude GoInt GoString Json GoHttp.

(** ** Exceptions (errors.py) *)

Inductive error_class : Type :=
| SidecarError | BadRequestError | RequestTimeoutError | IllegalAddressError | FrameError
| TransportConnectionError | NotFoundError.

Definition class_code (c : error_class) : string :=
  match c with
  | SidecarError => "internal_error"
  | BadRequestError => "bad_request"
  | RequestTimeoutError => "timeout"
  | IllegalAddressError => "illegal_address"
  | FrameError => "frame_error"
  | TransportConnectionError => "connection_error"
  | NotFoundError => "not_found"
  end.

Definition class_status (c : error_class) : Z :=
  match c with
  | SidecarError => 500
  | BadRequestError => 400
  | RequestTimeoutError => 504
  | IllegalAddressError | FrameError => 502
  | TransportConnectionError => 503
  | NotFoundError => 404
  end.

(** What a Python call ends with: a value, an error of the taxonomy, or any other
    exception. *)
Inductive attempt (A : Type) : Type :=
| Returns (a : A)
| Raise (c : error_class) (message : string)
| Unhandled (message : string).
Arguments Returns {A} _.
Arguments Raise {A} _ _.
Arguments Unhandled {A} _.

#[export] Instance attempt_ret : MRet attempt := @Returns.
#[export] Instance attempt_bind : MBind attempt := λ A B f m,
  match m with Returns a => f a | Raise c s => Raise c s | Unhandled s => Unhandled s end.

(** ** The transport interface *)

Class Transport (D : Type) : Type := {
  read_input : Z → Z → State D (attempt (list Z));
  read_holding : Z → Z → State D (attempt (list Z));
  write_holding : Z → Z → State D (attempt Z);
  health : State D bool;
}.

(** ** HTTP front end (http_api.py) *)

Definition _MAX_COUNT : Z := 125.
Definition _U16_MAX : Z := 65535.

(** A dict made of an object: the last of the members of one name. *)
Fixpoint dict_get (body : list (string * json)) (key : string) : option json :=
  match body with
  | [] => None
  | (k, v) :: body =>
      match dict_get body key with
      | Some v' => Some v'
      | None => if bool_decide (k = key) then Some v else None
      end
  end.

Definition repr (s : string) : string := "'" +:+ s +:+ "'".

Definition _require_int (body : list (string * json)) (key : string) (lo hi : Z) : attempt Z :=
  match dict_get body key with
  | None => Raise BadRequestError ("missing field: " +:+ repr key)
  | Some (JInt value) =>
      if (value <? lo) || (hi <? value) then
        Raise BadRequestError (repr key +:+ " must be in " +:+ pretty lo +:+ ".." +:+ pretty hi
                               +:+ ", got " +:+ pretty value)
      else Returns value
  | Some _ => Raise BadRequestError (repr key +:+ " must be an integer")
  end.

(** A missing or empty body reads as an empty object. *)
Definition _read_body (req : Request) : attempt (list (string * json)) :=
  match ReqBody req with
  | None => Returns []
  | Some p =>
      match decoded p with
      | Err _ | Ok (_, true) => Raise BadRequestError "invalid JSON body"
      | Ok (JObj fields, false) => Returns fields
      | Ok (_, false) => Raise BadRequestError "request body must be a JSON object"
      end
  end.

Definition reason (status : Z) : string :=
  if status =? 200 then "OK" else if status =? 400 then "Bad Request"
  else if status =? 404 then "Not Found" else if status =? 500 then "Internal Server Error"
  else if status =? 502 then "Bad Gateway" else if status =? 503 then "Service Unavailable"
  else "Gateway Timeout".

Definition _send_json (status : Z) (payload : list (string * json)) : Response := {|
  StatusCode := status; StatusText := pretty status +:+ " " +:+ reason status;
  Body := Ok (JObj payload, false); BodyErr := None |}.

Definition _send_error (c : error_class) (message : string) : Response :=
  _send_json (class_status c)
    [("error", JObj [("code", JStr (class_code c)); ("message", JStr message)])].

(** The two [except] clauses around every route. *)
Definition answer (a : attempt Response) : Response :=
  match a with
  | Returns r => r
  | Raise c m => _send_error c m
  | Unhandled m => _send_error SidecarError m
  end.

Section Server.
Context {D : Type} `{tr : Transport D} (mode : string).

Definition _handle_health : State D (attempt Response) :=
  b ← health;
  mret (Returns (_send_json 200
    [("ok", JBool true); ("inverter_reachable", JBool b); ("mode", JStr mode)])).

Definition _handle_read (read_fn : Z → Z → State D (attempt (list Z))) (req : Request)
  : State D (attempt Response) :=
  match (body ← _read_body req; addr ← _require_int body "addr" 0 _U16_MAX;
         count ← _require_int body "count" 1 _MAX_COUNT; Returns (addr, count)) with
  | Returns (addr, count) =>
      r ← read_fn addr count;
      mret (regs ← r;
            Returns (_send_json 200
              [("addr", JInt addr); ("count", JInt count); ("regs", JArr (JInt <$> regs))]))
  | Raise c m => mret (Raise c m)
  | Unhandled m => mret (Unhandled m)
  end.

Definition _handle_write (req : Request) : State D (attempt Response) :=
  match (body ← _read_body req; addr ← _require_int body "addr" 0 _U16_MAX;
         value ← _require_int body "value" 0 _U16_MAX; Returns (addr, value)) with
  | Returns (addr, value) =>
      r ← write_holding addr value;
      mret (_ ← r;
            Returns (_send_json 200 [("addr", JInt addr); ("value", JInt value); ("ok", JBool true)]))
  | Raise c m => mret (Raise c m)
  | Unhandled m => mret (Unhandled m)
  end.

Definition do_GET (path : string) : State D Response :=
  r ← (if bool_decide (path = "/health") then _handle_health
       else mret (Raise NotFoundError ("unknown route: GET " +:+ path)));
  mret (answer r).

Definition do_POST (path : string) (req : Request) : State D Response :=
  r ← (if bool_decide (path = "/read_input") then _handle_read read_input req
       else if bool_decide (path = "/read_holding") then _handle_read read_holding req
       else if bool_decide (path = "/write_holding") then _handle_write req
       else mret (Raise NotFoundError ("unknown route: POST " +:+ path)));
  mret (answer r).

(** The client knows two methods; to any other the base class answers 501. *)
Definition serve (path : string) (req : Request) : State D Response :=
  if bool_decide (Method req = "GET") then do_GET path
  else if bool_decide (Method req = "POST") then do_POST path req
  else mret {| StatusCode := 501; StatusText := "501 Unsupported method";
               Body := Err (Errorf "invalid character"); BodyErr := None |}.
End Server.

(** ** The mock transport (mock.py) *)

Record MockTransport : Type := { _regs : gmap Z Z }.

(** The words of the fixtures, in order: a later one wins. *)
Definition MockTransport_init (fixtures : list (list (Z * Z))) : MockTransport :=
  {| _regs := foldl (λ m '(addr, value), <[addr := Z.land value 65535]> m) ∅ (concat fixtures) |}.

Definition mock_get (m : MockTransport) (a : Z) : Z := default 0 (_regs m !! a).

Definition _read (addr count : Z) : State MockTransport (attempt (list Z)) := λ m,
  (Returns ((λ i, mock_get m (addr + i)) <$> seqZ 0 count), m).

#[export] Instance Mock : Transport MockTransport := {
  read_input := _read;
  read_holding := _read;
  write_holding addr value m :=
    (Returns value, {| _regs := <[addr := Z.land value 65535]> (_regs m) |});
  health m := (true, m);
}.

(** ** The live transport (transport.py) *)

(** The exceptions the library and the socket raise; any other is [OtherExc]. *)
Inductive exception : Type :=
| SocketTimeout (m : string) | QueueEmpty (m : string) | V5FrameError (m : string)
| StructError (m : string) | ModbusError (m : string) | NoSocketAvailable (m : string)
| OSError (m : string) | OtherExc (m : string).

Class PySolarmanV5 (S : Type) : Type := {
  connect : State S (option exception);
  read_input_registers : Z → Z → State S (exception + list Z);
  read_holding_registers : Z → Z → State S (exception + list Z);
  write_holding_register : Z → Z → State S (exception + Z);
  sock_close : State S unit;
}.

Record LiveTransport (S : Type) : Type := { wire : S; _solarman : bool }.
Arguments wire {S} _.
Arguments _solarman {S} _.

Section Live.
Context {S : Type} `{lib : PySolarmanV5 S}.

Definition on_wire {A} (m : State S A) : State (LiveTransport S) A := λ t,
  let '(a, s) := m (wire t) in (a, {| wire := s; _solarman := _solarman t |}).

Definition _HEALTH_PROBE_ADDR : Z := 33022.

(** [socket.timeout] is an [OSError] too; the order of the clauses decides. *)
Definition connect_error (e : exception) : attempt unit :=
  match e with
  | NoSocketAvailable m | OSError m | SocketTimeout m => Raise TransportConnectionError m
  | QueueEmpty m | V5FrameError m | StructError m | ModbusError m | OtherExc m => Unhandled m
  end.

Definition _connect_if_needed : State (LiveTransport S) (attempt unit) := λ t,
  if _solarman t then (Returns tt, t)
  else let '(r, t) := on_wire connect t in
       match r with
       | Some e => (connect_error e, t)
       | None => (Returns tt, {| wire := wire t; _solarman := true |})
       end.

Definition _disconnect : State (LiveTransport S) unit := λ t,
  if _solarman t then
    let '(_, s) := sock_close (wire t) in (tt, {| wire := s; _solarman := false |})
  else (tt, t).

(** The [except] clauses, in order; any other exception passes through. *)
Definition failure_class (e : exception) : option (error_class * string) :=
  match e with
  | SocketTimeout m | QueueEmpty m =>
      Some (RequestTimeoutError, if bool_decide (m = "") then "no reply within socket timeout" else m)
  | V5FrameError m | StructError m => Some (FrameError, m)
  | ModbusError m => Some (IllegalAddressError, m)
  | NoSocketAvailable m | OSError m => Some (TransportConnectionError, m)
  | OtherExc _ => None
  end.

Definition exception_text (e : exception) : string :=
  match e with
  | SocketTimeout m | QueueEmpty m | V5FrameError m | StructError m | ModbusError m
  | NoSocketAvailable m | OSError m | OtherExc m => m
  end.

Definition _call {A} (fn : State S (exception + A)) : State (LiveTransport S) (attempt A) :=
  c ← _connect_if_needed;
  match c with
  | Raise k m => mret (Raise k m)
  | Unhandled m => mret (Unhandled m)
  | Returns _ =>
      r ← on_wire fn;
      match r with
      | inr a => mret (Returns a)
      | inl e =>
          match failure_class e with
          | Some (k, m) => _ ← _disconnect; mret (Raise k m)
          | None => mret (Unhandled (exception_text e))
          end
      end
  end.

#[export] Instance Live : Transport (LiveTransport S) := {
  read_input addr count := _call (read_input_registers addr count);
  read_holding addr count := _call (read_holding_registers addr count);
  write_holding addr value := _call (write_holding_register addr value);
  health := r ← _call (read_input_registers _HEALTH_PROBE_ADDR 1);
            mret (match r with Returns _ => true | _ => false end);
}.
End Live.
