(* ===== verification/SidecarWire.v ===== *)
(** * The bus over the sidecar

    The Go client, an HTTP connection that loses messages, and the Python server put
    together: what the rest of the development assumes of the register bus, proved of
    this stack over any transport that keeps its own laws.  For the live transport, over
    the Solarman library with its calls recorded, also when a socket is closed. *)

From S2P Require Import Prelude GoInt GoString GoTime Json GoHttp Block Registers TimedSlots.
From S2P Require Import Sidecar Scheduler SidecarClient SidecarServer.

(** ** What a transport keeps

    [tbank] is the holding bank behind it, [tlanded] the writes that took effect.  A
    read leaves both; the words it returns, if they are words, are the bank's.  A write
    takes effect or not, whatever it answers. *)
Class TransportLaws (D : Type) `{Transport D} : Type := {
  tbank : D → mem;
  tlanded : D → list Register;
  tbank_words d a : is_uint16 (tbank d a);
  t_read_holding a n d r d' : read_holding a n d = (r, d') →
    (∀ b, tbank d' b = tbank d b) ∧ tlanded d' = tlanded d ∧
    ∀ l, r = Returns l → Forall is_uint16 l → l `prefix_of` bank_words (tbank d) a (Z.to_nat n);
  t_read_input a n d r d' : read_input a n d = (r, d') →
    (∀ b, tbank d' b = tbank d b) ∧ tlanded d' = tlanded d;
  t_health d r d' : health d = (r, d') → (∀ b, tbank d' b = tbank d b) ∧ tlanded d' = tlanded d;
  t_write a v d r d' : is_uint16 v → write_holding a v d = (r, d') →
    ((∀ b, tbank d' b = tbank d b) ∧ tlanded d' = tlanded d) ∨
    ((∀ b, tbank d' b = write_reg (tbank d) {| Addr := a; Value := v |} b) ∧
     tlanded d' = tlanded d ++ [ {| Addr := a; Value := v |} ]);
}.

(** ** The connection

    Each request is delivered and answered, or lost on the way there, or its answer is
    lost on the way back.  [requests] are the write requests the client sent. *)
Inductive delivery : Type := Delivered | RequestLost | AnswerLost.

Record Wire (D : Type) : Type := { server : D; plan : list delivery; requests : list Register }.
Arguments server {D} _.
Arguments plan {D} _.
Arguments requests {D} _.

Definition next_delivery (l : list delivery) : delivery * list delivery :=
  match l with [] => (Delivered, []) | f :: l => (f, l) end.

Definition written (req : Request) : list Register :=
  match bool_decide (Method req = "POST"), ReqBody req with
  | true, Some (PStruct [("addr", JInt a); ("value", JInt v)]) => [ {| Addr := a; Value := v |} ]
  | _, _ => []
  end.

Definition no_answer : error := Errorf "EOF".

#[export] Instance Wire_doer {D} `{up : UrlParse} `{tr : Transport D} (mode : string) : httpDoer (Wire D) :=
  λ _ req w,
  let '(f, fs) := next_delivery (plan w) in
  let served :=
    match url_Parse (URL req) with
    | Ok path => let '(resp, d) := serve mode path req (server w) in (Ok resp, d)
    | Err e => (Err e, server w)
    end in
  let '(r, d) := match f with
                 | Delivered => served
                 | AnswerLost => (Err no_answer, served.2)
                 | RequestLost => (Err no_answer, server w)
                 end in
  (r, {| server := d; plan := fs; requests := requests w ++ written req |}).

(** ** Words on the wire *)

Lemma into_words l l' : into_each (into_uint16 0) (JInt <$> l) = Ok l' → l' = l ∧ Forall is_uint16 l.
Proof.
  revert l'. induction l as [|n l IH]; intros l' H; cbn in H; [by injection H as <-|].
  apply bind_Ok_inv in H as (x & Hx & H). apply bind_Ok_inv in H as (xs & Hl & H).
  injection H as <-. case_decide; [|done]. injection Hx as <-.
  destruct (IH xs Hl) as [-> Hf]. split; [done|by constructor].
Qed.

Lemma into_words_ok l : Forall is_uint16 l → into_each (into_uint16 0) (JInt <$> l) = Ok l.
Proof.
  induction 1 as [|n l Hn _ IH]; [done|]. cbn. rewrite decide_True by done. cbn in IH |- *.
  by rewrite IH.
Qed.

(** The client's reading of an answer to a read. *)
Definition read_answer (a n : Z) (l : list Z) : Response :=
  _send_json 200 [("addr", JInt a); ("count", JInt n); ("regs", JArr (JInt <$> l))].

Lemma decode_read a n l : is_int64 a → is_int64 n →
  Decode readResponse_field readResponse0 (Body (read_answer a n l)) =
  (x ← into_each (into_uint16 0) (JInt <$> l); Ok {| rsAddr := a; rsCount := n; Regs := x |}).
Proof.
  intros Ha Hn. unfold Decode. cbn. unfold readResponse_field at 3; cbn. rewrite (decide_True (P := is_int64 a)) by done.
  cbn. unfold readResponse_field at 2; cbn. rewrite decide_True by done. cbn.
  unfold readResponse_field; cbn. done.
Qed.

(** ** The calls over the wire *)

Section Calls.
Context {D : Type} `{up : UrlParse} `{tr : Transport D} (mode : string) (c : Client).
#[local] Instance doer : httpDoer (Wire D) := Wire_doer mode.

(** The base URL carries no path of its own. *)
Definition sidecar_url : Prop := ∀ p,
  p ∈ ["/read_input"; "/read_holding"; "/write_holding"; "/health"] → url_Parse (baseURL c +:+ p) = Ok p.

(** What an answered call gets to see of the transport's outcome. *)
Definition in_range (a n : Z) : Prop := 0 ≤ a ≤ _U16_MAX ∧ 1 ≤ n ≤ _MAX_COUNT.

#[export] Instance in_range_dec a n : Decision (in_range a n).
Proof. unfold in_range. apply _. Defined.

Inductive read_route : string → (Z → Z → State D (attempt (list Z))) → Prop :=
| route_input : read_route "/read_input" read_input
| route_holding : read_route "/read_holding" read_holding.

Lemma send_error_refused k m : refused (_send_error k m) = true.
Proof. by destruct k. Qed.

Lemma require_two a b k1 k2 lo1 hi1 lo2 hi2 : k1 ≠ k2 →
  let body := [(k1, JInt a); (k2, JInt b)] in
  (lo1 ≤ a ≤ hi1 ∧ lo2 ≤ b ≤ hi2 ∧
   (x ← _require_int body k1 lo1 hi1; y ← _require_int body k2 lo2 hi2; Returns (x, y)) = Returns (a, b)) ∨
  (¬ (lo1 ≤ a ≤ hi1 ∧ lo2 ≤ b ≤ hi2) ∧ ∃ m,
   (x ← _require_int body k1 lo1 hi1; y ← _require_int body k2 lo2 hi2; Returns (x, y)) = Raise BadRequestError m).
Proof.
  intros Hk. cbv zeta. unfold _require_int. cbn [dict_get].
  rewrite (bool_decide_eq_false_2 (k2 = k1)) by congruence. rewrite !bool_decide_eq_true_2 by done.
  destruct (Z.ltb_spec a lo1); [right; split; [lia|by eexists]|].
  destruct (Z.ltb_spec hi1 a); [right; split; [lia|by eexists]|]. cbn.
  destruct (Z.ltb_spec b lo2); [right; split; [lia|by eexists]|].
  destruct (Z.ltb_spec hi2 b); [right; split; [lia|by eexists]|]. left. auto with lia.
Qed.

Lemma serve_read path fn a n d : read_route path fn →
  (in_range a n ∧ serve mode path (read_request c path a n) d =
     let '(r, d') := fn a n d in (answer (l ← r; Returns (read_answer a n l)), d')) ∨
  (¬ in_range a n ∧ ∃ k m, serve mode path (read_request c path a n) d = (_send_error k m, d)).
Proof.
  intros Hr. assert (serve mode path (read_request c path a n) d =
    (r ← _handle_read fn (read_request c path a n); mret (answer r)) d) as -> by by destruct Hr.
  unfold _handle_read.
  change (_read_body (read_request c path a n)) with (Returns [("addr", JInt a); ("count", JInt n)]).
  destruct (require_two a n "addr" "count" 0 _U16_MAX 1 _MAX_COUNT) as [(Ha & Hn & E)|(Hn & m & E)];
    [done|left|right]; cbv zeta in E; cbn [mbind attempt_bind] in E |- *; rewrite E.
  - split; [done|]. unfold mbind, state_bind, mret, state_ret. by destruct (fn a n d).
  - split; [done|]. by eexists _, _.
Qed.

Lemma serve_write a v d :
  (0 ≤ a ≤ _U16_MAX ∧ 0 ≤ v ≤ _U16_MAX ∧ serve mode "/write_holding" (write_request c a v) d =
     let '(r, d') := write_holding a v d in
     (answer (_ ← r; Returns (_send_json 200 [("addr", JInt a); ("value", JInt v); ("ok", JBool true)])), d')) ∨
  (¬ (0 ≤ a ≤ _U16_MAX ∧ 0 ≤ v ≤ _U16_MAX) ∧ ∃ k m,
     serve mode "/write_holding" (write_request c a v) d = (_send_error k m, d)).
Proof.
  assert (serve mode "/write_holding" (write_request c a v) d =
    (r ← _handle_write (write_request c a v); mret (answer r)) d) as -> by done.
  unfold _handle_write.
  change (_read_body (write_request c a v)) with (Returns [("addr", JInt a); ("value", JInt v)]).
  destruct (require_two a v "addr" "value" 0 _U16_MAX 0 _U16_MAX) as [(Ha & Hn & E)|(Hn & m & E)];
    [done|left|right]; cbv zeta in E; cbn [mbind attempt_bind] in E |- *; rewrite E.
  - split; [done|]. split; [done|]. unfold mbind, state_bind, mret, state_ret.
    by destruct (write_holding a v d).
  - split; [done|]. by eexists _, _.
Qed.

Lemma Do_wire h req path w r w' : url_Parse (URL req) = Ok path → Do h req w = (r, w') →
  let '(resp, d) := serve mode path req (server w) in
  requests w' = requests w ++ written req ∧
  (r = Ok resp ∧ server w' = d ∨ r = Err no_answer ∧ (server w' = server w ∨ server w' = d)).
Proof.
  intros Hu. unfold Do, doer, Wire_doer. rewrite Hu. destruct (next_delivery (plan w)) as [f fs].
  destruct (serve mode path req (server w)) as [resp d].
  destruct f; intros [= <- <-]; cbn; auto.
Qed.

(** From here on nothing gets lost. *)
Definition prompt (w : Wire D) : Prop := Forall (eq Delivered) (plan w).

Lemma Do_delivered h req path w : url_Parse (URL req) = Ok path → prompt w →
  Do h req w = let '(resp, d) := serve mode path req (server w) in
    (Ok resp, {| server := d; plan := tail (plan w); requests := requests w ++ written req |}).
Proof.
  unfold prompt. intros Hu Hp. unfold Do, doer, Wire_doer. rewrite Hu.
  destruct Hp as [|f fs <- Hp]; cbn; by destruct (serve mode path req (server w)).
Qed.

Lemma in_range_int64 a n : in_range a n → is_int64 a ∧ is_int64 n.
Proof. unfold in_range, _U16_MAX, _MAX_COUNT. int_unfold. lia. Qed.

(** The two reads of the client, by their routes. *)
Definition client_read (path : string) (a n : Z) : State (Wire D) (result (list Z)) :=
  r ← read c path a n; mret (wrap_err (span_text (str_drop 1 path) a n) r).

Lemma client_read_run path fn a n w r w' : sidecar_url → read_route path fn →
  client_read path a n w = (r, w') →
  requests w' = requests w ∧
  (server w' = server w ∨ (fn a n (server w)).2 = server w') ∧
  ∀ l, r = Ok l → in_range a n ∧ Forall is_uint16 l ∧ fn a n (server w) = (Returns l, server w').
Proof.
  intros Hu Hr H. assert (Hp : url_Parse (baseURL c +:+ path) = Ok path).
  { apply Hu. destruct Hr; by apply (bool_decide_unpack _). }
  unfold client_read, read in H. apply state_bind_inv in H as (r1 & w1 & E & H).
  apply state_bind_inv in E as (r2 & w2 & E & E1). unfold mret, state_ret in H, E1.
  injection E1 as <- <-. injection H as <- <-.
  rewrite do_run in E by apply read_plain. cbv zeta in E. cbn [URL request] in E. rewrite Hp in E.
  fold (read_request c path a n) in E.
  destruct (Do (http c) (read_request c path a n) w) as [ra wa] eqn:Ed.
  apply (Do_wire _ _ path) in Ed; [|done].
  destruct (serve_read path fn a n (server w) Hr) as [(Hin & Es)|(Hin & k & m & Es)]; rewrite Es in Ed.
  - destruct (fn a n (server w)) as [x d] eqn:Ef. cbn [snd] in *. destruct Ed as (Hq & Hd).
    rewrite app_nil_r in Hq. injection E as <- <-. split; [done|].
    destruct Hd as [(-> & ->)|(-> & Hs)]; [|split; [naive_solver|done]]. split; [by right|].
    intros l Hl. apply wrap_err_Ok, bind_Ok_inv in Hl as (resp & E & Hl). injection Hl as <-.
    destruct x as [l|k m|m]; cbn [answer mbind attempt_bind] in E;
      [|by rewrite send_error_refused in E..].
    change (refused (read_answer a n l)) with false in E. cbv iota in E. apply wrap_err_Ok in E.
    destruct (in_range_int64 a n Hin) as [Ha Hn]. rewrite decode_read in E by done.
    apply bind_Ok_inv in E as (l' & Hl & E). apply into_words in Hl as [-> Hf]. injection E as <-. done.
  - destruct Ed as (Hq & Hd). rewrite app_nil_r in Hq. injection E as <- <-. split; [done|].
    split; [left; naive_solver|]. intros l Hl. apply wrap_err_Ok, bind_Ok_inv in Hl as (resp & E & Hl).
    destruct Hd as [(-> & _)|(-> & _)]; [|done]. by rewrite send_error_refused in E.
Qed.

Lemma client_read_delivered path fn a n w l d : sidecar_url → read_route path fn → prompt w →
  in_range a n → fn a n (server w) = (Returns l, d) → Forall is_uint16 l →
  client_read path a n w = (Ok l, {| server := d; plan := tail (plan w); requests := requests w |}).
Proof.
  intros Hu Hr Hw Hin Hf Hl. assert (Hp : url_Parse (baseURL c +:+ path) = Ok path).
  { apply Hu. destruct Hr; by apply (bool_decide_unpack _). }
  unfold client_read, read, mbind, state_bind. rewrite do_run by apply read_plain. cbv zeta.
  cbn [URL request]. rewrite Hp. fold (read_request c path a n).
  rewrite (Do_delivered _ _ path) by done.
  destruct (serve_read path fn a n (server w) Hr) as [(_ & Es)|(Hn & _)]; [|done].
  rewrite Es, Hf. cbn [answer mbind attempt_bind].
  change (refused (read_answer a n l)) with false. cbv iota.
  destruct (in_range_int64 a n Hin) as [Ha Hn]. rewrite decode_read, into_words_ok by done.
  unfold mret, state_ret. cbn. by rewrite app_nil_r.
Qed.

Lemma decode_write a v : is_int64 a → is_uint16 v →
  Decode writeResponse_field writeResponse0
    (Ok (JObj [("addr", JInt a); ("value", JInt v); ("ok", JBool true)], false)) =
  Ok {| wsAddr := a; wsValue := v; wsOK := true |}.
Proof.
  intros Ha Hv. unfold Decode. cbn. unfold writeResponse_field at 3; cbn.
  rewrite (decide_True (P := is_int64 a)) by done. cbn.
  unfold writeResponse_field at 2; cbn. rewrite (decide_True (P := is_uint16 v)) by done. cbn.
  by unfold writeResponse_field; cbn.
Qed.

Lemma client_write_run a v w r w' : sidecar_url → WriteHolding c a v w = (r, w') →
  requests w' = requests w ++ [ {| Addr := a; Value := v |} ] ∧
  (server w' = server w ∧ is_Ok r = false ∨
   (write_holding a v (server w)).2 = server w' ∧
   (r = Ok tt → ∃ x, (write_holding a v (server w)).1 = Returns x)).
Proof.
  intros Hu H. assert (Hp : url_Parse (baseURL c +:+ "/write_holding") = Ok "/write_holding").
  { apply Hu. by apply (bool_decide_unpack _). }
  unfold WriteHolding in H. apply state_bind_inv in H as (r1 & w1 & E & H).
  unfold mret, state_ret in H. injection H as Hr <-.
  rewrite do_run in E by apply write_plain. cbv zeta in E. cbn [URL request] in E. rewrite Hp in E.
  fold (write_request c a v) in E.
  destruct (Do (http c) (write_request c a v) w) as [ra wa] eqn:Ed.
  apply (Do_wire _ _ "/write_holding") in Ed; [|done].
  destruct (serve_write a v (server w)) as [(Ha & Hv & Es)|(Hn & k & m & Es)]; rewrite Es in Ed.
  - destruct (write_holding a v (server w)) as [x d] eqn:Ef. cbn [fst snd] in *. destruct Ed as (Hq & Hd).
    injection E as E <-. split; [done|]. destruct Hd as [(-> & ->)|(-> & Hs)]; [right|].
    + split; [done|]. intros ->. destruct x as [x|k m|m]; [by eexists|..];
        cbn [answer mbind attempt_bind] in E; rewrite send_error_refused in E; by subst r1.
    + subst r1 r. destruct Hs as [-> | ->]; [by left|by right].
  - destruct Ed as (Hq & Hd). injection E as E <-. split; [done|].
    destruct Hd as [(-> & ->)|(-> & Hs)]; [|subst r1 r; left; naive_solver].
    rewrite send_error_refused in E. subst r1 r. by left.
Qed.

Lemma client_write_delivered a v w x d : sidecar_url → prompt w → is_uint16 a → is_uint16 v →
  write_holding a v (server w) = (Returns x, d) →
  WriteHolding c a v w =
    (Ok tt, {| server := d; plan := tail (plan w); requests := requests w ++ [ {| Addr := a; Value := v |} ] |}).
Proof.
  intros Hu Hw Ha Hv Hf. assert (Hp : url_Parse (baseURL c +:+ "/write_holding") = Ok "/write_holding").
  { apply Hu. by apply (bool_decide_unpack _). }
  unfold WriteHolding, mbind, state_bind. rewrite do_run by apply write_plain. cbv zeta.
  cbn [URL request]. rewrite Hp. fold (write_request c a v).
  rewrite (Do_delivered _ _ "/write_holding") by done.
  destruct (serve_write a v (server w)) as [(_ & _ & Es)|(Hn & _)];
    [|exfalso; apply Hn; unfold _U16_MAX; int_unfold; lia].
  rewrite Es, Hf. cbn [answer mbind attempt_bind].
  set (resp := _send_json _ _). change (refused resp) with false. cbv iota. unfold resp.
  change (Body (_send_json 200 ?l)) with (Ok (JObj l, false) : Doc).
  rewrite decode_write by (done || (int_unfold; lia)). done.
Qed.
End Calls.

(** ** The laws of the bus *)

Section Bus.
Context {D : Type} `{up : UrlParse} `{tr : Transport D} `{tl : !TransportLaws D} (mode : string) (c : Client).
#[local] Instance bus_doer : httpDoer (Wire D) := Wire_doer mode.

(** Nothing happened to the inverter between two states of the stack. *)
Definition untouched (w w' : Wire D) : Prop :=
  (∀ b, tbank (server w') b = tbank (server w) b) ∧ tlanded (server w') = tlanded (server w).

Lemma untouched_server w w' : server w' = server w → untouched w w'.
Proof. unfold untouched. by intros ->. Qed.

Lemma holding_laws a n w r w' : sidecar_url c → SidecarClient.ReadHolding c a n w = (r, w') →
  untouched w w' ∧ requests w' = requests w ∧
  ∀ l, r = Ok l → in_range a n ∧ Forall is_uint16 l ∧
    l `prefix_of` bank_words (tbank (server w)) a (Z.to_nat n).
Proof.
  intros Hu H. change (SidecarClient.ReadHolding c a n) with (client_read mode c "/read_holding" a n) in H.
  apply (client_read_run mode c _ read_holding) in H as (Hq & Hs & Hl); [|done|constructor].
  split; [|split; [done|]].
  - destruct Hs as [Hs|Hs]; [by apply untouched_server|].
    destruct (read_holding a n (server w)) as [x d] eqn:E. cbn in Hs. subst d.
    apply t_read_holding in E as (H1 & H2 & _). done.
  - intros l Hr. destruct (Hl l Hr) as (Hin & Hf & E). split; [exact Hin|]. split; [exact Hf|].
    apply t_read_holding in E as (_ & _ & E). by apply E.
Qed.

Lemma input_laws a n w r w' : sidecar_url c → SidecarClient.ReadInput c a n w = (r, w') →
  untouched w w' ∧ requests w' = requests w ∧ ∀ l, r = Ok l → in_range a n ∧ Forall is_uint16 l.
Proof.
  intros Hu H. change (SidecarClient.ReadInput c a n) with (client_read mode c "/read_input" a n) in H.
  apply (client_read_run mode c _ read_input) in H as (Hq & Hs & Hl); [|done|constructor].
  split; [|split; [exact Hq|intros l Hr; by destruct (Hl l Hr) as (? & ? & _)]]. destruct Hs as [Hs|Hs]; [by apply untouched_server|].
  destruct (read_input a n (server w)) as [x d] eqn:E. cbn in Hs. subst d. by apply t_read_input in E.
Qed.

Lemma write_laws a v w r w' : sidecar_url c → is_uint16 v → SidecarClient.WriteHolding c a v w = (r, w') →
  let reg := {| Addr := a; Value := v |} in
  requests w' = requests w ++ [reg] ∧
  (untouched w w' ∨
   ((∀ b, tbank (server w') b = write_reg (tbank (server w)) reg b) ∧
    tlanded (server w') = tlanded (server w) ++ [reg])).
Proof.
  intros Hu Hv H. apply (client_write_run mode) in H as (Hq & Hs); [|done]. split; [done|].
  destruct Hs as [[Hs _]|[Hs _]]; [left; by apply untouched_server|].
  destruct (write_holding a v (server w)) as [x d] eqn:E. cbn in Hs. subst d.
  by apply t_write in E.
Qed.

(** The client is a register bus that keeps the laws the development assumes. *)
Definition client_bus : HoldingReadWriter (Wire D) := {|
  Sidecar.ReadHolding := SidecarClient.ReadHolding c;
  Sidecar.WriteHolding := SidecarClient.WriteHolding c |}.

#[refine] Instance client_laws (Hu : sidecar_url c) : BusLaws (Wire D) (H := client_bus) := {
  holding w := tbank (server w);
  landed w := tlanded (server w);
  frames w := requests w;
}.
Proof.
  - intros w. apply tbank_words.
  - intros a n w r w' H. apply holding_laws in H as ([H1 H2] & H3 & H4); [|done]. split_and!; try done.
    intros l Hl. by apply H4.
  - intros a v w r w' Hv H. by apply write_laws in H.
Defined.
End Bus.

(** ** The mock sidecar, with a record of the writes it took *)

Record Traced (D : Type) : Type := { traced : D; log : list Register }.
Arguments traced {D} _.
Arguments log {D} _.

Definition on_traced {D A} (m : State D A) : State (Traced D) A := λ t,
  let '(a, d) := m (traced t) in (a, {| traced := d; log := log t |}).

#[export] Instance Traced_transport {D} `{tr : Transport D} : Transport (Traced D) := {
  read_input a n := on_traced (read_input a n);
  read_holding a n := on_traced (read_holding a n);
  write_holding a v t :=
    let '(r, d) := write_holding a v (traced t) in
    (r, {| traced := d; log := log t ++ [ {| Addr := a; Value := v |} ] |});
  health := on_traced health;
}.

Lemma mock_get_insert m a x b :
  mock_get {| _regs := <[a := x]> (_regs m) |} b = if b =? a then x else mock_get m b.
Proof.
  unfold mock_get; cbn. destruct (Z.eqb_spec b a) as [->|]; [by rewrite lookup_insert_eq|].
  by rewrite lookup_insert_ne.
Qed.

Lemma land_word v : is_uint16 v → Z.land v 65535 = v.
Proof.
  intros Hv. change 65535 with (Z.ones 16). rewrite Z.land_ones by lia. apply Z.mod_small. exact Hv.
Qed.

(** What the mock answers is the bank it holds. *)
Lemma mock_words m a n : (λ i, mock_get m (a + i)) <$> seqZ 0 n = bank_words (mock_get m) a (Z.to_nat n).
Proof.
  unfold bank_words, seqZ. rewrite <- list_fmap_compose. apply list_fmap_ext.
  intros i x _. cbn. f_equal. lia.
Qed.

Lemma uint16_words f a n : Forall is_uint16 (bank_words f a n) →
  bank_words f a n = bank_words (λ b, to_uint16 (f b)) a n.
Proof.
  unfold bank_words. intros Hf. apply list_fmap_ext. intros i x Hi.
  rewrite Forall_fmap in Hf. rewrite Forall_lookup in Hf. specialize (Hf i x Hi). cbn in Hf.
  unfold to_uint16. by rewrite Z.mod_small.
Qed.

#[export, refine] Instance Mock_laws : TransportLaws (Traced MockTransport) := {
  tbank t a := to_uint16 (mock_get (traced t) a);
  tlanded := log;
}.
Proof.
  - intros t a. int_unfold. Z.div_mod_to_equations. lia.
  - intros a n t r t' [= <- <-]. cbn. split; [done|]. split; [done|]. intros l [= <-] Hf.
    rewrite mock_words in Hf |- *. by rewrite (uint16_words _ _ _ Hf).
  - by intros a n t r t' [= <- <-].
  - by intros t r t' [= <- <-].
  - intros a v t r t' Hv [= <- <-]. right. cbn. split; [|done]. intros b. cbn in *.
    rewrite mock_get_insert, land_word by done. unfold write_reg; cbn. destruct (b =? a); [|done].
    apply Z.mod_small. exact Hv.
Defined.

(** ** The live transport *)

(** What the Solarman library does, whatever fails: opening, closing and reading leave
    the inverter alone, a read returns the words asked for, a write takes effect or
    not. *)
Class SolarmanLaws (S : Type) `{PySolarmanV5 S} : Type := {
  sbank : S → mem;
  slanded : S → list Register;
  sbank_words s a : is_uint16 (sbank s a);
  s_connect s r s' : connect s = (r, s') → (∀ b, sbank s' b = sbank s b) ∧ slanded s' = slanded s;
  s_close s r s' : sock_close s = (r, s') → (∀ b, sbank s' b = sbank s b) ∧ slanded s' = slanded s;
  s_input a n s r s' : read_input_registers a n s = (r, s') →
    (∀ b, sbank s' b = sbank s b) ∧ slanded s' = slanded s;
  s_holding a n s r s' : read_holding_registers a n s = (r, s') →
    (∀ b, sbank s' b = sbank s b) ∧ slanded s' = slanded s ∧
    ∀ l, r = inr l → l = bank_words (sbank s) a (Z.to_nat n);
  s_write a v s r s' : is_uint16 v → write_holding_register a v s = (r, s') →
    ((∀ b, sbank s' b = sbank s b) ∧ slanded s' = slanded s) ∨
    ((∀ b, sbank s' b = write_reg (sbank s) {| Addr := a; Value := v |} b) ∧
     slanded s' = slanded s ++ [ {| Addr := a; Value := v |} ]);
}.

Section Live.
Context {S : Type} `{lib : PySolarmanV5 S} `{sl : !SolarmanLaws S}.

Definition same_bank (s s' : S) : Prop := (∀ b, sbank s' b = sbank s b) ∧ slanded s' = slanded s.

#[export] Instance same_bank_preorder : PreOrder same_bank.
Proof.
  split; [done|]. intros x y z [H1 H2] [H3 H4]. split; [intros b; by rewrite H3|congruence].
Qed.

(** One call of the transport: the library's call on a connected socket, or nothing,
    with the connection opened before and perhaps dropped after. *)
Lemma call_run {A} (fn : State S (exception + A)) t r t' : _call fn t = (r, t') →
  (same_bank (wire t) (wire t') ∧ ∀ a, r ≠ Returns a) ∨
  ∃ s1 x s2, same_bank (wire t) s1 ∧ fn s1 = (x, s2) ∧ same_bank s2 (wire t') ∧
    (∀ a, r = Returns a → x = inr a).
Proof.
  unfold _call, _connect_if_needed, _disconnect, on_wire, mbind, state_bind, mret, state_ret.
  intros H. destruct (_solarman t) eqn:Ec.
  - right. destruct (fn (wire t)) as [x s2] eqn:Ef. exists (wire t), x, s2.
    split; [done|]. split; [done|].
    destruct x as [e|a]; [|injection H as <- <-; split; [done|congruence]].
    destruct (failure_class e) as [[k m]|]; [|injection H as <- <-; split; done].
    cbn in H. rewrite Ec in H. destruct (sock_close s2) as [u s3] eqn:E3.
    injection H as <- <-. split; [by eapply s_close|done].
  - destruct (connect (wire t)) as [[e|] s1] eqn:E1; apply s_connect in E1.
    + left. destruct e; cbn in H; injection H as <- <-; done.
    + right. cbn in H. destruct (fn s1) as [x s2] eqn:Ef. exists s1, x, s2.
      split; [done|]. split; [done|].
      destruct x as [e|a]; [|injection H as <- <-; split; [done|congruence]].
      destruct (failure_class e) as [[k m]|]; [|injection H as <- <-; split; done].
      cbn in H. destruct (sock_close s2) as [u s3] eqn:E3.
      injection H as <- <-. split; [by eapply s_close|done].
Qed.

#[export, refine] Instance Live_laws : TransportLaws (LiveTransport S) := {
  tbank t := sbank (wire t);
  tlanded t := slanded (wire t);
}.
Proof.
  - intros t a. apply sbank_words.
  - intros a n t r t' [[[H1 H2] Hr]|(s1 & x & s2 & Q1 & E & Q2 & Hx)]%call_run.
    { split; [done|]. split; [done|]. intros l ->. by destruct (Hr l). }
    apply s_holding in E as (U & L & El).
    assert (same_bank (wire t) (wire t')) as [Q Ql] by (transitivity s1; [|transitivity s2]; done).
    split; [done|]. split; [done|]. intros l Hl _. rewrite (El l (Hx l Hl)).
    by rewrite (bank_words_ext (sbank s1) (sbank (wire t)) _ _ (proj1 Q1)).
  - intros a n t r t' [[H _]|(s1 & x & s2 & Q1 & E & Q2 & _)]%call_run; [done|].
    apply s_input in E. change (same_bank (wire t) (wire t')). by transitivity s1; [|transitivity s2].
  - intros t r t' H. cbn in H. apply state_bind_inv in H as (x & t1 & H & E).
    injection E as _ <-. apply call_run in H as [[H _]|(s1 & y & s2 & Q1 & E & Q2 & _)]; [done|].
    apply s_input in E. change (same_bank (wire t) (wire t1)). by transitivity s1; [|transitivity s2].
  - intros a v t r t' Hv [[H _]|(s1 & x & s2 & [Q1 L1] & E & [Q2 L2] & _)]%call_run; [by left|].
    apply s_write in E as [[U L]|[U L]]; [left|right|done].
    + split; [intros b; by rewrite Q2, U, Q1|congruence].
    + split; [|congruence]. intros b. rewrite Q2, U. unfold write_reg. by rewrite Q1.
Defined.
End Live.

(** ** The live transport's socket

    The library with a record of what it is asked: every opening, every call and how it
    ended, every closing. *)
Inductive socket_event : Type :=
| Opened | OpenFailed (e : exception) | Called (ended : option exception) | ClosedSock.

Record Watched (S : Type) : Type := { watched : S; seen : list socket_event }.
Arguments watched {S} _.
Arguments seen {S} _.

Definition watch {S A} (say : A → socket_event) (m : State S A) : State (Watched S) A := λ w,
  let '(a, s) := m (watched w) in (a, {| watched := s; seen := seen w ++ [say a] |}).
Definition opening_said (r : option exception) : socket_event :=
  match r with None => Opened | Some e => OpenFailed e end.
Definition call_said {A} (r : exception + A) : socket_event :=
  Called (match r with inl e => Some e | inr _ => None end).

#[export] Instance Watched_lib {S} `{lib : PySolarmanV5 S} : PySolarmanV5 (Watched S) := {
  connect := watch opening_said connect;
  read_input_registers a n := watch call_said (read_input_registers a n);
  read_holding_registers a n := watch call_said (read_holding_registers a n);
  write_holding_register a v := watch call_said (write_holding_register a v);
  sock_close := watch (λ _, ClosedSock) sock_close;
}.

(** What a socket may see: it is opened when shut, called when open, and closed after a
    failure before anything else; an exception the transport does not list is none of
    its failures. *)
Inductive socket : Type := Shut | Open | Failing.

Definition follow (st : socket) (ev : socket_event) : option socket :=
  match st, ev with
  | Shut, Opened => Some Open
  | Shut, OpenFailed _ => Some Shut
  | Open, Called None => Some Open
  | Open, Called (Some (OtherExc _)) => Some Open
  | Open, Called (Some _) => Some Failing
  | Failing, ClosedSock => Some Shut
  | _, _ => None
  end.

Fixpoint follows (st : socket) (l : list socket_event) : option socket :=
  match l with [] => Some st | ev :: l => st' ← follow st ev; follows st' l end.

Lemma follows_app st l1 l2 : follows st (l1 ++ l2) = st' ← follows st l1; follows st' l2.
Proof. revert st. induction l1 as [|ev l1 IH]; intros st; cbn; [done|]. destruct (follow st ev); [apply IH|done]. Qed.

(** The transport's operations, and how each can end. *)
Inductive ask : Type := AskInput (a n : Z) | AskHolding (a n : Z) | Put (a v : Z) | Probe.
Inductive outcome : Type := Answered | Refused (k : error_class) | Escaped | Unreached.

Definition outcome_of {A} (r : attempt A) : outcome :=
  match r with Returns _ => Answered | Raise k _ => Refused k | Unhandled _ => Escaped end.

Section Watch.
Context {S : Type} `{lib : PySolarmanV5 S}.

Definition asked (q : ask) : State (LiveTransport (Watched S)) outcome :=
  match q with
  | AskInput a n => r ← read_input a n; mret (outcome_of r)
  | AskHolding a n => r ← read_holding a n; mret (outcome_of r)
  | Put a v => r ← write_holding a v; mret (outcome_of r)
  | Probe => b ← health; mret (if b : bool then Answered else Unreached)
  end.

Fixpoint asks (l : list ask) (t : LiveTransport (Watched S)) : LiveTransport (Watched S) :=
  match l with [] => t | q :: l => asks l (asked q t).2 end.

(** Before its first call a transport has no socket. *)
Definition fresh_transport (s : S) : LiveTransport (Watched S) :=
  {| wire := {| watched := s; seen := [] |}; _solarman := false |}.

Definition socket_of (t : LiveTransport (Watched S)) : socket := if _solarman t then Open else Shut.
Definition opening (t : LiveTransport (Watched S)) : list socket_event :=
  if _solarman t then [] else [Opened].

(** The taxonomy of errors.py over the exceptions of a call. *)
Definition taxonomy (e : exception) : option error_class :=
  match e with
  | SocketTimeout _ | QueueEmpty _ => Some RequestTimeoutError
  | V5FrameError _ | StructError _ => Some FrameError
  | ModbusError _ => Some IllegalAddressError
  | NoSocketAvailable _ | OSError _ => Some TransportConnectionError
  | OtherExc _ => None
  end.

(** What one operation shows of the library and leaves. *)
Definition handled (t t' : LiveTransport (Watched S)) (r : outcome) (evs : list socket_event) : Prop :=
  match r with
  | Answered => evs = opening t ++ [Called None] ∧ _solarman t' = true
  | Refused k => _solarman t' = false ∧ ∃ e,
      (_solarman t = false ∧ evs = [OpenFailed e] ∧ k = TransportConnectionError) ∨
      (taxonomy e = Some k ∧ evs = opening t ++ [Called (Some e); ClosedSock])
  | Escaped => ∃ e,
      (_solarman t = false ∧ evs = [OpenFailed e] ∧ _solarman t' = false) ∨
      (taxonomy e = None ∧ evs = opening t ++ [Called (Some e)] ∧ _solarman t' = true)
  | Unreached => Called None ∉ evs
  end.

Lemma failure_taxonomy e : fst <$> failure_class e = taxonomy e.
Proof. by destruct e. Qed.
Lemma follow_called e :
  follow Open (Called (Some e)) = Some (match taxonomy e with Some _ => Failing | None => Open end).
Proof. by destruct e. Qed.

Lemma follows_opened l : follows Shut (Opened :: l) = follows Open l.
Proof. done. Qed.

Lemma call_watched {A} (fn : State S (exception + A)) t r t' : _call (watch call_said fn) t = (r, t') →
  ∃ evs, seen (wire t') = seen (wire t) ++ evs ∧ follows (socket_of t) evs = Some (socket_of t') ∧
    handled t t' (outcome_of r) evs.
Proof.
  unfold _call, _connect_if_needed, _disconnect, on_wire, mbind, state_bind, mret, state_ret, socket_of,
    opening, handled.
  assert (∀ e x, failure_class e = x → taxonomy e = fst <$> x) as Hx by (by intros e x <-; rewrite failure_taxonomy).
  destruct t as [[s l] [|]]; cbn.
  - unfold watch at 1. cbn. destruct (fn s) as [[e|a] s2]; cbn.
    + pose proof (Hx e _ eq_refl) as Ht. destruct (failure_class e) as [[k m]|]; cbn in *.
      * unfold watch. cbn. destruct (sock_close s2) as [[] s3]. cbn. intros [= <- <-]. cbn.
        exists [Called (Some e); ClosedSock]. rewrite <- app_assoc. cbn [follows]. rewrite follow_called, Ht.
        split; [done|]. split; [done|]. split; [done|]. exists e. by right.
      * intros [= <- <-]. exists [Called (Some e)]. cbn [follows]. rewrite follow_called, Ht.
        split; [done|]. split; [done|]. exists e. by right.
    + intros [= <- <-]. exists [Called None]. done.
  - unfold watch at 1. cbn. destruct (connect s) as [[e|] s1]; cbn.
    + intros H. exists [OpenFailed e].
      destruct e as [m|m|m|m|m|m|m|m]; cbn in H; injection H as <- <-; (split; [done|]); (split; [done|]);
        first [split; [done|]; by exists (OSError m); left | by eexists; left
              | split; [done|]; eexists; left; by split].
    + unfold watch at 1. cbn. destruct (fn s1) as [[e|a] s2]; cbn.
      * pose proof (Hx e _ eq_refl) as Ht. destruct (failure_class e) as [[k m]|]; cbn in *.
        -- unfold watch. cbn. destruct (sock_close s2) as [[] s3]. cbn. intros [= <- <-]. cbn.
           exists [Opened; Called (Some e); ClosedSock]. rewrite <- !app_assoc. rewrite follows_opened.
           cbn [follows]. rewrite follow_called, Ht.
           split; [done|]. split; [done|]. split; [done|]. exists e. by right.
        -- intros [= <- <-]. exists [Opened; Called (Some e)]. rewrite <- app_assoc.
           rewrite follows_opened. cbn [follows]. rewrite follow_called, Ht.
           split; [done|]. split; [done|]. exists e. by right.
      * intros [= <- <-]. exists [Opened; Called None]. cbn. by rewrite <- app_assoc.
Qed.

Lemma asked_watched q t r t' : asked q t = (r, t') →
  ∃ evs, seen (wire t') = seen (wire t) ++ evs ∧ follows (socket_of t) evs = Some (socket_of t') ∧
    handled t t' r evs.
Proof.
  destruct q as [a n|a n|a v|]; cbn [asked]; intros (x & t1 & H & E)%state_bind_inv; injection E as <- <-.
  - exact (call_watched _ _ _ _ H).
  - exact (call_watched _ _ _ _ H).
  - exact (call_watched _ _ _ _ H).
  - cbn in H. apply state_bind_inv in H as (y & t2 & H & E). injection E as <- <-.
    apply call_watched in H as (evs & E & Hf & Hh). exists evs. split; [exact E|]. split; [exact Hf|].
    destruct y as [l|k m|m]; [exact Hh| |]; cbn in Hh |- *; unfold opening in Hh.
    + destruct Hh as (_ & e & [(_ & -> & _)|(_ & ->)]); destruct (_solarman t); set_solver.
    + destruct Hh as (e & [(_ & -> & _)|(_ & -> & _)]); destruct (_solarman t); set_solver.
Qed.

Lemma asks_follow l t st : follows st (seen (wire t)) = Some (socket_of t) →
  follows st (seen (wire (asks l t))) = Some (socket_of (asks l t)).
Proof.
  revert t. induction l as [|q l IH]; intros t Ht; [done|]. cbn. apply IH.
  destruct (asked q t) as [r t'] eqn:E. apply asked_watched in E as (evs & E & Hf & _).
  cbn [snd]. rewrite E, follows_app, Ht. exact Hf.
Qed.
End Watch.

(** ** Properties *)

(** The mock stack answers.  Over a connection that loses nothing and a mock sidecar
    holding words, the client's reads return exactly the registers asked for, zero
    where none was seeded, and a write is acknowledged, after which its register holds
    the value and every other register is as before. *)
Theorem mock_answers `{up : UrlParse} (mode : string) (c : Client) (m : MockTransport)
    (log : list Register) (sent : list Register) :
  sidecar_url c → map_Forall (λ _ v, is_uint16 v) (_regs m) →
  let _ : httpDoer (Wire (Traced MockTransport)) := Wire_doer mode in
  let w := {| server := {| traced := m; log := log |}; plan := []; requests := sent |} in
  (∀ a n, in_range a n →
     SidecarClient.ReadHolding c a n w = (Ok ((λ i, mock_get m (a + i)) <$> seqZ 0 n), w) ∧
     SidecarClient.ReadInput c a n w = (Ok ((λ i, mock_get m (a + i)) <$> seqZ 0 n), w)) ∧
  (∀ a v, is_uint16 a → is_uint16 v → ∃ w',
     SidecarClient.WriteHolding c a v w = (Ok tt, w') ∧ plan w' = [] ∧
     map_Forall (λ _ v, is_uint16 v) (_regs (traced (server w'))) ∧
     ∀ b, mock_get (traced (server w')) b = if b =? a then v else mock_get m b).
Proof.
  intros Hu Hm. cbv zeta.
  assert (∀ a n, Forall is_uint16 ((λ i, mock_get m (a + i)) <$> seqZ 0 n)) as Hf.
  { intros a n. apply Forall_fmap, Forall_forall. intros i _. cbn. unfold mock_get.
    destruct (_regs m !! (a + i)) as [v|] eqn:E; [by apply Hm in E|done]. }
  set (w0 := {| server := _; plan := _; requests := _ |}). split.
  - intros a n Hin. split.
    + change (SidecarClient.ReadHolding c a n) with (client_read mode (D := Traced MockTransport) c "/read_holding" a n).
      apply (client_read_delivered mode c "/read_holding" read_holding a n w0 _ {| traced := m; log := log |}); try done; constructor.
    + change (SidecarClient.ReadInput c a n) with (client_read mode (D := Traced MockTransport) c "/read_input" a n).
      apply (client_read_delivered mode c "/read_input" read_input a n w0 _ {| traced := m; log := log |}); try done; constructor.
  - intros a v Ha Hv. eexists. split; [eapply (client_write_delivered mode); [done|constructor|done..|reflexivity]|].
    split; [done|]. split; cbn [traced server _regs].
    + apply map_Forall_insert_2; [by rewrite land_word|done].
    + intros b. by rewrite mock_get_insert, land_word.
Qed.

(** C38: The live transport's socket.  Whatever is asked of a fresh transport, and
    however the library answers, every socket it opens is closed exactly when a call on it
    fails with an exception of the taxonomy, before anything else is done, and is open
    otherwise.  An operation that returns has called an open socket and keeps it; one that
    raises an error of the taxonomy either could not open a socket or has closed it, with
    the class that belongs to the exception, so the next one reconnects; any other
    exception of a call passes through and leaves the socket open. *)
Theorem live_reconnects {S : Type} `{lib : PySolarmanV5 S} (s : S) (before : list ask) (q : ask) :
  let t := asks before (fresh_transport s) in
  let '(r, t') := asked q t in
  follows Shut (seen (wire t')) = Some (socket_of t') ∧
  ∃ evs, seen (wire t') = seen (wire t) ++ evs ∧ handled t t' r evs.
Proof.
  cbv zeta. pose proof (asks_follow before (fresh_transport s) Shut eq_refl) as Hf.
  destruct (asked q (asks before (fresh_transport s))) as [r t'] eqn:E.
  apply asked_watched in E as (evs & E & He & Hh). split; [|by exists evs].
  by rewrite E, follows_app, Hf.
Qed.

(** ** On the mock, with the default address *)

Definition demo_mock : Traced MockTransport :=
  {| traced := MockTransport_init [[(43141, 625); (43110, 33)]; [(43142, 500)]]; log := [] |}.
Definition demo_wire (plan : list delivery) : Wire (Traced MockTransport) :=
  {| server := demo_mock; plan := plan; requests := [] |}.

Lemma demo_sidecar_url : sidecar_url (up := demo_url) demo_client.
Proof. intros p. rewrite !elem_of_cons, elem_of_nil. by intros [->|[->|[->|[->|[]]]]]. Qed.

Lemma mock_answers_witness :
  let _ : UrlParse := demo_url in
  let _ : httpDoer (Wire (Traced MockTransport)) := Wire_doer "mock" in
  (SidecarClient.ReadHolding demo_client 43140 3 (demo_wire [])).1 = Ok [0; 625; 500].
Proof.
  cbv zeta.
  assert (Hm : map_Forall (λ _ v, is_uint16 v) (_regs (traced demo_mock))).
  { apply (bool_decide_unpack _). vm_compute. reflexivity. }
  destruct (mock_answers (up := demo_url) "mock" demo_client (traced demo_mock) [] [] demo_sidecar_url Hm)
    as [H _].
  destruct (H 43140 3 ltac:(apply (bool_decide_unpack _); done)) as [E _].
  exact (f_equal fst E).
Defined.

(** Errors of the stack's outside are none of the client's classes. *)
Definition json_answer (resp : Response) : Prop :=
  BodyErr resp = None ∧ ∀ e, Body resp = Err e → foreign e.

Lemma serve_json {D} `{tr : Transport D} mode path req (d : D) : json_answer (serve mode path req d).1.
Proof.
  assert (∀ fn, json_answer ((r ← _handle_read (D := D) fn req; mret (answer r)) d).1) as Hr.
  { intros fn. unfold _handle_read.
    match goal with |- context [_read_body req ≫= ?f] =>
      destruct (_read_body req ≫= f) as [[a n]|k m|m]; [|done..] end.
    unfold mbind, state_bind, mret, state_ret.
    destruct (fn a n d) as [[l|k m|m] d']; done. }
  unfold serve, do_GET, do_POST. case_bool_decide; [|case_bool_decide].
  - case_bool_decide; [|done]. unfold _handle_health, mbind, state_bind, mret, state_ret.
    by destruct (health d).
  - case_bool_decide; [apply Hr|]. case_bool_decide; [apply Hr|]. case_bool_decide; [|done].
    unfold _handle_write.
    match goal with |- context [_read_body req ≫= ?f] =>
      destruct (_read_body req ≫= f) as [[a v]|k m|m]; [|done..] end.
    unfold mbind, state_bind, mret, state_ret.
    destruct (write_holding a v d) as [[l|k m|m] d']; done.
  - split; [done|]. by intros e [= <-].
Qed.

#[export] Instance Wire_foreign mode :
  ForeignErrors (up := demo_url) (doer := Wire_doer (up := demo_url) (D := Traced MockTransport) mode).
Proof.
  assert (∀ url e, url_Parse (UrlParse := demo_url) url = Err e → foreign e) as Hu.
  { intros url e. unfold url_Parse, demo_url. case_match; [done|]. by intros [= <-]. }
  assert (∀ h req (w : Wire (Traced MockTransport)) r w',
    Do (httpDoer := Wire_doer (up := demo_url) mode) h req w = (r, w') →
    match r with Ok resp => json_answer resp | Err e => foreign e end) as Hd.
  { intros h req w r w'. unfold Do, Wire_doer. destruct (next_delivery (plan w)) as [f fs].
    destruct (url_Parse (URL req)) as [path|e] eqn:Eu.
    - pose proof (serve_json mode path req (server w)) as Hs.
      destruct (serve mode path req (server w)) as [resp d]. by destruct f; intros [= <- <-].
    - apply Hu in Eu. by destruct f; intros [= <- <-]. }
  split.
  - exact Hu.
  - intros h req w e w' H. by apply Hd in H.
  - intros h req w resp w' e H He. apply Hd in H as [Hb _]. congruence.
  - intros h req w resp w' e H He. apply Hd in H as [_ Hb]. by apply Hb.
Qed.

(** A register the sidecar refuses. *)
Lemma errors_classified_witness :
  let _ : UrlParse := demo_url in
  let _ : httpDoer (Wire (Traced MockTransport)) := Wire_doer "mock" in
  ∃ e, (SidecarClient.ReadHolding demo_client 70000 1 (demo_wire [])).1 = Err e ∧
    errors_Is e "sidecar: bad request" = true.
Proof.
  cbv zeta.
  destruct (SidecarClient.ReadHolding (up := demo_url) (doer := Wire_doer (up := demo_url) "mock")
    demo_client 70000 1 (demo_wire [])) as [r w'] eqn:E.
  pose proof E as E'. vm_compute in E'. destruct r as [l|e]; [discriminate E'|].
  exists e. split; [reflexivity|].
  apply (errors_classified (fe := Wire_foreign "mock") demo_client (demo_wire [])
    (read_request demo_client "/read_holding" 70000 1) e w' "sidecar: bad request").
  - by apply (bool_decide_unpack _).
  - by constructor.
  - eexists. split; [split; [eexists; reflexivity|]|].
    + injection E' as _ <-. vm_compute. reflexivity.
    + vm_compute. reflexivity.
Defined.

(** A library whose every call times out. *)
Record Silent : Type := { calls : nat }.
#[export] Instance Silent_lib : PySolarmanV5 Silent := {
  connect s := (None, s);
  read_input_registers _ _ s := (inl (QueueEmpty ""), s);
  read_holding_registers _ _ s := (inl (QueueEmpty ""), s);
  write_holding_register _ _ s := (inl (QueueEmpty ""), s);
  sock_close s := (tt, {| calls := S (calls s) |});
}.

Lemma live_reconnects_witness :
  let t := asks [AskHolding 43110 1] (fresh_transport {| calls := 0 |}) in
  let t' := asks [AskHolding 43110 1; Probe] (fresh_transport {| calls := 0 |}) in
  seen (wire t) = [Opened; Called (Some (QueueEmpty "")); ClosedSock] ∧ _solarman t = false ∧
  follows Shut (seen (wire t')) = Some Shut ∧ calls (watched (wire t')) = 2%nat.
Proof.
  cbv zeta. split; [reflexivity|]. split; [reflexivity|]. split; [|reflexivity].
  exact (proj1 (live_reconnects {| calls := 0 |} [AskHolding 43110 1] Probe)).
Defined.
