(* ===== verification/LateWire.v ===== *)
(** * Requests carried out late

    The Go client gives up on a request after 15 s; the Python server does not.  Each
    request has a thread of its own there, and the transport's lock lets one at a time
    through, so a request given up on is still carried out, some time before the next
    one is.  Seen from the client that is a lost answer: the bank to reason with is the
    one in which the waiting requests are done ([settled]), and with it the stack is
    still the register bus of [Sidecar]. *)

From S2P Require Import Prelude GoInt GoString GoTime Json GoHttp Block Registers TimedSlots.
From S2P Require Import Sidecar Scheduler SidecarClient SidecarServer SidecarWire.

(** ** The connection *)

(** [Late]: the client gives up, and the request waits its turn. *)
Inductive late_delivery : Type := Kept (d : delivery) | Late.

(** [waiting] are the requests given up on and not yet carried out, with their paths,
    oldest first; each entry of the plan says first how many of them are carried out
    before the next request arrives. *)
Record LateWire (D : Type) : Type := {
  lserver : D;
  waiting : list (string * Request);
  lplan : list (nat * late_delivery);
  lrequests : list Register;
}.
Arguments lserver {D} _.
Arguments waiting {D} _.
Arguments lplan {D} _.
Arguments lrequests {D} _.

Section Late.
Context {D : Type} `{up : UrlParse} `{tr : Transport D} (mode : string).

Definition carry_out (d : D) (q : string * Request) : D := (serve mode q.1 q.2 d).2.

(** The server once everything that waits is done. *)
Definition settled (w : LateWire D) : D := foldl carry_out (lserver w) (waiting w).

Definition catch_up (n : nat) (w : LateWire D) : LateWire D := {|
  lserver := foldl carry_out (lserver w) (take n (waiting w)); waiting := drop n (waiting w);
  lplan := lplan w; lrequests := lrequests w |}.

Definition next_late (l : list (nat * late_delivery)) : (nat * late_delivery) * list (nat * late_delivery) :=
  match l with [] => ((0%nat, Kept Delivered), []) | f :: l => (f, l) end.

Definition Late_doer : httpDoer (LateWire D) := λ _ req w0,
  let '((n, f), fs) := next_late (lplan w0) in
  let w := catch_up n w0 in
  let reqs := lrequests w ++ written req in
  match f with
  | Kept RequestLost =>
      (Err no_answer, {| lserver := lserver w; waiting := waiting w; lplan := fs; lrequests := reqs |})
  | Late =>
      (Err no_answer,
       {| lserver := lserver w;
          waiting := waiting w ++ match url_Parse (URL req) with Ok path => [(path, req)] | Err _ => [] end;
          lplan := fs; lrequests := reqs |})
  | Kept d =>
      let '(r, s) := match url_Parse (URL req) with
                     | Ok path => let '(resp, s) := serve mode path req (settled w) in (Ok resp, s)
                     | Err e => (Err e, settled w)
                     end in
      (match d with Delivered => r | _ => Err no_answer end,
       {| lserver := s; waiting := []; lplan := fs; lrequests := reqs |})
  end.
#[local] Existing Instance Late_doer.
#[local] Instance on_wire_doer : httpDoer (Wire D) := Wire_doer mode.

(** ** Late is lost

    [forget w]: the same history with every late request taken as answered and the
    answer lost. *)
Definition kept (f : late_delivery) : delivery := match f with Kept d => d | Late => AnswerLost end.

Definition forget (w : LateWire D) : Wire D := {|
  server := settled w; plan := (λ '(_, f), kept f) <$> lplan w; requests := lrequests w |}.

Lemma settled_catch_up n w : settled (catch_up n w) = settled w.
Proof. unfold settled, catch_up; cbn [lserver waiting]. by rewrite <- foldl_app, take_drop. Qed.

Lemma next_kept l : next_delivery ((λ '(_, f), kept f) <$> l) =
  (kept (next_late l).1.2, (λ '(_, f), kept f) <$> (next_late l).2).
Proof. by destruct l as [|[n f] l]. Qed.

(** One request: the same answer, and the same state. *)
Lemma Do_forget h req w r w' : Do h req w = (r, w') → Do h req (forget w) = (r, forget w').
Proof.
  unfold Do, Late_doer, on_wire_doer, Wire_doer. cbn [forget plan server requests].
  rewrite next_kept. destruct (next_late (lplan w)) as [[n f] fs]. cbn [fst snd].
  pose proof (settled_catch_up n w) as Es.
  destruct f as [[]|]; cbn [kept]; rewrite ?Es.
  - destruct (url_Parse (URL req)) as [path|e].
    + destruct (serve mode path req (settled w)) as [resp s]. by intros [= <- <-].
    + by intros [= <- <-].
  - intros [= <- <-]. rewrite <- Es. reflexivity.
  - destruct (url_Parse (URL req)) as [path|e].
    + destruct (serve mode path req (settled w)) as [resp s]. by intros [= <- <-].
    + by intros [= <- <-].
  - intros [= <- <-]. rewrite <- Es. destruct (url_Parse (URL req)) as [path|e].
    + unfold forget, settled; cbn [lplan lrequests lserver waiting catch_up]. rewrite foldl_app.
      cbn [foldl]. unfold carry_out at 3. cbn [fst snd]. by destruct (serve mode path req _).
    + unfold forget, settled; cbn [lserver waiting lplan lrequests]. by rewrite app_nil_r.
Qed.

Lemma do_forget {A} c method path body (field : string → json → A → result A) out w r w' : plain body →
  do c method path body field out w = (r, w') → do c method path body field out (forget w) = (r, forget w').
Proof.
  intros Hp. rewrite !do_run by done. cbv zeta. destruct (url_Parse _) as [p|e]; [|by intros [= <- <-]].
  destruct (Do (http c) (request c method path body) w) as [ra wa] eqn:E. rewrite (Do_forget _ _ _ _ _ E).
  by intros [= <- <-].
Qed.

Lemma bind_forget {A C} (m : State (LateWire D) A) (m' : State (Wire D) A) (f : A → C) w r w' :
  (∀ a w1, m w = (a, w1) → m' (forget w) = (a, forget w1)) →
  (x ← m; mret (f x)) w = (r, w') → (x ← m'; mret (f x)) (forget w) = (r, forget w').
Proof.
  intros Hm H. apply state_bind_inv in H as (a & w1 & E & H). injection H as <- <-.
  unfold mbind, state_bind. by rewrite (Hm a w1 E).
Qed.

Lemma read_forget c path a n w r w' : read c path a n w = (r, w') →
  read c path a n (forget w) = (r, forget w').
Proof. unfold read. apply bind_forget. intros x w1. apply do_forget, read_plain. Qed.

Lemma ReadHolding_forget c a n w r w' : ReadHolding c a n w = (r, w') →
  ReadHolding c a n (forget w) = (r, forget w').
Proof. unfold ReadHolding. apply bind_forget. intros x w1. apply read_forget. Qed.

Lemma ReadInput_forget c a n w r w' : ReadInput c a n w = (r, w') →
  ReadInput c a n (forget w) = (r, forget w').
Proof. unfold ReadInput. apply bind_forget. intros x w1. apply read_forget. Qed.

Lemma WriteHolding_forget c a v w r w' : WriteHolding c a v w = (r, w') →
  WriteHolding c a v (forget w) = (r, forget w').
Proof. unfold WriteHolding. apply bind_forget. intros x w1. apply do_forget, write_plain. Qed.
End Late.

(** ** The laws of the bus *)

Section Bus.
Context {D : Type} `{up : UrlParse} `{tr : Transport D} `{tl : !TransportLaws D} (mode : string) (c : Client).
#[local] Instance late_doer : httpDoer (LateWire D) := Late_doer mode.

(** Nothing happens to the inverter between two states, now or once what waits is done. *)
Definition calm_between (w w' : LateWire D) : Prop :=
  (∀ b, tbank (settled mode w') b = tbank (settled mode w) b) ∧
  tlanded (settled mode w') = tlanded (settled mode w).

Definition late_bus : HoldingReadWriter (LateWire D) := {|
  Sidecar.ReadHolding := SidecarClient.ReadHolding c;
  Sidecar.WriteHolding := SidecarClient.WriteHolding c |}.

#[refine] Instance late_laws (Hu : sidecar_url c) : BusLaws (LateWire D) (H := late_bus) := {
  holding w := tbank (settled mode w);
  landed w := tlanded (settled mode w);
  frames w := lrequests w;
}.
Proof.
  - intros w. apply tbank_words.
  - intros a n w r w' H%ReadHolding_forget. apply holding_laws in H as ([H1 H2] & H3 & H4); [|done].
    split_and!; try done. intros l Hl. by apply H4.
  - intros a v w r w' Hv H%WriteHolding_forget. by apply (write_laws mode c) in H.
Defined.
End Bus.

(** ** Properties *)

(** C2: The register bus of this development is what the deployed stack is.  For the Go
    client over a connection that may lose any request or answer or deliver a request
    after the client gave up on it, the Python server and any transport that keeps its
    laws, and with the bank as it is once the waiting requests are carried out: carrying
    them out changes nothing; a read leaves the inverter alone and sends no write, and
    what it returns are 16-bit words forming a prefix of the bank at the address asked;
    a write sends exactly one write request and takes effect or does not; and an input
    read changes nothing. *)
Theorem client_refines_bus {D : Type} `{up : UrlParse} `{tr : Transport D} `{tl : !TransportLaws D}
    (mode : string) (c : Client) (w : LateWire D) :
  sidecar_url c →
  let _ : httpDoer (LateWire D) := Late_doer mode in
  (∀ n, settled mode (catch_up mode n w) = settled mode w) ∧
  (∀ a n r w', SidecarClient.ReadHolding c a n w = (r, w') →
     calm_between mode w w' ∧ lrequests w' = lrequests w ∧
     ∀ l, r = Ok l → in_range a n ∧ Forall is_uint16 l ∧
       l `prefix_of` bank_words (tbank (settled mode w)) a (Z.to_nat n)) ∧
  (∀ a n r w', SidecarClient.ReadInput c a n w = (r, w') →
     calm_between mode w w' ∧ lrequests w' = lrequests w ∧ ∀ l, r = Ok l → in_range a n ∧ Forall is_uint16 l) ∧
  (∀ a v r w', is_uint16 v → SidecarClient.WriteHolding c a v w = (r, w') →
     let reg := {| Addr := a; Value := v |} in
     lrequests w' = lrequests w ++ [reg] ∧
     (calm_between mode w w' ∨
      ((∀ b, tbank (settled mode w') b = write_reg (tbank (settled mode w)) reg b) ∧
       tlanded (settled mode w') = tlanded (settled mode w) ++ [reg]))).
Proof.
  intros Hu. cbv zeta. split; [intros n; apply settled_catch_up|split; [|split]].
  - intros a n r w' H%ReadHolding_forget. by apply holding_laws in H.
  - intros a n r w' H%ReadInput_forget. by apply input_laws in H.
  - intros a v r w' Hv H%WriteHolding_forget. by apply (write_laws mode c) in H.
Qed.

(** ** On the mock *)

Definition demo_late_wire (plan : list (nat * late_delivery)) : LateWire (Traced MockTransport) :=
  {| lserver := demo_mock; waiting := []; lplan := plan; lrequests := [] |}.

(** The client gave up on a write: it was sent once, the server has not seen it, and
    once it has the register holds the value. *)
Lemma client_refines_bus_witness :
  let _ : UrlParse := demo_url in
  let _ : httpDoer (LateWire (Traced MockTransport)) := Late_doer "mock" in
  let run := SidecarClient.WriteHolding demo_client 43141 300 (demo_late_wire [(0%nat, Late)]) in
  lrequests run.2 = [ {| Addr := 43141; Value := 300 |} ] ∧ is_Ok run.1 = false ∧
  tbank (lserver run.2) 43141 = 625 ∧ tbank (settled "mock" run.2) 43141 = 300.
Proof.
  intros up doer run.
  destruct (client_refines_bus (up := demo_url) "mock" demo_client (demo_late_wire [(0%nat, Late)]) demo_sidecar_url)
    as (_ & _ & _ & H).
  assert (run = (run.1, run.2)) as E by (by destruct run).
  destruct (H 43141 300 run.1 run.2 ltac:(done) E) as [Hq _].
  split; [exact Hq|]. split; [vm_compute; reflexivity|]. split; vm_compute; reflexivity.
Defined.

(** *** Order matters

    The transport's lock does not promise its waiters their turn in order.  If a late
    write were overtaken by the client's next one, the register would end with the
    older value although the client was told the newer one is in place. *)
Lemma overtaken_late_write :
  let write v := ("/write_holding", write_request demo_client 43141 v) in
  let d := foldl (carry_out "mock") demo_mock [write 200; write 100] in
  StatusCode (serve "mock" "/write_holding" (write_request demo_client 43141 200) demo_mock).1 = 200 ∧
  tbank d 43141 = 100.
Proof. vm_compute. done. Qed.
