(* ===== verification/Config.v ===== *)
(** * Configuration (internal/config)

    The environment is a partial map from names to values.  [Load] reads, defaults and
    validates it, collecting every complaint; [String] and [LogValue] print the result
    without its secrets. *)

From Stdlib Require Import Ascii.
From S2P Require Import Prelude GoInt GoString GoTime GoFloat GoParse Json GoHttp.
From S2P Require Import TimedSlots Schedule HomeAssistant.

Definition Env : Type := string → option string.

Definition LookupEnv (env : Env) (key : string) : option string := env key.
Definition Getenv (env : Env) (key : string) : string := default "" (env key).

Definition MinPollInterval : Z := 5 * Second.
Definition defaultToUWindow : string := "23:30-05:30".
Definition redacted : string := "REDACTED".

(** [^[a-z0-9_]+$] *)
Definition slug_char (c : ascii) : bool :=
  ((97 <=? code c) && (code c <=? 122)) || ((48 <=? code c) && (code c <=? 57)) || (code c =? 95).
Fixpoint all_chars (p : ascii → bool) (s : string) : bool :=
  match s with EmptyString => true | String c s => p c && all_chars p s end.
Definition objectIDPrefixPattern (s : string) : bool :=
  negb (bool_decide (s = "")) && all_chars slug_char s.

Record Config : Type := {
  Mode : string;
  InverterIP : string;
  InverterSerial : string;
  InverterPort : Z;
  InverterSocketTimeout : Z;
  SidecarURL : string;
  SidecarStartupTimeout : Z;
  PollInterval : Z;
  PollMaxRetries : Z;
  FailureThreshold : Z;
  RTCSyncEnabled : bool;
  RTCDriftThreshold : Z;
  MQTTBrokerURL : string;
  MQTTUsername : string;
  MQTTPassword : string;
  MQTTClientID : string;
  MQTTTopicPrefix : string;
  HADiscoveryPrefix : string;
  HAObjectIDPrefix : string;
  ControlsEnabled : bool;
  TOUWindow : string;
  TOUWindowSet : bool;
  HealthAddr : string;
  LogLevel : string;
  LogFormat : string;
}.

(** ** Variables

    Each helper answers a value beside the error, as in the code. *)

Definition getEnv (env : Env) (key def : string) : string :=
  let v := Getenv env key in if bool_decide (v = "") then def else v.

Definition parseInt (env : Env) (key : string) (def : Z) : Z * option error :=
  let v := Getenv env key in
  if bool_decide (v = "") then (def, None)
  else match Atoi (TrimSpace v) with
       | Ok n => (n, None)
       | Err e => (def, Some (Wrapf (key +:+ " is not a valid integer") e))
       end.

Definition parseBool (env : Env) (key : string) (def : bool) : bool * option error :=
  let v := Getenv env key in
  if bool_decide (v = "") then (def, None)
  else match ParseBool (TrimSpace v) with
       | Ok b => (b, None)
       | Err e => (def, Some (Wrapf (key +:+ " is not a valid boolean") e))
       end.

Definition parseDuration (env : Env) (key : string) (def : Z) : Z * option error :=
  let v := Getenv env key in
  if bool_decide (v = "") then (def, None)
  else match ParseDuration v with
       | Ok d => (d, None)
       | Err e => (0, Some (Wrapf (key +:+ " is not a valid duration") e))
       end.

(** [time.Duration(secs) * time.Second] is a product of int64s. *)
Definition parseDurationOrSeconds (env : Env) (key : string) (def : Z) : Z * option error :=
  let v := Getenv env key in
  if bool_decide (v = "") then (def, None)
  else match Atoi v with
       | Ok secs => (to_int64 (secs * Second), None)
       | Err _ =>
           match ParseDuration v with
           | Ok d => (d, None)
           | Err e => (0, Some (Wrapf (key +:+ " is not a valid duration or integer seconds") e))
           end
       end.

(** A parsed value's complaint: its parse error, or the one of its range check. *)
Definition complain {A} (parsed : A * option error) (range : A → option error) : list error :=
  match parsed.2 with
  | Some e => [e]
  | None => match range parsed.1 with Some e => [e] | None => [] end
  end.

Definition require (bad : bool) (e : error) : option error := if bad then Some e else None.

(** ** Loading *)

Definition check_mode (c : Config) : list error :=
  if bool_decide (Mode c = "live") then
    option_list (require (bool_decide (InverterIP c = "")) (Errorf "INVERTER_IP is required when MODE=live")) ++
    option_list (require (bool_decide (InverterSerial c = "")) (Errorf "INVERTER_SERIAL is required when MODE=live")) ++
    option_list (require (bool_decide (MQTTBrokerURL c = "")) (Errorf "MQTT_BROKER_URL is required when MODE=live"))
  else if bool_decide (Mode c = "mock") then []
  else [Errorf ("MODE must be live or mock, got " +:+ fmt_q (Mode c))].

Definition check_urls `{UrlParse} (c : Config) : list error :=
  (if negb (bool_decide (MQTTBrokerURL c = "")) then
     match url_Parse (MQTTBrokerURL c) with
     | Err e => [Wrapf "MQTT_BROKER_URL is invalid" e]
     | Ok _ => []
     end
   else []) ++
  match url_Parse (SidecarURL c) with
  | Err e => [Wrapf "SIDECAR_URL is invalid" e]
  | Ok _ => []
  end.

Definition check_prefix (c : Config) : list error :=
  if negb (objectIDPrefixPattern (HAObjectIDPrefix c)) then
    [Errorf ("HA_OBJECT_ID_PREFIX " +:+ fmt_q (HAObjectIDPrefix c)
             +:+ " must be a non-empty slug matching ^[a-z0-9_]+$")]
  else [].

Definition check_tou (c : Config) : list error :=
  match ParseToUWindow (TOUWindow c) with Err e => [Wrapf "TOU_WINDOW" e] | Ok _ => [] end.

(** What [Load] puts in the fields, right or wrong. *)
Definition config_of (env : Env) : Config := {|
  Mode := ToLower (getEnv env "MODE" "live");
  InverterIP := Getenv env "INVERTER_IP";
  InverterSerial := Getenv env "INVERTER_SERIAL";
  InverterPort := (parseInt env "INVERTER_PORT" 8899).1;
  InverterSocketTimeout := (parseDurationOrSeconds env "INVERTER_SOCKET_TIMEOUT" (10 * Second)).1;
  SidecarURL := getEnv env "SIDECAR_URL" "http://127.0.0.1:8081";
  SidecarStartupTimeout := (parseDuration env "SIDECAR_STARTUP_TIMEOUT" (30 * Second)).1;
  PollInterval := (parseDuration env "POLL_INTERVAL" (60 * Second)).1;
  PollMaxRetries := (parseInt env "POLL_MAX_RETRIES" 3).1;
  FailureThreshold := (parseInt env "FAILURE_THRESHOLD" 3).1;
  RTCSyncEnabled := (parseBool env "RTC_SYNC_ENABLED" false).1;
  RTCDriftThreshold := (parseDuration env "RTC_DRIFT_THRESHOLD" (60 * Second)).1;
  MQTTBrokerURL := Getenv env "MQTT_BROKER_URL";
  MQTTUsername := Getenv env "MQTT_USERNAME";
  MQTTPassword := Getenv env "MQTT_PASSWORD";
  MQTTClientID := getEnv env "MQTT_CLIENT_ID" "solis-inverter-manager";
  MQTTTopicPrefix := getEnv env "MQTT_TOPIC_PREFIX" "solis";
  HADiscoveryPrefix := getEnv env "HA_DISCOVERY_PREFIX" "homeassistant";
  HAObjectIDPrefix := getEnv env "HA_OBJECT_ID_PREFIX" DefaultObjectIDPrefix;
  ControlsEnabled := (parseBool env "CONTROLS_ENABLED" true).1;
  TOUWindow := match LookupEnv env "TOU_WINDOW" with Some v => v | None => defaultToUWindow end;
  TOUWindowSet := match LookupEnv env "TOU_WINDOW" with Some _ => true | None => false end;
  HealthAddr := getEnv env "HEALTH_ADDR" ":8080";
  LogLevel := ToLower (getEnv env "LOG_LEVEL" "info");
  LogFormat := ToLower (getEnv env "LOG_FORMAT" "json");
|}.

Definition Load `{UrlParse} (env : Env) : result Config :=
  let port := parseInt env "INVERTER_PORT" 8899 in
  let socketTimeout := parseDurationOrSeconds env "INVERTER_SOCKET_TIMEOUT" (10 * Second) in
  let startupTimeout := parseDuration env "SIDECAR_STARTUP_TIMEOUT" (30 * Second) in
  let interval := parseDuration env "POLL_INTERVAL" (60 * Second) in
  let maxRetries := parseInt env "POLL_MAX_RETRIES" 3 in
  let failureThreshold := parseInt env "FAILURE_THRESHOLD" 3 in
  let controlsEnabled := parseBool env "CONTROLS_ENABLED" true in
  let rtcSyncEnabled := parseBool env "RTC_SYNC_ENABLED" false in
  let rtcDrift := parseDuration env "RTC_DRIFT_THRESHOLD" (60 * Second) in
  let c := config_of env in
  let errs :=
    check_mode c ++ check_urls c ++ check_prefix c ++
    complain port (λ p, require ((p <? 1) || (65535 <? p))
      (Errorf ("INVERTER_PORT " +:+ pretty p +:+ " is out of range 1-65535"))) ++
    complain socketTimeout (λ d, require (d <=? 0) (Errorf "INVERTER_SOCKET_TIMEOUT must be > 0")) ++
    complain startupTimeout (λ d, require (d <? 0) (Errorf "SIDECAR_STARTUP_TIMEOUT must be >= 0")) ++
    complain interval (λ d, require (d <? MinPollInterval)
      (Errorf ("POLL_INTERVAL " +:+ Duration_String d +:+ " is below the " +:+ Duration_String MinPollInterval
               +:+ " floor"))) ++
    complain maxRetries (λ n, require (n <? 0) (Errorf "POLL_MAX_RETRIES must be >= 0")) ++
    complain failureThreshold (λ n, require (n <? 1) (Errorf "FAILURE_THRESHOLD must be >= 1")) ++
    complain controlsEnabled (λ _, None) ++
    check_tou c ++
    complain rtcSyncEnabled (λ _, None) ++
    complain rtcDrift (λ d, require (d <=? 0) (Errorf "RTC_DRIFT_THRESHOLD must be > 0")) in
  match errs with
  | [] => Ok c
  | e :: es => Err (errors_Join e es)
  end.

(** ** Printing *)

Definition redactSecret (v : string) : string := if bool_decide (v = "") then "" else redacted.

Definition fmt_t (b : bool) : string := if b then "true" else "false".

Definition Config_String (c : Config) : string :=
  let serial := if bool_decide (InverterSerial c ≠ "") then redacted else "" in
  let password := if bool_decide (MQTTPassword c ≠ "") then redacted else "" in
  "Config{mode=" +:+ Mode c +:+ " inverterIP=" +:+ InverterIP c +:+ " inverterSerial=" +:+ serial
  +:+ " inverterPort=" +:+ pretty (InverterPort c)
  +:+ " socketTimeout=" +:+ Duration_String (InverterSocketTimeout c) +:+ " sidecar=" +:+ SidecarURL c
  +:+ " sidecarStartupTimeout=" +:+ Duration_String (SidecarStartupTimeout c)
  +:+ " poll=" +:+ Duration_String (PollInterval c) +:+ " maxRetries=" +:+ pretty (PollMaxRetries c)
  +:+ " failThreshold=" +:+ pretty (FailureThreshold c)
  +:+ " rtcSyncEnabled=" +:+ fmt_t (RTCSyncEnabled c)
  +:+ " rtcDriftThreshold=" +:+ Duration_String (RTCDriftThreshold c)
  +:+ " controlsEnabled=" +:+ fmt_t (ControlsEnabled c) +:+ " touWindow=" +:+ TOUWindow c
  +:+ " broker=" +:+ MQTTBrokerURL c +:+ " user=" +:+ MQTTUsername c +:+ " password=" +:+ password
  +:+ " clientID=" +:+ MQTTClientID c +:+ " topicPrefix=" +:+ MQTTTopicPrefix c
  +:+ " haPrefix=" +:+ HADiscoveryPrefix c +:+ " haObjectIDPrefix=" +:+ HAObjectIDPrefix c
  +:+ " health=" +:+ HealthAddr c +:+ " log=" +:+ LogLevel c +:+ "/" +:+ LogFormat c +:+ "}".

(** A [slog.Attr]'s value. *)
Inductive Attr : Type := AString (s : string) | AInt (n : Z) | ADuration (d : Z) | ABool (b : bool).

Definition LogValue (c : Config) : list (string * Attr) := [
  ("mode", AString (Mode c)); ("inverter_ip", AString (InverterIP c));
  ("inverter_serial", AString (redactSecret (InverterSerial c)));
  ("inverter_port", AInt (InverterPort c)); ("socket_timeout", ADuration (InverterSocketTimeout c));
  ("sidecar_url", AString (SidecarURL c));
  ("sidecar_startup_timeout", ADuration (SidecarStartupTimeout c));
  ("poll_interval", ADuration (PollInterval c)); ("poll_max_retries", AInt (PollMaxRetries c));
  ("failure_threshold", AInt (FailureThreshold c)); ("rtc_sync_enabled", ABool (RTCSyncEnabled c));
  ("rtc_drift_threshold", ADuration (RTCDriftThreshold c));
  ("controls_enabled", ABool (ControlsEnabled c)); ("tou_window", AString (TOUWindow c));
  ("mqtt_broker_url", AString (MQTTBrokerURL c)); ("mqtt_username", AString (MQTTUsername c));
  ("mqtt_password", AString (redactSecret (MQTTPassword c)));
  ("mqtt_client_id", AString (MQTTClientID c)); ("mqtt_topic_prefix", AString (MQTTTopicPrefix c));
  ("ha_discovery_prefix", AString (HADiscoveryPrefix c));
  ("ha_object_id_prefix", AString (HAObjectIDPrefix c)); ("health_addr", AString (HealthAddr c));
  ("log_level", AString (LogLevel c)); ("log_format", AString (LogFormat c))].

(** ** What a setting means

    The value of a numeric variable, [None] when it does not parse. *)
Definition ok_value {A} (parsed : A * option error) : option A :=
  match parsed.2 with Some _ => None | None => Some parsed.1 end.

Definition mode_of (env : Env) : string := ToLower (getEnv env "MODE" "live").

Definition outside {A} (v : option A) (good : A → Prop) : Prop :=
  match v with None => True | Some x => ¬ good x end.

(** The variables an environment has wrong. *)
Inductive bad `{UrlParse} (env : Env) : string → Prop :=
| bad_mode : mode_of env ∉ ["live"; "mock"] → bad env "MODE"
| bad_ip : mode_of env = "live" → Getenv env "INVERTER_IP" = "" → bad env "INVERTER_IP"
| bad_serial : mode_of env = "live" → Getenv env "INVERTER_SERIAL" = "" → bad env "INVERTER_SERIAL"
| bad_no_broker : mode_of env = "live" → Getenv env "MQTT_BROKER_URL" = "" → bad env "MQTT_BROKER_URL"
| bad_broker : Getenv env "MQTT_BROKER_URL" ≠ "" →
    is_Ok (url_Parse (Getenv env "MQTT_BROKER_URL")) = false → bad env "MQTT_BROKER_URL"
| bad_sidecar : is_Ok (url_Parse (getEnv env "SIDECAR_URL" "http://127.0.0.1:8081")) = false →
    bad env "SIDECAR_URL"
| bad_prefix : objectIDPrefixPattern (getEnv env "HA_OBJECT_ID_PREFIX" DefaultObjectIDPrefix) = false →
    bad env "HA_OBJECT_ID_PREFIX"
| bad_port : outside (ok_value (parseInt env "INVERTER_PORT" 8899)) (λ p, 1 ≤ p ≤ 65535) →
    bad env "INVERTER_PORT"
| bad_socket : outside (ok_value (parseDurationOrSeconds env "INVERTER_SOCKET_TIMEOUT" (10 * Second)))
    (λ d, 0 < d) → bad env "INVERTER_SOCKET_TIMEOUT"
| bad_startup : outside (ok_value (parseDuration env "SIDECAR_STARTUP_TIMEOUT" (30 * Second)))
    (λ d, 0 ≤ d) → bad env "SIDECAR_STARTUP_TIMEOUT"
| bad_interval : outside (ok_value (parseDuration env "POLL_INTERVAL" (60 * Second)))
    (λ d, 5 * Second ≤ d) → bad env "POLL_INTERVAL"
| bad_retries : outside (ok_value (parseInt env "POLL_MAX_RETRIES" 3)) (λ n, 0 ≤ n) →
    bad env "POLL_MAX_RETRIES"
| bad_threshold : outside (ok_value (parseInt env "FAILURE_THRESHOLD" 3)) (λ n, 1 ≤ n) →
    bad env "FAILURE_THRESHOLD"
| bad_controls : ok_value (parseBool env "CONTROLS_ENABLED" true) = None → bad env "CONTROLS_ENABLED"
| bad_tou : is_Ok (ParseToUWindow (default defaultToUWindow (LookupEnv env "TOU_WINDOW"))) = false →
    bad env "TOU_WINDOW"
| bad_rtc : ok_value (parseBool env "RTC_SYNC_ENABLED" false) = None → bad env "RTC_SYNC_ENABLED"
| bad_drift : outside (ok_value (parseDuration env "RTC_DRIFT_THRESHOLD" (60 * Second)))
    (λ d, 0 < d) → bad env "RTC_DRIFT_THRESHOLD".

(** The complaints an aggregate holds. *)
Fixpoint complaints (e : error) : list error :=
  match e with Joined a b => complaints a ++ complaints b | e => [e] end.

(** A complaint that starts with the variable's name. *)
Definition about (key : string) (e : error) : Prop := ∃ rest, error_text e = key +:+ rest.

(** No complaint is an aggregate itself. *)
Definition single (e : error) : Prop := complaints e = [e].

Lemma complaints_Join e es : Forall single (e :: es) → complaints (errors_Join e es) = e :: es.
Proof.
  revert e. induction es as [|e' es IH]; intros e H; inversion H; subst; [done|].
  cbn [errors_Join complaints]. rewrite IH by done. by rewrite H2.
Qed.

(** One group of complaints tells exactly whether its variables are wrong. *)
Definition tells (errs : list error) (P : string → Prop) : Prop :=
  Forall single errs ∧ (∀ e, e ∈ errs → ∃ key, P key ∧ about key e) ∧
  (∀ key, P key → ∃ e, e ∈ errs ∧ about key e).

Lemma tells_app l1 l2 P1 P2 : tells l1 P1 → tells l2 P2 → tells (l1 ++ l2) (λ k, P1 k ∨ P2 k).
Proof.
  intros (S1 & E1 & K1) (S2 & E2 & K2). split; [by apply Forall_app|]. split.
  - intros e [H|H]%elem_of_app; [destruct (E1 e H) as (k & ? & ?)|destruct (E2 e H) as (k & ? & ?)]; eauto.
  - intros k [H|H]; [destruct (K1 k H) as (e & ? & ?)|destruct (K2 k H) as (e & ? & ?)];
      exists e; rewrite elem_of_app; auto.
Qed.

Lemma tells_one (b : bool) key e P : single e → about key e → (∀ k, P k ↔ k = key ∧ b = true) →
  tells (if b then [e] else []) P.
Proof.
  intros Hs Ha HP. destruct b; (split; [by repeat constructor|]); split.
  - intros e' ->%list_elem_of_singleton. exists key. split; [by apply HP|done].
  - intros k [-> _]%HP. exists e. split; [by apply list_elem_of_singleton|done].
  - by intros e' ?%elem_of_nil.
  - by intros k [_ ?]%HP.
Qed.

Lemma tells_range {A} (parsed : A * option error) (bad : A → bool) (good : A → Prop) err key :
  (∀ e, parsed.2 = Some e → single e ∧ about key e) →
  (∀ x, single (err x) ∧ about key (err x)) → (∀ x, bad x = false ↔ good x) →
  tells (complain parsed (λ x, require (bad x) (err x))) (λ k, k = key ∧ outside (ok_value parsed) good).
Proof.
  intros Hp He Hg. unfold complain, ok_value, outside, require. destruct parsed as [x [e|]]; cbn in *.
  - destruct (Hp e eq_refl). apply (tells_one true key); [done..|]. intros k. tauto.
  - destruct (He x). assert (¬ good x ↔ bad x = true) as Hb.
    { rewrite <- Hg. by destruct (bad x). }
    destruct (bad x) eqn:E.
    + apply (tells_one true key); [done..|]. intros k. rewrite Hb. done.
    + apply (tells_one false key (err x)); [done..|]. intros k. rewrite Hb. done.
Qed.

Lemma tells_ext l P Q : tells l P → (∀ k, P k ↔ Q k) → tells l Q.
Proof.
  intros (S1 & E & K) H. split; [done|]. split.
  - intros e He. destruct (E e He) as (k & ? & ?). exists k. by rewrite <- H.
  - intros k Hk%H. by apply K.
Qed.

Lemma about_wrap key what e : single (Wrapf (key +:+ what) e) ∧ about key (Wrapf (key +:+ what) e).
Proof. split; [done|]. eexists. cbn. by rewrite str_app_assoc. Qed.

Lemma about_text key what : single (Errorf (key +:+ what)) ∧ about key (Errorf (key +:+ what)).
Proof. split; [done|]. by eexists. Qed.

Lemma single_text m : single (Errorf m).
Proof. done. Qed.
Lemma single_wrap m e : single (Wrapf m e).
Proof. done. Qed.
Lemma text_about key what : about key (Errorf (key +:+ what)).
Proof. apply about_text. Qed.
Lemma wrap_about key what e : about key (Wrapf (key +:+ what) e).
Proof. apply about_wrap. Qed.
#[local] Hint Resolve single_text single_wrap text_about wrap_about : core.

Lemma parseInt_complaint env key def e : (parseInt env key def).2 = Some e → single e ∧ about key e.
Proof.
  unfold parseInt. case_bool_decide; [done|]. destruct (Atoi _); intros [= <-]. apply about_wrap.
Qed.
Lemma parseBool_complaint env key def e : (parseBool env key def).2 = Some e → single e ∧ about key e.
Proof.
  unfold parseBool. case_bool_decide; [done|]. destruct (ParseBool _); intros [= <-]. apply about_wrap.
Qed.
Lemma parseDuration_complaint env key def e :
  (parseDuration env key def).2 = Some e → single e ∧ about key e.
Proof.
  unfold parseDuration. case_bool_decide; [done|]. destruct (ParseDuration _); intros [= <-].
  apply about_wrap.
Qed.
Lemma parseSeconds_complaint env key def e :
  (parseDurationOrSeconds env key def).2 = Some e → single e ∧ about key e.
Proof.
  unfold parseDurationOrSeconds. case_bool_decide; [done|]. destruct (Atoi _); [done|].
  destruct (ParseDuration _); intros [= <-]. apply about_wrap.
Qed.

Lemma tells_bool env key def :
  tells (complain (parseBool env key def) (λ _, None))
    (λ k, k = key ∧ ok_value (parseBool env key def) = None).
Proof.
  unfold complain, ok_value. destruct (parseBool env key def).2 as [e|] eqn:E.
  - apply parseBool_complaint in E as [??]. apply (tells_one true key); [done..|naive_solver].
  - apply (tells_one false key (Errorf (key +:+ ""))); [done|apply text_about|]. intros k. naive_solver.
Qed.

(** A result checked on the spot. *)
Lemma tells_result {A} (r : result A) key what :
  tells (match r with Err e => [Wrapf (key +:+ what) e] | Ok _ => [] end)
    (λ k, k = key ∧ is_Ok r = false).
Proof.
  destruct r as [a|e].
  - apply (tells_one false key (Errorf (key +:+ ""))); [done|apply text_about|]. cbn. naive_solver.
  - apply (tells_one true key); [done|apply wrap_about|]. cbn. naive_solver.
Qed.

Lemma tells_required (b : bool) key what :
  tells (option_list (require b (Errorf (key +:+ what)))) (λ k, k = key ∧ b = true).
Proof.
  pose proof (tells_one b key (Errorf (key +:+ what)) (λ k, k = key ∧ b = true)) as H.
  destruct b; (apply H; [done|apply text_about|done]).
Qed.

Lemma tells_none : tells [] (λ _, False).
Proof. split; [constructor|]. split; [by intros e ?%elem_of_nil|done]. Qed.

Lemma tells_mode c : tells (check_mode c) (λ k,
  k = "MODE" ∧ Mode c ∉ ["live"; "mock"] ∨
  Mode c = "live" ∧ (k = "INVERTER_IP" ∧ InverterIP c = "" ∨ k = "INVERTER_SERIAL" ∧ InverterSerial c = "" ∨
    k = "MQTT_BROKER_URL" ∧ MQTTBrokerURL c = "")).
Proof.
  unfold check_mode. case_bool_decide as Hl; [|case_bool_decide as Hm].
  - eapply tells_ext.
    + apply tells_app; [apply (tells_required _ "INVERTER_IP")|].
      apply tells_app; [apply (tells_required _ "INVERTER_SERIAL")|apply (tells_required _ "MQTT_BROKER_URL")].
    + intros k. cbv beta. rewrite !bool_decide_eq_true, Hl. rewrite !elem_of_cons. naive_solver.
  - eapply tells_ext; [apply tells_none|]. intros k. rewrite Hm, !elem_of_cons. naive_solver.
  - apply (tells_one true "MODE"); [done|apply (text_about "MODE")|].
    intros k. rewrite !elem_of_cons, elem_of_nil. naive_solver.
Qed.

Lemma tells_urls `{UrlParse} c : tells (check_urls c) (λ k,
  k = "MQTT_BROKER_URL" ∧ MQTTBrokerURL c ≠ "" ∧ is_Ok (url_Parse (MQTTBrokerURL c)) = false ∨
  k = "SIDECAR_URL" ∧ is_Ok (url_Parse (SidecarURL c)) = false).
Proof.
  unfold check_urls. apply tells_app; [|apply (tells_result _ "SIDECAR_URL")].
  case_bool_decide as Hb; cbn [negb].
  - eapply tells_ext; [apply tells_none|]. naive_solver.
  - eapply tells_ext; [apply (tells_result _ "MQTT_BROKER_URL")|]. naive_solver.
Qed.

Lemma tells_prefix c : tells (check_prefix c) (λ k,
  k = "HA_OBJECT_ID_PREFIX" ∧ objectIDPrefixPattern (HAObjectIDPrefix c) = false).
Proof.
  apply (tells_one (negb (objectIDPrefixPattern (HAObjectIDPrefix c))) "HA_OBJECT_ID_PREFIX");
    [done|apply (text_about "HA_OBJECT_ID_PREFIX")|]. intros k. by rewrite negb_true_iff.
Qed.

Lemma Load_cases `{UrlParse} env :
  match Load env with
  | Ok c => c = config_of env ∧ ∀ key, ¬ bad env key
  | Err e => ∃ e0 es, e = errors_Join e0 es ∧ tells (e0 :: es) (bad env)
  end.
Proof.
  unfold Load. set (errs := _ ++ _). assert (tells errs (bad env)) as Ht.
  { unfold errs. eapply tells_ext.
    - apply tells_app; [apply tells_mode|].
      apply tells_app; [apply tells_urls|].
      apply tells_app; [apply tells_prefix|].
      apply tells_app; [apply (tells_range _ _ (λ p, 1 ≤ p ≤ 65535) _ "INVERTER_PORT");
        [apply parseInt_complaint|intros x; apply (about_text "INVERTER_PORT")|
         intros x; rewrite orb_false_iff, !Z.ltb_ge; lia]|].
      apply tells_app; [apply (tells_range _ _ (λ d, 0 < d) _ "INVERTER_SOCKET_TIMEOUT");
        [apply parseSeconds_complaint|intros x; apply (about_text "INVERTER_SOCKET_TIMEOUT")|
         intros x; rewrite Z.leb_gt; lia]|].
      apply tells_app; [apply (tells_range _ _ (λ d, 0 ≤ d) _ "SIDECAR_STARTUP_TIMEOUT");
        [apply parseDuration_complaint|intros x; apply (about_text "SIDECAR_STARTUP_TIMEOUT")|
         intros x; rewrite Z.ltb_ge; lia]|].
      apply tells_app; [apply (tells_range _ _ (λ d, 5 * Second ≤ d) _ "POLL_INTERVAL");
        [apply parseDuration_complaint|intros x; apply (about_text "POLL_INTERVAL")|
         intros x; rewrite Z.ltb_ge; reflexivity]|].
      apply tells_app; [apply (tells_range _ _ (λ n, 0 ≤ n) _ "POLL_MAX_RETRIES");
        [apply parseInt_complaint|intros x; apply (about_text "POLL_MAX_RETRIES")|
         intros x; rewrite Z.ltb_ge; lia]|].
      apply tells_app; [apply (tells_range _ _ (λ n, 1 ≤ n) _ "FAILURE_THRESHOLD");
        [apply parseInt_complaint|intros x; apply (about_text "FAILURE_THRESHOLD")|
         intros x; rewrite Z.ltb_ge; lia]|].
      apply tells_app; [apply tells_bool|].
      apply tells_app; [apply (tells_result _ "TOU_WINDOW" "")|].
      apply tells_app; [apply tells_bool|].
      apply (tells_range _ _ (λ d, 0 < d) _ "RTC_DRIFT_THRESHOLD");
        [apply parseDuration_complaint|intros x; apply (about_text "RTC_DRIFT_THRESHOLD")|
         intros x; rewrite Z.leb_gt; lia].
    - intros k. cbv beta. cbn [config_of Mode InverterIP InverterSerial MQTTBrokerURL SidecarURL
        HAObjectIDPrefix TOUWindow]. fold (mode_of env).
      change (match LookupEnv env "TOU_WINDOW" with Some v => v | None => defaultToUWindow end)
        with (default defaultToUWindow (LookupEnv env "TOU_WINDOW")).
      split.
      + intros Hk. repeat match goal with H : _ ∨ _ |- _ => destruct H | H : _ ∧ _ |- _ => destruct H end;
          subst; solve [constructor; assumption].
      + intros Hk. destruct Hk; tauto. }
  clearbody errs. destruct errs as [|e es]; [|by exists e, es].
  split; [done|]. intros key Hk. destruct Ht as (_ & _ & K). by destruct (K key Hk) as (e & ?%elem_of_nil & _).
Qed.

(** ** Properties *)

Lemma Load_window_of `{UrlParse} env c : c = config_of env → (∀ key, ¬ bad env key) →
  is_Ok (ParseToUWindow (TOUWindow c)) = true.
Proof.
  intros -> Hb. change (TOUWindow (config_of env)) with (default defaultToUWindow (LookupEnv env "TOU_WINDOW")).
  destruct (is_Ok _) eqn:E; [done|]. destruct (Hb "TOU_WINDOW"). by constructor.
Qed.

(** C18: What [Load] says of an environment.  It succeeds when no variable is wrong;
    otherwise its error aggregates complaints each of which starts with the name of a
    variable that is wrong, and every variable that is wrong has its complaint: nothing
    is reported that is right, and one run reports everything. *)
Theorem load_reports `{UrlParse} (env : Env) :
  match Load env with
  | Ok _ => ∀ key, ¬ bad env key
  | Err e => (∃ key, bad env key) ∧
      (∀ x, x ∈ complaints e → ∃ key, bad env key ∧ about key x) ∧
      (∀ key, bad env key → ∃ x, x ∈ complaints e ∧ about key x)
  end.
Proof.
  pose proof (Load_cases env) as H1. destruct (Load env) as [c|e]; [tauto|].
  destruct H1 as (e0 & es & -> & S1 & E1 & K1). rewrite complaints_Join by done. split; [|done].
  destruct (E1 e0 ltac:(by left)) as (key & Hk & _). eauto.
Qed.

Lemma good_value {A} (parsed : A * option error) (good : A → Prop) `{!∀ x, Decision (good x)} :
  ¬ outside (ok_value parsed) good → good parsed.1.
Proof.
  unfold ok_value, outside. destruct parsed as [x [e|]]; cbn; [tauto|]. apply dec_stable.
Qed.

Lemma parseDuration_range env key def : is_int64 def → is_int64 (parseDuration env key def).1.
Proof.
  intros Hd. unfold parseDuration. case_bool_decide; [done|].
  destruct (ParseDuration _) as [d|e] eqn:E; [by apply ParseDuration_range in E|by split].
Qed.

Lemma parseSeconds_range env key def : is_int64 def → is_int64 (parseDurationOrSeconds env key def).1.
Proof.
  intros Hd. unfold parseDurationOrSeconds. case_bool_decide; [done|].
  destruct (Atoi _) as [a|e0]; [apply (signed_range 64 (a * Second)); lia|].
  destruct (ParseDuration _) as [d|e] eqn:E; [by apply ParseDuration_range in E|by split].
Qed.

Lemma parseInt_range env key def : is_int64 def → is_int64 (parseInt env key def).1.
Proof.
  intros Hd. unfold parseInt. case_bool_decide; [done|].
  destruct (Atoi _) as [d|e] eqn:E; [by apply Atoi_range in E|done].
Qed.

(** C24: A configuration that loads is valid.  The mode is live or mock, and live names
    the inverter and the broker; the URLs parse; the entity-id prefix is a non-empty
    slug; the port, the timeouts, the interval, the retries, the threshold and the
    drift are within their bounds and within 64 bits; and the window parses, so the
    later parse at startup cannot fail. *)
Theorem loaded_valid `{UrlParse} (env : Env) (c : Config) :
  Load env = Ok c →
  (Mode c = "mock" ∨
   Mode c = "live" ∧ InverterIP c ≠ "" ∧ InverterSerial c ≠ "" ∧ MQTTBrokerURL c ≠ "") ∧
  (MQTTBrokerURL c ≠ "" → is_Ok (url_Parse (MQTTBrokerURL c)) = true) ∧
  is_Ok (url_Parse (SidecarURL c)) = true ∧
  HAObjectIDPrefix c ≠ "" ∧ all_chars slug_char (HAObjectIDPrefix c) = true ∧
  1 ≤ InverterPort c ≤ 65535 ∧ 0 < InverterSocketTimeout c < 2 ^ 63 ∧
  0 ≤ SidecarStartupTimeout c < 2 ^ 63 ∧ 5 * Second ≤ PollInterval c < 2 ^ 63 ∧
  0 ≤ PollMaxRetries c < 2 ^ 63 ∧ 1 ≤ FailureThreshold c < 2 ^ 63 ∧
  0 < RTCDriftThreshold c < 2 ^ 63 ∧ is_Ok (ParseToUWindow (TOUWindow c)) = true.
Proof.
  intros HL. pose proof (Load_cases env) as Hc. rewrite HL in Hc. destruct Hc as [-> Hb].
  unfold config_of; cbn [Mode InverterIP InverterSerial InverterPort InverterSocketTimeout SidecarURL
    SidecarStartupTimeout PollInterval PollMaxRetries FailureThreshold RTCDriftThreshold MQTTBrokerURL
    HAObjectIDPrefix TOUWindow]. fold (mode_of env).
  assert (Htrue : ∀ b key, (b = false → bad env key) → b = true).
  { intros [] key Hk; [done|]. by destruct (Hb key (Hk eq_refl)). }
  assert (Hne : ∀ s key, (s = "" → bad env key) → s ≠ "").
  { intros s key Hk Es. by apply (Hb key), Hk. }
  pose proof (parseInt_range env) as Hint. pose proof (parseDuration_range env) as Hdur.
  pose proof (parseSeconds_range env) as Hsec. unfold is_int64 in Hint, Hdur, Hsec.
  assert (objectIDPrefixPattern (getEnv env "HA_OBJECT_ID_PREFIX" DefaultObjectIDPrefix) = true) as Hs.
  { eapply Htrue, bad_prefix. }
  unfold objectIDPrefixPattern in Hs. apply andb_prop in Hs as [Hs1 Hs2].
  apply negb_true_iff, bool_decide_eq_false in Hs1.
  assert (Hgood : ∀ {A} (p : A * option error) (good : A → Prop) key `{!∀ x, Decision (good x)},
    (outside (ok_value p) good → bad env key) → good p.1).
  { intros A p good key Hd Hk. apply good_value; [done|]. intros Ho. by apply (Hb key), Hk. }
  repeat match goal with |- _ ∧ _ => split end; try done.
  - destruct (decide (mode_of env = "mock")); [by left|right].
    destruct (decide (mode_of env = "live")) as [Hl|Hl].
    + split; [done|]. split_and!; eapply Hne; intros He; by constructor.
    + destruct (Hb "MODE"). constructor. rewrite !elem_of_cons, elem_of_nil. naive_solver.
  - intros Hne'. eapply Htrue. by apply bad_broker.
  - eapply Htrue, bad_sidecar.
  - apply (Hgood _ _ (λ p, 1 ≤ p ≤ 65535) _ _ (bad_port env)).
  - apply (Hgood _ _ (λ p, 1 ≤ p ≤ 65535) _ _ (bad_port env)).
  - apply (Hgood _ _ (λ d, 0 < d) _ _ (bad_socket env)).
  - apply Hsec. done.
  - apply (Hgood _ _ (λ d, 0 ≤ d) _ _ (bad_startup env)).
  - apply Hdur. done.
  - apply (Hgood _ _ (λ d, 5 * Second ≤ d) _ _ (bad_interval env)).
  - apply Hdur. done.
  - apply (Hgood _ _ (λ n, 0 ≤ n) _ _ (bad_retries env)).
  - apply Hint. done.
  - apply (Hgood _ _ (λ n, 1 ≤ n) _ _ (bad_threshold env)).
  - apply Hint. done.
  - apply (Hgood _ _ (λ d, 0 < d) _ _ (bad_drift env)).
  - apply Hdur. done.
  - eapply Htrue, bad_tou.
Qed.

(** The configuration with other secrets. *)
Definition with_secrets (serial password : string) (c : Config) : Config := {|
  Mode := Mode c; InverterIP := InverterIP c; InverterSerial := serial; InverterPort := InverterPort c;
  InverterSocketTimeout := InverterSocketTimeout c; SidecarURL := SidecarURL c;
  SidecarStartupTimeout := SidecarStartupTimeout c; PollInterval := PollInterval c;
  PollMaxRetries := PollMaxRetries c; FailureThreshold := FailureThreshold c;
  RTCSyncEnabled := RTCSyncEnabled c; RTCDriftThreshold := RTCDriftThreshold c;
  MQTTBrokerURL := MQTTBrokerURL c; MQTTUsername := MQTTUsername c; MQTTPassword := password;
  MQTTClientID := MQTTClientID c; MQTTTopicPrefix := MQTTTopicPrefix c;
  HADiscoveryPrefix := HADiscoveryPrefix c; HAObjectIDPrefix := HAObjectIDPrefix c;
  ControlsEnabled := ControlsEnabled c; TOUWindow := TOUWindow c; TOUWindowSet := TOUWindowSet c;
  HealthAddr := HealthAddr c; LogLevel := LogLevel c; LogFormat := LogFormat c |}.

(** C25: Printing leaks no secret.  Two configurations that differ only in the values
    of the serial and the password, each set in both or unset in both, print the same
    text and log the same attributes. *)
Theorem secrets_redacted (c : Config) (serial serial' password password' : string) :
  (serial = "" ↔ serial' = "") → (password = "" ↔ password' = "") →
  Config_String (with_secrets serial password c) = Config_String (with_secrets serial' password' c) ∧
  LogValue (with_secrets serial password c) = LogValue (with_secrets serial' password' c).
Proof.
  intros Hs Hp.
  assert (∀ a b, (a = "" ↔ b = "") → redactSecret a = redactSecret b ∧
    (if bool_decide (a ≠ "") then redacted else "") = (if bool_decide (b ≠ "") then redacted else "")) as H.
  { intros a b Hab. unfold redactSecret. repeat case_bool_decide; naive_solver. }
  destruct (H _ _ Hs) as [Hs1 Hs2], (H _ _ Hp) as [Hp1 Hp2]. split.
  - unfold Config_String. cbn [InverterSerial MQTTPassword with_secrets]. rewrite Hs2, Hp2. reflexivity.
  - unfold LogValue. cbn [InverterSerial MQTTPassword with_secrets]. rewrite Hs1, Hp1. reflexivity.
Qed.

(** A bare integer as INVERTER_SOCKET_TIMEOUT.  It is taken as that many seconds
    modulo 64 bits: exactly up to 9223372036, and beyond that it wraps, so that some
    absurdly long timeouts are silently accepted as short ones. *)
Theorem socket_timeout_seconds (env : Env) (n : Z) :
  Atoi (Getenv env "INVERTER_SOCKET_TIMEOUT") = Ok n →
  let parsed := parseDurationOrSeconds env "INVERTER_SOCKET_TIMEOUT" (10 * Second) in
  parsed.2 = None ∧ parsed.1 = to_int64 (n * Second) ∧
  (Z.abs n ≤ 9223372036 → parsed.1 = n * Second) ∧
  (n = 18446744074 → parsed.1 = 290448384).
Proof.
  intros Hn. cbv zeta. unfold parseDurationOrSeconds. case_bool_decide as He.
  { by rewrite He in Hn. }
  rewrite Hn. cbn [fst snd]. split; [done|]. split; [done|]. split.
  - intros Hr. unfold Second, Millisecond. rewrite Z.abs_le in Hr. unfold to_int64.
    destruct (Z.le_gt_cases 0 n); [apply signed_small; lia|].
    unfold signed. case_match; Z.div_mod_to_equations; lia.
  - by intros ->.
Qed.

(** ** A mock environment *)

Definition env_of (l : list (string * string)) : Env := λ key, (list_to_map l : gmap string string) !! key.

Definition mock_env : Env := env_of [("MODE", "Mock"); ("INVERTER_SOCKET_TIMEOUT", "18446744074");
  ("POLL_INTERVAL", "1m30s"); ("TOU_WINDOW", "")].

Lemma loaded_valid_witness : ∃ c, Load (H := demo_url) mock_env = Ok c ∧
  PollInterval c = 90 * Second ∧ 5 * Second ≤ PollInterval c < 2 ^ 63.
Proof.
  destruct (Load (H := demo_url) mock_env) as [c|e] eqn:E; [|exfalso; vm_compute in E; discriminate E].
  exists c. split; [reflexivity|].
  split; [revert E; unfold Load; vm_compute; by intros [= <-]|].
  by destruct (loaded_valid (H := demo_url) mock_env c E) as (_ & _ & _ & _ & _ & _ & _ & _ & Hp & _).
Defined.

Lemma secrets_redacted_witness :
  ("1234" = "" ↔ "5678" = "") ∧
  Config_String (with_secrets "1234" "" (config_of mock_env)) =
    Config_String (with_secrets "5678" "" (config_of mock_env)).
Proof.
  split; [by split|].
  exact (proj1 (secrets_redacted (config_of mock_env) "1234" "5678" "" ""
    ltac:(by split) ltac:(by split))).
Defined.

(** The wrapped timeout passes the check that it be positive. *)
Lemma socket_timeout_seconds_witness :
  (∃ c, Load (H := demo_url) mock_env = Ok c) ∧
  (parseDurationOrSeconds mock_env "INVERTER_SOCKET_TIMEOUT" (10 * Second)).1 = 290448384.
Proof.
  split.
  - eexists. vm_compute. reflexivity.
  - destruct (socket_timeout_seconds mock_env 18446744074 ltac:(vm_compute; reflexivity)) as (_ & _ & _ & H).
    exact (H eq_refl).
Defined.

(** [parseBool] is not as case-insensitive as its comment says. *)
Example bool_case : is_Ok (ParseBool "tRUE") = false.
Proof. reflexivity. Qed.

(** A fraction of a second without a unit is no duration here. *)
Example fraction_rejected :
  is_Some (parseDurationOrSeconds (env_of [("INVERTER_SOCKET_TIMEOUT", "1.5")]) "INVERTER_SOCKET_TIMEOUT" 0).2.
Proof. vm_compute. eauto. Qed.

(** MODE unset is live. *)
Example mode_default : Mode (config_of (env_of [])) = "live".
Proof. vm_compute. reflexivity. Qed.
