(* ===== verification/PyText.v ===== *)
(** * Text of Python's standard library

    What the sidecar's settings are read with: [str.strip], [str.lower], [int] and
    [float].  A [str] is the bytes of its UTF-8 encoding; the tables are those of
    Unicode 15.0, which Python 3.12 has. *)

From Stdlib Require Import Ascii.
From S2P Require Import Prelude GoInt GoString GoFloat GoParse FloatFacts FloatExact SidecarServer Config.

(** ** str *)

(** [str.isspace] takes what [unicode.IsSpace] takes, and four separators of ASCII. *)
Definition py_space_runes : list string := space_runes ++ map (λ n, bytes [n]) [28; 29; 30; 31].

Definition trim (runes : list string) (s : string) : string :=
  let l := trim_left (String.length s) runes s in
  String.rev (trim_left (String.length l) (map String.rev runes) (String.rev l)).

Definition py_strip (s : string) : string := trim py_space_runes s.

(** [s.lower()], as far as a comparison of the result with an ASCII literal sees it.
    Of the two runes beyond ASCII that Go maps to ASCII letters Python does that with
    the Kelvin sign only: the lower case of U+0130 keeps a combining dot. *)
Fixpoint py_lower (s : string) : string :=
  match s with
  | EmptyString => ""
  | String c s' =>
      match s' with
      | String d (String e s''') =>
          if (code c =? 226) && (code d =? 132) && (code e =? 170)
          then String "k" (py_lower s''')
          else String (lower_byte c) (py_lower s')
      | _ => String (lower_byte c) (py_lower s')
      end
  end.

(** ** Digits beyond ASCII

    [int] and [float] read any decimal digit and any space: both are first brought to
    ASCII, and what has no such form fails to parse. *)

(** The zeros of the decimal digits beyond ASCII; the other nine follow each. *)
Definition digit_zeros : list Z := [
  1632; 1776; 1984; 2406; 2534; 2662; 2790; 2918; 3046; 3174; 3302; 3430; 3558; 3664; 3792;
  3872; 4160; 4240; 6112; 6160; 6470; 6608; 6784; 6800; 6992; 7088; 7232; 7248; 42528; 43216;
  43264; 43472; 43504; 43600; 44016; 65296; 66720; 68912; 69734; 69872; 69942; 70096; 70384;
  70736; 70864; 71248; 71360; 71472; 71904; 72016; 72784; 73040; 73120; 73552; 92768; 92864;
  93008; 120782; 120792; 120802; 120812; 120822; 123200; 123632; 124144; 125264; 130032].

(** The UTF-8 encoding of a code point beyond ASCII. *)
Definition utf8 (n : Z) : string :=
  if n <? 2048 then bytes [192 + n / 64; 128 + n mod 64]
  else if n <? 65536 then bytes [224 + n / 4096; 128 + n / 64 mod 64; 128 + n mod 64]
  else bytes [240 + n / 262144; 128 + n / 4096 mod 64; 128 + n / 64 mod 64; 128 + n mod 64].

Definition to_ascii_table : list (string * ascii) :=
  map (λ r, (r, " "%char)) (drop 6 space_runes)
  ++ (digit_zeros ≫= λ z, (λ d, (utf8 (z + d), digit_char d)) <$> seqZ 0 10).

Fixpoint strip_entry (table : list (string * ascii)) (s : string) : option (ascii * string) :=
  match table with
  | [] => None
  | (k, a) :: table => match strip_prefix k s with Some s' => Some (a, s') | None => strip_entry table s end
  end.

(** A rune takes at least a byte, so the length is enough fuel. *)
Fixpoint to_ascii_loop (fuel : nat) (s : string) : string :=
  match fuel with
  | O => s
  | S fuel =>
      match strip_entry to_ascii_table s with
      | Some (a, s') => String a (to_ascii_loop fuel s')
      | None => match s with EmptyString => "" | String c s' => String c (to_ascii_loop fuel s') end
      end
  end.
Definition to_ascii (s : string) : string := to_ascii_loop (String.length s) s.

(** ** int *)

Definition py_space (c : ascii) : bool := ((9 <=? code c) && (code c <=? 13)) || (code c =? 32).

Fixpoint skip_spaces (s : string) : string :=
  match s with String c s' => if py_space c then skip_spaces s' else s | EmptyString => s end.

(** Digits with single underscores between them: their value, their number, and the
    rest.  [None] is an underscore out of place, or no digit. *)
Fixpoint int_digits (n count : Z) (need : bool) (s : string) : option (Z * Z * string) :=
  match s with
  | EmptyString => if need then None else Some (n, count, s)
  | String c s' =>
      if decide (c = "_"%char) then if need then None else int_digits n count true s'
      else match digit_val c with
           | Some d => int_digits (n * 10 + d) (count + 1) false s'
           | None => if need then None else Some (n, count, s)
           end
  end.

(** [sys.get_int_max_str_digits()] *)
Definition max_str_digits : Z := 4300.

(** [int(s)]; the error is the text of the ValueError. *)
Definition py_int (s : string) : result Z :=
  let literal := Errorf ("invalid literal for int() with base 10: " +:+ repr s) in
  let '(neg, body) := cut_sign (skip_spaces (to_ascii s)) in
  match int_digits 0 0 true body with
  | None => Err literal
  | Some (n, count, rest) =>
      if max_str_digits <? count then
        Err (Errorf ("Exceeds the limit (" +:+ pretty max_str_digits +:+ " digits) for integer string conversion: value has "
                     +:+ pretty count +:+ " digits; use sys.set_int_max_str_digits() to increase the limit"))
      else if bool_decide (skip_spaces rest = "") then Ok (if neg : bool then - n else n)
      else Err literal
  end.

(** ** float *)

Definition strip_spaces (s : string) : string :=
  String.rev (skip_spaces (String.rev (skip_spaces s))).

(** Underscores go, and only stand between digits. *)
Fixpoint drop_underscores (prev : saw) (s : string) : option string :=
  match s with
  | EmptyString => match prev with SawUnder => None | _ => Some "" end
  | String c s' =>
      if decide (c = "_"%char) then
        match prev with SawDigit => drop_underscores SawUnder s' | _ => None end
      else match digit_val c, prev with
           | None, SawUnder => None
           | Some _, _ => String c <$> drop_underscores SawDigit s'
           | None, _ => String c <$> drop_underscores SawOther s'
           end
  end.

Definition py_special (s : string) : option float64 :=
  let '(neg, s1) := cut_sign s in
  if bool_decide (lower_string s1 ∈ ["inf"; "infinity"]) then Some (S754_infinity neg)
  else if bool_decide (lower_string s1 = "nan") then Some S754_nan
  else None.

Fixpoint exp_digits (e : Z) (s : string) : Z * string :=
  match s with
  | EmptyString => (e, s)
  | String c s' => match digit_val c with Some d => exp_digits (e * 10 + d) s' | None => (e, s) end
  end.

(** What follows the digits: nothing, or an exponent. *)
Definition py_exp (s : string) : option Z :=
  match s with
  | EmptyString => Some 0
  | String c s' =>
      if negb (code (lower_byte c) =? 101) then None
      else let '(eneg, s'') := cut_sign s' in
           if bool_decide (s'' = "") then None
           else let '(e, rest) := exp_digits 0 s'' in
                if bool_decide (rest = "") then Some (if eneg : bool then - e else e) else None
  end.

(** [float(s)]: [None] is a ValueError; past the largest float it is an infinity. *)
Definition py_float (s : string) : option float64 :=
  t ← drop_underscores SawStart (strip_spaces (to_ascii s));
  match py_special t with
  | Some x => Some x
  | None =>
      let '(neg, s1) := cut_sign t in
      let '(st, s2) := scan_digits false scan0 s1 in
      if negb (sc_digits st) then None
      else
        e ← py_exp s2;
        Some (match sc_mant st with
              | Zpos p => round_dec neg p (e - sc_frac st)
              | _ => S754_zero neg
              end)
  end.

(** ** Lemmas on strings *)

Lemma rev_app_spec s t : String.rev_app s t = String.rev s +:+ t.
Proof.
  revert t. induction s as [|c s IH]; intros t; [done|]. unfold String.rev. cbn [String.rev_app].
  rewrite (IH (String c t)), (IH (String c "")), str_app_assoc. by rewrite str_app_cons, str_app_nil.
Qed.
Lemma rev_cons c s : String.rev (String c s) = String.rev s +:+ String c "".
Proof. unfold String.rev at 1. cbn [String.rev_app]. apply rev_app_spec. Qed.
Lemma str_nil_r s : s +:+ "" = s.
Proof. induction s as [|c s IH]; [done|]. by rewrite str_app_cons, IH. Qed.
Lemma rev_str_app s t : String.rev (s +:+ t) = String.rev t +:+ String.rev s.
Proof.
  induction s as [|c s IH]; [by rewrite str_app_nil, str_nil_r|].
  by rewrite str_app_cons, !rev_cons, IH, str_app_assoc.
Qed.
Lemma rev_involutive s : String.rev (String.rev s) = s.
Proof. induction s as [|c s IH]; [done|]. by rewrite rev_cons, rev_str_app, IH. Qed.
Lemma str_length_app s t : String.length (s +:+ t) = (String.length s + String.length t)%nat.
Proof. induction s as [|c s IH]; [done|]. rewrite str_app_cons. cbn. by rewrite IH. Qed.
Lemma rev_length s : String.length (String.rev s) = String.length s.
Proof. induction s as [|c s IH]; [done|]. rewrite rev_cons, str_length_app, IH. cbn. lia. Qed.

Lemma all_chars_app p s t : all_chars p (s +:+ t) = all_chars p s && all_chars p t.
Proof. induction s as [|c s IH]; [done|]. rewrite str_app_cons. cbn. by rewrite IH, andb_assoc. Qed.
Lemma all_chars_rev p s : all_chars p (String.rev s) = all_chars p s.
Proof.
  induction s as [|c s IH]; [done|]. rewrite rev_cons, all_chars_app, IH. cbn.
  by rewrite andb_true_r, andb_comm.
Qed.
Lemma all_chars_impl (p q : ascii → bool) s : (∀ c, p c = true → q c = true) → all_chars p s = true → all_chars q s = true.
Proof. intros H. induction s as [|c s IH]; [done|]. cbn. intros [Hc Hs]%andb_true_iff. by rewrite (H c Hc), IH. Qed.

Lemma strip_prefix_app p s t : strip_prefix p s = Some t → s = p +:+ t.
Proof.
  revert s. induction p as [|a p IH]; intros s; [by intros [= ->]|]. destruct s as [|b s]; cbn; [done|].
  case_decide as Hab; [|done]. intros H%IH. subst a. by rewrite str_app_cons, H.
Qed.

(** ** Plain text

    Visible ASCII: nothing in it is a space or beyond ASCII. *)

Definition plain (c : ascii) : bool := (33 <=? code c) && (code c <=? 126).

Definition head_plain (s : string) : bool := match s with String c _ => plain c | EmptyString => true end.

Lemma strip_plain_head k s : head_plain s = true → head_plain k = false → strip_prefix k s = None.
Proof.
  destruct k as [|a k]; [done|]. destruct s as [|b s]; [done|]. cbn. intros Hb Ha.
  case_decide as Hab; [|done]. subst b. by rewrite Hb in Ha.
Qed.

Lemma trim_left_plain n runes s : head_plain s = true → forallb (λ r, negb (head_plain r)) runes = true →
  trim_left n runes s = s.
Proof.
  intros Hs Hr. assert (strip_any runes s = None) as E.
  { induction runes as [|r runes IH]; [done|]. cbn in Hr |- *. apply andb_true_iff in Hr as [H1 H2].
    apply negb_true_iff in H1. by rewrite (strip_plain_head r s Hs H1), IH. }
  destruct n; [done|]. cbn. by rewrite E.
Qed.

Lemma py_heads : forallb (λ r, negb (head_plain r)) py_space_runes = true.
Proof. vm_compute. reflexivity. Qed.
Lemma py_tails : forallb (λ r, negb (head_plain r)) (map String.rev py_space_runes) = true.
Proof. vm_compute. reflexivity. Qed.
Lemma table_heads : forallb (λ '(k, _), negb (head_plain k)) to_ascii_table = true.
Proof. vm_compute. reflexivity. Qed.

Lemma all_head s : all_chars plain s = true → head_plain s = true.
Proof. destruct s as [|c s]; [done|]. by intros [Hc _]%andb_true_iff. Qed.

Lemma py_strip_plain s : all_chars plain s = true → py_strip s = s.
Proof.
  intros H. unfold py_strip, trim. rewrite (trim_left_plain _ _ s (all_head _ H) py_heads).
  rewrite trim_left_plain; [apply rev_involutive| |exact py_tails].
  apply all_head. by rewrite all_chars_rev.
Qed.

Lemma to_ascii_plain s : all_chars plain s = true → to_ascii s = s.
Proof.
  unfold to_ascii. assert (∀ n, all_chars plain s = true → to_ascii_loop n s = s) as H; [|by apply H].
  induction s as [|c s IH]; intros [|n] Hs; [done..|]. cbn [to_ascii_loop].
  assert (strip_entry to_ascii_table (String c s) = None) as ->.
  { pose proof table_heads as Ht. induction to_ascii_table as [|[k a] t IHt]; [done|]. cbn [strip_entry forallb] in *.
    apply andb_true_iff in Ht as [H1%negb_true_iff H2].
    by rewrite (strip_plain_head k _ (all_head _ Hs) H1), IHt. }
  apply andb_true_iff in Hs as [_ Hs]. by rewrite IH.
Qed.

Lemma plain_not_space c : plain c = true → py_space c = false.
Proof. unfold plain, py_space. intros H. apply andb_true_iff in H as [H1%Z.leb_le H2%Z.leb_le]. lia. Qed.

Lemma skip_spaces_plain s : head_plain s = true → skip_spaces s = s.
Proof. destruct s as [|c s]; [done|]. cbn. intros H%plain_not_space. by rewrite H. Qed.

Lemma strip_spaces_plain s : all_chars plain s = true → strip_spaces s = s.
Proof.
  intros H. unfold strip_spaces. rewrite (skip_spaces_plain s (all_head _ H)).
  rewrite skip_spaces_plain; [apply rev_involutive|]. apply all_head. by rewrite all_chars_rev.
Qed.

(** ** Stripping twice

    Where Go's TrimSpace leaves plain text, [str.strip] leaves the same. *)

Lemma strip_any_app A B s s' : strip_any A s = Some s' → strip_any (A ++ B) s = Some s'.
Proof. induction A as [|a A IH]; [done|]. cbn. destruct (strip_prefix a s); [done|]. apply IH. Qed.

Lemma strip_any_shorter A s s' : forallb (λ r, negb (head_plain r)) A = true → strip_any A s = Some s' →
  (String.length s' < String.length s)%nat ∧ ∃ p, s = p +:+ s'.
Proof.
  induction A as [|a A IH]; [done|]. cbn. intros [Ha HA]%andb_true_iff.
  destruct (strip_prefix a s) as [t|] eqn:E; [|by apply IH]. intros [= ->].
  apply strip_prefix_app in E as ->. split; [|by eexists]. rewrite str_length_app. destruct a; [done|]. cbn. lia.
Qed.

Lemma trim_left_fuel A n m s : forallb (λ r, negb (head_plain r)) A = true →
  (String.length s ≤ n)%nat → (String.length s ≤ m)%nat → trim_left n A s = trim_left m A s.
Proof.
  intros HA. revert m s. induction n as [|n IH]; intros m s Hn Hm.
  - destruct s; [|cbn in Hn; lia]. destruct m; [done|]. cbn.
    destruct (strip_any A "") as [s'|] eqn:E; [|done]. apply strip_any_shorter in E as [E _]; [cbn in E; lia|done].
  - destruct m as [|m].
    + destruct s; [|cbn in Hm; lia]. cbn.
      destruct (strip_any A "") as [s'|] eqn:E; [|done]. apply strip_any_shorter in E as [E _]; [cbn in E; lia|done].
    + cbn. destruct (strip_any A s) as [s'|] eqn:E; [|done]. apply strip_any_shorter in E as [E _]; [|done].
      apply IH; lia.
Qed.

Lemma trim_left_app A B n s : forallb (λ r, negb (head_plain r)) (A ++ B) = true → (String.length s ≤ n)%nat →
  trim_left n (A ++ B) s = trim_left n (A ++ B) (trim_left n A s) ∧
  (String.length (trim_left n A s) ≤ String.length s)%nat ∧ ∃ p, s = p +:+ trim_left n A s.
Proof.
  intros HAB. revert s. induction n as [|n IH]; intros s Hn; [split; [done|]; split; [done|by exists ""]|].
  cbn [trim_left]. destruct (strip_any A s) as [s'|] eqn:E; [|split; [done|]; split; [done|by exists ""]].
  rewrite (strip_any_app _ B _ _ E).
  pose proof HAB as HA. rewrite forallb_app in HA. apply andb_true_iff in HA as [HA _].
  destruct (strip_any_shorter _ _ _ HA E) as [Hl [p ->]]. destruct (IH s') as (H1 & H2 & q & H3); [lia|]. split; [|split].
  - rewrite H1. change (match strip_any (A ++ B) (trim_left n A s') with Some u => trim_left n (A ++ B) u | None => trim_left n A s' end)
      with (trim_left (S n) (A ++ B) (trim_left n A s')). apply trim_left_fuel; [done|lia..].
  - lia.
  - exists (p +:+ q). rewrite str_app_assoc. by f_equal.
Qed.

Lemma py_strip_TrimSpace s : all_chars plain (TrimSpace s) = true → TrimSpace s ≠ "" → py_strip s = TrimSpace s.
Proof.
  intros Hp Hne. unfold py_strip, trim.
  set (E := map (λ n, bytes [n]) [28; 29; 30; 31]). set (l := trim_left (String.length s) space_runes s).
  set (r := trim_left (String.length l) (map String.rev space_runes) (String.rev l)).
  assert (TrimSpace s = String.rev r) as Ht by done. rewrite Ht in *.
  destruct (trim_left_app space_runes E (String.length s) s py_heads ltac:(done)) as (H1 & H2 & _). fold l in H1, H2.
  pose proof py_tails as Htl. unfold py_space_runes in Htl. fold E in Htl. rewrite map_app in Htl.
  destruct (trim_left_app _ _ (String.length l) (String.rev l) Htl ltac:(rewrite rev_length; lia)) as (H3 & _ & p & H5).
  fold r in H3, H5.
  assert (trim_left (String.length s) py_space_runes s = l) as ->.
  { unfold py_space_runes. fold E. rewrite H1. apply trim_left_plain; [|exact py_heads].
    rewrite <- (rev_involutive l), H5, rev_str_app. destruct (String.rev r) as [|c u]; [done|].
    rewrite str_app_cons. cbn. by apply andb_true_iff in Hp as [? _]. }
  unfold py_space_runes. fold E. rewrite map_app, H3, trim_left_plain; [done| |exact Htl].
  apply all_head. by rewrite <- all_chars_rev.
Qed.

(** ** Digits *)

Definition is_digit (c : ascii) : bool := match digit_val c with Some _ => true | None => false end.
Definition all_digits (s : string) : bool := all_chars is_digit s.

(** The number the digits write, after [n]. *)
Fixpoint dec (n : Z) (s : string) : Z :=
  match s with
  | EmptyString => n
  | String c s => dec (n * 10 + default 0 (digit_val c)) s
  end.

Lemma digit_code c : is_digit c = true → 48 ≤ code c ≤ 57.
Proof.
  unfold is_digit, digit_val. destruct ((48 <=? code c) && (code c <=? 57)) eqn:E; [|done].
  apply andb_true_iff in E as [E1%Z.leb_le E2%Z.leb_le]. lia.
Qed.
Lemma digit_plain c : is_digit c = true → plain c = true.
Proof. intros H%digit_code. unfold plain. apply andb_true_iff. rewrite !Z.leb_le. lia. Qed.
Lemma digit_not c x : is_digit c = true → is_digit x = false → c ≠ x.
Proof. by intros H1 H2 ->; rewrite H1 in H2. Qed.
Lemma digits_plain s : all_digits s = true → all_chars plain s = true.
Proof. apply all_chars_impl, digit_plain. Qed.

Lemma is_digit_val c : is_digit c = true → ∃ d, digit_val c = Some d ∧ 0 ≤ d < 10.
Proof.
  unfold is_digit. destruct (digit_val c) as [d|] eqn:E; [|done]. exists d. split; [done|].
  by apply digit_val_Some in E as [? _].
Qed.

Lemma dec_le n s : 0 ≤ n → all_digits s = true → n ≤ dec n s.
Proof.
  revert n. induction s as [|c s IH]; intros n Hn; [done|]. cbn. intros [Hc Hs]%andb_true_iff.
  apply is_digit_val in Hc as (d & -> & Hd). cbn. specialize (IH (n * 10 + d) ltac:(lia) Hs). lia.
Qed.

Lemma parse_uint_dec max n s m : parse_uint_loop max n s = Ok m → all_digits s = true ∧ m = dec n s.
Proof.
  revert n. induction s as [|c s IH]; intros n; [by intros [= ->]|]. cbn.
  unfold is_digit. destruct (digit_val c) as [d|]; [|done]. destruct (max <? n * 10 + d); [done|]. apply IH.
Qed.

Lemma cut_sign_app s : ∃ p, s = p +:+ (cut_sign s).2 ∧ p ∈ [""; "+"; "-"] ∧ (cut_sign s).1 = bool_decide (p = "-").
Proof.
  assert (∀ p x, s = p +:+ x.2 → (p = "" ∨ p = "+" ∨ p = "-") → x.1 = bool_decide (p = "-") →
    ∃ p, s = p +:+ x.2 ∧ p ∈ [""; "+"; "-"] ∧ x.1 = bool_decide (p = "-")) as H.
  { intros p x E Hp Ex. exists p. rewrite !elem_of_cons. naive_solver. }
  destruct s as [|c s]; [by apply (H ""); auto|]. unfold cut_sign.
  destruct c as [[] [] [] [] [] [] [] []];
    solve [apply (H ""); auto | apply (H "+"); auto | apply (H "-"); auto].
Qed.

Lemma Atoi_digits s n : Atoi s = Ok n →
  ∃ p ds, s = p +:+ ds ∧ p ∈ [""; "+"; "-"] ∧ cut_sign s = (bool_decide (p = "-"), ds) ∧ ds ≠ "" ∧
    all_digits ds = true ∧ n = if bool_decide (p = "-") then - dec 0 ds else dec 0 ds.
Proof.
  unfold Atoi. destruct (cut_sign_app s) as (p & Es & Hp & Hneg). destruct (cut_sign s) as [neg ds]; cbn in *. subst neg.
  rewrite wrap_err_Ok. destruct ds as [|c ds]; [done|]. intros (m & [Hd ->]%parse_uint_dec & H)%bind_Ok_inv.
  exists p, (String c ds). split_and!; try done. by case_bool_decide; injection H as <-.
Qed.

Lemma signed_plain p ds : p ∈ [""; "+"; "-"] → all_digits ds = true → all_chars plain (p +:+ ds) = true.
Proof.
  intros Hp Hd%digits_plain. rewrite all_chars_app, Hd, andb_true_r.
  rewrite !elem_of_cons, elem_of_nil in Hp. by destruct Hp as [->|[->|[->|[]]]].
Qed.

Lemma int_digits_all n k need s : all_digits s = true → (need = true → s ≠ "") →
  int_digits n k need s = Some (dec n s, k + len s, "").
Proof.
  revert n k need. induction s as [|c s IH]; intros n k need.
  - intros _ Hne. cbn. destruct need; [by destruct Hne|]. unfold len. cbn. by rewrite Z.add_0_r.
  - cbn. intros [Hc Hs]%andb_true_iff _. rewrite decide_False by (by apply (digit_not c)).
    apply is_digit_val in Hc as (d & -> & _). rewrite IH by done. unfold len. cbn. do 3 f_equal. lia.
Qed.

(** Within the limit on digits, [int] reads what Atoi reads. *)
Lemma py_int_Atoi s n : Atoi s = Ok n → len s ≤ max_str_digits → py_int s = Ok n.
Proof.
  intros (p & ds & Es & Hp & Hc & Hne & Hd & ->)%Atoi_digits Hl. pose proof (signed_plain p ds Hp Hd) as Hpl.
  rewrite <- Es in Hpl. unfold py_int. rewrite (to_ascii_plain s Hpl), skip_spaces_plain by (by apply all_head).
  rewrite Hc, int_digits_all by done. rewrite (proj2 (Z.ltb_ge _ _)).
  - rewrite (bool_decide_eq_true_2 (skip_spaces "" = "")) by done. done.
  - revert Hl. unfold len. rewrite Es, str_length_app. lia.
Qed.

(** *** float of digits *)

Definition no_underscore (c : ascii) : bool := negb (bool_decide (c = "_"%char)).

Lemma drop_underscores_none w s : all_chars no_underscore s = true → w ≠ SawUnder → drop_underscores w s = Some s.
Proof.
  revert w. induction s as [|c s IH]; intros w; [by destruct w|]. cbn [all_chars drop_underscores].
  intros [Hc Hs]%andb_true_iff Hw. unfold no_underscore in Hc. apply negb_true_iff, bool_decide_eq_false in Hc.
  rewrite decide_False by done. destruct (digit_val c); [by rewrite IH|]. by destruct w; rewrite ?IH.
Qed.

Lemma scan_digits_all m dg s rest : all_digits s = true →
  (match rest with String c _ => negb (is_digit c) && no_underscore c && negb (bool_decide (c = "."%char)) | _ => true end) = true →
  scan_digits false {| sc_mant := m; sc_frac := 0; sc_dot := false; sc_digits := dg; sc_under := false |} (s +:+ rest)
  = ({| sc_mant := dec m s; sc_frac := 0; sc_dot := false; sc_digits := dg || negb (bool_decide (s = ""));
        sc_under := false |}, rest).
Proof.
  revert m dg. induction s as [|c s IH]; intros m dg.
  - intros _ Hr. rewrite str_app_nil, orb_false_r. destruct rest as [|c rest]; [done|]. cbn.
    apply andb_true_iff in Hr as [[Hd%negb_true_iff Hu%negb_true_iff%bool_decide_eq_false]%andb_true_iff Hp%negb_true_iff%bool_decide_eq_false].
    rewrite !decide_False by done. unfold is_digit in Hd. by destruct (digit_val c).
  - rewrite str_app_cons. cbn [all_digits all_chars scan_digits]. intros [Hc Hs]%andb_true_iff Hr.
    rewrite !decide_False by (by apply (digit_not c)). pose proof (is_digit_val c Hc) as (d & E & _). rewrite E.
    cbn [sc_mant sc_frac sc_dot sc_digits sc_under]. rewrite IH by done. cbn [dec]. rewrite E. cbn. by rewrite orb_true_r.
Qed.

Lemma lower_digit c : is_digit c = true → lower_byte c = c.
Proof. intros H%digit_code. unfold lower_byte. destruct (Z.leb_spec 65 (code c)); [lia|done]. Qed.

Lemma cut_sign_digit c s : is_digit c = true → cut_sign (String c s) = (false, String c s).
Proof. intros H. destruct c as [[] [] [] [] [] [] [] []]; done. Qed.

Lemma special_digit c s : is_digit c = true → py_special (String c s) = None.
Proof.
  intros H. unfold py_special. rewrite cut_sign_digit by done. cbn [lower_string]. rewrite lower_digit by done.
  rewrite !bool_decide_eq_false_2; [done| |]; rewrite ?elem_of_cons, ?elem_of_nil; intros E;
    repeat destruct E as [E|E]; try done; injection E as ->; done.
Qed.

(** Digits, then something that is not part of a number. *)
Lemma py_float_start c ds rest : all_digits (String c ds) = true →
  all_chars plain (String c ds +:+ rest) = true → all_chars no_underscore (String c ds +:+ rest) = true →
  (match rest with String c _ => negb (is_digit c) && no_underscore c && negb (bool_decide (c = "."%char)) | _ => true end) = true →
  py_float (String c ds +:+ rest) = e ← py_exp rest;
    Some (match dec 0 (String c ds) with Zpos p => round_dec false p e | _ => S754_zero false end).
Proof.
  intros Hd Hp Hu Hr. unfold py_float. rewrite (to_ascii_plain _ Hp), (strip_spaces_plain _ Hp), drop_underscores_none by done.
  pose proof Hd as Hc. cbn in Hc. apply andb_true_iff in Hc as [Hc _]. rewrite str_app_cons.
  cbn [mbind option_bind]. rewrite special_digit, cut_sign_digit by done. rewrite <- str_app_cons.
  unfold scan0. rewrite scan_digits_all by done. cbn [sc_digits sc_mant sc_frac orb].
  rewrite bool_decide_eq_false_2 by done. cbn [negb]. destruct (py_exp rest) as [e|]; [|done].
  cbn [mbind option_bind]. by rewrite Z.sub_0_r.
Qed.

Lemma digits_no_underscore s : all_digits s = true → all_chars no_underscore s = true.
Proof.
  apply all_chars_impl. intros c Hc. unfold no_underscore. apply negb_true_iff, bool_decide_eq_false. by apply (digit_not c).
Qed.

Lemma py_float_digits s : all_digits s = true → s ≠ "" → dec 0 s < 2 ^ 53 → py_float s = Some (of_int (dec 0 s)).
Proof.
  intros Hd Hne Hs. destruct s as [|c s]; [done|]. rewrite <- (str_nil_r (String c s)) at 1.
  rewrite py_float_start; rewrite ?str_nil_r; [|done|by apply digits_plain|by apply digits_no_underscore|done].
  cbn [py_exp mbind option_bind]. f_equal. pose proof (dec_le 0 _ ltac:(lia) Hd) as H0.
  destruct (dec 0 (String c s)) as [|p|p]; [done|by apply round_dec_int|lia].
Qed.
