(* ===== verification/SidecarConfig.v ===== *)
(** * The sidecar's settings and entry point (src/sidecar/config.py, __main__.py, Python)

    The sidecar reads the environment the manager reads.  [load] is its own reading of
    it, [main] its life from there: the fixtures of the mock or the arguments of the
    Solarman library, the listening socket, the requests until it is interrupted.  The
    last part is about the two readings: where the manager is satisfied, the sidecar
    takes the same settings from the same variables. *)

From Stdlib Require Import Ascii.
From S2P Require Import Prelude GoInt GoString GoTime GoFloat GoParse FloatFacts FloatExact Json GoHttp.
From S2P Require Import SidecarServer Config PyText.

(** ** Durations *)

(** The alternatives of [_GO_DURATION_RE] in their order, with their values. *)
Definition _GO_DURATION_UNITS : list (string * float64) := [
  ("ns", round_dec false 1 (-9)); ("us", round_dec false 1 (-6)); (bytes [194; 181; 115], round_dec false 1 (-6));
  ("ms", round_dec false 1 (-3)); ("s", of_int 1); ("m", of_int 60); ("h", of_int 3600)].

Fixpoint span_digits (s : string) : string * string :=
  match s with
  | EmptyString => ("", "")
  | String c s' => if is_digit c then let '(d, r) := span_digits s' in (String c d, r) else ("", s)
  end.

Fixpoint match_unit (units : list (string * float64)) (s : string) : option (float64 * string) :=
  match units with
  | [] => None
  | (u, x) :: units => match strip_prefix u s with Some r => Some (x, r) | None => match_unit units s end
  end.

(** One match of [_GO_DURATION_RE] at the start: its value in seconds and what follows.
    The digits are those [float] reads, brought to ASCII before. *)
Definition match_component (s : string) : option (float64 * string) :=
  let '(whole, s1) := span_digits s in
  if bool_decide (whole = "") then None
  else
    let '(number, s2) :=
      match s1 with
      | String "." r =>
          let '(frac, r') := span_digits r in
          if bool_decide (frac = "") then (whole, s1) else (whole +:+ "." +:+ frac, r')
      | _ => (whole, s1)
      end in
    '(unit, rest) ← match_unit _GO_DURATION_UNITS s2;
    x ← py_float number;
    Some (fmul x unit, rest).

(** The loop over matches; each takes at least a byte, so the length is enough. *)
Fixpoint duration_matches (fuel : nat) (total : float64) (s : string) : option float64 :=
  match s, fuel with
  | EmptyString, _ => Some total
  | _, O => None
  | _, S fuel =>
      match match_component s with
      | Some (x, rest) => duration_matches fuel (fadd total x) rest
      | None => None
      end
  end.

Definition parse_duration_or_seconds (value : string) (default_seconds : float64) : result float64 :=
  let value := py_strip value in
  if bool_decide (value = "") then Ok default_seconds
  else match py_float value with
       | Some x => Ok x
       | None =>
           let '(negative, body) := match value with String "-" r => (true, r) | _ => (false, value) end in
           let text := to_ascii body in
           match (if bool_decide (text = "") then None else duration_matches (String.length text) (of_int 0) text) with
           | None => Err (Errorf ("invalid duration or seconds: " +:+ repr value))
           | Some total => Ok (if negative : bool then fneg total else total)
           end
       end.

(** ** Addresses *)

(** [addr.rpartition(sep)]: [None] when the separator is missing. *)
Definition rpartition (s : string) (sep : ascii) : option (string * string) :=
  match Cut (String.rev s) sep with
  | Some (after, before) => Some (String.rev before, String.rev after)
  | None => None
  end.

Definition _parse_listen_addr (addr : string) : result (string * Z) :=
  match rpartition addr ":" with
  | None => Err (Errorf ("SIDECAR_LISTEN_ADDR must be host:port, got " +:+ repr addr))
  | Some (host, port) => n ← py_int port; Ok (host, n)
  end.

(** ** Loading *)

Record Config : Type := {
  mode : string;
  inverter_ip : string;
  inverter_serial : string;
  inverter_port : Z;
  socket_timeout : float64;
  listen_host : string;
  listen_port : Z;
  mock_fixtures : list string;
}.

(** The file system: where the package's fixtures are, whether a path is a file (which
    may raise), and what [json.loads] makes of its text. *)
Class Files : Type := {
  _FIXTURE_DIR : string;
  is_file : string → attempt bool;
  json_file : string → attempt json;
}.

Definition env_get (env : Env) (key def : string) : string := default def (env key).
Definition stripped (env : Env) (key : string) : string := py_strip (env_get env key "").

Definition fixture_paths `{Files} (env : Env) : list string :=
  let raw_fixtures := stripped env "MOCK_FIXTURE" in
  if bool_decide (raw_fixtures ≠ "") then
    List.filter (λ p, negb (bool_decide (p = ""))) (py_strip <$> Split raw_fixtures ",")
  else [_FIXTURE_DIR +:+ "/live-snapshot-full-sweep.json"; _FIXTURE_DIR +:+ "/live-snapshot-comprehensive.json"].

Definition listen_addr (env : Env) : string :=
  let v := py_strip (env_get env "SIDECAR_LISTEN_ADDR" ":8081") in
  if bool_decide (v = "") then ":8081" else v.

(** The path is a file, or the complaint. *)
Definition check_fixture `{Files} (path : string) : attempt (list string) :=
  b ← is_file path; Returns (if b : bool then [] else ["MOCK_FIXTURE not found: " +:+ path]).

(** The error is a ConfigError with every complaint. *)
Definition load `{Files} (env : Env) : attempt (result Config) :=
  let mode := py_lower (stripped env "MODE") in
  let mode_errs :=
    if bool_decide (mode = "") then ["MODE is required (mock|live)"]
    else if bool_decide (mode ∈ ["mock"; "live"]) then []
    else ["MODE must be mock or live, got " +:+ repr mode] in
  let inverter_ip := stripped env "INVERTER_IP" in
  let inverter_serial := stripped env "INVERTER_SERIAL" in
  let live_errs :=
    if bool_decide (mode = "live") then
      (if bool_decide (inverter_ip = "") then ["INVERTER_IP is required when MODE=live"] else []) ++
      (if bool_decide (inverter_serial = "") then ["INVERTER_SERIAL is required when MODE=live"] else [])
    else [] in
  let port_raw := stripped env "INVERTER_PORT" in
  let '(inverter_port, port_errs) :=
    if bool_decide (port_raw = "") then (8899, [])
    else match py_int port_raw with
         | Ok n => (n, [])
         | Err _ => (8899, ["INVERTER_PORT must be an integer, got " +:+ repr port_raw])
         end in
  let '(socket_timeout, timeout_errs) :=
    match parse_duration_or_seconds (env_get env "INVERTER_SOCKET_TIMEOUT" "") (of_int 10) with
    | Ok t => (t, if SFleb t (of_int 0) then ["INVERTER_SOCKET_TIMEOUT must be > 0"] else [])
    | Err e => (of_int 10, [error_text e])
    end in
  let '(listen_host, listen_port, listen_errs) :=
    match _parse_listen_addr (listen_addr env) with
    | Ok (host, port) => (host, port, [])
    | Err e => ("", 8081, [error_text e])
    end in
  let mock_fixtures := fixture_paths env in
  fixture_errs ←
    (if bool_decide (mode = "mock") then
       found ← mapM check_fixture mock_fixtures;
       Returns ((if bool_decide (mock_fixtures = []) then ["MOCK_FIXTURE must name at least one fixture"] else [])
                ++ concat found)
     else Returns []);
  match mode_errs ++ live_errs ++ port_errs ++ timeout_errs ++ listen_errs ++ fixture_errs with
  | [] => Returns (Ok {|
      mode := mode; inverter_ip := inverter_ip; inverter_serial := inverter_serial;
      inverter_port := inverter_port; socket_timeout := socket_timeout;
      listen_host := listen_host; listen_port := listen_port; mock_fixtures := mock_fixtures |})
  | errs => Returns (Err (Errorf (Join errs "; ")))
  end.

(** ** Transports *)

(** The entries of a dict made of an object: a repeated key keeps its first place and
    its last value. *)
Fixpoint dict_items (fields : list (string * json)) : list (string * json) :=
  match fields with
  | [] => []
  | (k, v) :: fields =>
      (k, default v (dict_get fields k))
      :: List.filter (λ e, negb (bool_decide (e.1 = k))) (dict_items fields)
  end.

(** [int(value)] of a JSON value. *)
Definition int_of (value : json) : attempt Z :=
  match value with
  | JInt n => Returns n
  | JBool b => Returns (Z.b2z b)
  | JNum x => match trunc x with Some n => Returns n | None => Unhandled "cannot convert float to integer" end
  | JStr s => match py_int s with Ok n => Returns n | Err e => Unhandled (error_text e) end
  | JNull | JArr _ | JObj _ => Unhandled "int() argument must be a string, a bytes-like object or a real number"
  end.

(** [x.get(key, default)] of what should be a dict. *)
Definition get_member (x : json) (key : string) (def : json) : attempt json :=
  match x with
  | JObj fields => Returns (default def (dict_get fields key))
  | _ => Unhandled "object has no attribute 'get'"
  end.

(** What a [for] loop goes over. *)
Definition iterate (x : json) : attempt (list json) :=
  match x with
  | JArr l => Returns l
  | JObj fields => Returns (JStr ∘ fst <$> dict_items fields)
  | JStr s => Returns ((λ c, JStr (String c "")) <$> String.list_ascii_of_string s)
  | _ => Unhandled "object is not iterable"
  end.

(** The words of one fixture, in the order they are stored. *)
Definition fixture_words (data : json) : attempt (list (Z * Z)) :=
  blocks ← get_member data "blocks" (JArr []);
  blocks ← iterate blocks;
  words ← mapM (λ block,
    by_addr ← get_member block "by_addr" (JObj []);
    match by_addr with
    | JObj fields =>
        mapM (λ '(addr, value), a ← int_of (JStr addr); v ← int_of value; Returns (a, v)) (dict_items fields)
    | _ => Unhandled "object has no attribute 'items'"
    end) blocks;
  Returns (concat words).

(** [MockTransport(fixtures)] *)
Definition MockTransport_new `{Files} (fixtures : list string) : attempt MockTransport :=
  words ← mapM (λ path, data ← json_file path; fixture_words data) fixtures;
  Returns (MockTransport_init words).

(** What [LiveTransport] keeps for the Solarman library. *)
Record LiveArgs : Type := { _ip : string; _serial : Z; _port : Z; _socket_timeout : float64 }.

Definition LiveTransport_new (ip serial : string) (port : Z) (timeout : float64) : attempt LiveArgs :=
  n ← int_of (JStr serial);
  Returns {| _ip := ip; _serial := n; _port := port; _socket_timeout := timeout |}.

Definition _build_transport `{Files} (cfg : Config) : attempt (MockTransport + LiveArgs) :=
  if bool_decide (mode cfg = "mock") then
    t ← MockTransport_new (mock_fixtures cfg); Returns (inl t)
  else
    t ← LiveTransport_new (inverter_ip cfg) (inverter_serial cfg) (inverter_port cfg) (socket_timeout cfg);
    Returns (inr t).

(** ** The entry point *)

(** The listening socket: binding it may raise. *)
Class ListenSocket : Type := bind_socket : string → Z → attempt unit.

(** Requests, one at a time as the transport's lock lets them through, until the
    interrupt. *)
Definition serve_forever {D} `{Transport D} (mode : string) (requests : list (string * Request)) : State D (list Response) :=
  mapM (λ '(path, req), serve mode path req) requests.

Section Main.
Context `{Files} `{ListenSocket} {S : Type} (solarman : LiveArgs → PySolarmanV5 S).

(** The exit status and what was answered; anything else raised ends the process with a
    traceback.  The library is given its arguments when it connects. *)
Definition sidecar_main (env : Env) (requests : list (string * Request)) : State S (attempt (Z * list Response)) := λ s,
  match load env with
  | Raise c m => (Raise c m, s)
  | Unhandled m => (Unhandled m, s)
  | Returns (Err _) => (Returns (1, []), s)
  | Returns (Ok cfg) =>
      match (t ← _build_transport cfg; _ ← bind_socket (listen_host cfg) (listen_port cfg); Returns t) with
      | Raise c m => (Raise c m, s)
      | Unhandled m => (Unhandled m, s)
      | Returns (inl mock) => (Returns (0, (serve_forever (mode cfg) requests mock).1), s)
      | Returns (inr args) =>
          let '(answers, t) := serve_forever (H := Live (lib := solarman args)) (mode cfg) requests
                                 {| wire := s; _solarman := false |} in
          (Returns (0, answers), wire t)
      end
  end.
End Main.

(** ** Durations both parsers take

    Whole hours, minutes and seconds, in any order and number. *)

Definition whole_unit (u : ascii) : option Z :=
  if bool_decide (u = "h"%char) then Some 3600
  else if bool_decide (u = "m"%char) then Some 60
  else if bool_decide (u = "s"%char) then Some 1 else None.

Definition part_ok (part : string * ascii) : Prop :=
  all_digits part.1 = true ∧ part.1 ≠ "" ∧ is_Some (whole_unit part.2).

Fixpoint spell (parts : list (string * ascii)) : string :=
  match parts with [] => "" | (ds, u) :: parts => ds +:+ String u (spell parts) end.

Fixpoint seconds (parts : list (string * ascii)) : Z :=
  match parts with [] => 0 | (ds, u) :: parts => dec 0 ds * default 0 (whole_unit u) + seconds parts end.

Lemma whole_unit_cases u : is_Some (whole_unit u) → u = "h"%char ∨ u = "m"%char ∨ u = "s"%char.
Proof. unfold whole_unit. repeat case_bool_decide; auto. by intros [? [=]]. Qed.

Lemma whole_unit_pos u : is_Some (whole_unit u) → 0 < default 0 (whole_unit u).
Proof. by intros [->|[->| ->]]%whole_unit_cases. Qed.

(** Nothing, or a digit first. *)
Definition ends_or_digit (s : string) : bool := match s with String c _ => is_digit c | EmptyString => true end.

Lemma spell_head parts : Forall part_ok parts → ends_or_digit (spell parts) = true.
Proof.
  destruct parts as [|[ds u] parts]; [done|]. intros [(Hd & Hne & _) _]%Forall_cons. cbn in *.
  destruct ds as [|c ds]; [done|]. by apply andb_true_iff in Hd as [? _].
Qed.

Lemma seconds_nonneg parts : Forall part_ok parts → 0 ≤ seconds parts.
Proof.
  induction parts as [|[ds u] parts IH]; [done|]. intros [(Hd & _ & Hu) Hp]%Forall_cons. cbn in *.
  pose proof (dec_le 0 ds ltac:(lia) Hd). specialize (IH Hp). pose proof (whole_unit_pos u Hu). nia.
Qed.

(** *** As Go reads them *)

Lemma leadingInt_digits x ds u r n s : all_digits ds = true → is_digit u = false →
  leadingInt x (ds +:+ String u r) = (Some n, s) → n = dec x ds ∧ s = String u r.
Proof.
  intros Hd Hu. revert x Hd. induction ds as [|c ds IH]; intros x.
  - rewrite str_app_nil. cbn. unfold is_digit in Hu. destruct (digit_val u); [done|]. intros _. by intros [= <- <-].
  - rewrite str_app_cons. cbn. intros [Hc Hd]%andb_true_iff. apply is_digit_val in Hc as (d & -> & _).
    destruct (2 ^ 63 / 10 <? x); [done|]. destruct (2 ^ 63 <? x * 10 + d); [done|]. by apply IH.
Qed.

Lemma cut_unit_one u r : is_number_char u = false → ends_or_digit r = true → cut_unit (String u r) = (String u "", r).
Proof.
  intros Hu Hr. cbn. rewrite Hu. destruct r as [|c r]; [done|]. cbn in Hr |- *.
  apply digit_code in Hr. unfold is_number_char. rewrite (proj2 (Z.leb_le 48 _)), (proj2 (Z.leb_le _ 57)) by lia.
  by rewrite orb_true_r.
Qed.

Lemma digit_number c : is_digit c = true → is_number_char c = true.
Proof. intros H%digit_code. unfold is_number_char. apply orb_true_iff. right. apply andb_true_iff. rewrite !Z.leb_le. lia. Qed.

(** One component of the loop. *)
Lemma duration_loop_part fuel orig ds u r d t : part_ok (ds, u) → ends_or_digit r = true →
  duration_loop (S fuel) orig (ds +:+ String u r) d = Ok t →
  let v := dec 0 ds * default 0 (whole_unit u) * Second in
  v ≤ 2 ^ 63 ∧ (d + v) mod 2 ^ 64 ≤ 2 ^ 63 ∧ duration_loop fuel orig r ((d + v) mod 2 ^ 64) = Ok t.
Proof.
  intros (Hd & Hne & Hu) Hr. cbn [fst snd] in Hd, Hne, Hu. destruct ds as [|c ds]; [done|].
  pose proof Hd as Hc. cbn in Hc. apply andb_true_iff in Hc as [Hc _].
  cbn [duration_loop]. rewrite str_app_cons. rewrite (digit_number c Hc), <- str_app_cons. cbn [negb].
  destruct (leadingInt 0 (String c ds +:+ String u r)) as [[n|] s1] eqn:E; [|done].
  assert (is_digit u = false ∧ is_number_char u = false) as [Hud Hun].
  { by destruct (whole_unit_cases u Hu) as [->|[->| ->]]. }
  apply leadingInt_digits in E as [-> ->]; [|done..].
  assert ((String.length (String u r) =? String.length (String c ds +:+ String u r))%nat = false) as ->.
  { apply Nat.eqb_neq. rewrite str_length_app. cbn. lia. }
  assert (match String u r with
          | String "." s1' => let '(f, scale, s2) := leadingFraction 0 (of_int 1) false s1' in
              (f, scale, s2, negb (String.length s2 =? String.length s1')%nat)
          | _ => (0, of_int 1, String u r, false) end = (0, of_int 1, String u r, false)) as ->.
  { by destruct (whole_unit_cases u Hu) as [->|[->| ->]]. }
  cbn [negb andb]. rewrite (cut_unit_one u r Hun Hr). rewrite (bool_decide_eq_false_2 (String u "" = "")) by done.
  assert (unitMap (String u "") = Some (default 0 (whole_unit u) * Second)) as ->.
  { by destruct (whole_unit_cases u Hu) as [->|[->| ->]]. }
  change (0 <? 0) with false. cbn [andb].
  pose proof (whole_unit_pos u Hu). assert (0 < default 0 (whole_unit u) * Second) as Hpos by (unfold Second, Millisecond; lia).
  destruct (Z.ltb_spec (2 ^ 63 / (default 0 (whole_unit u) * Second)) (dec 0 (String c ds))) as [|Hle]; [done|].
  rewrite <- Z.mul_assoc. set (v := dec 0 (String c ds) * _).
  destruct (Z.ltb_spec (2 ^ 63) ((d + v) mod 2 ^ 64)) as [|Hs]; [done|]. intros Ht. split; [|done].
  unfold v. pose proof (Z.mul_div_le (2 ^ 63) (default 0 (whole_unit u) * Second) Hpos). nia.
Qed.

Lemma duration_loop_spell fuel orig parts k t : Forall part_ok parts → 0 ≤ k → k * Second ≤ 2 ^ 63 →
  duration_loop fuel orig (spell parts) (k * Second) = Ok t → t = (k + seconds parts) * Second.
Proof.
  revert k parts. induction fuel as [|fuel IH]; intros k parts; [done|].
  destruct parts as [|[ds u] parts]; [intros _ _ _; cbn; intros [= <-]; by rewrite Z.add_0_r|].
  intros [Hp Hps]%Forall_cons Hk Hb H. cbn [spell seconds] in *.
  destruct (duration_loop_part _ _ _ _ _ _ _ Hp (spell_head _ Hps) H) as (Hv & Hs & Ht). cbv zeta in Hv, Hs, Ht.
  pose proof (dec_le 0 ds ltac:(lia) (proj1 Hp)) as H0. set (w := dec 0 ds * default 0 (whole_unit u)) in *.
  pose proof (whole_unit_pos u (proj2 (proj2 Hp))) as Hu. assert (0 ≤ w) as Hw by (unfold w; nia).
  rewrite <- Z.mul_add_distr_r in Hs, Ht. unfold Second, Millisecond in *. rewrite Z.mod_small in Hs, Ht by lia.
  rewrite Z.add_assoc. apply (IH (k + w) parts Hps); [lia|exact Hs|exact Ht].
Qed.

(** What both parsers take for a timeout: nothing (ten seconds), whole seconds as a bare
    number, or whole units. *)
Inductive spelled : string → Z → Prop :=
| spelled_default : spelled "" 10
| spelled_seconds v : v ≠ "" → all_digits v = true → dec 0 v * Second < 2 ^ 63 → spelled v (dec 0 v)
| spelled_units parts : parts ≠ [] → Forall part_ok parts → spelled (spell parts) (seconds parts).

Lemma parse_uint_all max n s : all_digits s = true → 0 ≤ n → dec n s ≤ max → parse_uint_loop max n s = Ok (dec n s).
Proof.
  revert n. induction s as [|c s IH]; intros n; [done|]. cbn. intros [Hc Hs]%andb_true_iff Hn.
  apply is_digit_val in Hc as (d & -> & Hd). cbn. intros Hm. pose proof (dec_le (n * 10 + d) s ltac:(lia) Hs).
  destruct (Z.ltb_spec max (n * 10 + d)); [lia|]. apply IH; [done|lia|done].
Qed.

Lemma Atoi_all s : s ≠ "" → all_digits s = true → dec 0 s < 2 ^ 63 → Atoi s = Ok (dec 0 s).
Proof.
  destruct s as [|c s]; [done|]. intros _ Hd Hm. unfold Atoi. pose proof Hd as Hc. cbn in Hc.
  apply andb_true_iff in Hc as [Hc _]. rewrite cut_sign_digit by done.
  by rewrite parse_uint_all by (done || lia).
Qed.

Lemma spell_cons parts : parts ≠ [] → Forall part_ok parts → ∃ c ds u r, is_digit c = true ∧ is_Some (whole_unit u) ∧
  all_digits (String c ds) = true ∧ spell parts = String c ds +:+ String u r.
Proof.
  destruct parts as [|[ds u] parts]; [done|]. intros _ [(Hd & Hne & Hu) _]%Forall_cons. cbn in *.
  destruct ds as [|c ds]; [done|]. pose proof Hd as Hc. cbn in Hc. apply andb_true_iff in Hc as [Hc _].
  exists c, ds, u, (spell parts). done.
Qed.

Lemma spell_not_int parts n : parts ≠ [] → Forall part_ok parts → Atoi (spell parts) ≠ Ok n.
Proof.
  intros Hne Hp. destruct (spell_cons parts Hne Hp) as (c & ds & u & r & Hc & Hu & _ & ->).
  intros (p & es & E & _ & Hcut & _ & Hd & _)%Atoi_digits. rewrite str_app_cons in Hcut, E.
  rewrite (cut_sign_digit c _ Hc) in Hcut. injection Hcut as _ <-. unfold all_digits in Hd.
  rewrite <- str_app_cons, all_chars_app in Hd. apply andb_true_iff in Hd as [_ Hd].
  by destruct (whole_unit_cases u Hu) as [->|[->| ->]].
Qed.

Lemma ParseDuration_spell parts d : parts ≠ [] → Forall part_ok parts → ParseDuration (spell parts) = Ok d →
  d = seconds parts * Second.
Proof.
  intros Hne Hp. unfold ParseDuration. pose proof (spell_cons parts Hne Hp) as (c & ds & u & r & Hc & Hu & _ & E).
  rewrite E, str_app_cons, (cut_sign_digit c _ Hc), <- str_app_cons, <- E.
  case_bool_decide as H0; [|case_bool_decide; [done|]].
  { rewrite E in H0. destruct ds; [|done]. by destruct (whole_unit_cases u Hu) as [->|[->| ->]]. }
  intros (t & Ht & Hd)%bind_Ok_inv. change 0 with (0 * Second) in Ht at 1.
  apply duration_loop_spell in Ht; [|done|lia|lia]. destruct (2 ^ 63 - 1 <? t); [done|]. injection Hd as <-. exact Ht.
Qed.

Lemma manager_timeout env key v n : Getenv env key = v → spelled v n →
  (parseDurationOrSeconds env key (10 * Second)).2 = None →
  (parseDurationOrSeconds env key (10 * Second)).1 = n * Second.
Proof.
  intros Hv Hs. unfold parseDurationOrSeconds. rewrite Hv. destruct Hs as [|v Hne Hd Hm|parts Hne Hp]; [done| |].
  - rewrite bool_decide_eq_false_2 by done. pose proof (dec_le 0 v ltac:(lia) Hd).
    rewrite (Atoi_all v Hne Hd) by (unfold Second, Millisecond in *; lia). intros _. cbn [fst].
    apply signed_small; [lia|]. unfold Second, Millisecond in *. lia.
  - case_bool_decide as He.
    { destruct (spell_cons parts Hne Hp) as (c & ds & u & r & _ & _ & _ & E). by rewrite E in He. }
    destruct (Atoi (spell parts)) as [m|e] eqn:EA; [by apply spell_not_int in EA|].
    destruct (ParseDuration (spell parts)) as [d|e'] eqn:E; [|done]. intros _. by apply ParseDuration_spell.
Qed.

(** *** As Python reads them *)

Lemma span_digits_all ds u r : all_digits ds = true → is_digit u = false →
  span_digits (ds +:+ String u r) = (ds, String u r).
Proof.
  induction ds as [|c ds IH]; [intros _ Hu; rewrite str_app_nil; cbn; by rewrite Hu|].
  rewrite str_app_cons. cbn. intros [Hc Hd]%andb_true_iff Hu. by rewrite Hc, IH.
Qed.

Lemma match_component_part ds u r : part_ok (ds, u) → ends_or_digit r = true → dec 0 ds < 2 ^ 53 →
  match_component (ds +:+ String u r) = Some (fmul (of_int (dec 0 ds)) (of_int (default 0 (whole_unit u))), r).
Proof.
  intros (Hd & Hne & Hu) Hr Hs. cbn [fst snd] in Hd, Hne, Hu. unfold match_component.
  assert (is_digit u = false) as Hud by (by destruct (whole_unit_cases u Hu) as [->|[->| ->]]).
  rewrite (span_digits_all ds u r Hd Hud). rewrite bool_decide_eq_false_2 by done.
  assert (match String u r with
      | String "." r0 => let '(frac, r') := span_digits r0 in
          if bool_decide (frac = "") then (ds, String u r) else (ds +:+ "." +:+ frac, r')
      | _ => (ds, String u r) end = (ds, String u r)) as ->.
  { by destruct (whole_unit_cases u Hu) as [->|[->| ->]]. }
  assert (match_unit _GO_DURATION_UNITS (String u r) = Some (of_int (default 0 (whole_unit u)), r)) as ->.
  { destruct (whole_unit_cases u Hu) as [->|[->| ->]]; [done| |done].
    destruct r as [|c r]; [done|]. by destruct c as [[] [] [] [] [] [] [] []]. }
  cbn [mbind option_bind]. rewrite (py_float_digits ds Hd Hne Hs). done.
Qed.

Lemma duration_matches_spell fuel parts k : (String.length (spell parts) ≤ fuel)%nat → Forall part_ok parts →
  0 ≤ k → k + seconds parts < 2 ^ 53 →
  duration_matches fuel (of_int k) (spell parts) = Some (of_int (k + seconds parts)).
Proof.
  revert k parts. induction fuel as [|fuel IH]; intros k [|[ds u] parts] Hf Hp Hk Hs; cbn [spell seconds] in *;
    try (cbn; by rewrite Z.add_0_r).
  { rewrite str_length_app in Hf. cbn in Hf. lia. }
  apply Forall_cons in Hp as [Hp Hps]. pose proof Hp as (Hd & Hne & Hu). cbn [fst snd] in Hd, Hne, Hu.
  pose proof (dec_le 0 ds ltac:(lia) Hd) as H0. pose proof (whole_unit_pos u Hu) as Hu0. pose proof (seconds_nonneg parts Hps) as Hps0.
  assert (dec 0 ds < 2 ^ 53 ∧ default 0 (whole_unit u) < 2 ^ 53) as [H1 H2].
  { split; [nia|]. by destruct (whole_unit_cases u Hu) as [->|[->| ->]]. }
  assert (duration_matches (S fuel) (of_int k) (ds +:+ String u (spell parts)) =
    duration_matches fuel (fadd (of_int k) (of_int (dec 0 ds * default 0 (whole_unit u)))) (spell parts)) as ->.
  { destruct ds as [|c ds]; [done|]. pose proof (match_component_part _ _ (spell parts) Hp (spell_head _ Hps) H1) as E.
    rewrite str_app_cons in E |- *. cbn [duration_matches]. rewrite E, fmul_int by (lia || nia). done. }
  rewrite fadd_int by nia. rewrite IH; [by rewrite Z.add_assoc| |done|nia|lia].
  rewrite str_length_app in Hf. cbn in Hf. lia.
Qed.

Lemma spell_chars p parts : (∀ c, is_digit c = true → p c = true) → (∀ u, is_Some (whole_unit u) → p u = true) →
  Forall part_ok parts → all_chars p (spell parts) = true.
Proof.
  intros Hd Hu. induction parts as [|[ds u] parts IH]; [done|]. intros [(H1 & _ & H2) Hp]%Forall_cons. cbn [spell fst snd] in *.
  rewrite all_chars_app. cbn [all_chars]. rewrite (Hu u H2), IH by done. rewrite andb_true_r.
  by apply (all_chars_impl is_digit).
Qed.

Lemma spell_plain parts : Forall part_ok parts → all_chars plain (spell parts) = true.
Proof.
  apply spell_chars; [apply digit_plain|]. by intros u [->|[->| ->]]%whole_unit_cases.
Qed.

Lemma spell_not_float parts : parts ≠ [] → Forall part_ok parts → py_float (spell parts) = None.
Proof.
  intros Hne Hp. pose proof (spell_plain parts Hp) as Hpl.
  assert (all_chars no_underscore (spell parts) = true) as Hun.
  { apply spell_chars; [|by intros u [->|[->| ->]]%whole_unit_cases|done]. intros c Hc. unfold no_underscore.
    apply negb_true_iff, bool_decide_eq_false. by apply (digit_not c). }
  destruct (spell_cons parts Hne Hp) as (c & ds & u & r & Hc & Hu & Hd & E). rewrite E in *.
  rewrite py_float_start by (done || by destruct (whole_unit_cases u Hu) as [->|[->| ->]]).
  by destruct (whole_unit_cases u Hu) as [->|[->| ->]].
Qed.

Lemma sidecar_timeout v n : spelled v n → 0 < n → n * Second < 2 ^ 63 →
  parse_duration_or_seconds v (of_int 10) = Ok (of_int n).
Proof.
  intros Hs Hn Hm. assert (n < 2 ^ 53) as Hb by (unfold Second, Millisecond in Hm; lia).
  unfold parse_duration_or_seconds. destruct Hs as [|v Hne Hd _|parts Hne Hp]; [done| |].
  - rewrite py_strip_plain by (by apply digits_plain). rewrite bool_decide_eq_false_2 by done.
    by rewrite py_float_digits.
  - pose proof (spell_plain parts Hp) as Hpl. rewrite py_strip_plain by done.
    pose proof (spell_cons parts Hne Hp) as (c & ds & u & r & Hc & Hu & Hd & E).
    rewrite bool_decide_eq_false_2 by (by rewrite E). rewrite spell_not_float by done.
    assert (match spell parts with String "-" r => (true, r) | _ => (false, spell parts) end = (false, spell parts)) as ->.
    { rewrite E, str_app_cons. by destruct c as [[] [] [] [] [] [] [] []]. }
    cbn [fst snd]. rewrite to_ascii_plain by done. rewrite bool_decide_eq_false_2 by (by rewrite E).
    by rewrite (duration_matches_spell _ parts 0).
Qed.

(** ** Loading, when nothing is wrong *)

Lemma of_int_positive n : 0 < n < 2 ^ 53 → SFleb (of_int n) (of_int 0) = false.
Proof. intros Hn. by destruct (of_int_stored n Hn) as (p & -> & _). Qed.

Lemma lower_plain v : all_chars plain v = true → ToLower v = lower_string v ∧ py_lower v = lower_string v.
Proof.
  assert (∀ c x, plain c = true → 126 < x → (code c =? x) = false) as Hne.
  { unfold plain. intros c x H Hx. apply andb_true_iff in H as [_ H%Z.leb_le]. apply Z.eqb_neq. lia. }
  induction v as [|c v IH]; [done|]. cbn [all_chars ToLower py_lower lower_string]. intros [Hc Hv]%andb_true_iff.
  destruct (IH Hv) as [H1 H2]. rewrite <- H1 at 1. rewrite <- H2. rewrite !(Hne c) by (done || lia).
  cbn [andb]. split; destruct v as [|d [|e v]]; done.
Qed.

Lemma stripped_Getenv env key : stripped env key = py_strip (Getenv env key).
Proof. done. Qed.

Lemma port_agrees env p : ok_value (parseInt env "INVERTER_PORT" 8899) = Some p →
  len (stripped env "INVERTER_PORT") ≤ max_str_digits →
  (if bool_decide (stripped env "INVERTER_PORT" = "") then Ok 8899 else py_int (stripped env "INVERTER_PORT")) = Ok p.
Proof.
  rewrite stripped_Getenv. unfold ok_value, parseInt. case_bool_decide as He.
  { rewrite He. intros [= <-] _. done. }
  destruct (Atoi (TrimSpace (Getenv env "INVERTER_PORT"))) as [n|e] eqn:E; [|done]. intros [= <-].
  pose proof (Atoi_digits _ _ E) as (s & ds & Es & Hs & _ & Hne & Hd & _).
  assert (TrimSpace (Getenv env "INVERTER_PORT") ≠ "") as Ht.
  { rewrite Es. intros H. by destruct s, ds. }
  rewrite py_strip_TrimSpace by (done || (rewrite Es; by apply signed_plain)).
  rewrite bool_decide_eq_false_2 by done. by apply py_int_Atoi.
Qed.

Section Loading.
Context `{Files}.

Lemma found_all paths : Forall (λ p, is_file p = Returns true) paths →
  mapM check_fixture paths = Returns ((λ _, []) <$> paths).
Proof.
  induction 1 as [|p paths Hp _ IH]; [done|]. assert (check_fixture p = Returns []) as E.
  { unfold check_fixture. by rewrite Hp. }
  cbn. rewrite E. cbn. by rewrite IH.
Qed.

Lemma load_succeeds env port t host lport : let m := py_lower (stripped env "MODE") in
  m ∈ ["mock"; "live"] →
  (m = "live" → stripped env "INVERTER_IP" ≠ "" ∧ stripped env "INVERTER_SERIAL" ≠ "") →
  (if bool_decide (stripped env "INVERTER_PORT" = "") then Ok 8899 else py_int (stripped env "INVERTER_PORT")) = Ok port →
  parse_duration_or_seconds (env_get env "INVERTER_SOCKET_TIMEOUT" "") (of_int 10) = Ok t → SFleb t (of_int 0) = false →
  _parse_listen_addr (listen_addr env) = Ok (host, lport) →
  (m = "mock" → fixture_paths env ≠ [] ∧ Forall (λ p, is_file p = Returns true) (fixture_paths env)) →
  load env = Returns (Ok {|
    mode := m; inverter_ip := stripped env "INVERTER_IP"; inverter_serial := stripped env "INVERTER_SERIAL";
    inverter_port := port; socket_timeout := t; listen_host := host; listen_port := lport;
    mock_fixtures := fixture_paths env |}).
Proof.
  intros m Hm Hlive Hport Ht Hpos Hl Hmock. unfold load. fold m.
  assert (m ≠ "") as Hm0.
  { intros E. rewrite E in Hm. rewrite !elem_of_cons, elem_of_nil in Hm. by destruct Hm as [?|[?|[]]]. }
  rewrite (bool_decide_eq_false_2 (m = "")) by done.
  rewrite (bool_decide_eq_true_2 (m ∈ ["mock"; "live"])) by done.
  assert ((if bool_decide (m = "live") then
      (if bool_decide (stripped env "INVERTER_IP" = "") then ["INVERTER_IP is required when MODE=live"] else []) ++
      (if bool_decide (stripped env "INVERTER_SERIAL" = "") then ["INVERTER_SERIAL is required when MODE=live"] else [])
    else []) = []) as ->.
  { destruct (decide (m = "live")) as [E|E]; [rewrite (bool_decide_eq_true_2 _ E)|by rewrite (bool_decide_eq_false_2 _ E)].
    destruct (Hlive E) as [Hip Hser].
    by rewrite (bool_decide_eq_false_2 (stripped env "INVERTER_IP" = "") Hip), (bool_decide_eq_false_2 _ Hser). }
  assert ((if bool_decide (stripped env "INVERTER_PORT" = "") then (8899, [])
    else match py_int (stripped env "INVERTER_PORT") with
         | Ok n => (n, [])
         | Err _ => (8899, ["INVERTER_PORT must be an integer, got " +:+ repr (stripped env "INVERTER_PORT")])
         end) = (port, [])) as ->.
  { destruct (bool_decide (stripped env "INVERTER_PORT" = "")); [by injection Hport as ->|by rewrite Hport]. }
  rewrite Ht, Hpos, Hl.
  assert ((if bool_decide (m = "mock") then
       found ← mapM check_fixture (fixture_paths env);
       Returns ((if bool_decide (fixture_paths env = []) then ["MOCK_FIXTURE must name at least one fixture"] else [])
                ++ concat found)
     else Returns []) = Returns []) as ->; [|done].
  destruct (decide (m = "mock")) as [E|E]; [rewrite (bool_decide_eq_true_2 _ E)|by rewrite (bool_decide_eq_false_2 _ E)].
  destruct (Hmock E) as [Hne Hf]. rewrite (found_all _ Hf), bool_decide_eq_false_2 by done.
  cbn. f_equal. clear. by induction (fixture_paths env).
Qed.
End Loading.

Lemma build_live `{Files} cfg k : mode cfg = "live" → py_int (inverter_serial cfg) = Ok k →
  _build_transport cfg = Returns (inr {|
    _ip := inverter_ip cfg; _serial := k; _port := inverter_port cfg; _socket_timeout := socket_timeout cfg |}).
Proof.
  intros Hm Hk. unfold _build_transport. rewrite bool_decide_eq_false_2 by (by rewrite Hm).
  unfold LiveTransport_new, int_of. by rewrite Hk.
Qed.

(** A mock that starts holds words, whatever its fixtures say. *)
Lemma mock_words_start `{Files} paths t : MockTransport_new paths = Returns t →
  map_Forall (λ _ v, is_uint16 v) (_regs t).
Proof.
  unfold MockTransport_new. destruct (mapM _ paths) as [words| |]; [|done..]. intros [= <-]. cbn [MockTransport_init _regs].
  assert (∀ (l : list (Z * Z)) (m : gmap Z Z), map_Forall (λ _ v, is_uint16 v) m →
    map_Forall (λ _ v, is_uint16 v) (foldl (λ m '(addr, value), <[addr := Z.land value 65535]> m) m l)) as Hl.
  { induction l as [|[a v] l IH]; intros m Hm; [done|]. cbn. apply IH, map_Forall_insert_2; [|done].
    change 65535 with (Z.ones 16). rewrite Z.land_ones by lia. int_unfold. Z.div_mod_to_equations. lia. }
  apply Hl, map_Forall_empty.
Qed.

(** ** Properties *)

(** C26: One environment serves both processes.  Where the manager loads, with MODE set and
    the socket timeout left out or written in whole seconds or whole units, and the
    sidecar's own variables name an address and, in mock mode, existing fixtures, the
    sidecar loads too, in the same mode, for the same inverter and port, and with the
    manager's timeout as its float of seconds, exactly.  In live mode, where the serial is
    a number, these are what the Solarman library is given. *)
Theorem one_environment `{UrlParse} `{Files} (env : Env) (c : Config.Config) (n : Z) (host : string) (lport : Z) :
  Load env = Ok c →
  Getenv env "MODE" ≠ "" → all_chars plain (Getenv env "MODE") = true →
  (Mode c = "live" → stripped env "INVERTER_IP" ≠ "" ∧ stripped env "INVERTER_SERIAL" ≠ "") →
  len (stripped env "INVERTER_PORT") ≤ max_str_digits →
  spelled (Getenv env "INVERTER_SOCKET_TIMEOUT") n →
  _parse_listen_addr (listen_addr env) = Ok (host, lport) →
  (Mode c = "mock" → fixture_paths env ≠ [] ∧ Forall (λ p, is_file p = Returns true) (fixture_paths env)) →
  InverterSocketTimeout c = n * Second ∧ 0 < n ∧
  ∃ sc, load env = Returns (Ok sc) ∧
    mode sc = Mode c ∧ inverter_ip sc = py_strip (InverterIP c) ∧
    inverter_serial sc = py_strip (InverterSerial c) ∧ inverter_port sc = InverterPort c ∧
    socket_timeout sc = of_int n ∧ listen_host sc = host ∧ listen_port sc = lport ∧
    (Mode c = "live" → ∀ k, py_int (inverter_serial sc) = Ok k →
       _build_transport sc = Returns (inr {|
         _ip := py_strip (InverterIP c); _serial := k; _port := InverterPort c; _socket_timeout := of_int n |})).
Proof.
  intros HL Hm Hpm Hlive Hlen Hs Ha Hmock. pose proof (Load_cases env) as Hc. rewrite HL in Hc. destruct Hc as [-> Hb].
  assert (Mode (config_of env) = py_lower (stripped env "MODE")) as Emode.
  { cbn [config_of Mode]. unfold getEnv. rewrite bool_decide_eq_false_2 by done.
    rewrite stripped_Getenv, py_strip_plain by done. by destruct (lower_plain _ Hpm) as [-> ->]. }
  assert (ok_value (parseInt env "INVERTER_PORT" 8899) = Some (InverterPort (config_of env))) as Hport.
  { destruct (ok_value _) as [p|] eqn:E.
    - f_equal. unfold ok_value in E. destruct (_.2); [done|]. by injection E.
    - destruct (Hb "INVERTER_PORT"). apply bad_port. by rewrite E. }
  assert (InverterSocketTimeout (config_of env) = n * Second ∧ 0 < n ∧ n * Second < 2 ^ 63) as (Et & Hn & Hns).
  { destruct (parseDurationOrSeconds env "INVERTER_SOCKET_TIMEOUT" (10 * Second)).2 as [e|] eqn:E.
    - destruct (Hb "INVERTER_SOCKET_TIMEOUT"). apply bad_socket. unfold ok_value. by rewrite E.
    - pose proof (manager_timeout env _ _ n eq_refl Hs E) as Et. split; [exact Et|].
      pose proof (good_value (parseDurationOrSeconds env "INVERTER_SOCKET_TIMEOUT" (10 * Second)) (λ d, 0 < d)
        (λ H, Hb _ (bad_socket _ H))) as Hgt. cbv beta in Hgt.
      pose proof (parseSeconds_range env "INVERTER_SOCKET_TIMEOUT" (10 * Second)) as Hr. rewrite Et in Hgt, Hr.
      unfold Second, Millisecond in *. int_unfold. lia. }
  split; [exact Et|]. split; [exact Hn|].
  eexists. split.
  - apply (load_succeeds env (InverterPort (config_of env)) (of_int n) host lport); rewrite <- ?Emode; [|done| | | |done|done].
    + destruct (decide (mode_of env ∈ ["live"; "mock"])) as [Hin|Hin]; [|by destruct (Hb "MODE"); constructor].
      change (mode_of env ∈ ["mock"; "live"]). rewrite !elem_of_cons in Hin |- *. tauto.
    + by apply port_agrees.
    + by apply sidecar_timeout.
    + apply of_int_positive. unfold Second, Millisecond in Hns. lia.
  - rewrite <- Emode. split_and!; try done. intros El k Hk. by apply build_live.
Qed.

#[local] Instance read_url : UrlParse := λ s, Ok s.

#[local] Instance demo_files : Files := {
  _FIXTURE_DIR := "/app/docs/phase0/fixtures";
  is_file _ := Returns false;
  json_file _ := Unhandled "No such file or directory";
}.

Definition shared_env : Env := env_of [("MODE", "Live"); ("INVERTER_IP", " 192.168.1.50"); ("INVERTER_SERIAL", "1234567890");
  ("INVERTER_PORT", " +8899 "); ("INVERTER_SOCKET_TIMEOUT", "1m30s"); ("MQTT_BROKER_URL", "mqtt://localhost:1883")].

Lemma one_environment_witness : ∃ c sc, Load (H := read_url) shared_env = Ok c ∧ load shared_env = Returns (Ok sc) ∧
  InverterSocketTimeout c = 90 * Second ∧ socket_timeout sc = of_int 90 ∧ inverter_port sc = 8899 ∧
  inverter_ip sc = "192.168.1.50".
Proof.
  destruct (Load (H := read_url) shared_env) as [c|e] eqn:E; [|exfalso; vm_compute in E; discriminate E].
  assert (Getenv shared_env "INVERTER_SOCKET_TIMEOUT" = spell [("1", "m"%char); ("30", "s"%char)]) as Et by reflexivity.
  assert (c = config_of shared_env) as Ec by (vm_compute in E; injection E as <-; vm_compute; reflexivity).
  destruct (one_environment (H := read_url) shared_env c 90 "" 8081 E) as (Ht & _ & sc & Hl & _ & Hip & _ & Hp & Hsc & _).
  - vm_compute. discriminate.
  - vm_compute. reflexivity.
  - intros _. split; vm_compute; discriminate.
  - vm_compute. discriminate.
  - rewrite Et. apply (spelled_units [("1", "m"%char); ("30", "s"%char)]); [discriminate|].
    repeat constructor; [discriminate|by eexists|discriminate|by eexists].
  - vm_compute. reflexivity.
  - subst c. vm_compute. discriminate.
  - exists c, sc. rewrite Hip, Hp. subst c. split_and!; try assumption; reflexivity.
Defined.

(** *** Where the two part *)

Definition live_with (key value : string) : Env := env_of [(key, value); ("MODE", "live");
  ("INVERTER_IP", "192.168.1.50"); ("INVERTER_SERIAL", "1234567890"); ("MQTT_BROKER_URL", "mqtt://localhost:1883")].

Definition loads_here (env : Env) : option Config := match load env with Returns (Ok sc) => Some sc | _ => None end.
Definition loads_there (env : Env) : bool := is_Ok (Load (H := read_url) env).

(** No comparison with a NaN holds, so its timeout passes the range check; an infinity is
    above zero. *)
Example timeout_nan : socket_timeout <$> loads_here (live_with "INVERTER_SOCKET_TIMEOUT" "nan") = Some S754_nan.
Proof. vm_compute. reflexivity. Qed.
Example timeout_inf : socket_timeout <$> loads_here (live_with "INVERTER_SOCKET_TIMEOUT" "1e400") = Some (S754_infinity false).
Proof. vm_compute. reflexivity. Qed.

(** The port has no range. *)
Example port_unchecked : inverter_port <$> loads_here (live_with "INVERTER_PORT" "-1") = Some (-1) ∧
  loads_there (live_with "INVERTER_PORT" "-1") = false.
Proof. vm_compute. done. Qed.

(** Go's durations may have a sign, and a fraction without digits before the point. *)
Example signed_duration : loads_here (live_with "INVERTER_SOCKET_TIMEOUT" "+30s") = None ∧
  loads_there (live_with "INVERTER_SOCKET_TIMEOUT" "+30s") = true ∧
  loads_here (live_with "INVERTER_SOCKET_TIMEOUT" ".5s") = None ∧
  loads_there (live_with "INVERTER_SOCKET_TIMEOUT" ".5s") = true.
Proof. vm_compute. done. Qed.

(** A serial that is no number gets through both loads and ends the sidecar later. *)
Example serial_unchecked : let env := live_with "INVERTER_SERIAL" "SN12345" in
  loads_there env = true ∧
  ∃ sc, load env = Returns (Ok sc) ∧
    _build_transport sc = Unhandled "invalid literal for int() with base 10: 'SN12345'".
Proof. split; [vm_compute; reflexivity|]. eexists. split; [vm_compute; reflexivity|]. vm_compute. reflexivity. Qed.

(** Without MODE the manager runs live and the sidecar ends with status 1. *)
Example mode_required `{ListenSocket} {S} (solarman : LiveArgs → PySolarmanV5 S) requests s :
  sidecar_main solarman (env_of []) requests s = (Returns (1, []), s).
Proof. reflexivity. Qed.

(** The fixtures' words, a repeated key read once. *)
Example fixture_read : fixture_words (JObj [("blocks", JArr [JObj [("by_addr",
  JObj [("43110", JInt 35); ("33022", JStr "7"); ("43110", JInt 33)])]])]) = Returns [(43110, 33); (33022, 7)].
Proof. vm_compute. reflexivity. Qed.
