(* ===== verification/Mqtt.v ===== *)
(** * The MQTT client (internal/mqtt)

    The wrapper around the autopaho connection manager: what it configures, what it
    sends, and the bookkeeping of the reconnect hooks.  The connection manager itself
    is outside the program, so it is a class. *)

From S2P Require Import Prelude GoInt GoString GoTime GoHttp Json HomeAssistant Publisher.

Definition keepAliveSeconds : Z := 20.

Record Options : Type := {
  BrokerURL : string; Username : string; Password : string; ClientID : string;
  OAvailabilityTopic : string;
}.

(** ** What the connection manager is given *)

Record PahoPublish : Type := { QoS : Z; PTopic : string; PPayload : Payload; PRetain : bool }.

Record ClientConfig : Type := {
  ServerURL : string; KeepAlive : Z; CleanStartOnInitialConnection : bool;
  ConnectUsername : string; ConnectPassword : string; CClientID : string;
  WillMessage : option PahoPublish; WillDelayInterval : option Z;
}.

Class Autopaho (W : Type) : Type := {
  NewConnection : Ctx → ClientConfig → State W (option error);
  AwaitConnection : Ctx → State W (option error);
  cm_Publish : Ctx → PahoPublish → State W (option error);
  cm_Subscribe : Ctx → string → Z → State W (option error);
  cm_Disconnect : Ctx → State W (option error);
}.

(** The URL is [u], already parsed; the callbacks are [fireOnUp] and [fireOnMessage]
    below. *)
Definition buildClientConfig (u : string) (opts : Options) : ClientConfig := {|
  ServerURL := u; KeepAlive := keepAliveSeconds; CleanStartOnInitialConnection := false;
  ConnectUsername := Username opts; ConnectPassword := Password opts; CClientID := ClientID opts;
  WillMessage := if bool_decide (OAvailabilityTopic opts = "") then None
                 else Some {| QoS := 1; PTopic := OAvailabilityTopic opts; PPayload := PText "offline";
                              PRetain := true |};
  WillDelayInterval := if bool_decide (OAvailabilityTopic opts = "") then None
                       else Some (to_uint32 (2 * keepAliveSeconds)) |}.

(** ** Reconnect hooks

    A hook is named by a number.  [hookWG] counts the goroutines running one; each runs
    under the one context [hookCtx], which [hookCancelled] tells ended. *)
Record Client : Type := {
  onUp : option nat; onMsg : option nat;
  hookCancelled : bool; hookWG : nat; hookClosing : bool;
}.

Definition Client0 (onConnectionUp : option nat) : Client :=
  {| onUp := onConnectionUp; onMsg := None; hookCancelled := false; hookWG := 0; hookClosing := false |}.

Definition SetOnConnectionUp (fn : option nat) (c : Client) : Client :=
  {| onUp := fn; onMsg := onMsg c; hookCancelled := hookCancelled c; hookWG := hookWG c;
     hookClosing := hookClosing c |}.

(** The goroutine to start, if any: the whole decision is made under the mutex. *)
Definition fireOnUp (c : Client) : option nat * Client :=
  match onUp c with
  | Some fn =>
      if hookClosing c then (None, c)
      else (Some fn, {| onUp := onUp c; onMsg := onMsg c; hookCancelled := hookCancelled c;
                        hookWG := S (hookWG c); hookClosing := hookClosing c |})
  | None => (None, c)
  end.

(** [hookWG.Done()] when a hook returns. *)
Definition hookDone (c : Client) : Client :=
  {| onUp := onUp c; onMsg := onMsg c; hookCancelled := hookCancelled c; hookWG := pred (hookWG c);
     hookClosing := hookClosing c |}.

Definition SetOnMessage (fn : option nat) (c : Client) : Client :=
  {| onUp := onUp c; onMsg := fn; hookCancelled := hookCancelled c; hookWG := hookWG c;
     hookClosing := hookClosing c |}.

(** The handler a message is passed to, outside the mutex. *)
Definition fireOnMessage (c : Client) : option nat := onMsg c.

(** [Disconnect] is [drainHook] and then the manager's own disconnect; the steps of a
    run of it among other goroutines are in [Lifecycle].  The two atomic parts of
    [drainHook] before its wait: *)
Definition closeHooks (c : Client) : Client :=
  {| onUp := onUp c; onMsg := onMsg c; hookCancelled := hookCancelled c; hookWG := hookWG c;
     hookClosing := true |}.
Definition cancelHooks (c : Client) : Client :=
  {| onUp := onUp c; onMsg := onMsg c; hookCancelled := true; hookWG := hookWG c;
     hookClosing := hookClosing c |}.

(** The wait ends when no hook runs or the caller's context has ended. *)
Definition drained (c : Client) (ended : bool) : bool := (hookWG c =? 0)%nat || ended.

(** ** Calls *)

Section Calls.
Context {W : Type} `{up : UrlParse} `{cm : Autopaho W}.

(** The connection manager keeps [ctx]: it works until that ends. *)
Definition Connect (ctx : Ctx) (opts : Options) : State W (result unit) :=
  match url_Parse (BrokerURL opts) with
  | Err e => mret (Err (Wrapf "parse MQTT broker URL" e))
  | Ok _ =>
      r ← NewConnection ctx (buildClientConfig (BrokerURL opts) opts);
      match r with
      | Some e => mret (Err (Wrapf "mqtt new connection" e))
      | None =>
          r ← AwaitConnection ctx;
          mret (match r with Some e => Err (Wrapf "mqtt await connection" e) | None => Ok tt end)
      end
  end.

Definition Publish (ctx : Ctx) (topic : string) (payload : Payload) (retain : bool)
  : State W (option error) :=
  r ← cm_Publish ctx {| QoS := 1; PTopic := topic; PPayload := payload; PRetain := retain |};
  mret (match r with Some e => Some (Wrapf ("mqtt publish " +:+ topic) e) | None => None end).

Definition Subscribe (ctx : Ctx) (topicFilter : string) : State W (option error) :=
  r ← cm_Subscribe ctx topicFilter 1;
  mret (match r with Some e => Some (Wrapf ("mqtt subscribe " +:+ topicFilter) e) | None => None end).

Definition client_publisher : Publisher W := Publish.
End Calls.

(** ** The broker's view

    [accepted] are the messages the broker took, [will] what it publishes when the
    session is lost. *)
Class BrokerLaws (W : Type) `{Autopaho W} : Type := {
  accepted : W → list PahoPublish;
  will : W → option PahoPublish;
  publish_law ctx m w r w' : cm_Publish ctx m w = (r, w') → will w' = will w ∧
    (r = None → accepted w' = accepted w ++ [m]) ∧ (accepted w' = accepted w ∨ accepted w' = accepted w ++ [m]);
  connect_law ctx cfg w w' : NewConnection ctx cfg w = (None, w') → will w' = WillMessage cfg;
  await_law ctx w r w' : AwaitConnection ctx w = (r, w') → will w' = will w;
}.

(** The last will says what a clean shutdown says.  Once connected with the
    service's availability topic, the message the broker would publish for a lost
    session is, field by field, the one [PublishAvailability(false)] hands the broker:
    retained "offline" at QoS 1 on that topic; and the will waits two keep-alives. *)
Theorem will_matches_offline {W : Type} `{up : UrlParse} `{cm : Autopaho W} `{bl : !BrokerLaws W}
    (cfg : HAConfig) (opts : Options) (run final : Ctx) (w w1 w2 : W) :
  OAvailabilityTopic opts = AvailabilityTopic cfg →
  Connect run opts w = (Ok tt, w1) →
  PublishAvailability (pub := client_publisher) cfg final false w1 = (None, w2) →
  ∃ m, will w1 = Some m ∧ accepted w2 = accepted w1 ++ [m] ∧ will w2 = Some m ∧
    m = {| QoS := 1; PTopic := AvailabilityTopic cfg; PPayload := PText "offline"; PRetain := true |} ∧
    WillDelayInterval (buildClientConfig (BrokerURL opts) opts) = Some (2 * keepAliveSeconds).
Proof.
  intros Ht Hc Hp. unfold Connect in Hc. destruct (url_Parse _) as [p|e]; [|done].
  apply state_bind_inv in Hc as (r & w3 & E1 & Hc). destruct r as [e|]; [done|].
  apply state_bind_inv in Hc as (r & w4 & E2 & Hc). unfold mret, state_ret in Hc.
  injection Hc as Hr <-. destruct r as [e|]; [done|].
  apply connect_law in E1. apply await_law in E2.
  assert (AvailabilityTopic cfg ≠ "") as Hne.
  { unfold AvailabilityTopic, BaseTopic. by destruct (TopicPrefix cfg). }
  unfold PublishAvailability in Hp. apply state_bind_inv in Hp as (r & w5 & E3 & Hp).
  unfold mret, state_ret in Hp. injection Hp as Hr' <-. destruct r as [e|]; [done|].
  unfold client_publisher, Publisher.Publish, Publish in E3.
  apply state_bind_inv in E3 as (r & w6 & E4 & E3). unfold mret, state_ret in E3.
  injection E3 as Hr3 <-. destruct r as [e|]; [done|].
  apply publish_law in E4 as (Hw & Ha & _).
  exists {| QoS := 1; PTopic := AvailabilityTopic cfg; PPayload := PText "offline"; PRetain := true |}.
  assert (will w4 = Some {| QoS := 1; PTopic := AvailabilityTopic cfg; PPayload := PText "offline";
    PRetain := true |}) as Hwill.
  { rewrite E2, E1. unfold buildClientConfig; cbn. rewrite bool_decide_eq_false_2 by congruence.
    by rewrite Ht. }
  split; [done|]. split; [by apply Ha|]. split; [congruence|]. split; [done|].
  unfold buildClientConfig; cbn. by rewrite bool_decide_eq_false_2 by congruence.
Qed.

(** ** A broker that takes everything *)

Record Broker : Type := { taken : list PahoPublish; last_will : option PahoPublish }.

#[export] Instance Broker_cm : Autopaho Broker := {
  NewConnection _ cfg b := (None, {| taken := taken b; last_will := WillMessage cfg |});
  AwaitConnection _ b := (None, b);
  cm_Publish _ m b := (None, {| taken := taken b ++ [m]; last_will := last_will b |});
  cm_Subscribe _ _ _ b := (None, b);
  cm_Disconnect _ b := (None, {| taken := taken b; last_will := None |});
}.

#[export, refine] Instance Broker_laws : BrokerLaws Broker := { accepted := taken; will := last_will }.
Proof.
  - intros ctx m w r w' [= <- <-]. split; [done|]. split; [done|by right].
  - by intros ctx cfg w w' [= <-].
  - by intros ctx w r w' [= <- <-].
Defined.

Definition demo_ha : HAConfig := {| DiscoveryPrefix := "homeassistant"; TopicPrefix := "solis";
  Serial := "1234"; ObjectIDPrefix := ""; ControlsEnabled := true |}.
Definition demo_options : Options := {| BrokerURL := "http://127.0.0.1:8081/"; Username := ""; Password := "";
  ClientID := "solis-inverter-manager"; OAvailabilityTopic := "solis/1234/availability" |}.

Definition demo_connected : Broker :=
  {| taken := []; last_will := WillMessage (buildClientConfig (BrokerURL demo_options) demo_options) |}.

Lemma will_matches_offline_witness : ∃ m b,
  PublishAvailability (pub := client_publisher) demo_ha (TimeoutContext Background (5 * Second)) false demo_connected = (None, b) ∧
  taken b = [m] ∧ last_will demo_connected = Some m ∧ PTopic m = "solis/1234/availability".
Proof.
  pose (b := {| taken := [ {| QoS := 1; PTopic := "solis/1234/availability"; PPayload := PText "offline";
    PRetain := true |} ]; last_will := last_will demo_connected |}).
  destruct (will_matches_offline (up := demo_url) (cm := Broker_cm) demo_ha demo_options RunContext
    (TimeoutContext Background (5 * Second)) {| taken := []; last_will := None |}
    demo_connected b eq_refl eq_refl eq_refl) as (m & Hw & Ha & _ & Hm & _).
  exists m, b. split; [reflexivity|]. split; [exact Ha|]. split; [exact Hw|]. by rewrite Hm.
Defined.
