(* ===== verification/Lifecycle.v ===== *)
(** * Goroutines (internal/controls/locking.go, internal/mqtt, internal/scheduler, cmd)

    The parts of the program whose correctness is about interleavings: the two mutexes
    in front of the sidecar, and the shutdown with the goroutines it meets.  Each is a
    step relation; [rtc] of it is a run. *)

From S2P Require Import Prelude Mqtt.
From stdpp Require Import relations.

(** ** The two mutexes

    [apiMu] is held for a whole poll or command; inside it every register call takes the
    mutex of the locking wrapper.  [Op] is the inner client's call. *)
Section Locking.
Context {Op : Type}.

Inductive pc : Type :=
| Idle                     (* no poll or command *)
| WantApi                  (* at [s.apiMu.Lock()] *)
| InApi                    (* in a poll or command, between register calls *)
| WantMu (o : Op)          (* at [l.mu.Lock()] *)
| InMu (o : Op).           (* in [l.inner.ReadInput], [ReadHolding] or [WriteHolding] *)

Inductive event_ : Type :=
| Enter (i : nat) | Leave (i : nat) | Begin (i : nat) (o : Op) | End_ (i : nat) (o : Op).

Record Sys : Type := {
  api : option nat; mu : option nat; pcs : nat → pc; trace : list event_;
}.

Definition Sys0 : Sys := {| api := None; mu := None; pcs := λ _, Idle; trace := [] |}.

Definition upd (f : nat → pc) (i : nat) (p : pc) : nat → pc := λ j, if decide (j = i) then p else f j.

(** The scheduler's mutex: [apiMu.Lock] and the deferred [Unlock] of [poll] and
    [ApplyCommand].  Any goroutine may poll or dispatch a command at any time. *)
Inductive api_step : Sys → Sys → Prop :=
| step_start s i : pcs s i = Idle →
    api_step s {| api := api s; mu := mu s; pcs := upd (pcs s) i WantApi; trace := trace s |}
| step_lock_api s i : pcs s i = WantApi → api s = None →
    api_step s {| api := Some i; mu := mu s; pcs := upd (pcs s) i InApi; trace := trace s ++ [Enter i] |}
| step_unlock_api s i : pcs s i = InApi →
    api_step s {| api := None; mu := mu s; pcs := upd (pcs s) i Idle; trace := trace s ++ [Leave i] |}.

(** The wrapper's mutex: [ReadInput], [ReadHolding] and [WriteHolding] of [Locking]. *)
Inductive mu_step : Sys → Sys → Prop :=
| step_call s i o : pcs s i = InApi →
    mu_step s {| api := api s; mu := mu s; pcs := upd (pcs s) i (WantMu o); trace := trace s |}
| step_lock_mu s i o : pcs s i = WantMu o → mu s = None →
    mu_step s {| api := api s; mu := Some i; pcs := upd (pcs s) i (InMu o); trace := trace s ++ [Begin i o] |}
| step_return s i o : pcs s i = InMu o →
    mu_step s {| api := api s; mu := None; pcs := upd (pcs s) i InApi; trace := trace s ++ [End_ i o] |}.

Definition lock_step (s s' : Sys) : Prop := api_step s s' ∨ mu_step s s'.

(** A whole poll or command of goroutine [i], as the inner client sees it. *)
Definition calls (i : nat) (ops : list Op) : list event_ := ops ≫= λ o, [Begin i o; End_ i o].
Definition section (s : nat * list Op) : list event_ := Enter s.1 :: calls s.1 s.2 ++ [Leave s.1].

Definition in_api (p : pc) : Prop := match p with InApi | WantMu _ | InMu _ => True | _ => False end.
Definition in_mu (p : pc) : Prop := match p with InMu _ => True | _ => False end.

(** What has happened: whole sections one after another, then at most one open section
    with whole calls one after another, then at most one open call. *)
Definition serial (s : Sys) : Prop := ∃ hist : list (nat * list Op),
  match api s with
  | None => mu s = None ∧ trace s = hist ≫= section ∧ ∀ i, ¬ in_api (pcs s i)
  | Some i => (∀ j, in_api (pcs s j) ↔ j = i) ∧ ∃ ops : list Op,
      match mu s with
      | None => ¬ in_mu (pcs s i) ∧ trace s = (hist ≫= section) ++ Enter i :: calls i ops
      | Some j => j = i ∧ ∃ o, pcs s i = InMu o ∧
          trace s = (hist ≫= section) ++ Enter i :: calls i ops ++ [Begin i o]
      end
  end.

Lemma upd_eq f i p : upd f i p i = p.
Proof. unfold upd. by rewrite decide_True. Qed.
Lemma upd_ne f i j p : j ≠ i → upd f i p j = f j.
Proof. intros H. unfold upd. by rewrite decide_False. Qed.

(** A goroutine that moves without entering or leaving a section. *)
Lemma upd_same f i p j : (in_api p ↔ in_api (f i)) → in_api (upd f i p j) ↔ in_api (f j).
Proof. intros H. destruct (decide (j = i)) as [->|Hn]; [by rewrite upd_eq|by rewrite upd_ne]. Qed.

Lemma serial_step s s' : serial s → lock_step s s' → serial s'.
Proof.
  intros [hist H] Hs. unfold serial.
  assert (∀ i, in_api (pcs s i) → api s = Some i) as Hown.
  { intros i Hi. destruct (api s) as [k|]; [|by destruct H as (_ & _ & H); apply H in Hi].
    destruct H as [H _]. by apply H in Hi as ->. }
  destruct Hs as [Hs|Hs]; [destruct Hs as [s i Hp|s i Hp Ha|s i Hp]|destruct Hs as [s i o Hp|s i o Hp Hm|s i o Hp]];
    cbn [api mu pcs trace].
  - exists hist. destruct (api s) as [k|].
    + destruct H as (Hin & ops & H). split.
      { intros j. rewrite <- Hin. apply upd_same. rewrite Hp. cbn. tauto. }
      assert (k ≠ i) as Hk. { intros ->. pose proof (proj2 (Hin i) eq_refl) as Hi. by rewrite Hp in Hi. }
      exists ops. by rewrite upd_ne.
    + destruct H as (Hm & Ht & Hin). split; [done|]. split; [done|]. intros j.
      rewrite upd_same; [apply Hin|rewrite Hp; cbn; tauto].
  - rewrite Ha in H. destruct H as (-> & -> & Hin). exists hist. split.
    + intros j. destruct (decide (j = i)) as [->|Hn]; [rewrite upd_eq; cbn; tauto|rewrite upd_ne by done].
      split; [intros Hj; by apply Hin in Hj|done].
    + exists []. rewrite upd_eq. split; [intros []|reflexivity].
  - rewrite (Hown i) in H by (by rewrite Hp). destruct H as (Hin & ops & H).
    destruct (mu s) as [k|] eqn:Em.
    { destruct H as (-> & o' & Ho & _). congruence. }
    destruct H as (_ & Ht). exists (hist ++ [(i, ops)]). split; [done|]. split.
    + rewrite Ht, bind_app. cbn. by rewrite app_nil_r, <- app_assoc.
    + intros j. destruct (decide (j = i)) as [->|Hn]; [by rewrite upd_eq; intros []|rewrite upd_ne by done].
      intros Hj. by apply Hin in Hj.
  - rewrite (Hown i) in H by (by rewrite Hp). rewrite (Hown i) by (by rewrite Hp).
    destruct H as (Hin & ops & H). exists hist. split.
    { intros j. rewrite <- Hin. apply upd_same. rewrite Hp. cbn. tauto. }
    exists ops. rewrite upd_eq. destruct (mu s) as [k|]; [|naive_solver].
    destruct H as (-> & o' & Ho & _). congruence.
  - rewrite (Hown i) in H by (by rewrite Hp). rewrite (Hown i) by (by rewrite Hp).
    rewrite Hm in H. destruct H as (Hin & ops & _ & Ht). exists hist. split.
    { intros j. rewrite <- Hin. apply upd_same. rewrite Hp. cbn. tauto. }
    exists ops. rewrite upd_eq. split; [done|]. exists o. split; [done|].
    by rewrite Ht, <- app_assoc, app_comm_cons.
  - rewrite (Hown i) in H by (by rewrite Hp). rewrite (Hown i) by (by rewrite Hp).
    destruct H as (Hin & ops & H). exists hist. split.
    { intros j. rewrite <- Hin. apply upd_same. rewrite Hp. cbn. tauto. }
    exists (ops ++ [o]). rewrite upd_eq. split; [intros []|].
    destruct (mu s) as [k|]; [|rewrite Hp in H; destruct H as [[] _]; exact I].
    destruct H as (-> & o' & Ho & Ht). assert (o' = o) as -> by congruence. rewrite Ht.
    unfold calls. rewrite bind_app. cbn. by rewrite <- !app_assoc, <- app_comm_cons, <- app_assoc.
Qed.

(** C11: Register calls never overlap, and polls and commands are atomic.  Whatever the
    goroutines do, the inner client's calls so far are those of whole polls and commands
    one after another, each call returning before the next begins, followed by at most
    one unfinished poll or command; no two goroutines are ever in a register call; and
    the one that holds the outer mutex can always go on, so the mutexes never
    deadlock. *)
Theorem sections_serialise (s : Sys) :
  rtc lock_step Sys0 s → serial s ∧
  (∀ i j oi oj, pcs s i = InMu oi → pcs s j = InMu oj → i = j) ∧
  (∀ i, api s = Some i → ∃ s', lock_step s s' ∧ pcs s' i ≠ pcs s i).
Proof.
  intros H. assert (serial s) as Hs.
  { apply (rtc_ind_r (R := lock_step) serial Sys0); [|by intros; eapply serial_step|exact H].
    exists []. cbn. split; [done|]. split; [done|]. intros i []. }
  split; [exact Hs|]. destruct Hs as [hist Hs]. split.
  - intros i j oi oj Hi Hj. destruct (api s) as [k|].
    + destruct Hs as [Hin _]. transitivity k; [|symmetry]; apply Hin; [by rewrite Hi|by rewrite Hj].
    + destruct Hs as (_ & _ & Hn). destruct (Hn i). by rewrite Hi.
  - intros i Ha. rewrite Ha in Hs. destruct Hs as (Hin & ops & Hs).
    pose proof (proj2 (Hin i) eq_refl) as Hi.
    destruct (pcs s i) as [| | |o|o] eqn:Ep; [done|done| | |].
    + eexists. split; [by left; apply (step_unlock_api s i)|]. cbn. by rewrite upd_eq.
    + assert (mu s = None) as Hm.
      { destruct (mu s) as [k|]; [|done]. destruct Hs as (-> & o' & Ho & _). congruence. }
      eexists. split; [by right; apply (step_lock_mu s i o)|]. cbn. by rewrite upd_eq.
    + eexists. split; [by right; apply (step_return s i o)|]. cbn. by rewrite upd_eq.
Qed.
End Locking.

(** A poll and a command that meet: goroutine 0 reads while goroutine 1 waits. *)
Definition met : Sys (Op := string) := {|
  api := Some 0%nat; mu := Some 0%nat;
  pcs := upd (upd (upd (upd (upd (λ _, Idle) 0 WantApi) 0 InApi) 0 (WantMu "read")) 0 (InMu "read")) 1 WantApi;
  trace := [Enter 0; Begin 0 "read"] |}.

Lemma met_reachable : rtc lock_step Sys0 met.
Proof.
  eapply rtc_l; [by left; apply (step_start _ 0)|]. eapply rtc_l; [by left; apply (step_lock_api _ 0)|].
  eapply rtc_l; [by right; apply (step_call _ 0 "read")|].
  eapply rtc_l; [by right; apply (step_lock_mu _ 0 "read")|].
  eapply rtc_l; [by left; apply (step_start _ 1)|]. apply rtc_refl.
Qed.

Lemma sections_serialise_witness : serial met ∧ ∃ s', lock_step met s' ∧ pcs s' 0%nat ≠ pcs met 0%nat.
Proof.
  destruct (sections_serialise met met_reachable) as (Hs & _ & H). split; [exact Hs|].
  exact (H 0%nat eq_refl).
Defined.

(** ** Shutdown

    The goroutines shutdown meets: the scheduler's, the one that delivers inbound
    commands, the reconnect hooks and the main one, which runs [waitForExit] and the
    teardown.  [availability] is the retained message the broker holds. *)

Inductive worker : Type := Resting | Waiting | Working | Exited.

#[export] Instance worker_eq_dec : EqDecision worker.
Proof. solve_decision. Defined.

Inductive main_pc : Type :=
| Serving            (* in [waitForExit] *)
| Draining           (* at [<-t.schedDone] *)
| Offline            (* before [t.offline(ctx)] *)
| Closing            (* in [mc.Disconnect], before [hookClosing = true] *)
| Cancelling         (* before [cancel()] of the hooks' context *)
| Awaiting           (* at the select between the drained hooks and the context *)
| Disconnecting (timed_out : bool)   (* before [cm.Disconnect] *)
| Disconnected (timed_out : bool).

(** [hooks] are the running hooks: whether each has published "online" yet.  [session] is
    whether autopaho's connection manager runs, so that something can be published. *)
Record Life : Type := {
  ended : bool;
  poller : worker;
  commands : worker;
  client : Client;
  hooks : list bool;
  main : main_pc;
  session : bool;
  availability : string;
}.

(** After the eager republish, the scheduler about to poll. *)
Definition Life0 (hook : nat) : Life := {|
  ended := false; poller := Waiting; commands := Resting; client := Client0 (Some hook); hooks := [];
  main := Serving; session := true; availability := "online" |}.

Definition with_poller (p : worker) (s : Life) : Life :=
  {| ended := ended s; poller := p; commands := commands s; client := client s; hooks := hooks s;
     main := main s; session := session s; availability := availability s |}.
Definition with_commands (p : worker) (s : Life) : Life :=
  {| ended := ended s; poller := poller s; commands := p; client := client s; hooks := hooks s;
     main := main s; session := session s; availability := availability s |}.
Definition with_hooks (c : Client) (l : list bool) (s : Life) : Life :=
  {| ended := ended s; poller := poller s; commands := commands s; client := c; hooks := l;
     main := main s; session := session s; availability := availability s |}.
Definition with_main (m : main_pc) (c : Client) (s : Life) : Life :=
  {| ended := ended s; poller := poller s; commands := commands s; client := c; hooks := hooks s;
     main := m; session := session s; availability := availability s |}.
Definition says (a : string) (s : Life) : Life :=
  {| ended := ended s; poller := poller s; commands := commands s; client := client s; hooks := hooks s;
     main := main s; session := session s; availability := a |}.
Definition ends (s : Life) : Life :=
  {| ended := true; poller := poller s; commands := commands s; client := client s; hooks := hooks s;
     main := main s; session := session s; availability := availability s |}.
Definition loses_session (s : Life) : Life :=
  {| ended := ended s; poller := poller s; commands := commands s; client := client s; hooks := hooks s;
     main := main s; session := false; availability := availability s |}.
Definition leaves (m : main_pc) (s : Life) : Life :=
  {| ended := ended s; poller := poller s; commands := commands s; client := client s; hooks := hooks s;
     main := m; session := false; availability := availability s |}.

(** [apiMu] is taken by [Working]. *)
Inductive life_step : Life → Life → Prop :=
(* the run context ends: a signal, or the health server failing *)
| life_end s : life_step s (ends s)
(* autopaho's manager was started under the run context: once that has ended it closes the
   session, with a clean disconnect and so without the will, at a moment of its own *)
| life_session_ends s : ended s = true → session s = true → life_step s (loses_session s)
(* the scheduler: ticks, polls, and returns between polls once the context has ended *)
| life_tick s : poller s = Resting → life_step s (with_poller Waiting s)
| life_poll s : poller s = Waiting → commands s ≠ Working → life_step s (with_poller Working s)
| life_polled s : poller s = Working → life_step s (with_poller Resting s)
| life_exit s : poller s = Resting → ended s = true → life_step s (with_poller Exited s)
(* an inbound message, while there is a session, and its dispatch *)
| life_message s : commands s = Resting → session s = true → life_step s (with_commands Waiting s)
| life_command s : commands s = Waiting → poller s ≠ Working → life_step s (with_commands Working s)
| life_applied s : commands s = Working → life_step s (with_commands Resting s)
(* a connection comes up; the hook it starts publishes and returns.  The end of its context
   does not keep it from publishing: [republisher.run] does not look at it *)
| life_up s f c : session s = true → fireOnUp (client s) = (Some f, c) →
    life_step s (with_hooks c (false :: hooks s) s)
| life_up_ignored s c : fireOnUp (client s) = (None, c) → life_step s (with_hooks c (hooks s) s)
| life_online s l1 l2 : hooks s = l1 ++ false :: l2 → session s = true →
    life_step s (says "online" (with_hooks (client s) (l1 ++ true :: l2) s))
| life_hook_failed s l1 l2 : hooks s = l1 ++ false :: l2 →
    life_step s (with_hooks (client s) (l1 ++ true :: l2) s)
| life_hook_done s l1 b l2 : hooks s = l1 ++ b :: l2 →
    life_step s (with_hooks (hookDone (client s)) (l1 ++ l2) s)
(* the main goroutine *)
| life_stop s : main s = Serving → ended s = true → life_step s (with_main Draining (client s) s)
| life_drained s : main s = Draining → poller s = Exited → life_step s (with_main Offline (client s) s)
| life_offline s : main s = Offline → session s = true →
    life_step s (says "offline" (with_main Closing (client s) s))
| life_offline_failed s : main s = Offline → life_step s (with_main Closing (client s) s)
| life_closing s : main s = Closing → life_step s (with_main Cancelling (closeHooks (client s)) s)
| life_cancel s : main s = Cancelling → life_step s (with_main Awaiting (cancelHooks (client s)) s)
| life_await s ctx_ended : main s = Awaiting → drained (client s) ctx_ended = true →
    life_step s (with_main (Disconnecting ctx_ended) (client s) s)
| life_disconnect s b : main s = Disconnecting b → life_step s (leaves (Disconnected b) s).

(** ** What holds of every run *)

Definition past_drain (m : main_pc) : Prop := match m with Serving | Draining => False | _ => True end.
Definition hooks_closed (m : main_pc) : Prop :=
  match m with Cancelling | Awaiting | Disconnecting _ | Disconnected _ => True | _ => False end.
Definition disconnected (m : main_pc) : Prop := match m with Disconnected _ => True | _ => False end.
Definition drained_clean (m : main_pc) : Prop :=
  match m with Disconnecting false | Disconnected false => True | _ => False end.

Record life_inv (s : Life) : Prop := {
  inv_wg : hookWG (client s) = length (hooks s);
  inv_closed : hooks_closed (main s) → hookClosing (client s) = true;
  inv_clean : drained_clean (main s) → hooks s = [];
  inv_drained : past_drain (main s) → poller s = Exited;
  inv_exited : poller s = Exited → ended s = true;
  inv_session : disconnected (main s) → session s = false;
}.

Lemma fire_none c c' : fireOnUp c = (None, c') → c' = c.
Proof. unfold fireOnUp. destruct (onUp c); [destruct (hookClosing c)|]; congruence. Qed.

Lemma fire_some c f c' : fireOnUp c = (Some f, c') →
  hookClosing c = false ∧ hookWG c' = S (hookWG c) ∧ hookClosing c' = hookClosing c.
Proof.
  unfold fireOnUp. destruct (onUp c); [|done]. destruct (hookClosing c) eqn:E; [done|].
  by intros [= _ <-].
Qed.

Lemma life_inv_step s s' : life_inv s → life_step s s' → life_inv s'.
Proof.
  intros [Hwg Hcl Hcn Hdr Hex Hse] Hs.
  destruct Hs as [s|s H1 H2|s H1|s H1 H2|s H1|s H1 H2|s H1 H2|s H1 H2|s H1|s f c H1 H2|s c H1|s l1 l2 H1 H2
    |s l1 l2 H1|s l1 b l2 H1|s H1 H2|s H1 H2|s H1 H2|s H1|s H1|s H1|s b H1 H2|s b H1];
    cbn in *; try (constructor; cbn in *; first [done | rewrite ?H1 in *; intuition (congruence || eauto)]; fail).
  all: try (destruct s; cbn in *; subst; constructor; cbn in *; first [done | by auto]; fail).
  - apply fire_some in H2 as (Ho & Hw & Hc). constructor; cbn; try assumption.
    + by rewrite Hw, Hwg.
    + by rewrite Hc.
    + intros Hm. assert (hooks_closed (main s)) as Hm' by (by destruct (main s) as [| | | | | |[]|[]]).
      apply Hcl in Hm'. congruence.
  - apply fire_none in H1 as ->. by constructor.
  - constructor; cbn; try assumption; rewrite H1 in *; rewrite ?length_app in *; [done|].
    intros Hm. by apply Hcn, app_nil in Hm as [_ ?].
  - constructor; cbn; try assumption; rewrite H1 in *; rewrite ?length_app in *; [done|].
    intros Hm. by apply Hcn, app_nil in Hm as [_ ?].
  - constructor; cbn; try assumption; rewrite H1 in *; rewrite ?length_app in *; [cbn in *; lia|].
    intros Hm. by apply Hcn, app_nil in Hm as [_ ?].
  - destruct s; cbn in *; subst. constructor; cbn in *; try assumption; auto.
    intros Hm. destruct b; [done|]. unfold drained in H2. rewrite orb_false_r in H2.
    apply Nat.eqb_eq in H2. apply nil_length_inv. lia.
Qed.

Lemma life_inv_run hook s : rtc life_step (Life0 hook) s → life_inv s.
Proof.
  apply (rtc_ind_r (R := life_step) life_inv (Life0 hook)); [|by intros; eapply life_inv_step].
  constructor; cbn; done || (by intros [? ?]).
Qed.

(** Once there, a run stays there. *)
Lemma exited_stays s s' : rtc life_step s s' → poller s = Exited → poller s' = Exited.
Proof.
  induction 1 as [|s s1 s2 Hs _ IH]; [done|]. intros Hp. apply IH. clear IH.
  destruct Hs; cbn in *; congruence.
Qed.

Lemma closed_step s s' : life_step s s' → hooks_closed (main s) → hookClosing (client s) = true →
  hooks_closed (main s') ∧ hookClosing (client s') = true ∧ (length (hooks s') ≤ length (hooks s))%nat ∧
  (hooks s = [] → availability s' = availability s).
Proof.
  intros Hs Hm Hc.
  destruct Hs as [s|s H1 H2|s H1|s H1 H2|s H1|s H1 H2|s H1 H2|s H1 H2|s H1|s f c H1 H2|s c H1|s l1 l2 H1 H2
    |s l1 l2 H1|s l1 b l2 H1|s H1 H2|s H1 H2|s H1 H2|s H1|s H1|s H1|s b H1 H2|s b H1];
    cbn in *; try (rewrite H1 in Hm; destruct Hm; fail); try (repeat split; first [done|lia]; fail).
  - apply fire_some in H2 as (Ho & _). congruence.
  - apply fire_none in H1 as ->. repeat split; first [done|lia].
  - rewrite H1, !length_app. cbn. repeat split; first [done|lia|by intros [_ ?]%app_nil].
  - rewrite H1, !length_app. cbn. repeat split; first [done|lia].
  - rewrite H1, !length_app. cbn. repeat split; first [done|lia].
Qed.

Lemma closed_run s s' : rtc life_step s s' → hooks_closed (main s) → hookClosing (client s) = true →
  (length (hooks s') ≤ length (hooks s))%nat ∧
  (hooks s = [] → hooks s' = [] ∧ availability s' = availability s).
Proof.
  induction 1 as [|s s1 s2 Hs _ IH]; [done|]. intros Hm Hc.
  destruct (closed_step s s1 Hs Hm Hc) as (Hm' & Hc' & Hl & Ha). destruct (IH Hm' Hc') as [Hl' Hn].
  split; [lia|]. intros Hh. rewrite Hh in Hl. cbn in Hl. rewrite <- (Ha Hh).
  apply Hn, nil_length_inv. lia.
Qed.

(** Without the session nothing is published any more, and it does not come back. *)
Lemma silent_run s s' : rtc life_step s s' → session s = false →
  session s' = false ∧ availability s' = availability s.
Proof.
  induction 1 as [|s s1 s2 Hs _ IH]; [done|]. intros Hc.
  assert (session s1 = false ∧ availability s1 = availability s) as [H1 <-]; [|by apply IH].
  destruct Hs; cbn in *; try done; congruence.
Qed.

(** ** Properties *)

(** C14: What the teardown order guarantees.  In every run: once the drain is past, the
    scheduler has returned and never polls again; once the hooks are closed their number
    never grows, and when none is left none ever runs and the retained availability
    stays what it is; that is so whenever the client comes to disconnect without the
    shutdown context having run out; and after the disconnect nothing is published,
    whatever may still be running. *)
Theorem teardown_order (hook : nat) (s : Life) :
  rtc life_step (Life0 hook) s → ∀ s', rtc life_step s s' →
  (past_drain (main s) → poller s' = Exited) ∧
  (hooks_closed (main s) → (length (hooks s') ≤ length (hooks s))%nat) ∧
  (hooks_closed (main s) → hooks s = [] → hooks s' = [] ∧ availability s' = availability s) ∧
  (drained_clean (main s) → hooks s' = [] ∧ availability s' = availability s) ∧
  (disconnected (main s) → availability s' = availability s).
Proof.
  intros H s' Hs. apply life_inv_run in H as [Hwg Hcl Hcn Hdr Hex Hse].
  assert (drained_clean (main s) → hooks_closed (main s)) as Hd by (by destruct (main s)).
  split; [intros Hm; eapply exited_stays; eauto|].
  split; [intros Hm; by apply (closed_run s s' Hs Hm); auto|].
  split; [intros Hm; apply (closed_run s s' Hs Hm); auto|].
  split; [intros Hm; apply (closed_run s s' Hs (Hd Hm)); auto|].
  intros Hm. apply (silent_run s s' Hs); auto.
Qed.

(** Ways to finish what is running. *)
Lemma finish_commands s : ∃ s', rtc life_step s s' ∧ commands s' ≠ Working ∧
  poller s' = poller s ∧ ended s' = ended s ∧ client s' = client s ∧ hooks s' = hooks s ∧ main s' = main s.
Proof.
  destruct (decide (commands s = Working)) as [Hc|Hc].
  - eexists. split; [apply rtc_once, life_applied, Hc|]. done.
  - exists s. split; [apply rtc_refl|done].
Qed.

Lemma finish_poller s : ended s = true → ∃ s', rtc life_step s s' ∧ poller s' = Exited ∧
  ended s' = true ∧ client s' = client s ∧ hooks s' = hooks s ∧ main s' = main s.
Proof.
  intros He. destruct (finish_commands s) as (s1 & H1 & Hc & Hp & He1 & Hcl & Hh & Hm).
  assert (∀ s2, poller s2 = Working → ended s2 = true → ∃ s', rtc life_step s2 s' ∧ poller s' = Exited ∧
    ended s' = true ∧ client s' = client s2 ∧ hooks s' = hooks s2 ∧ main s' = main s2) as Hw.
  { intros s2 Hp2 He2. exists (with_poller Exited (with_poller Resting s2)).
    split; [|done]. eapply rtc_l; [by apply life_polled|]. by apply rtc_once, life_exit. }
  destruct (poller s1) eqn:Ep.
  - exists (with_poller Exited s1). split; [|cbn; rewrite He1, Hcl, Hh, Hm; done].
    eapply rtc_r; [exact H1|]. apply life_exit; congruence.
  - destruct (Hw (with_poller Working s1)) as (s' & H2 & ? & ? & E1 & E2 & E3); [done|cbn; congruence|].
    exists s'. cbn in *. split; [|rewrite E1, E2, E3, Hcl, Hh, Hm; done].
    etransitivity; [exact H1|]. eapply rtc_l; [by apply life_poll|]. exact H2.
  - destruct (Hw s1) as (s' & H2 & ? & ? & E1 & E2 & E3); [done|congruence|].
    exists s'. split; [|rewrite E1, E2, E3, Hcl, Hh, Hm; done]. by etransitivity.
  - exists s1. split; [done|]. rewrite He1, Hcl, Hh, Hm. done.
Qed.

Lemma finish_hooks s : hookWG (client s) = length (hooks s) → ∃ s', rtc life_step s s' ∧
  hooks s' = [] ∧ hookWG (client s') = 0%nat ∧ main s' = main s ∧ poller s' = poller s.
Proof.
  remember (hooks s) as l eqn:El. revert s El. induction l as [|b l IH]; intros s El Hw.
  - exists s. split; [apply rtc_refl|]. done.
  - destruct (IH (with_hooks (hookDone (client s)) ([] ++ l) s)) as (s' & H & ? & ? & ? & ?);
      [done|cbn; rewrite Hw; done|]. exists s'. split; [|done].
    eapply rtc_l; [by apply (life_hook_done s [] b l)|]. exact H.
Qed.

(** Reaching the clean end. *)
Definition can_finish (s : Life) : Prop := ∃ s', rtc life_step s s' ∧ main s' = Disconnected false.

Lemma finish_step s s1 : life_inv s → life_step s s1 → (life_inv s1 → can_finish s1) → can_finish s.
Proof.
  intros Hi Hs H. destruct (H (life_inv_step _ _ Hi Hs)) as (s' & H' & Hm).
  exists s'. split; [by eapply rtc_l|done].
Qed.

Lemma finish_awaiting s : life_inv s → main s = Awaiting → can_finish s.
Proof.
  intros Hi Hm. destruct (finish_hooks s (inv_wg _ Hi)) as (s3 & H3 & _ & Hw & Hm3 & _).
  exists (leaves (Disconnected false) (with_main (Disconnecting false) (client s3) s3)).
  split; [|done]. etransitivity; [exact H3|]. eapply rtc_l.
  - apply (life_await s3 false); [congruence|]. unfold drained. by rewrite Hw.
  - by apply rtc_once, life_disconnect.
Qed.

Lemma finish_offline s : life_inv s → main s ∈ [Offline; Closing; Cancelling] → can_finish s.
Proof.
  assert (∀ s, life_inv s → main s = Cancelling → can_finish s) as Hk.
  { intros s0 Hi Hm. eapply finish_step; [done|by apply life_cancel|]. intros H. by apply finish_awaiting. }
  assert (∀ s, life_inv s → main s = Closing → can_finish s) as Hc.
  { intros s0 Hi Hm. eapply finish_step; [done|by apply life_closing|]. intros H. by apply Hk. }
  rewrite !elem_of_cons, elem_of_nil. intros Hi [Hm|[Hm|[Hm|[]]]]; [|by apply Hc|by apply Hk].
  eapply finish_step; [done|by apply life_offline_failed|]. intros H. by apply Hc.
Qed.

Lemma finish_draining s : life_inv s → ended s = true → main s = Draining → can_finish s.
Proof.
  intros Hi He Hm. destruct (finish_poller s He) as (s3 & Hs3 & Hp & _ & _ & _ & Hm3).
  assert (life_inv s3) as Hi3
    by (by apply (rtc_ind_r (R := life_step) life_inv s); [|intros; eapply life_inv_step|]).
  assert (can_finish s3) as (s' & H' & Hm').
  { eapply finish_step; [done|apply life_drained; congruence|]. intros H. apply finish_offline; [done|by left]. }
  exists s'. split; [by etransitivity|done].
Qed.

(** C23: Shutdown can always complete.  From every state a run can be in once the run
    context has ended, some continuation of it disconnects the client, and without the
    shutdown context running out unless it already has: nothing the goroutines may hold
    or wait for blocks the teardown. *)
Theorem shutdown_completes (hook : nat) (s : Life) :
  rtc life_step (Life0 hook) s → ended s = true →
  ∃ s' b, rtc life_step s s' ∧ main s' = Disconnected b ∧
    (b = true → main s = Disconnecting true ∨ main s = Disconnected true).
Proof.
  intros Hr He. pose proof (life_inv_run hook s Hr) as Hi.
  assert (can_finish s → ∃ s' b, rtc life_step s s' ∧ main s' = Disconnected b ∧
    (b = true → main s = Disconnecting true ∨ main s = Disconnected true)) as Hdone.
  { intros (s' & H & Hm). exists s', false. split; [done|]. by split. }
  destruct (main s) as [| | | | | |b|b] eqn:Em.
  - apply Hdone. eapply finish_step; [done|by apply life_stop|]. intros H. by apply finish_draining.
  - by apply Hdone, finish_draining.
  - apply Hdone, finish_offline; [done|]. rewrite Em. by left.
  - apply Hdone, finish_offline; [done|]. rewrite Em. by right; left.
  - apply Hdone, finish_offline; [done|]. rewrite Em. by right; right; left.
  - by apply Hdone, finish_awaiting.
  - exists (leaves (Disconnected b) s), b. split; [by apply rtc_once, life_disconnect|].
    split; [done|]. intros ->. by left.
  - exists s, b. split; [apply rtc_refl|]. split; [done|]. intros ->. by right.
Qed.

(** C39: What it does not guarantee.  The drain covers the scheduler's goroutine only: a
    command dispatched by the MQTT client can be at work while "offline" is published
    and the client disconnects; a reconnect hook that started before the shutdown
    can publish "online" after the "offline", leaving the manager announced as available
    once it has disconnected cleanly; and since the session hangs on the run context, it
    can be gone before "offline" is due: from then on no run publishes it, so that the
    manager stays announced as available although the teardown goes through. *)
Theorem shutdown_races (hook : nat) :
  (∃ s, rtc life_step (Life0 hook) s ∧ main s = Disconnecting false ∧ commands s = Working) ∧
  (∃ s s', rtc life_step (Life0 hook) s ∧ main s = Closing ∧ availability s = "offline" ∧
     rtc life_step s s' ∧ main s' = Disconnected false ∧ availability s' = "online") ∧
  (∃ s, rtc life_step (Life0 hook) s ∧ main s = Offline ∧ hooks s = [] ∧ availability s = "online" ∧
     (∀ s', rtc life_step s s' → availability s' = "online") ∧
     ∃ s', rtc life_step s s' ∧ main s' = Disconnected false).
Proof.
  pose (c1 := {| onUp := Some hook; onMsg := None; hookCancelled := false; hookWG := 1; hookClosing := false |}).
  split; [|split].
  - eexists. split; [|split].
    + eapply rtc_l; [by apply life_poll|]. eapply rtc_l; [by apply life_polled|].
      eapply rtc_l; [by apply life_end|]. eapply rtc_l; [by apply life_exit|].
      eapply rtc_l; [by apply life_message|]. eapply rtc_l; [by apply life_command|].
      eapply rtc_l; [by apply life_stop|]. eapply rtc_l; [by apply life_drained|].
      eapply rtc_l; [by apply life_offline|]. eapply rtc_l; [by apply life_closing|].
      eapply rtc_l; [by apply life_cancel|]. by apply rtc_once, (life_await _ false).
    + done.
    + done.
  - eexists _, _. split; [|split; [|split; [|split; [|split]]]].
    + eapply rtc_l; [by apply life_poll|]. eapply rtc_l; [by apply life_polled|].
      eapply rtc_l; [by apply (life_up _ hook c1)|]. eapply rtc_l; [by apply life_end|].
      eapply rtc_l; [by apply life_exit|]. eapply rtc_l; [by apply life_stop|].
      eapply rtc_l; [by apply life_drained|]. by apply rtc_once, life_offline.
    + done.
    + done.
    + eapply rtc_l; [by apply (life_online _ [] [])|]. eapply rtc_l; [by apply (life_hook_done _ [] true [])|].
      eapply rtc_l; [by apply life_closing|]. eapply rtc_l; [by apply life_cancel|].
      eapply rtc_l; [by apply (life_await _ false)|]. by apply rtc_once, life_disconnect.
    + done.
    + done.
  - eexists. split; [|split; [|split; [|split; [|split]]]].
    + eapply rtc_l; [by apply life_poll|]. eapply rtc_l; [by apply life_polled|].
      eapply rtc_l; [by apply life_end|]. eapply rtc_l; [by apply life_session_ends|].
      eapply rtc_l; [by apply life_exit|]. eapply rtc_l; [by apply life_stop|]. by apply rtc_once, life_drained.
    + done.
    + done.
    + done.
    + intros s' Hs. by apply silent_run in Hs as [_ ->].
    + eexists. split.
      * eapply rtc_l; [by apply life_offline_failed|]. eapply rtc_l; [by apply life_closing|].
        eapply rtc_l; [by apply life_cancel|]. eapply rtc_l; [by apply (life_await _ false)|].
        by apply rtc_once, life_disconnect.
      * done.
Qed.

(** A run stopped while the first poll is at work. *)
Definition demo_stopped : Life := ends (with_poller Working (Life0 0)).

Lemma demo_stopped_reachable : rtc life_step (Life0 0) demo_stopped.
Proof. eapply rtc_l; [by apply life_poll|]. by apply rtc_once, life_end. Qed.

Lemma shutdown_completes_witness : ∃ s', rtc life_step demo_stopped s' ∧ main s' = Disconnected false.
Proof.
  destruct (shutdown_completes 0 demo_stopped demo_stopped_reachable eq_refl) as (s' & b & H & Hm & Hb).
  exists s'. split; [exact H|]. destruct b; [|exact Hm]. destruct (Hb eq_refl); discriminate.
Defined.

(** The same run, at the publication of "offline". *)
Definition demo_offline : Life :=
  with_main Offline (Client0 (Some 0%nat)) (with_main Draining (Client0 (Some 0%nat))
    (with_poller Exited (with_poller Resting demo_stopped))).

Lemma demo_offline_reachable : rtc life_step (Life0 0) demo_offline.
Proof.
  etransitivity; [exact demo_stopped_reachable|]. eapply rtc_l; [by apply life_polled|].
  eapply rtc_l; [by apply life_exit|]. eapply rtc_l; [by apply life_stop|]. by apply rtc_once, life_drained.
Qed.

Lemma teardown_order_witness :
  main demo_offline = Offline ∧ poller (with_main Closing (Client0 (Some 0%nat)) demo_offline) = Exited.
Proof.
  split; [reflexivity|].
  destruct (teardown_order 0 demo_offline demo_offline_reachable (with_main Closing (Client0 (Some 0%nat)) demo_offline))
    as (H & _); [by apply rtc_once, (life_offline_failed demo_offline)|]. exact (H I).
Defined.
