(* ===== verification/Controls.v ===== *)
(** * Commands and the reconcile (internal/controls)

    The guarded register write, the command handler, the reconcile of the timed
    slots and the setpoint read, as computations on the bus of [Sidecar]. *)

From Stdlib Require Import Ascii.
From S2P Require Import Prelude GoInt GoString GoTime GoFloat FloatFacts Amps Block WorkMode.
From S2P Require Import Registers TimedSlots Rtc Schedule Sidecar.

(** ** Guard (guard.go) *)

Record GuardResult : Type := {
  Skipped : bool; Wrote : bool; Confirmed : bool; Old : Z; New : Z;
}.

Definition noResult : GuardResult :=
  {| Skipped := false; Wrote := false; Confirmed := false; Old := 0; New := 0 |}.

Section Controls.
Context {W : Type} `{rw : HoldingReadWriter W}.

Definition readOne (addr : Z) : State W (result Z) :=
  r ← ReadHolding addr 1;
  mret (match r with
        | Err e => Err e
        | Ok [] => Err (Errorf ("holding " +:+ pretty addr +:+ ": empty read response"))
        | Ok (v :: _) => Ok v
        end).

Definition guard_ctx (addr : Z) (what : string) : string :=
  "guard " +:+ pretty addr +:+ ": " +:+ what.

Definition Guard (addr desired : Z) : State W (GuardResult * option error) :=
  r ← readOne addr;
  match r with
  | Err e => mret (noResult, Some (Wrapf (guard_ctx addr "read current") e))
  | Ok current =>
      if current =? desired then
        mret ({| Skipped := true; Wrote := false; Confirmed := false;
                 Old := current; New := current |}, None)
      else
        wr ← WriteHolding addr desired;
        match wr with
        | Err e =>
            mret ({| Skipped := false; Wrote := false; Confirmed := false; Old := current; New := 0 |},
                  Some (Wrapf (guard_ctx addr ("write " +:+ pretty desired)) e))
        | Ok _ =>
            rr ← readOne addr;
            match rr with
            | Err e =>
                mret ({| Skipped := false; Wrote := true; Confirmed := false; Old := current; New := 0 |},
                      Some (Wrapf (guard_ctx addr "confirm read") e))
            | Ok reread =>
                if reread =? desired then
                  mret ({| Skipped := false; Wrote := true; Confirmed := true;
                           Old := current; New := reread |}, None)
                else
                  mret ({| Skipped := false; Wrote := true; Confirmed := false;
                           Old := current; New := reread |},
                        Some (Errorf (guard_ctx addr ("re-read " +:+ pretty reread
                          +:+ " does not confirm desired " +:+ pretty desired))))
            end
        end
  end.

(** ** The guarded sequence (logGuard, writeRegisters, guardOne of handler.go) *)

(** The line [logGuard] prints for an outcome; printing it is left out of the
    sequences below. *)
Inductive GuardLine : Type := NotConfirmed | GuardFailed | WriteSkipped | WriteConfirmed.

Definition logGuard (res : GuardResult) (err : option error) : GuardLine :=
  match err with
  | Some _ => if Wrote res then NotConfirmed else GuardFailed
  | None => if Skipped res then WriteSkipped else WriteConfirmed
  end.

(** One register: guarded, and guarded once more if it failed without a
    confirmed write.  The result is (any write issued, error). *)
Definition guardRetry (reg : Register) : State W (bool * option error) :=
  g ← Guard (Addr reg) (Value reg);
  let '(res, err) := g in
  if bool_decide (is_Some err) && negb (Wrote res) then
    g' ← Guard (Addr reg) (Value reg);
    let '(res', err') := g' in
    mret (Wrote res || Wrote res', err')
  else mret (Wrote res, err).

Fixpoint writeRegisters (regs : list Register) : State W (bool * option error) :=
  match regs with
  | [] => mret (false, None)
  | reg :: regs' =>
      g ← guardRetry reg;
      let '(wrote, err) := g in
      match err with
      | Some _ => mret (wrote, err)
      | None =>
          rest ← writeRegisters regs';
          let '(wrote', err') := rest in
          mret (wrote || wrote', err')
      end
  end.

Definition guardOne (addr value : Z) : State W unit :=
  _ ← Guard addr value; mret ().

(** ** The handler (handler.go) *)

Context `{clk : Clock_ W} `{tz : TimeZone} `{conv : FloatToUint16}.

(** [refresh] is nil or a callback; [now] and [rw] are the classes above, so the
    option [WithNow] is the choice of a clock. *)
Record Handler : Type := {
  enabled : bool;
  refresh : option (State W unit);
  tou : TimedWindow;
  assertToU : bool;
}.

Inductive HandlerOption : Type := WithToU (window : TimedWindow) (assert_ : bool).

Definition NewHandler (enabled_ : bool) (refresh_ : option (State W unit)) (opts : list HandlerOption)
  : Handler :=
  foldl (λ h '(WithToU window assert_),
    {| enabled := enabled h; refresh := refresh h; tou := window; assertToU := assert_ |})
    {| enabled := enabled_; refresh := refresh_; tou := Window0; assertToU := false |} opts.

Definition commandKey (topic : string) : option string :=
  match reverse (Split topic "/"%char) with
  | last :: key :: _ =>
      if negb (bool_decide (last = "set")) then None
      else if bool_decide (key = "") then None
      else Some key
  | _ => None
  end.

Definition parseRunStop (payload : string) : option bool :=
  let s := ToUpper (TrimSpace payload) in
  if decide (s = "RUN") then Some true
  else if decide (s = "STOP") then Some false
  else None.

(** Each command returns [Some routed], or [None] for a panic. *)
Definition setCurrent (addr : Z) (payload : string) : State W (option bool) :=
  match ParseFloat (TrimSpace payload) with
  | Err _ => mret (Some false)
  | Ok parsed =>
      if IsNaN parsed || IsInf parsed then mret (Some false)
      else
        let value := EncodeAmps (ClampHAChargeAmps parsed) in
        _ ← guardOne addr value;
        mret (Some true)
  end.

Definition setOptimalIncome (payload : string) : State W (option bool) :=
  match parseRunStop payload with
  | None => mret (Some false)
  | Some on =>
      cur ← readOne RegWorkMode;
      match cur with
      | Err _ => mret (Some true)
      | Ok cur =>
          let desired := Encode (WithTimed (DecodeWorkMode cur) on) in
          _ ← guardOne RegWorkMode desired;
          mret (Some true)
      end
  end.

Definition writeBoostSlot (slot : TimedSlot) : State W (option bool) :=
  match TimedSlotWriteRegisters boostSlot slot with
  | None => mret None
  | Some regs => _ ← writeRegisters regs; mret (Some true)
  end.

Definition setBoost (h : Handler) (payload : string) : State W (option bool) :=
  match ParseBoostOption payload with
  | None => mret (Some false)
  | Some (mode, minutes) =>
      if decide (mode = Off) then writeBoostSlot Slot0
      else
        cur ← readOne RegWorkMode;
        match cur with
        | Err _ => mret (Some true)
        | Ok cur =>
            if negb (Timed (DecodeWorkMode cur)) then mret (Some true)
            else
              now ← (λ w, (Now w, w));
              match PlanBoost mode minutes now (tou h) (assertToU h) with
              | Err _ => mret (Some true)
              | Ok slot => writeBoostSlot slot
              end
        end
  end.

Definition syncRTCTo : State W (bool * option error) :=
  now ← (λ w, (Now w, w));
  writeRegisters (RTCWriteRegisters now).

Definition syncRTC : State W (option bool) := _ ← syncRTCTo; mret (Some true).

Definition SyncRTC : State W (bool * option error) := syncRTCTo.

(** The command keys, the segment before [/set]. *)
Definition keySetChargeCurrent : string := "set_charge_current".
Definition keySetDischargeCurrent : string := "set_discharge_current".
Definition keyOptimalIncome : string := "optimal_income".
Definition keyBoostSelect : string := "boost_select".
Definition keyRTCSync : string := "rtc_sync".

Definition route (h : Handler) (key payload : string) : State W (option bool) :=
  if decide (key = keySetChargeCurrent) then setCurrent RegTimedChargeCurrent payload
  else if decide (key = keySetDischargeCurrent) then setCurrent RegTimedDischargeCurrent payload
  else if decide (key = keyOptimalIncome) then setOptimalIncome payload
  else if decide (key = keyBoostSelect) then setBoost h payload
  else if decide (key = keyRTCSync) then syncRTC
  else mret (Some false).

(** The recover makes a panic an ordinary return, without the refresh. *)
Definition OnMessage (h : Handler) (topic payload : string) : State W unit :=
  match commandKey topic with
  | None => mret ()
  | Some key =>
      if negb (enabled h) then mret ()
      else
        routed ← route h key payload;
        match routed, refresh h with
        | Some true, Some f => f
        | _, _ => mret ()
        end
  end.

Definition Apply (h : Handler) (topic payload : string) : State W unit := OnMessage h topic payload.

(** ** The reconcile (reconcile.go) *)

(** The registers of [desired] whose value differs from that of [have]; a missing
    map entry reads as zero. *)
Definition diff_regs (have desired : list Register) : list Register :=
  let m : gmap Z Z := foldl (λ m r, <[Addr r := Value r]> m) ∅ have in
  filter (λ r, Value r ≠ default 0 (m !! Addr r)) desired.

(** [None] would be the panic of a slot index out of range. *)
Definition scheduleDiff (desired current : TimedSlots) : option (list Register) :=
  foldr (λ i rest,
    have ← TimedSlotWriteRegisters i (slot_of current i);
    want ← TimedSlotWriteRegisters i (slot_of desired i);
    tl ← rest;
    Some (diff_regs have want ++ tl)) (Some []) [0; 1; 2].

Definition Reconcile (h : Handler) (slots : TimedSlots) : State W (bool * option error) :=
  if negb (enabled h) then mret (false, None)
  else
    now ← (λ w, (Now w, w));
    let desired := Desired (tou h) (assertToU h) slots now in
    match scheduleDiff desired slots with
    | None => mret (false, None)
    | Some [] => mret (false, None)
    | Some diff => writeRegisters diff
    end.

(** ** Reading the control state (setpoints.go) *)

Definition setpointBlockCount : Z := 61.

Record Setpoints : Type := {
  SetChargeCurrent : float64;
  SetDischargeCurrent : float64;
  MaxChargeCurrent : float64;
  MaxDischargeCurrent : float64;
  OptimalIncome : bool;
  Slots : TimedSlots;
}.

(** [regs[i]] after the length check; [0] stands for the index panic, which the
    check rules out. *)
Definition reg_at (regs : list Z) (i : Z) : Z := nth (Z.to_nat i) regs 0.

Definition ReadSetpoints : State W (result Setpoints) :=
  r ← ReadHolding RegWorkMode setpointBlockCount;
  mret (match r with
  | Err e => Err (Wrapf "read setpoints" e)
  | Ok regs =>
      let n := Z.of_nat (length regs) in
      if n <? setpointBlockCount then
        Err (Errorf ("read setpoints: short block, got " +:+ pretty n
          +:+ " registers want " +:+ pretty setpointBlockCount))
      else
        slots ← wrap_err "read setpoints: decode slots"
          (DecodeTimedSlots [ {| Base := RegWorkMode; Regs := regs |} ]);
        Ok {|
          SetChargeCurrent := DecodeAmps (reg_at regs (RegTimedChargeCurrent - RegWorkMode));
          SetDischargeCurrent := DecodeAmps (reg_at regs (RegTimedDischargeCurrent - RegWorkMode));
          MaxChargeCurrent := DecodeAmps (reg_at regs (RegMaxChargeCurrent - RegWorkMode));
          MaxDischargeCurrent := DecodeAmps (reg_at regs (RegMaxDischargeCurrent - RegWorkMode));
          OptimalIncome := Timed (DecodeWorkMode (reg_at regs 0));
          Slots := slots;
        |}
  end).
End Controls.

(** ** What the guard does on any bus *)

(** The register differs from the word it should hold. *)
Definition needs (m : mem) (r : Register) : Prop := m (Addr r) ≠ Value r.

#[export] Instance needs_dec m r : Decision (needs m r).
Proof. unfold needs. apply _. Defined.

Definition word_reg (r : Register) : Prop := is_uint16 (Value r).
Definition addr_reg (r : Register) : Prop := is_uint16 (Addr r).

Lemma addr_reg_range lo hi regs : 0 ≤ lo → hi < 2 ^ 16 →
  (∀ r, r ∈ regs → lo ≤ Addr r ≤ hi) → Forall addr_reg regs.
Proof. intros Hl Hh H. apply Forall_forall. intros r Hr. specialize (H r Hr). unfold addr_reg. int_solve. Qed.

Section AnyBus.
Context {W : Type} `{rw : HoldingReadWriter W} `{laws : !BusLaws W}.

Definition unchanged (w w' : W) : Prop :=
  (∀ a, holding w' a = holding w a) ∧ landed w' = landed w.

Definition wrote_reg (r : Register) (w w' : W) : Prop :=
  (∀ a, holding w' a = write_reg (holding w) r a) ∧ landed w' = landed w ++ [r].

Lemma readOne_spec a w r w' : readOne a w = (r, w') →
  unchanged w w' ∧ frames w' = frames w ∧ ∀ v, r = Ok v → v = holding w a.
Proof.
  unfold readOne. intros H. state_inv. apply bus_read in E as (Hh & Hl & Hf & Hp).
  subst w0. split; [done|]. split; [done|]. intros v Hv. destruct r0 as [l|e]; [|congruence].
  destruct l as [|v' l]; [congruence|]. rewrite Hv in H. injection H as ->.
  destruct (Hp _ eq_refl) as [t Ht]. change (Z.to_nat 1) with 1%nat in Ht.
  unfold bank_words in Ht. cbn in Ht. injection Ht as Ht _. rewrite <- Ht. f_equal. lia.
Qed.

Lemma Guard_skipped a v w res err w' : Guard a v w = ((res, err), w') → Skipped res = true → Wrote res = false.
Proof.
  unfold Guard. intros H. apply state_bind_inv in H as (r0 & w0 & _ & H).
  destruct r0 as [cur|e]; [|by injection H as <- _ _].
  destruct (cur =? v); [by injection H as <- _ _|].
  apply state_bind_inv in H as (r1 & w1 & _ & H). destruct r1 as [u|e]; [|by injection H as <- _ _].
  apply state_bind_inv in H as (r2 & w2 & _ & H). destruct r2 as [re|e]; [|by injection H as <- _ _].
  destruct (re =? v); by injection H as <- _ _.
Qed.

Lemma Guard_spec r w res err w' : word_reg r → Guard (Addr r) (Value r) w = ((res, err), w') →
  (unchanged w w' ∧ frames w' = frames w ∧ Wrote res = false ∧
     (err = None → Skipped res = true ∧ ¬ needs (holding w) r)) ∨
  (needs (holding w) r ∧ frames w' = frames w ++ [r] ∧
     ((unchanged w w' ∧ err ≠ None) ∨ wrote_reg r w w') ∧
     (err = None → Wrote res = true ∧ Confirmed res = true)).
Proof.
  intros Hr. destruct r as [a v]; unfold needs, word_reg in *; cbn [Addr Value] in *.
  unfold Guard. intros H. apply state_bind_inv in H as (r0 & w0 & E0 & H).
  apply readOne_spec in E0 as (U0 & F0 & V0).
  destruct r0 as [cur|e]; [|injection H as <- <- <-; left; naive_solver].
  specialize (V0 cur eq_refl). subst cur.
  destruct (Z.eqb_spec (holding w a) v) as [Heq|Hne].
  { injection H as <- <- <-. left. naive_solver. }
  right. split; [done|]. apply state_bind_inv in H as (r1 & w1 & E1 & H).
  apply bus_write in E1; [|done]. cbv zeta in E1. destruct E1 as (F1 & L1).
  assert (Hw1 : unchanged w w1 ∨ wrote_reg {| Addr := a; Value := v |} w w1).
  { destruct U0 as [Uh Ul], L1 as [[Lh Ll]|[Lh Ll]]; [left|right]; split; try congruence.
    intros b. rewrite Lh. by apply (write_regs_ext _ _ [_]). }
  destruct r1 as [u|e].
  2: { injection H as <- <- <-. split; [congruence|]. split; [naive_solver|done]. }
  apply state_bind_inv in H as (r2 & w2 & E2 & H).
  apply readOne_spec in E2 as ([Uh2 Ul2] & F2 & V2).
  assert (Hw2 : unchanged w w2 ∨ wrote_reg {| Addr := a; Value := v |} w w2).
  { destruct Hw1 as [[Lh Ll]|[Lh Ll]]; [left|right]; (split; [|congruence]); intros b; by rewrite Uh2. }
  assert (Hf2 : frames w2 = frames w ++ [ {| Addr := a; Value := v |} ]) by congruence.
  destruct r2 as [re|e].
  2: { injection H as <- <- <-. split; [done|]. split; [naive_solver|done]. }
  specialize (V2 re eq_refl). destruct (Z.eqb_spec re v) as [Hre|Hre].
  - injection H as <- <- <-. split; [done|]. split; [|done]. right.
    destruct Hw2 as [[Lh _]|]; [|done]. exfalso. apply Hne. rewrite <- Hre, V2, <- Uh2. done.
  - injection H as <- <- <-. split; [done|]. split; [naive_solver|done].
Qed.

Lemma wrote_unchanged r w w1 w' : unchanged w w1 → wrote_reg r w1 w' → wrote_reg r w w'.
Proof.
  intros [Uh Ul] [Lh Ll]. split; [|congruence]. intros b. rewrite Lh. by apply (write_regs_ext _ _ [_]).
Qed.

Lemma unchanged_wrote r w w1 w' : wrote_reg r w w1 → unchanged w1 w' → wrote_reg r w w'.
Proof. intros [Uh Ul] [Lh Ll]. split; [|congruence]. intros b. by rewrite Lh. Qed.

Lemma unchanged_trans w w1 w' : unchanged w w1 → unchanged w1 w' → unchanged w w'.
Proof. intros [Uh Ul] [Lh Ll]. split; [|congruence]. intros b. by rewrite Lh. Qed.

Lemma needs_unchanged r w w1 : unchanged w w1 → needs (holding w1) r ↔ needs (holding w) r.
Proof. intros [Uh _]. unfold needs. by rewrite Uh. Qed.

Lemma wrote_not_needs r w w1 : wrote_reg r w w1 → ¬ needs (holding w1) r.
Proof. intros [Uh _] H. apply H. rewrite Uh. unfold write_reg. by rewrite Z.eqb_refl. Qed.

(** One register of a sequence: at most one landed write, at most two frames, and
    none at all when the register already holds its value. *)
Lemma guardRetry_spec r w wrote err w' : word_reg r → guardRetry r w = ((wrote, err), w') →
  (∃ n, (n ≤ 2)%nat ∧ frames w' = frames w ++ replicate n r ∧ (n ≠ 0%nat → needs (holding w) r)) ∧
  ((unchanged w w' ∧ (err = None → ¬ needs (holding w) r)) ∨
   (needs (holding w) r ∧ wrote_reg r w w')).
Proof.
  intros Hr. unfold guardRetry. intros H. apply state_bind_inv in H as ([res1 err1] & w1 & E1 & H).
  apply Guard_spec in E1; [|done].
  destruct (bool_decide (is_Some err1) && negb (Wrote res1)) eqn:Eb.
  2: { injection H as <- <- <-. destruct E1 as [(U & F & Wr & N)|(Nd & F & L & C)].
    - split; [exists 0%nat; split; [lia|]; split; [by rewrite app_nil_r|done]|]. naive_solver.
    - split; [exists 1%nat; split; [lia|]; done|]. naive_solver. }
  apply state_bind_inv in H as ([res2 err2] & w2 & E2 & H). injection H as <- <- <-.
  apply Guard_spec in E2; [|done]. apply andb_prop in Eb as [Es _].
  apply bool_decide_eq_true in Es.
  destruct E1 as [(U & F & _ & N)|(Nd & F & L & C)], E2 as [(U2 & F2 & _ & N2)|(Nd2 & F2 & L2 & C2)].
  - split; [exists 0%nat; rewrite app_nil_r; split_and!; [lia|congruence|done]|].
    left. split; [by eapply unchanged_trans|]. rewrite <- (needs_unchanged r w w1) by done. naive_solver.
  - rewrite (needs_unchanged r w w1) in Nd2 by done.
    split; [exists 1%nat; cbn [replicate]; split_and!; [lia|congruence|done]|].
    destruct L2 as [[U2 Ne]|L2]; [left|right].
    + split; [by eapply unchanged_trans|done].
    + split; [done|by eapply wrote_unchanged].
  - split; [exists 1%nat; cbn [replicate]; split_and!; [lia|congruence|done]|].
    destruct L as [[U Ne]|L]; [left|right].
    + split; [by eapply unchanged_trans|]. rewrite <- (needs_unchanged r w w1) by done. naive_solver.
    + split; [done|by eapply unchanged_wrote].
  - split; [exists 2%nat; split_and!; [lia| |done]|].
    { rewrite F2, F, <- app_assoc. done. }
    destruct L as [[U Ne]|L]; [|by apply wrote_not_needs in L].
    destruct L2 as [[U2 Ne2]|L2]; [left|right].
    + split; [by eapply unchanged_trans|done].
    + split; [done|by eapply wrote_unchanged].
Qed.

Lemma needs_other m m' r : m (Addr r) = m' (Addr r) → needs m r ↔ needs m' r.
Proof. unfold needs. by intros ->. Qed.

(** A sequence: the landed writes are the needed ones of some prefix, in order;
    no frame goes to a register that already holds its value. *)
Lemma writeRegisters_spec regs w wrote err w' : Forall word_reg regs → NoDup (Addr <$> regs) →
  writeRegisters regs w = ((wrote, err), w') →
  ∃ k fr, (k ≤ length regs)%nat ∧ (err = None → k = length regs) ∧
    let L := filter (needs (holding w)) (take k regs) in
    landed w' = landed w ++ L ∧
    (∀ a, holding w' a = write_regs (holding w) L a) ∧
    frames w' = frames w ++ fr ∧ Forall (λ r, r ∈ regs ∧ needs (holding w) r) fr ∧
    (length fr ≤ 2 * length regs)%nat.
Proof.
  revert w wrote err w'. induction regs as [|r regs IH]; intros w wrote err w' Hw Hnd; cbn.
  - intros [= <- <- <-]. exists 0%nat, []. cbn. rewrite !app_nil_r.
    split_and!; done.
  - rewrite Forall_cons in Hw. destruct Hw as [Hr Hw].
    rewrite fmap_cons, NoDup_cons in Hnd. destruct Hnd as [Hout Hnd].
    intros H. apply state_bind_inv in H as ([wr1 err1] & w1 & E1 & H).
    apply guardRetry_spec in E1 as ((n & Hn & F1 & N1) & S1); [|done].
    assert (Hfr1 : Forall (λ r', r' ∈ r :: regs ∧ needs (holding w) r') (replicate n r)).
    { apply Forall_forall. intros r' [-> Hne]%elem_of_replicate. split; [by left|auto]. }
    destruct err1 as [e|].
    + injection H as <- <- <-. destruct S1 as [[[Uh Ul] _]|[Nd [Lh Ll]]].
      * exists 0%nat, (replicate n r). cbn. rewrite app_nil_r, length_replicate.
        split_and!; try done; lia.
      * exists 1%nat, (replicate n r). change (take 1 (r :: regs)) with [r].
        assert (filter (needs (holding w)) [r] = [r]) as -> by (by rewrite filter_cons_True).
        rewrite length_replicate.
        split_and!; try done; lia.
    + apply state_bind_inv in H as ([wr2 err2] & w2 & E2 & H). injection H as <- <- <-.
      apply IH in E2 as (k & fr & Hk & Hke & Hl & Hh & Hf & Hfr & Hlen); [|done..].
      assert (Hkeep : ∀ r', r' ∈ regs → holding w1 (Addr r') = holding w (Addr r')).
      { intros r' Hin. destruct S1 as [[[Uh Ul] _]|[Nd [Lh Ll]]]; [done|]. rewrite Lh.
        unfold write_reg. rewrite (proj2 (Z.eqb_neq _ _)); [done|]. intros E.
        apply Hout. rewrite <- E. by apply list_elem_of_fmap_2. }
      assert (HP : ∀ r', r' ∈ regs → needs (holding w1) r' ↔ needs (holding w) r').
      { intros r' Hin. apply needs_other. by apply Hkeep. }
      rewrite (filter_ext_in (needs (holding w1)) (needs (holding w))) in Hl, Hh
        by (intros r' Hin; apply HP; by eapply elem_of_take_inv).
      set (L := filter (needs (holding w)) (take k regs)) in *.
      assert (Hr1 : landed w1 ++ L = landed w ++ filter (needs (holding w)) (r :: take k regs) ∧
        ∀ a, write_regs (holding w1) L a =
             write_regs (holding w) (filter (needs (holding w)) (r :: take k regs)) a).
      { destruct S1 as [[[Uh Ul] Hno]|[Nd [Lh Ll]]].
        - rewrite filter_cons_False by auto. fold L. split; [congruence|].
          intros a. by apply write_regs_ext.
        - rewrite filter_cons_True by done. fold L. rewrite Ll, <- app_assoc. split; [done|].
          intros a. cbn. by apply write_regs_ext. }
      destruct Hr1 as [Hr1 Hr2].
      exists (S k), (replicate n r ++ fr). cbn [take length].
      split; [lia|]. split; [intros; f_equal; auto|]. cbv zeta. split; [congruence|].
      split; [intros a; by rewrite Hh, Hr2|]. split; [by rewrite Hf, F1, app_assoc|].
      split; [|rewrite length_app, length_replicate; lia].
      apply Forall_app. split; [done|]. eapply Forall_impl; [exact Hfr|]. cbv beta.
      intros r' [Hin Hn']. split; [by right|]. by apply HP.
Qed.
End AnyBus.

(** ** On a healthy bus *)

Section Healthy.
Context {W : Type} `{rw : HoldingReadWriter W} `{laws : !BusLaws W} `{hb : !HealthyBus W}.

Lemma readOne_healthy a w : is_uint16 a → healthy w → ∃ w', readOne a w = (Ok (holding w a), w') ∧ healthy w'.
Proof.
  intros Ha Hw. destruct (healthy_read a 1 w Ha ltac:(unfold MaxCount; lia) Hw) as (w' & E & Hw').
  exists w'. split; [|done]. unfold readOne. rewrite (state_bind_step _ _ _ _ _ E).
  change (Z.to_nat 1) with 1%nat. unfold bank_words, mret, state_ret. cbn.
  do 2 f_equal. f_equal. lia.
Qed.

Lemma Guard_healthy r w : healthy w → addr_reg r → word_reg r →
  ∃ res w', Guard (Addr r) (Value r) w = ((res, None), w') ∧ healthy w'.
Proof.
  intros Hw Ha Hr. destruct (readOne_healthy (Addr r) w Ha Hw) as (w0 & E0 & Hw0).
  unfold Guard. rewrite (state_bind_step _ _ _ _ _ E0).
  destruct (holding w (Addr r) =? Value r); [by eexists _, _|].
  destruct (healthy_write (Addr r) (Value r) w0 Hw0 Ha Hr) as (w1 & E1 & Hw1 & Hh & _).
  rewrite (state_bind_step _ _ _ _ _ E1).
  destruct (readOne_healthy (Addr r) w1 Ha Hw1) as (w2 & E2 & Hw2).
  rewrite (state_bind_step _ _ _ _ _ E2), Hh. unfold write_reg. cbn [Addr Value].
  rewrite Z.eqb_refl, Z.eqb_refl. by eexists _, _.
Qed.

Lemma guardRetry_healthy r w : healthy w → addr_reg r → word_reg r →
  ∃ w', guardRetry r w = ((bool_decide (needs (holding w) r), None), w') ∧ healthy w' ∧
    frames w' = frames w ++ (if bool_decide (needs (holding w) r) then [r] else []).
Proof.
  intros Hw Ha Hr. destruct (Guard_healthy r w Hw Ha Hr) as (res & w' & E & Hw').
  exists w'. unfold guardRetry. rewrite (state_bind_step _ _ _ _ _ E). cbn [is_Some_dec bool_decide andb].
  apply Guard_spec in E; [|done].
  destruct E as [(_ & F & Wr & N)|(Nd & F & _ & C)].
  - rewrite bool_decide_eq_false_2 by naive_solver. unfold mret, state_ret. rewrite Wr, app_nil_r. done.
  - rewrite bool_decide_eq_true_2 by done. unfold mret, state_ret. destruct (C eq_refl) as [-> _]. done.
Qed.

(** On a healthy bus the sequence succeeds with exactly one frame for each
    register that differs, and leaves the bank as asked. *)
Lemma writeRegisters_healthy regs w : healthy w → Forall addr_reg regs → Forall word_reg regs →
  NoDup (Addr <$> regs) →
  ∃ w', let L := filter (needs (holding w)) regs in
    writeRegisters regs w = ((bool_decide (L ≠ []), None), w') ∧ healthy w' ∧
    frames w' = frames w ++ L ∧ landed w' = landed w ++ L ∧
    ∀ a, holding w' a = write_regs (holding w) regs a.
Proof.
  intros Hw Ha Hf Hnd.
  assert (∃ w', let L := filter (needs (holding w)) regs in
    writeRegisters regs w = ((bool_decide (L ≠ []), None), w') ∧ healthy w' ∧
    frames w' = frames w ++ L) as (w' & E & Hw' & Hfr).
  { revert w Hw. induction regs as [|r regs IH]; intros w Hw.
    - exists w. cbn. rewrite app_nil_r. done.
    - rewrite Forall_cons in Ha, Hf. destruct Ha as [Hra Ha], Hf as [Hr Hf].
      rewrite fmap_cons, NoDup_cons in Hnd. destruct Hnd as [Hout Hnd].
      destruct (guardRetry_healthy r w Hw Hra Hr) as (w1 & E1 & Hw1 & F1).
      destruct (IH Ha Hf Hnd w1 Hw1) as (w2 & E2 & Hw2 & F2).
      exists w2. cbn [writeRegisters]. rewrite (state_bind_step _ _ _ _ _ E1).
      rewrite (state_bind_step _ _ _ _ _ E2). unfold mret, state_ret.
      rewrite (filter_ext_in (needs (holding w1)) (needs (holding w))) in F2 |- *.
      + destruct (decide (needs (holding w) r)) as [Hn|Hn].
        * rewrite filter_cons_True by done. rewrite !bool_decide_eq_true_2 by done. cbn [orb].
          rewrite bool_decide_eq_true_2 in F1 by done.
          split; [done|]. split; [done|]. rewrite F2, F1, <- app_assoc. done.
        * rewrite filter_cons_False by done. rewrite (bool_decide_eq_false_2 (needs _ _)) in * by done.
          split; [done|]. split; [done|]. rewrite F2, F1, app_nil_r. done.
      + intros r' Hin. apply needs_other.
        apply guardRetry_spec in E1 as [_ [[[U _] _]|[_ [L _]]]]; [done| |done].
        rewrite L. unfold write_reg. rewrite (proj2 (Z.eqb_neq _ _)); [done|]. intros E.
        apply Hout. rewrite <- E. by apply list_elem_of_fmap_2.
      + intros r' Hin. apply needs_other.
        apply guardRetry_spec in E1 as [_ [[[U _] _]|[_ [L _]]]]; [done| |done].
        rewrite L. unfold write_reg. rewrite (proj2 (Z.eqb_neq _ _)); [done|]. intros E.
        apply Hout. rewrite <- E. by apply list_elem_of_fmap_2. }
  exists w'. cbv zeta. split; [done|]. split; [done|]. split; [done|].
  apply writeRegisters_spec in E as (k & fr & _ & Hk & Hl & Hh & _); [|done..].
  rewrite (Hk eq_refl), firstn_all in Hl, Hh. split; [done|]. intros a. rewrite Hh.
  apply write_regs_filter; [done|]. intros r _ Hn. unfold needs in Hn. by apply dec_stable.
Qed.
End Healthy.

(** ** The registers a reconcile writes *)

Definition slot_regs (i : Z) (t : TimedSlot) : list Register :=
  default [] (TimedSlotWriteRegisters i t).

Lemma slot_regs_eq i t : 0 ≤ i ≤ 2 → TimedSlotWriteRegisters i t = Some (slot_regs i t).
Proof. intros Hi. unfold slot_regs. by destruct (expansion_total i t Hi) as [regs ->]. Qed.

Lemma have_lookup m i regs r : TimedSlotWriteRegisters i (slot_at m i) = Some regs →
  43143 + 10 * i ≤ Addr r ≤ 43150 + 10 * i →
  foldl (λ m r, <[Addr r := Value r]> m) (∅ : gmap Z Z) regs !! Addr r = Some (m (Addr r)).
Proof.
  intros Hr Ha. assert (Hnd := expansion_NoDup _ _ _ Hr).
  assert (Hval : ∀ r', r' ∈ regs → Value r' = m (Addr r')).
  { intros r'. rewrite (expansion_mem i _ regs r' Hr), elem_of_app.
    assert (∀ off, r' ∈ timedWindowRegisters (timedSlotBase i) off (window_at m (timedSlotBase i) off) →
      Value r' = m (Addr r')) as Hw.
    { intros off. revert r'. apply Forall_forall. repeat (constructor; [done|]). constructor. }
    intros [H|H]; [exact (Hw timedChargeOffsets H)|exact (Hw timedDischargeOffsets H)]. }
  assert (Hin : Addr r ∈ Addr <$> regs) by (by rewrite (expansion_range i _ regs _ Hr)).
  apply list_elem_of_fmap in Hin as (r' & E & Hin). rewrite E, <- (Hval r' Hin). clear Hval Hr Ha E.
  generalize (∅ : gmap Z Z). intros M. revert M.
  induction regs as [|x regs IH]; intros M; [by apply elem_of_nil in Hin|].
  rewrite fmap_cons, NoDup_cons in Hnd. destruct Hnd as [Hout Hnd]. cbn.
  apply elem_of_cons in Hin as [->|Hin]; [|by apply IH].
  assert (∀ l M a, a ∉ Addr <$> l → foldl (λ m r, <[Addr r := Value r]> m) M l !! a = (M : gmap Z Z) !! a) as Hother.
  { clear. induction l as [|y l IH]; intros M a; [done|].
    rewrite fmap_cons, not_elem_of_cons. intros [Hne Ha]. cbn. rewrite IH by done.
    by rewrite lookup_insert_ne. }
  rewrite Hother by done. by rewrite lookup_insert_eq.
Qed.

(** The diff of slot [i]: the needed registers of the desired slot. *)
Lemma diff_regs_needs m i want : 0 ≤ i ≤ 2 →
  diff_regs (slot_regs i (slot_at m i)) (slot_regs i want) = filter (needs m) (slot_regs i want).
Proof.
  intros Hi. unfold diff_regs. apply filter_ext_in. intros r Hin.
  rewrite (have_lookup m i); [|by apply slot_regs_eq|].
  - cbn. unfold needs. naive_solver.
  - rewrite <- (expansion_range i want (slot_regs i want)) by (by apply slot_regs_eq).
    by apply list_elem_of_fmap_2.
Qed.

(** The three slots' registers in the order they are written. *)
Definition schedule_regs (s : TimedSlots) : list Register :=
  slot_regs 0 (slot0 s) ++ slot_regs 1 (slot1 s) ++ slot_regs 2 (slot2 s).

Lemma scheduleDiff_needs desired m :
  scheduleDiff desired (slots_at m) = Some (filter (needs m) (schedule_regs desired)).
Proof.
  unfold scheduleDiff. cbn [foldr].
  change (slot_of (slots_at m) 0) with (slot_at m 0). change (slot_of (slots_at m) 1) with (slot_at m 1).
  change (slot_of (slots_at m) 2) with (slot_at m 2). change (slot_of desired 0) with (slot0 desired).
  change (slot_of desired 1) with (slot1 desired). change (slot_of desired 2) with (slot2 desired).
  rewrite !slot_regs_eq by lia. cbv [mbind option_bind]. rewrite !diff_regs_needs by lia.
  unfold schedule_regs. by rewrite !filter_app, app_nil_r.
Qed.

Lemma schedule_regs_NoDup s : NoDup (Addr <$> schedule_regs s).
Proof.
  unfold schedule_regs. rewrite !fmap_app.
  pose proof (λ i Hi t, expansion_addrs i t _ (slot_regs_eq i t Hi)) as H.
  rewrite (H 0 ltac:(lia)), (H 1 ltac:(lia)), (H 2 ltac:(lia)).
  apply (bool_decide_unpack _). vm_compute. exact I.
Qed.

Lemma schedule_regs_word s : Slots_wf s → Forall word_reg (schedule_regs s).
Proof.
  intros (H0 & H1 & H2). unfold schedule_regs. rewrite !Forall_app.
  split_and!; apply Forall_forall; intros r Hr; unfold word_reg.
  - by apply (expansion_uint16 0 (slot0 s) _ r (slot_regs_eq 0 _ ltac:(lia))).
  - by apply (expansion_uint16 1 (slot1 s) _ r (slot_regs_eq 1 _ ltac:(lia))).
  - by apply (expansion_uint16 2 (slot2 s) _ r (slot_regs_eq 2 _ ltac:(lia))).
Qed.

Lemma slot_regs_other i j t a : 0 ≤ i ≤ 2 → i ≠ j → 43143 + 10 * j ≤ a ≤ 43150 + 10 * j →
  a ∉ Addr <$> slot_regs i t.
Proof. intros Hi Hne Ha. rewrite (expansion_range i t) by (by apply slot_regs_eq). lia. Qed.

(** After all the writes the bank holds the schedule. *)
Lemma schedule_written m s : slots_at (write_regs m (schedule_regs s)) = s.
Proof.
  unfold schedule_regs. rewrite !write_regs_app.
  assert (Hs : ∀ m i t, 0 ≤ i ≤ 2 → slot_at (write_regs m (slot_regs i t)) i = t).
  { intros m' i t Hi. apply slot_at_written, slot_regs_eq, Hi. }
  assert (Ho : ∀ m i j t, 0 ≤ i ≤ 2 → i ≠ j → slot_at (write_regs m (slot_regs i t)) j = slot_at m j).
  { intros m' i j t Hi Hne. apply slot_at_ext. intros a Ha. apply write_regs_other.
    by eapply slot_regs_other. }
  unfold slots_at. rewrite (Ho _ 2 0), (Ho _ 1 0), Hs, (Ho _ 2 1), Hs, Hs by lia. by destruct s.
Qed.

(** ** Effects of a command

    [effects ok w w']: everything between the two states are write frames to
    registers that satisfy [ok] and did not hold their value, and the bank is the
    old one with the landed writes applied. *)
Section Effects.
Context {W : Type} `{rw : HoldingReadWriter W} `{laws : !BusLaws W}.

Definition effects (ok : Register → Prop) (w w' : W) : Prop :=
  ∃ fr L, frames w' = frames w ++ fr ∧ landed w' = landed w ++ L ∧
    (∀ a, holding w' a = write_regs (holding w) L a) ∧
    Forall (λ r, ok r ∧ needs (holding w) r) (fr ++ L).

Lemma effects_none ok w w' : unchanged w w' → frames w' = frames w → effects ok w w'.
Proof.
  intros [Uh Ul] F. exists [], []. rewrite !app_nil_r. split_and!; done.
Qed.

Lemma effects_after ok w w1 w' : unchanged w w1 → frames w1 = frames w →
  effects ok w1 w' → effects ok w w'.
Proof.
  intros [Uh Ul] F (fr & L & F2 & L2 & H2 & Hok). exists fr, L.
  split_and!; try congruence.
  - intros a. rewrite H2. by apply write_regs_ext.
  - eapply Forall_impl; [exact Hok|]. cbv beta. intros r [Hr Hn]. split; [done|].
    by rewrite (needs_unchanged r w w1) in Hn.
Qed.

Lemma Guard_effects ok r w out w' : ok r → word_reg r → Guard (Addr r) (Value r) w = (out, w') →
  effects ok w w'.
Proof.
  intros Hok Hr E. destruct out as [res err].
  apply Guard_spec in E; [|done]. destruct E as [(U & F & _)|(Nd & F & [[U _]|[Lh Ll]] & _)].
  - by apply effects_none.
  - destruct U as [Uh Ul]. exists [r], []. rewrite !app_nil_r. split_and!; try done.
    by repeat constructor.
  - exists [r], [r]. split_and!; try done. by repeat constructor.
Qed.

Lemma guardOne_effects ok a v w out w' : ok {| Addr := a; Value := v |} → is_uint16 v →
  guardOne a v w = (out, w') → effects ok w w'.
Proof.
  intros Hok Hv H. unfold guardOne in H. state_inv.
  subst. by apply (Guard_effects ok {| Addr := a; Value := v |}) in E.
Qed.

Lemma writeRegisters_effects (ok : Register → Prop) regs w out w' : Forall ok regs → Forall word_reg regs →
  NoDup (Addr <$> regs) → writeRegisters regs w = (out, w') → effects ok w w'.
Proof.
  intros Hok Hw Hnd E. destruct out as [wrote err].
  apply writeRegisters_spec in E as (k & fr & _ & _ & Hl & Hh & Hf & Hfr & _); [|done..].
  exists fr, (filter (needs (holding w)) (take k regs)). split_and!; try done.
  rewrite Forall_forall in Hok. apply Forall_app. split.
  - eapply Forall_impl; [exact Hfr|]. cbv beta. intros r [Hin Hn]. auto.
  - apply Forall_forall. intros r [Hn Hin]%list_elem_of_filter.
    apply elem_of_take_inv in Hin. auto.
Qed.

(** *** What a command may write *)

(** The registers of the command topics: the two currents within the rating, the
    work mode with only the timed bit changed, the boost slot's clocks, the
    clock. *)
Definition allowed (m : mem) (r : Register) : Prop :=
  ((Addr r = 43141 ∨ Addr r = 43142) ∧ 0 ≤ Value r ≤ 625) ∨
  (Addr r = 43110 ∧ ∀ n, 0 ≤ n → n ≠ 1 → Z.testbit (Value r) n = Z.testbit (m 43110) n) ∨
  (43163 ≤ Addr r ≤ 43170 ∧ 0 ≤ Value r ≤ 59) ∨
  43000 ≤ Addr r ≤ 43005.

(** [allowed], outside the timed slots. *)
Definition allowed_off (m : mem) (r : Register) : Prop :=
  allowed m r ∧ ¬ (43143 ≤ Addr r ≤ 43170).

Lemma effects_weaken (P Q : Register → Prop) w w' : (∀ r, P r → Q r) → effects P w w' → effects Q w w'.
Proof.
  intros HPQ (fr & L & F & HL & H & Hok). exists fr, L. split_and!; try done.
  eapply Forall_impl; [exact Hok|]. naive_solver.
Qed.

Lemma slot_regs_values i t r : 0 ≤ i ≤ 2 → Slot_wf t → r ∈ slot_regs i t →
  43143 + 10 * i ≤ Addr r ≤ 43150 + 10 * i ∧ 0 ≤ Value r ≤ 59.
Proof.
  intros Hi [[[? ?] [? ?]] [[? ?] [? ?]]] Hin. split.
  - rewrite <- (expansion_range i t _ _ (slot_regs_eq i t Hi)). by apply list_elem_of_fmap_2.
  - apply (expansion_mem i t _ r (slot_regs_eq i t Hi)) in Hin. revert r Hin. apply Forall_forall.
    unfold timedWindowRegisters; cbn [app]. repeat (constructor; [cbn [Value]; lia|]). constructor.
Qed.

Lemma slot_regs_word i t : 0 ≤ i ≤ 2 → Slot_wf t → Forall word_reg (slot_regs i t).
Proof.
  intros Hi Ht. apply Forall_forall. intros r Hr.
  destruct (slot_regs_values i t r Hi Ht Hr). unfold word_reg. int_solve.
Qed.

Lemma slot_regs_NoDup i t : 0 ≤ i ≤ 2 → NoDup (Addr <$> slot_regs i t).
Proof. intros Hi. eapply expansion_NoDup, slot_regs_eq, Hi. Qed.

Context `{clk : Clock_ W} `{tz : TimeZone} `{conv : FloatToUint16}.

Definition Handler_wf (h : Handler (W := W)) : Prop := Window_wf (tou h).

Lemma PlanBoost_wf mode minutes now t a slot : Window_wf t → PlanBoost mode minutes now t a = Ok slot →
  minutes ∈ boostDurations → mode = Charge ∨ mode = Discharge →
  Slot_wf slot ∧ both_set slot = false.
Proof.
  intros Ht Hp Hin Hm. destruct (boostDurations_spec _ Hin) as [Hmin Hmod].
  destruct (PlanBoost_cases mode minutes now t a Hm Hmin Hmod Ht) as
    [(_ & ctx & E)|[(_ & _ & _ & ctx & E)|(_ & _ & w & E & Hw & _)]];
    rewrite E in Hp; [done|done|]. injection Hp as <-.
  unfold boost_slot, both_set. case_decide; cbn [Charge_ Discharge_].
  - split; [split; [apply Window0_wf|done]|]. done.
  - split; [split; [done|apply Window0_wf]|]. by rewrite andb_false_r.
Qed.

Lemma writeBoostSlot_run slot w out w' : writeBoostSlot slot w = (out, w') →
  ∃ res, writeRegisters (slot_regs 2 slot) w = (res, w') ∧ out = Some true.
Proof.
  unfold writeBoostSlot, boostSlot. rewrite slot_regs_eq by lia. intros H. state_inv. subst. eauto.
Qed.

(** At most a read of the work mode. *)
Definition peeked (w w' : W) : Prop := w' = w ∨ ∃ r, readOne RegWorkMode w = (r, w').

Lemma peeked_quiet w w' : peeked w w' → unchanged w w' ∧ frames w' = frames w.
Proof. intros [->|(r & (U & F & _)%readOne_spec)]; done. Qed.

(** A boost command either writes nothing, or the registers of one valid slot
    without both directions set. *)
Lemma setBoost_run h payload w out w' : Handler_wf h → setBoost h payload w = (out, w') →
  (peeked w w' ∧ out ≠ None) ∨
  ∃ slot w1 res, peeked w w1 ∧ Slot_wf slot ∧ both_set slot = false ∧
    writeRegisters (slot_regs 2 slot) w1 = (res, w') ∧ out = Some true.
Proof.
  intros Hwf. unfold setBoost. destruct (ParseBoostOption payload) as [[mode minutes]|] eqn:Ep.
  2: { intros [= <- <-]. left. split; [by left|done]. }
  case_decide as Hmode.
  { intros (res & E & ->)%writeBoostSlot_run. right. exists Slot0, w, res.
    split; [by left|]. pose proof Slot0_wf. done. }
  assert (Hopt : (mode = Charge ∨ mode = Discharge) ∧ minutes ∈ boostDurations).
  { unfold ParseBoostOption in Ep. case_decide; [congruence|].
    apply find_some in Ep as [Hin _]. by apply list_elem_of_In, boost_candidates_spec in Hin. }
  intros H. apply state_bind_inv in H as (cur & w1 & E1 & H).
  assert (peeked w w1) as Hp by (right; by exists cur).
  destruct cur as [cur|e]; [|injection H as <- <-; by left].
  destruct (negb _); [injection H as <- <-; by left|].
  apply state_bind_inv in H as (now & w2 & E2 & H). injection E2 as <- <-.
  destruct (PlanBoost mode minutes (Now w1) (tou h) (assertToU h)) as [slot|e] eqn:E;
    [|injection H as <- <-; by left].
  apply writeBoostSlot_run in H as (res & H & ->). right.
  destruct (PlanBoost_wf _ _ _ _ _ _ Hwf E) as [Hs Hb]; [tauto..|]. exists slot, w1, res. done.
Qed.

Lemma setCurrent_effects addr payload w out w' : addr = 43141 ∨ addr = 43142 →
  setCurrent addr payload w = (out, w') → effects (allowed_off (holding w)) w w' ∧ out ≠ None.
Proof.
  intros Ha. unfold setCurrent. destruct (ParseFloat (TrimSpace payload)) as [x|e] eqn:E.
  2: { intros [= <- <-]. split; [by apply effects_none|done]. }
  destruct (IsNaN x || IsInf x) eqn:En.
  { intros [= <- <-]. split; [by apply effects_none|done]. }
  apply orb_false_iff in En as [En _].
  assert (Hr : 0 ≤ EncodeAmps (ClampHAChargeAmps x) ≤ 625)
    by (apply clamp_encode_range; [by eapply ParseFloat_ok|done]).
  intros H. state_inv. subst. split; [|done].
  eapply guardOne_effects; [| |exact E0]; [|int_solve].
  split; [left; cbn; tauto|cbn; lia].
Qed.

Lemma setOptimalIncome_effects payload w out w' :
  setOptimalIncome payload w = (out, w') → effects (allowed_off (holding w)) w w' ∧ out ≠ None.
Proof.
  unfold setOptimalIncome. destruct (parseRunStop payload) as [on|].
  2: { intros [= <- <-]. split; [by apply effects_none|done]. }
  intros H. apply state_bind_inv in H as (cur & w1 & E1 & H).
  apply readOne_spec in E1 as (U & F & V).
  destruct cur as [cur|e]; [|injection H as <- <-; split; [by apply effects_none|done]].
  specialize (V cur eq_refl). change RegWorkMode with 43110 in V. state_inv. subst. split; [|done].
  eapply effects_after; [done..|].
  destruct (work_mode_facts (holding w 43110) on (bus_words w 43110)) as (_ & Hu & _ & Hb).
  eapply guardOne_effects; [|exact Hu|exact E]. split; [by right; left|].
  cbn [Addr]. change RegWorkMode with 43110. lia.
Qed.

Lemma writeRTC_effects t w out w' : writeRegisters (RTCWriteRegisters t) w = (out, w') →
  effects (λ r, 43000 ≤ Addr r ≤ 43005) w w'.
Proof.
  apply writeRegisters_effects.
  - apply Forall_forall. intros r Hr.
    apply (list_elem_of_fmap_2 Addr) in Hr. rewrite RTCWriteRegisters_addrs in Hr.
    apply elem_of_seqZ in Hr. unfold RegRTCSet in Hr. lia.
  - apply Forall_forall, RTCWriteRegisters_uint16.
  - apply RTCWriteRegisters_NoDup.
Qed.

Lemma setBoost_effects h payload w out w' : Handler_wf h → setBoost h payload w = (out, w') →
  effects (allowed (holding w)) w w' ∧ out ≠ None.
Proof.
  intros Hwf H. apply setBoost_run in H; [|done].
  destruct H as [((U & F)%peeked_quiet & Ho)|(slot & w1 & res & (U & F)%peeked_quiet & Hs & _ & E & ->)].
  { split; [by apply effects_none|done]. }
  split; [|done]. eapply effects_after; [done..|].
  eapply (writeRegisters_effects _ (slot_regs 2 slot));
    [|apply slot_regs_word; [lia|done]|apply slot_regs_NoDup; lia|exact E].
  apply Forall_forall. intros r Hr. right. right. left.
  destruct (slot_regs_values 2 slot r ltac:(lia) Hs Hr). lia.
Qed.

(** Every command but the boost stays off the timed slots. *)
Lemma route_cases h key payload w out w' : route h key payload w = (out, w') →
  (effects (allowed_off (holding w)) w w' ∧ out ≠ None) ∨ setBoost h payload w = (out, w').
Proof.
  unfold route. intros Hrun.
  case_decide; [left; eapply setCurrent_effects; [by left|done]|].
  case_decide; [left; eapply setCurrent_effects; [by right|done]|].
  case_decide; [left; by eapply setOptimalIncome_effects|].
  case_decide; [by right|]. left.
  case_decide.
  - unfold syncRTC, syncRTCTo in Hrun. state_inv. injection E0 as <- <-. subst.
    split; [|done]. eapply effects_weaken; [|by eapply writeRTC_effects].
    intros x Hx. cbv beta in Hx. split; [by right; right; right|lia].
  - injection Hrun as <- <-. split; [by apply effects_none|done].
Qed.

Lemma route_effects h key payload w out w' : Handler_wf h → route h key payload w = (out, w') →
  effects (allowed (holding w)) w w' ∧ out ≠ None.
Proof.
  intros Hwf [[H Ho]|H]%route_cases; [|by eapply setBoost_effects].
  split; [|done]. eapply effects_weaken; [|exact H]. by intros r [].
Qed.
End Effects.

(** ** The reconcile, as the sequence of writes it is *)

Lemma schedule_regs_range s r : r ∈ schedule_regs s → 43143 ≤ Addr r ≤ 43170.
Proof.
  unfold schedule_regs. rewrite !elem_of_app.
  assert (∀ i t, 0 ≤ i ≤ 2 → r ∈ slot_regs i t → 43143 ≤ Addr r ≤ 43170) as H.
  { intros i t Hi Hr. apply (list_elem_of_fmap_2 Addr) in Hr.
    apply (expansion_range i t _ _ (slot_regs_eq i t Hi)) in Hr. lia. }
  intros [Hr|[Hr|Hr]]; eapply H; try exact Hr; lia.
Qed.

Lemma Reconcile_run {W : Type} `{rw : HoldingReadWriter W} `{laws : !BusLaws W} `{clk : Clock_ W}
    `{tz : TimeZone} (h : Handler (W := W)) (w : W) res w' :
  Reconcile h (slots_at (holding w)) w = (res, w') →
  w' = w ∨ ∃ wr err,
    writeRegisters (filter (needs (holding w))
      (schedule_regs (Desired (tou h) (assertToU h) (slots_at (holding w)) (Now w)))) w
      = ((wr, err), w') ∧ res = (wr, err).
Proof.
  unfold Reconcile. destruct (negb (enabled h)); [intros [= _ <-]; by left|].
  intros H. apply state_bind_inv in H as (now & w1 & E & H). injection E as <- <-.
  rewrite scheduleDiff_needs in H. destruct (filter _ _) as [|r l] eqn:Ef; [injection H as _ <-; by left|].
  right. destruct res as [wr err]. eauto.
Qed.

(** A bank holds its own schedule: nothing of it needs writing. *)
Lemma schedule_regs_own m r : r ∈ schedule_regs (slots_at m) → m (Addr r) = Value r.
Proof.
  unfold schedule_regs. rewrite !elem_of_app.
  assert (∀ i, 0 ≤ i ≤ 2 → r ∈ slot_regs i (slot_at m i) → m (Addr r) = Value r) as H.
  { intros i Hi Hr. apply (expansion_mem i _ _ r (slot_regs_eq i _ Hi)), elem_of_app in Hr.
    assert (∀ off r', r' ∈ timedWindowRegisters (timedSlotBase i) off (window_at m (timedSlotBase i) off) →
      m (Addr r') = Value r') as Hw.
    { intros off. apply Forall_forall. repeat (constructor; [done|]). constructor. }
    destruct Hr as [Hr|Hr]; [exact (Hw timedChargeOffsets r Hr)|exact (Hw timedDischargeOffsets r Hr)]. }
  cbn [slots_at slot0 slot1 slot2]. intros [Hr|[Hr|Hr]]; eapply H; try exact Hr; lia.
Qed.

Lemma slots_at_ext m m' : (∀ a, m a = m' a) → slots_at m = slots_at m'.
Proof. intros H. unfold slots_at. by rewrite !(slot_at_ext m m') by auto. Qed.

Lemma Desired_minute `{TimeZone} t a s now now' : minuteOf now = minuteOf now' →
  Desired t a s now = Desired t a s now'.
Proof. intros E. unfold Desired, running, live. by rewrite E. Qed.

Lemma Desired_idem `{TimeZone} t a s now : Desired t a (Desired t a s now) now = Desired t a s now.
Proof.
  unfold Desired. destruct (a && negb (IsZero t)); [destruct (ToUSlots t)|];
    cbn [slot0 slot1 slot2]; by rewrite running_idem.
Qed.

(** ** Command keys *)

Lemma commandKey_spec topic key : commandKey topic = Some key ↔
  key ≠ "" ∧ has_char "/" key = false ∧
  (topic = key +:+ "/set" ∨ ∃ prefix, topic = prefix +:+ "/" +:+ key +:+ "/set").
Proof.
  unfold commandKey. split.
  - intros H. pose proof (Split_parts topic "/") as Hp. pose proof (Split_Join topic "/") as Hj.
    destruct (reverse (Split topic "/")) as [|l [|k rest]] eqn:E; [done..|].
    destruct (bool_decide_reflect (l = "set")) as [->|]; [|done]. cbn in H.
    destruct (bool_decide_reflect (k = "")); [done|]. injection H as ->.
    apply (f_equal reverse) in E. rewrite reverse_involutive, !reverse_cons in E.
    rewrite E in Hp, Hj. apply Forall_app in Hp as [Hp _]. apply Forall_app in Hp as [_ Hk].
    rewrite Forall_singleton in Hk. cbv beta in Hk. split; [done|]. split; [done|]. rewrite <- Hj.
    rewrite Join_snoc by (by destruct (reverse rest)).
    destruct (reverse rest) as [|w ws]; [by left|right]. rewrite Join_snoc by done.
    exists (Join (w :: ws) "/"). by rewrite !str_app_assoc.
  - intros (Hne & Hk & Ht).
    assert (reverse (Split (key +:+ "/set") "/") = ["set"; key]) as Hset.
    { change "/set" with (String "/" "set"). by rewrite Split_app, (Split_none key). }
    destruct Ht as [->|[prefix ->]].
    + rewrite Hset. by rewrite (bool_decide_eq_false_2 (key = "")) by done.
    + change (prefix +:+ "/" +:+ key +:+ "/set") with (prefix +:+ String "/" (key +:+ "/set")).
      rewrite Split_app, reverse_app, Hset. cbn.
      by rewrite (bool_decide_eq_false_2 (key = "")) by done.
Qed.
