(* ===== verification/ControlsSafety.v ===== *)
(** * Safety and convergence of the control path

    The theorems about [Controls], on a bus that may fail anywhere and on a
    healthy one. *)

From Stdlib Require Import Ascii.
From S2P Require Import Prelude GoInt GoString GoTime GoFloat FloatFacts Amps Block WorkMode.
From S2P Require Import Registers TimedSlots Rtc Schedule Sidecar Controls.

(** ** Slots while a sequence of writes is under way *)

Lemma slot_at_foreign m i l : (∀ r, r ∈ l → ¬ (43143 + 10 * i ≤ Addr r ≤ 43150 + 10 * i)) →
  slot_at (write_regs m l) i = slot_at m i.
Proof.
  intros Hl. apply slot_at_ext. intros a Ha. apply write_regs_other.
  intros (r & -> & Hr)%list_elem_of_fmap. by apply (Hl r).
Qed.

Lemma slot_at_foreign_before m i A B :
  (∀ r, r ∈ A → ¬ (43143 + 10 * i ≤ Addr r ≤ 43150 + 10 * i)) →
  slot_at (write_regs m (A ++ B)) i = slot_at (write_regs m B) i.
Proof.
  intros HA. apply slot_at_ext. intros a Ha. rewrite write_regs_app. apply write_regs_ext.
  apply write_regs_other. intros (r & -> & Hr)%list_elem_of_fmap. by apply (HA r).
Qed.

(** The writes of slot [i] picked from a prefix of the whole schedule's. *)
Lemma schedule_prefix_slot m d j i (P : Register → Prop) `{∀ r, Decision (P r)} : 0 ≤ i ≤ 2 →
  ∃ k, slot_at (write_regs m (take j (filter P (schedule_regs d)))) i =
       slot_at (write_regs m (take k (filter P (slot_regs i (slot_of d i))))) i.
Proof.
  intros Hi. unfold schedule_regs. rewrite !filter_app, !take_app.
  assert (Hfar : ∀ i' t k r, 0 ≤ i' ≤ 2 → i' ≠ i → r ∈ take k (filter P (slot_regs i' t)) →
    ¬ (43143 + 10 * i ≤ Addr r ≤ 43150 + 10 * i)).
  { intros i' t k r Hi' Hne Hr Ha. apply elem_of_take_inv in Hr.
    apply list_elem_of_filter in Hr as [_ Hr].
    apply (slot_regs_other i' i t (Addr r)); try done. by apply list_elem_of_fmap_2. }
  assert (i = 0 ∨ i = 1 ∨ i = 2) as [-> |[-> | ->]] by lia; eexists;
    change (slot_of d 0) with (slot0 d); change (slot_of d 1) with (slot1 d);
    change (slot_of d 2) with (slot2 d).
  - rewrite write_regs_app, slot_at_foreign; [done|].
    intros r [Hr|Hr]%elem_of_app; eapply Hfar; try exact Hr; lia.
  - rewrite slot_at_foreign_before by (intros r Hr; eapply Hfar; try exact Hr; lia).
    rewrite write_regs_app, slot_at_foreign; [done|]. intros r Hr; eapply Hfar; try exact Hr; lia.
  - rewrite slot_at_foreign_before by (intros r Hr; eapply Hfar; try exact Hr; lia).
    rewrite slot_at_foreign_before by (intros r Hr; eapply Hfar; try exact Hr; lia). done.
Qed.

Lemma needs_skip m (r : Register) : ¬ needs m r → m (Addr r) = Value r.
Proof. unfold needs. apply dec_stable. Qed.

(** No prefix of the needed writes of a schedule sets both directions of a slot. *)
Lemma schedule_transit m d j i : 0 ≤ i ≤ 2 →
  both_set (slot_of d i) = false → both_set (slot_at m i) = false →
  both_set (slot_at (write_regs m (take j (filter (needs m) (schedule_regs d)))) i) = false.
Proof.
  intros Hi Hd Hm. destruct (schedule_prefix_slot m d j i (needs m) Hi) as [k ->].
  apply (transit_safe m i (slot_of d i)); try done; [by apply slot_regs_eq|].
  intros r _. apply needs_skip.
Qed.

Lemma running_not_both `{TimeZone} t now : both_set t = false → both_set (running t now) = false.
Proof.
  unfold both_set, running; cbn [Charge_ Discharge_]. rewrite !andb_false_iff, !negb_false_iff.
  intros [E|E]; rewrite IsZero_true in E; [left|right]; rewrite E; cbn; done.
Qed.

Lemma Desired_not_both `{TimeZone} t a s now i :
  (∀ i, 0 ≤ i ≤ 2 → both_set (slot_of s i) = false) → 0 ≤ i ≤ 2 →
  both_set (slot_of (Desired t a s now) i) = false.
Proof.
  intros Hs Hi. unfold Desired.
  assert (H2 : both_set (running (slot2 s) now) = false) by (apply running_not_both, (Hs 2); lia).
  assert (Hd : ∀ t', Discharge_ t' = Window0 → both_set t' = false).
  { intros t' E. unfold both_set. rewrite E. apply andb_false_r. }
  destruct (ToUSlots_discharge t) as [D1 D2].
  destruct (a && negb (IsZero t)).
  - destruct (ToUSlots t) as [d0 d1]. cbn [fst snd] in *.
    assert (i = 0 ∨ i = 1 ∨ i = 2) as [-> |[-> | ->]] by lia; [by apply Hd..|done].
  - assert (i = 0 ∨ i = 1 ∨ i = 2) as [-> |[-> | ->]] by lia;
      [apply (Hs 0); lia|apply (Hs 1); lia|done].
Qed.

(** ** Properties on any bus *)

Section AnyBus.
Context {W : Type} `{rw : HoldingReadWriter W} `{laws : !BusLaws W}.
Context `{clk : Clock_ W} `{tz : TimeZone} `{conv : FloatToUint16}.

(** C13: The guard, whatever the bus does.  A register that already holds its value
    gets no write frame; otherwise at most one frame is issued, for that register;
    no other register changes; and a guard that reports no error leaves the
    register at the desired value, having skipped or confirmed it.  The line logged
    is true: "skipped" when no frame was issued and the register holds the value,
    "confirmed" when one was and it does, "did not confirm" when one was; only "failed"
    leaves open whether a frame went out. *)
Theorem guard_contract (addr desired : Z) (w w' : W) res err : is_uint16 desired →
  Guard addr desired w = ((res, err), w') →
  (∀ b, b ≠ addr → holding w' b = holding w b) ∧
  (holding w addr = desired → frames w' = frames w ∧ holding w' addr = desired) ∧
  (frames w' = frames w ∨ frames w' = frames w ++ [ {| Addr := addr; Value := desired |} ]) ∧
  (err = None → holding w' addr = desired ∧
     ((Skipped res = true ∧ frames w' = frames w) ∨ (Wrote res = true ∧ Confirmed res = true))) ∧
  let issued := frames w ++ [ {| Addr := addr; Value := desired |} ] in
  match logGuard res err with
  | WriteSkipped => frames w' = frames w ∧ holding w' addr = desired
  | WriteConfirmed => frames w' = issued ∧ holding w' addr = desired
  | NotConfirmed => frames w' = issued
  | GuardFailed => err ≠ None
  end.
Proof.
  intros Hd E0. pose proof (Guard_skipped _ _ _ _ _ _ E0) as Hskip. revert Hd E0.
  intros Hd E. apply (Guard_spec {| Addr := addr; Value := desired |}) in E; [|done].
  unfold needs in E; cbn [Addr Value] in E.
  assert (Hw : wrote_reg {| Addr := addr; Value := desired |} w w' → holding w' addr = desired ∧
    ∀ b, b ≠ addr → holding w' b = holding w b).
  { intros [Lh _]. rewrite Lh. unfold write_reg; cbn. rewrite Z.eqb_refl. split; [done|].
    intros b Hb. rewrite Lh. unfold write_reg; cbn. by rewrite (proj2 (Z.eqb_neq _ _)). }
  destruct E as [([Uh Ul] & F & Wr & N)|(Nd & F & L & C)].
  - assert (err = None → Skipped res = true ∧ holding w' addr = desired) as N'.
    { intros He. destruct (N He) as [Hs Hn]. split; [exact Hs|]. rewrite Uh.
      apply (dec_stable (P := holding w addr = desired)). tauto. }
    split; [auto|]. split; [intros Hv; by rewrite Uh|]. split; [by left|]. split.
    { intros He. destruct (N' He). split; [done|by left]. }
    cbv zeta. unfold logGuard. rewrite Wr. destruct err as [e|]; [done|].
    destruct (N' eq_refl) as [-> ?]. done.
  - assert (err = None → holding w' addr = desired) as N'.
    { intros He. destruct L as [[_ Hne]|L]; [done|by apply Hw]. }
    split; [intros b Hb; destruct L as [[[Uh _] _]|L]; [auto|by apply Hw]|].
    split; [done|]. split; [by right|]. split; [intros He; split; [auto|by right; auto]|].
    cbv zeta. unfold logGuard. destruct err as [e|]; [by destruct (Wrote res)|].
    destruct (C eq_refl) as [Hwr _]. destruct (Skipped res) eqn:Hs; [|auto].
    by rewrite Hskip in Hwr.
Qed.

(** C12: A sequence of guarded writes can be cut short by any failure, but what
    landed is always the needed writes of some prefix, in order: no register is
    skipped over, none is written twice, and none that already held its value is
    sent a frame.  Without an error the prefix is the whole sequence. *)
Theorem write_sequence_prefix regs (w w' : W) wrote err :
  Forall (λ r, is_uint16 (Value r)) regs → NoDup (Addr <$> regs) →
  writeRegisters regs w = ((wrote, err), w') →
  ∃ k fr, (k ≤ length regs)%nat ∧ (err = None → k = length regs) ∧
    landed w' = landed w ++ filter (needs (holding w)) (take k regs) ∧
    (∀ a, holding w' a = write_regs (holding w) (take k regs) a) ∧
    frames w' = frames w ++ fr ∧ Forall (λ r, r ∈ regs ∧ needs (holding w) r) fr.
Proof.
  intros Hw Hnd E. apply writeRegisters_spec in E as (k & fr & Hk & He & Hl & Hh & Hf & Hfr & _);
    [|done..].
  exists k, fr. split_and!; try done. intros a. rewrite Hh. apply write_regs_filter.
  - eapply sublist_NoDup; [exact Hnd|]. apply fmap_sublist, sublist_take.
  - intros r _. apply needs_skip.
Qed.

(** No command, with any topic and payload and on a bus failing in any way,
    makes the handler panic or write anything but: a current within 0..62.5 A, the
    work mode with at most its timed bit changed, a clock of the boost slot, or the
    inverter's clock; and only registers that do not hold the value already. *)
Theorem command_envelope (h : Handler (W := W)) (key payload : string) (w w' : W) routed :
  Window_wf (tou h) → route h key payload w = (routed, w') →
  routed ≠ None ∧ ∃ fr L,
    frames w' = frames w ++ fr ∧ landed w' = landed w ++ L ∧
    (∀ a, holding w' a = write_regs (holding w) L a) ∧
    Forall (λ r, allowed (holding w) r ∧ needs (holding w) r) (fr ++ L).
Proof. intros Hwf H. by destruct (route_effects h key payload w routed w' Hwf H). Qed.

(** A boost, write by write. *)
Lemma setBoost_transit (h : Handler (W := W)) (payload : string) (w w' : W) routed :
  Window_wf (tou h) → setBoost h payload w = (routed, w') →
  both_set (slot_at (holding w) 2) = false →
  ∃ L, landed w' = landed w ++ L ∧ (∀ a, holding w' a = write_regs (holding w) L a) ∧
    (∀ j, both_set (slot_at (write_regs (holding w) (take j L)) 2) = false) ∧
    (∀ r, r ∈ L → 43163 ≤ Addr r ≤ 43170).
Proof.
  intros Hwf H Hb. apply setBoost_run in H; [|done].
  destruct H as [(([Uh Ul] & _)%peeked_quiet & _)|
    (slot & w1 & [wr err] & ([Uh Ul] & F)%peeked_quiet & Hs & Hnb & E & _)].
  { exists []. rewrite app_nil_r. split_and!; try done.
    - intros j. by rewrite take_nil.
    - intros r Hr. by apply elem_of_nil in Hr. }
  apply writeRegisters_spec in E as (k & fr & _ & _ & Hl & Hh & _);
    [|apply slot_regs_word; [lia|done]|apply slot_regs_NoDup; lia].
  set (L := filter (needs (holding w1)) (take k (slot_regs 2 slot))) in *.
  assert (Hh' : ∀ a, holding w' a = write_regs (holding w) L a).
  { intros a. rewrite Hh. by apply write_regs_ext. }
  exists L. split; [congruence|]. split; [done|]. split.
  - intros j. destruct (take_filter (needs (holding w1)) (slot_regs 2 slot) j k) as [j' Hj'].
    fold L in Hj'. rewrite Hj'.
    apply (transit_safe (holding w) 2 slot); try done; [by apply slot_regs_eq|].
    intros r _ Hn. rewrite <- Uh. by apply needs_skip.
  - intros r [_ Hr]%list_elem_of_filter. apply elem_of_take_inv in Hr.
    destruct (slot_regs_values 2 slot r); [lia|done..|lia].
Qed.

(** A boost command never makes the boost slot hold a charge and a discharge
    window at once: if the slot does not start that way, it is not that way after
    any of the writes that land, wherever the bus fails; and it touches no other
    slot. *)
Theorem boost_never_both_set (h : Handler (W := W)) (payload : string) (w w' : W) routed :
  Window_wf (tou h) → setBoost h payload w = (routed, w') →
  both_set (slot_at (holding w) 2) = false →
  ∃ L, landed w' = landed w ++ L ∧ (∀ a, holding w' a = write_regs (holding w) L a) ∧
    (∀ j, both_set (slot_at (write_regs (holding w) (take j L)) 2) = false) ∧
    slot_at (holding w') 0 = slot_at (holding w) 0 ∧ slot_at (holding w') 1 = slot_at (holding w) 1.
Proof.
  intros Hwf H Hb. destruct (setBoost_transit h payload w w' routed Hwf H Hb) as (L & Hl & Hh & Hj & Hr).
  exists L. split_and!; try done.
  all: rewrite (slot_at_ext (holding w') (write_regs (holding w) L)) by auto;
    apply slot_at_foreign; intros r Hin; specialize (Hr r Hin); lia.
Qed.

(** A reconcile, write by write. *)
Lemma Reconcile_transit (h : Handler (W := W)) (w w' : W) res :
  Window_wf (tou h) → Slots_wf (slots_at (holding w)) →
  Reconcile h (slots_at (holding w)) w = (res, w') →
  (∀ i, 0 ≤ i ≤ 2 → both_set (slot_at (holding w) i) = false) →
  ∃ L, landed w' = landed w ++ L ∧ (∀ a, holding w' a = write_regs (holding w) L a) ∧
    (∀ j i, 0 ≤ i ≤ 2 → both_set (slot_at (write_regs (holding w) (take j L)) i) = false) ∧
    (∀ r, r ∈ L → 43143 ≤ Addr r ≤ 43170).
Proof.
  intros Ht Hs H Hb. set (d := Desired (tou h) (assertToU h) (slots_at (holding w)) (Now w)).
  assert (Hd : Slots_wf d) by (by apply Desired_wf).
  assert (Hdb : ∀ i, 0 ≤ i ≤ 2 → both_set (slot_of d i) = false).
  { intros i Hi. apply Desired_not_both; [|done]. intros j Hj. rewrite <- (Hb j Hj).
    by assert (j = 0 ∨ j = 1 ∨ j = 2) as [-> |[-> | ->]] by lia. }
  destruct (Reconcile_run h w res w' H) as [->|(wr & err & E & ->)].
  { exists []. rewrite app_nil_r. split_and!; try done.
    - intros j i Hi. rewrite take_nil. by apply Hb.
    - intros r Hr. by apply elem_of_nil in Hr. }
  fold d in E. set (D := filter (needs (holding w)) (schedule_regs d)) in *.
  assert (HDs : D `sublist_of` schedule_regs d) by apply sublist_filter.
  apply writeRegisters_spec in E as (k & fr & _ & _ & Hl & Hh & _).
  2: { apply Forall_forall. intros r [_ Hr]%list_elem_of_filter.
       by apply (proj1 (Forall_forall _ _) (schedule_regs_word d Hd)). }
  2: { eapply sublist_NoDup; [apply schedule_regs_NoDup|]. by apply fmap_sublist. }
  exists (filter (needs (holding w)) (take k D)). split_and!; try done.
  - intros j i Hi.
    destruct (take_filter (needs (holding w)) D j k) as [j' ->].
    assert (filter (needs (holding w)) D = D) as ->.
    { unfold D. rewrite list_filter_filter. apply filter_ext_in. tauto. }
    apply schedule_transit; auto.
  - intros r [_ Hr]%list_elem_of_filter. apply elem_of_take_inv in Hr.
    apply list_elem_of_filter in Hr as [_ Hr]. by apply (schedule_regs_range d).
Qed.

(** The reconcile of the slots the bank holds never makes any of the three
    slots hold both directions at once, whatever fails and wherever it stops; and
    it writes nothing outside the slots. *)
Theorem reconcile_never_both_set (h : Handler (W := W)) (w w' : W) res :
  Window_wf (tou h) → Slots_wf (slots_at (holding w)) →
  Reconcile h (slots_at (holding w)) w = (res, w') →
  (∀ i, 0 ≤ i ≤ 2 → both_set (slot_at (holding w) i) = false) →
  ∃ L, landed w' = landed w ++ L ∧ (∀ a, holding w' a = write_regs (holding w) L a) ∧
    (∀ j i, 0 ≤ i ≤ 2 → both_set (slot_at (write_regs (holding w) (take j L)) i) = false) ∧
    (∀ r, r ∈ L → 43143 ≤ Addr r ≤ 43170).
Proof. apply Reconcile_transit. Qed.

(** The kill switch: with controls disabled, no message and no reconcile reaches
    the bus or calls the refresh; and an unroutable topic never does. *)
Theorem kill_switch (h : Handler (W := W)) (topic payload : string) (slots : TimedSlots) (w : W) :
  enabled h = false ∨ commandKey topic = None →
  OnMessage h topic payload w = ((), w) ∧
  (enabled h = false → Reconcile h slots w = ((false, None), w)).
Proof.
  intros Hd. unfold OnMessage, Reconcile. split.
  - destruct Hd as [-> | ->]; [|done]. by destruct (commandKey topic).
  - by intros ->.
Qed.
End AnyBus.

(** ** Properties on a healthy bus *)

(** [DecodeAmps] of a register within the rating is inside the clamp. *)
Lemma clamp_decoded r : 0 ≤ r ≤ 625 → ClampHAChargeAmps (DecodeAmps r) = DecodeAmps r.
Proof.
  intros Hr. assert (r ∈ seqZ 0 626) as Hin by (apply elem_of_seqZ; lia).
  assert (Forall (λ r, bool_decide (ClampHAChargeAmps (DecodeAmps r) = DecodeAmps r) = true) (seqZ 0 626))
    as Hall by (apply Forall_true_list; vm_compute; reflexivity).
  rewrite Forall_forall in Hall. by apply (bool_decide_eq_true_1 _ (Hall r Hin)).
Qed.

Section Healthy.
Context {W : Type} `{rw : HoldingReadWriter W} `{laws : !BusLaws W} `{hb : !HealthyBus W}.
Context `{clk : Clock_ W} `{tz : TimeZone} `{conv : FloatToUint16}.

(** The reconcile on a healthy bus. *)
Lemma Reconcile_healthy (h : Handler (W := W)) (w : W) :
  healthy w → enabled h = true → Window_wf (tou h) → Slots_wf (slots_at (holding w)) →
  let d := Desired (tou h) (assertToU h) (slots_at (holding w)) (Now w) in
  ∃ wrote w', Reconcile h (slots_at (holding w)) w = ((wrote, None), w') ∧ healthy w' ∧
    slots_at (holding w') = d ∧
    frames w' = frames w ++ filter (needs (holding w)) (schedule_regs d) ∧
    (∀ a, ¬ (43143 ≤ a ≤ 43170) → holding w' a = holding w a) ∧
    (∀ w2, minuteOf (Now w2) = minuteOf (Now w) → (∀ a, holding w2 a = holding w' a) →
       Reconcile h (slots_at (holding w2)) w2 = ((false, None), w2)).
Proof.
  intros Hw He Ht Hs d. set (D := filter (needs (holding w)) (schedule_regs d)).
  assert (Hd : Slots_wf d) by (by apply Desired_wf).
  assert (HDn : NoDup (Addr <$> D)).
  { eapply sublist_NoDup; [apply schedule_regs_NoDup|]. apply fmap_sublist, sublist_filter. }
  assert (HDw : Forall word_reg D).
  { apply Forall_forall. intros r [_ Hr]%list_elem_of_filter.
    by apply (proj1 (Forall_forall _ _) (schedule_regs_word d Hd)). }
  assert (HDa : Forall addr_reg D).
  { apply (addr_reg_range 43143 43170); [lia..|]. intros r [_ Hr]%list_elem_of_filter.
    by apply (schedule_regs_range d). }
  destruct (writeRegisters_healthy D w Hw HDa HDw HDn) as (w' & E & Hw' & Hf & _ & Hh).
  assert (filter (needs (holding w)) D = D) as HDD.
  { unfold D. rewrite list_filter_filter. apply filter_ext_in. tauto. }
  rewrite HDD in E, Hf.
  assert (Hslots : slots_at (holding w') = d).
  { rewrite <- (schedule_written (holding w) d). apply slots_at_ext. intros a. rewrite Hh.
    apply write_regs_filter; [apply schedule_regs_NoDup|]. intros r _. apply needs_skip. }
  exists (bool_decide (D ≠ [])), w'. split; [|split; [done|]; split; [done|]; split; [done|]; split].
  - unfold Reconcile. rewrite He. cbn [negb]. unfold mbind, state_bind.
    rewrite scheduleDiff_needs. fold d D. destruct D as [|r D'] eqn:ED; [|done].
    cbn in E. injection E as <-. done.
  - intros a Ha. rewrite Hh. apply write_regs_other. intros (r & -> & Hr)%list_elem_of_fmap.
    apply list_elem_of_filter in Hr as [_ Hr]. by apply (schedule_regs_range d) in Hr.
  - intros w2 Hmin Heq. unfold Reconcile. rewrite He. cbn [negb]. unfold mbind, state_bind.
    rewrite scheduleDiff_needs.
    assert (slots_at (holding w2) = d) as Hs2 by (by rewrite (slots_at_ext _ (holding w'))).
    rewrite Hs2, (Desired_minute _ _ _ (Now w2) (Now w)) by done.
    unfold d at 1. rewrite Desired_idem. fold d.
    assert (filter (needs (holding w2)) (schedule_regs d) = []) as ->; [|done].
    apply filter_nil_in. intros r Hr Hn. apply Hn, schedule_regs_own. by rewrite Hs2.
Qed.

(** C5: On a healthy bus one reconcile makes the three slots the desired schedule,
    without an error, with exactly one write frame per register that differs and
    nothing else changed; and while the minute lasts the next reconcile of what the
    bank then holds issues no call at all, not even a read. *)
Theorem reconcile_converges (h : Handler (W := W)) (w : W) :
  healthy w → enabled h = true → Window_wf (tou h) → Slots_wf (slots_at (holding w)) →
  let d := Desired (tou h) (assertToU h) (slots_at (holding w)) (Now w) in
  ∃ wrote w', Reconcile h (slots_at (holding w)) w = ((wrote, None), w') ∧
    slots_at (holding w') = d ∧
    frames w' = frames w ++ filter (needs (holding w)) (schedule_regs d) ∧
    (∀ a, ¬ (43143 ≤ a ≤ 43170) → holding w' a = holding w a) ∧
    (∀ w2, minuteOf (Now w2) = minuteOf (Now w) → (∀ a, holding w2 a = holding w' a) →
       Reconcile h (slots_at (holding w2)) w2 = ((false, None), w2)).
Proof.
  intros Hw He Ht Hs d. destruct (Reconcile_healthy h w Hw He Ht Hs) as (wrote & w' & H & _ & H').
  by exists wrote, w'.
Qed.

Lemma guardOne_healthy a v w : healthy w → is_uint16 a → is_uint16 v →
  ∃ w', guardOne a v w = ((), w') ∧ healthy w' ∧
    ∀ b, holding w' b = write_reg (holding w) {| Addr := a; Value := v |} b.
Proof.
  intros Hw Ha Hv. destruct (Guard_healthy {| Addr := a; Value := v |} w Hw Ha Hv) as (res & w' & E & Hw').
  exists w'. unfold guardOne. rewrite (state_bind_step _ _ _ _ _ E). split; [done|]. split; [done|].
  apply Guard_spec in E; [|done]. intros b.
  destruct E as [([Uh _] & _ & _ & N)|(_ & _ & [[_ Ne]|[Lh _]] & _)]; [|done|done].
  destruct (N eq_refl) as [_ Hn]. unfold write_reg; cbn [Addr Value]. rewrite Uh.
  destruct (Z.eqb_spec b a) as [->|]; [|done]. by apply needs_skip in Hn.
Qed.
End Healthy.

(** A successful read of the setpoints. *)
Lemma ReadSetpoints_spec {W} `{rw : HoldingReadWriter W} `{laws : !BusLaws W} (w w' : W) sp :
  ReadSetpoints w = (Ok sp, w') →
  SetChargeCurrent sp = DecodeAmps (holding w 43141) ∧
  SetDischargeCurrent sp = DecodeAmps (holding w 43142) ∧
  MaxChargeCurrent sp = DecodeAmps (holding w 43117) ∧
  MaxDischargeCurrent sp = DecodeAmps (holding w 43118) ∧
  OptimalIncome sp = Z.testbit (holding w 43110) 1 ∧
  Slots sp = slots_at (holding w) ∧ Slots_wf (Slots sp) ∧ frames w' = frames w.
Proof.
  unfold ReadSetpoints. intros H. apply state_bind_inv in H as (r & w1 & E & H).
  apply bus_read in E as (_ & _ & F & Hp). injection H as Hr ->.
  destruct r as [regs|e]; [|done]. specialize (Hp regs eq_refl).
  destruct (Z.ltb_spec (Z.of_nat (length regs)) setpointBlockCount) as [|Hlen]; [done|].
  unfold setpointBlockCount in *. change (Z.to_nat 61) with 61%nat in Hp.
  assert (regs = bank_words (holding w) RegWorkMode 61) as ->.
  { apply prefix_length_eq; [done|]. rewrite bank_words_length. lia. }
  clear Hp Hlen. apply bind_Ok_inv in Hr as (slots & Hsl & Hr). apply wrap_err_Ok in Hsl.
  apply (DecodeTimedSlots_spec _ (holding w) 43110 43171) in Hsl as [-> Hwf];
    [|apply holds_bank_single; unfold RegWorkMode; lia|apply bus_words|lia|lia].
  assert (Hat : ∀ i, 0 ≤ i < 61 → reg_at (bank_words (holding w) RegWorkMode 61) i = holding w (43110 + i)).
  { intros i Hi. unfold reg_at. apply nth_lookup_Some. rewrite bank_words_lookup by lia.
    unfold RegWorkMode. do 2 f_equal. lia. }
  injection Hr as <-. cbn [SetChargeCurrent SetDischargeCurrent MaxChargeCurrent MaxDischargeCurrent
    OptimalIncome Slots]. regs. rewrite !Hat by lia. split_and!; try done.
  cbn [Z.sub]. rewrite Z.add_0_r. apply timed_bit.
Qed.

(** C34: The setpoints read for Home Assistant are what the bank holds: on any bus,
    when [ReadSetpoints] succeeds, every current is the decode of its register,
    the switch is bit 1 of the work mode, and the slots are the bank's, all
    within the day. *)
Theorem read_setpoints_faithful {W} `{rw : HoldingReadWriter W} `{laws : !BusLaws W} (w w' : W) sp :
  ReadSetpoints w = (Ok sp, w') →
  SetChargeCurrent sp = DecodeAmps (holding w 43141) ∧
  SetDischargeCurrent sp = DecodeAmps (holding w 43142) ∧
  MaxChargeCurrent sp = DecodeAmps (holding w 43117) ∧
  MaxDischargeCurrent sp = DecodeAmps (holding w 43118) ∧
  OptimalIncome sp = Z.testbit (holding w 43110) 1 ∧
  Slots sp = slots_at (holding w) ∧ Slots_wf (Slots sp) ∧ frames w' = frames w.
Proof. intros H. apply ReadSetpoints_spec in H. tauto. Qed.

(** Command topics: the key is the segment before a final "set", whatever the
    prefix; every other topic is unroutable. *)
Theorem command_key_routing (topic key : string) :
  commandKey topic = Some key ↔
  key ≠ "" ∧ has_char "/" key = false ∧
  (topic = key +:+ "/set" ∨ ∃ prefix, topic = prefix +:+ "/" +:+ key +:+ "/set").
Proof. apply commandKey_spec. Qed.

(** ** Concrete runs *)

Lemma pair_eta {A B} (p : A * B) : p = (p.1, p.2).
Proof. by destruct p. Qed.

Lemma run_eta {A B C} (p : A * B * C) : p = ((p.1.1, p.1.2), p.2).
Proof. by destruct p as [[? ?] ?]. Qed.

Definition device (f : list fault) : Device := {|
  bank := λ a, if a =? 43110 then 35 else if a =? 43141 then 300
               else if a =? 43143 then 23 else if a =? 43144 then 30 else 0;
  landed_log := []; frame_log := []; script := f;
  clock := {| unixNano := (spring_2026 - 36000) * Second; GoTime.location := Local |};
|}.

Definition demo_conv : FloatToUint16 := λ _, 0.

Definition demo_handler : Handler (W := Device) := {|
  enabled := true; refresh := None;
  tou := {| Start := {| ClockHour := 23; ClockMinute := 30 |};
            End_ := {| ClockHour := 5; ClockMinute := 30 |} |};
  assertToU := true;
|}.

Lemma demo_healthy : healthy (device []).
Proof. reflexivity. Qed.

Lemma demo_tou_wf : Window_wf (tou demo_handler).
Proof. apply (bool_decide_unpack _). vm_compute. exact I. Qed.

Lemma demo_slots_wf f : Slots_wf (slots_at (holding (device f))).
Proof. apply (bool_decide_unpack _). vm_compute. exact I. Qed.

(** The write is acknowledged and ignored: the confirm catches it. *)
Lemma guard_contract_witness :
  let d := device [Fine; Ignored] in
  let out := Guard 43141 100 d in
  is_Some out.1.2 ∧ Wrote out.1.1 = true ∧ Confirmed out.1.1 = false ∧
  (∀ b, b ≠ 43141 → holding out.2 b = holding d b) ∧
  logGuard out.1.1 out.1.2 = NotConfirmed ∧ frames out.2 = frames d ++ [ {| Addr := 43141; Value := 100 |} ].
Proof.
  intros d out. split; [vm_compute; eauto|]. split; [vm_compute; reflexivity|].
  split; [vm_compute; reflexivity|].
  destruct (guard_contract 43141 100 d out.2 out.1.1 out.1.2) as (H1 & _ & _ & _ & H2);
    [split; [discriminate|reflexivity]|apply run_eta|]. split; [exact H1|].
  assert (logGuard out.1.1 out.1.2 = NotConfirmed) as E by (vm_compute; reflexivity).
  rewrite E in H2. split; [exact E|exact H2].
Defined.

(** The second register's write lands but its reply is lost, and so is the retry's
    read: the sequence stops there. *)
Lemma write_sequence_prefix_witness :
  let d := device [Fine; Fine; Fine; Fine; ReplyLost; NoReply] in
  let regs := [ {| Addr := 43141; Value := 100 |}; {| Addr := 43142; Value := 200 |};
                {| Addr := 43163; Value := 7 |} ] in
  let out := writeRegisters regs d in
  is_Some out.1.2 ∧
  landed out.2 = [ {| Addr := 43141; Value := 100 |}; {| Addr := 43142; Value := 200 |} ] ∧
  ∃ k fr, (k ≤ length regs)%nat ∧ (out.1.2 = None → k = length regs) ∧
    landed out.2 = landed d ++ filter (needs (holding d)) (take k regs) ∧
    (∀ a, holding out.2 a = write_regs (holding d) (take k regs) a) ∧
    frames out.2 = frames d ++ fr ∧ Forall (λ r, r ∈ regs ∧ needs (holding d) r) fr.
Proof.
  intros d regs out. split; [vm_compute; eauto|]. split; [vm_compute; reflexivity|].
  apply (write_sequence_prefix regs d out.2 out.1.1 out.1.2).
  - repeat (constructor; [split; [discriminate|reflexivity]|]). constructor.
  - apply (bool_decide_unpack _). vm_compute. exact I.
  - apply run_eta.
Defined.

Lemma command_envelope_witness :
  let _ : TimeZone := dst_zone in
  let d := device [Fine; Fine; NoReply] in
  let out := route (conv := demo_conv) demo_handler "boost_select" "Charge 30 min" d in
  length (frames out.2) = 3%nat ∧ out.1 ≠ None ∧ ∃ fr L,
    frames out.2 = frames d ++ fr ∧ landed out.2 = landed d ++ L ∧
    (∀ a, holding out.2 a = write_regs (holding d) L a) ∧
    Forall (λ r, allowed (holding d) r ∧ needs (holding d) r) (fr ++ L).
Proof.
  intros tz d out. split; [vm_compute; reflexivity|].
  apply (command_envelope (conv := demo_conv) demo_handler "boost_select" "Charge 30 min" d out.2 out.1);
    [apply demo_tou_wf|apply pair_eta].
Defined.

Lemma boost_never_both_set_witness :
  let _ : TimeZone := dst_zone in
  let d := device [Fine; Fine; Fine; Fine; ReplyLost] in
  let out := setBoost demo_handler " Discharge 45 min" d in
  ∃ L, landed out.2 = landed d ++ L ∧ (∀ a, holding out.2 a = write_regs (holding d) L a) ∧
    (∀ j, both_set (slot_at (write_regs (holding d) (take j L)) 2) = false) ∧
    slot_at (holding out.2) 0 = slot_at (holding d) 0 ∧
    slot_at (holding out.2) 1 = slot_at (holding d) 1.
Proof.
  intros tz d out. apply (boost_never_both_set demo_handler " Discharge 45 min" d out.2 out.1);
    [apply demo_tou_wf|apply pair_eta|vm_compute; reflexivity].
Defined.

Lemma demo_not_both f i : 0 ≤ i ≤ 2 → both_set (slot_at (holding (device f)) i) = false.
Proof. intros Hi. by assert (i = 0 ∨ i = 1 ∨ i = 2) as [-> |[-> | ->]] by lia. Qed.

Lemma reconcile_never_both_set_witness :
  let _ : TimeZone := dst_zone in
  let d := device [Fine; Fine; Fine; Fine; NoReply] in
  let out := Reconcile demo_handler (slots_at (holding d)) d in
  ∃ L, landed out.2 = landed d ++ L ∧ (∀ a, holding out.2 a = write_regs (holding d) L a) ∧
    (∀ j i, 0 ≤ i ≤ 2 → both_set (slot_at (write_regs (holding d) (take j L)) i) = false) ∧
    (∀ r, r ∈ L → 43143 ≤ Addr r ≤ 43170).
Proof.
  intros tz d out. apply (reconcile_never_both_set demo_handler d out.2 out.1);
    [apply demo_tou_wf|apply demo_slots_wf|apply pair_eta|apply demo_not_both].
Defined.

Lemma kill_switch_witness :
  let _ : TimeZone := dst_zone in
  OnMessage (conv := demo_conv) demo_handler "solis/set/" "Run" (device []) = ((), device []).
Proof.
  intros tz. apply (kill_switch (conv := demo_conv) demo_handler "solis/set/" "Run" Slots0 (device [])).
  right. vm_compute. reflexivity.
Defined.

Lemma reconcile_converges_witness :
  let _ : TimeZone := dst_zone in
  let d := device [] in
  ∃ wrote w', Reconcile demo_handler (slots_at (holding d)) d = ((wrote, None), w') ∧
    slots_at (holding w') = Desired (tou demo_handler) true (slots_at (holding d)) (Now d).
Proof.
  intros tz d.
  destruct (reconcile_converges demo_handler d demo_healthy eq_refl demo_tou_wf (demo_slots_wf [])) as
    (wrote & w' & H1 & H2 & _). exists wrote, w'. split; [exact H1|exact H2].
Defined.

Lemma read_setpoints_faithful_witness :
  ∃ sp w', ReadSetpoints (device []) = (Ok sp, w') ∧
    SetChargeCurrent sp = DecodeAmps 300 ∧ Slots sp = slots_at (holding (device [])) ∧
    Slots_wf (Slots sp).
Proof.
  eexists _, _. split; [vm_compute; reflexivity|].
  edestruct (read_setpoints_faithful (device [])) as (H1 & _ & _ & _ & _ & H2 & H3 & _);
    [vm_compute; reflexivity|]. split; [exact H1|]. split; [exact H2|exact H3].
Defined.

(** *** What the "written" flag of a sequence does not say

    The write lands, its reply is lost, and the retry finds the value in place:
    the sequence succeeds and reports that nothing was written. *)
Lemma landed_write_not_reported :
  let out := writeRegisters [ {| Addr := 43141; Value := 100 |} ] (device [Fine; ReplyLost]) in
  out.1 = (false, None) ∧ frames out.2 = [ {| Addr := 43141; Value := 100 |} ] ∧
  holding out.2 43141 = 100.
Proof. vm_compute. done. Qed.

(** *** A window on its way can be inverted

    Programming 14:20 to 14:45 into an unset window passes through 14:20 to 14:00,
    which ends before it starts. *)
Lemma transient_window_inverted :
  let w := {| Start := {| ClockHour := 14; ClockMinute := 20 |};
              End_ := {| ClockHour := 14; ClockMinute := 45 |} |} in
  ∃ regs, TimedSlotWriteRegisters 2 {| Charge_ := w; Discharge_ := Window0 |} = Some regs ∧
    let mid := Charge_ (slot_at (write_regs (λ _, 0)
      (take 3 (filter (needs (λ _, 0)) regs))) 2) in
    minuteOfDay (End_ mid) < minuteOfDay (Start mid) ∧ End_ mid ≠ Clock0.
Proof. eexists. split; [reflexivity|]. split; [reflexivity|discriminate]. Qed.
