(* ===== verification/SafeRuns.v ===== *)
(** * Runs that never show a slot with both directions set

    What is asserted of the bus between two states of the world, for a program made
    of many steps: the landed writes in between pass through no bank in which a slot
    holds a charge and a discharge window at once.  The property composes. *)

From S2P Require Import Prelude GoInt GoString GoTime GoFloat FloatFacts Amps Block WorkMode.
From S2P Require Import Registers TimedSlots Rtc Schedule Sidecar Controls ControlsSafety.

Section Runs.
Context {W : Type} `{rw : HoldingReadWriter W} `{laws : !BusLaws W}.

(** Nothing happened on the bus that a reader of it could tell. *)
Definition quiet (w w' : W) : Prop := unchanged w w' ∧ frames w' = frames w.

#[export] Instance quiet_preorder : PreOrder quiet.
Proof.
  split; [done|]. intros w w1 w' [[U1 L1] F1] [[U2 L2] F2].
  split; [split; [|congruence]|congruence]. intros a. by rewrite U2.
Qed.

Definition safe_bank (m : mem) : Prop := ∀ i, 0 ≤ i ≤ 2 → both_set (slot_at m i) = false.

Definition safe_run (w w' : W) : Prop :=
  ∃ L, landed w' = landed w ++ L ∧ (∀ a, holding w' a = write_regs (holding w) L a) ∧
    ∀ j, safe_bank (write_regs (holding w) (take j L)).

Lemma safe_bank_ext m m' : (∀ a, m a = m' a) → safe_bank m → safe_bank m'.
Proof. intros H Hm i Hi. rewrite <- (Hm i Hi). f_equal. by apply slot_at_ext. Qed.

Lemma safe_quiet w w' : safe_bank (holding w) → quiet w w' → safe_run w w'.
Proof.
  intros Hs [[Uh Ul] _]. exists []. rewrite app_nil_r. split_and!; try done.
  intros j. by rewrite take_nil.
Qed.

Lemma safe_end w w' : safe_run w w' → safe_bank (holding w').
Proof.
  intros (L & _ & Hh & Hs). specialize (Hs (length L)). rewrite firstn_all in Hs.
  eapply safe_bank_ext; [|exact Hs]. done.
Qed.

#[export] Instance safe_trans : Transitive safe_run.
Proof.
  intros w w1 w' (L1 & Hl1 & Hh1 & Hs1) (L2 & Hl2 & Hh2 & Hs2). exists (L1 ++ L2). split_and!.
  - by rewrite Hl2, Hl1, <- app_assoc.
  - intros a. rewrite Hh2, write_regs_app. by apply write_regs_ext.
  - intros j. rewrite take_app, write_regs_app.
    destruct (decide (j ≤ length L1)%nat) as [Hj|Hj].
    + replace (j - length L1)%nat with 0%nat by lia. apply Hs1.
    + eapply safe_bank_ext; [|apply (Hs2 (j - length L1)%nat)]. intros a.
      rewrite (take_ge L1) by lia. by apply write_regs_ext.
Qed.

Lemma safe_off w w' (ok : Register → Prop) : (∀ r, ok r → ¬ (43143 ≤ Addr r ≤ 43170)) →
  safe_bank (holding w) → effects ok w w' → safe_run w w'.
Proof.
  intros Hoff Hs (fr & L & _ & Hl & Hh & Hok). exists L. split_and!; try done.
  intros j i Hi. rewrite slot_at_foreign; [by apply Hs|]. intros r Hr%elem_of_take_inv Ha.
  apply Forall_app in Hok as [_ Hok]. rewrite Forall_forall in Hok. destruct (Hok r Hr) as [Ho _].
  apply (Hoff r Ho). lia.
Qed.

Lemma safe_slots_off w w' (ok : Register → Prop) : (∀ r, ok r → ¬ (43143 ≤ Addr r ≤ 43170)) →
  effects ok w w' → slots_at (holding w') = slots_at (holding w).
Proof.
  intros Hoff (fr & L & _ & Hl & Hh & Hok). rewrite (slots_at_ext _ _ Hh).
  apply Forall_app in Hok as [_ Hok]. rewrite Forall_forall in Hok.
  unfold slots_at. f_equal; apply slot_at_foreign; intros r Hr Ha; destruct (Hok r Hr) as [Ho _];
    apply (Hoff r Ho); lia.
Qed.

Context `{clk : Clock_ W} `{tz : TimeZone} `{conv : FloatToUint16}.

Lemma setBoost_safe (h : Handler (W := W)) payload w out w' : Window_wf (tou h) →
  setBoost h payload w = (out, w') → safe_bank (holding w) → safe_run w w'.
Proof.
  intros Hwf H Hs. destruct (setBoost_transit h payload w w' out Hwf H) as (L & Hl & Hh & Hj & Hr);
    [apply Hs; lia|].
  exists L. split_and!; try done. intros j i Hi. destruct (decide (i = 2)) as [->|Hne]; [done|].
  rewrite slot_at_foreign; [by apply Hs|]. intros r Hin%elem_of_take_inv. specialize (Hr r Hin). lia.
Qed.

Lemma route_safe (h : Handler (W := W)) key payload w out w' : Window_wf (tou h) →
  route h key payload w = (out, w') → safe_bank (holding w) → safe_run w w'.
Proof.
  intros Hwf [[H _]|H]%route_cases Hs; [|by eapply setBoost_safe].
  eapply safe_off; [|exact Hs|exact H]. by intros r [_ Hr].
Qed.

Lemma Reconcile_safe (h : Handler (W := W)) slots w res w' : Window_wf (tou h) → Slots_wf slots →
  slots = slots_at (holding w) → Reconcile h slots w = (res, w') →
  safe_bank (holding w) → safe_run w w'.
Proof.
  intros Ht Hw -> H Hs. destruct (Reconcile_transit h w w' res Ht Hw H Hs) as (L & Hl & Hh & Hj & _).
  by exists L.
Qed.

Lemma SyncRTC_effects w out w' : SyncRTC w = (out, w') → effects (λ r, 43000 ≤ Addr r ≤ 43005) w w'.
Proof.
  unfold SyncRTC, syncRTCTo. intros H. apply state_bind_inv in H as (now & w1 & E & H).
  injection E as <- <-. by eapply writeRTC_effects.
Qed.

Lemma ReadSetpoints_quiet w r w' : ReadSetpoints w = (r, w') → quiet w w'.
Proof.
  unfold ReadSetpoints. intros H. apply state_bind_inv in H as (a & w1 & E & H).
  apply bus_read in E as (Uh & Ul & F & _). by injection H as _ <-.
Qed.

(** ** What a run may write

    Whatever the commands and however the bus fails: frames go to the registers of
    the command topics, within their ranges; of the work mode only bit 1 changes. *)
Definition register_ok (r : Register) : Prop :=
  ((Addr r = 43141 ∨ Addr r = 43142) ∧ 0 ≤ Value r ≤ 625) ∨ Addr r = 43110 ∨
  (43143 ≤ Addr r ≤ 43170 ∧ 0 ≤ Value r ≤ 59) ∨ 43000 ≤ Addr r ≤ 43005.

Definition command_register (a : Z) : Prop :=
  a = 43110 ∨ a = 43141 ∨ a = 43142 ∨ 43143 ≤ a ≤ 43170 ∨ 43000 ≤ a ≤ 43005.

Definition other_bits (x y : Z) : Prop := ∀ n, 0 ≤ n → n ≠ 1 → Z.testbit x n = Z.testbit y n.

Definition envelope (w w' : W) : Prop :=
  (∃ fr, frames w' = frames w ++ fr ∧ Forall register_ok fr) ∧
  other_bits (holding w' 43110) (holding w 43110) ∧
  ∀ a, ¬ command_register a → holding w' a = holding w a.

#[export] Instance envelope_preorder : PreOrder envelope.
Proof.
  split.
  - intros w. split; [exists []; by rewrite app_nil_r|done].
  - intros w w1 w' ((f1 & F1 & O1) & B1 & H1) ((f2 & F2 & O2) & B2 & H2). split; [|split].
    + exists (f1 ++ f2). rewrite F2, F1, <- app_assoc. split; [done|]. by apply Forall_app.
    + intros n Hn Hne. rewrite B2 by done. by apply B1.
    + intros a Ha. rewrite H2 by done. by apply H1.
Qed.

Lemma quiet_envelope w w' : quiet w w' → envelope w w'.
Proof.
  intros [[U _] F]. split; [exists []; by rewrite app_nil_r|]. split; [intros n _ _; by rewrite U|auto].
Qed.

Lemma write_regs_cases m l a : write_regs m l a = m a ∨ ∃ r, r ∈ l ∧ Addr r = a ∧ write_regs m l a = Value r.
Proof.
  revert m. induction l as [|r l IH]; intros m; [by left|].
  change (write_regs m (r :: l)) with (write_regs (write_reg m r) l).
  destruct (IH (write_reg m r)) as [E|(r' & Hin & Ha & E)].
  - rewrite E. unfold write_reg. destruct (Z.eqb_spec a (Addr r)) as [->|]; [right|by left].
    exists r. split; [by left|done].
  - right. exists r'. split; [by right|done].
Qed.

Lemma effects_envelope (ok : Register → Prop) w w' :
  (∀ r, ok r → register_ok r ∧ (Addr r = 43110 → other_bits (Value r) (holding w 43110))) →
  effects ok w w' → envelope w w'.
Proof.
  intros Hok (fr & L & F & _ & Hh & Hall). apply Forall_app in Hall as [Hf HL].
  rewrite Forall_forall in HL. split; [|split].
  - exists fr. split; [done|]. eapply Forall_impl; [exact Hf|]. cbv beta. intros r [Hr _]. by apply Hok.
  - intros n Hn Hne. rewrite Hh. destruct (write_regs_cases (holding w) L 43110) as [->|(r & Hin & Ha & ->)];
      [done|]. destruct (HL r Hin) as [Hr _]. by apply (proj2 (Hok r Hr) Ha).
  - intros a Ha. rewrite Hh. destruct (write_regs_cases (holding w) L a) as [->|(r & Hin & <- & _)]; [done|].
    destruct (HL r Hin) as [Hr _]. destruct (Hok r Hr) as [Hro _]. exfalso. apply Ha.
    unfold register_ok, command_register in *. lia.
Qed.

Lemma route_envelope (h : Handler (W := W)) key payload w out w' : Window_wf (tou h) →
  route h key payload w = (out, w') → envelope w w'.
Proof.
  intros Hwf [H _]%route_effects; [|done]. eapply effects_envelope; [|exact H].
  intros r Hr. unfold allowed, register_ok, other_bits in *.
  destruct Hr as [Hr|[[Ha Hb]|[Hr|Hr]]]; (split; [lia|]); first [done|lia].
Qed.

Lemma SyncRTC_envelope w out w' : SyncRTC w = (out, w') → envelope w w'.
Proof.
  intros H%SyncRTC_effects. eapply effects_envelope; [|exact H]. cbv beta. unfold register_ok. lia.
Qed.

Lemma schedule_regs_values d r : Slots_wf d → r ∈ schedule_regs d → 43143 ≤ Addr r ≤ 43170 ∧ 0 ≤ Value r ≤ 59.
Proof.
  intros (H0 & H1 & H2) Hr. split; [by apply (schedule_regs_range d)|].
  unfold schedule_regs in Hr. rewrite !elem_of_app in Hr.
  destruct Hr as [Hr|[Hr|Hr]]; eapply slot_regs_values; try exact Hr; done || lia.
Qed.

Lemma Reconcile_envelope (h : Handler (W := W)) slots w res w' : Window_wf (tou h) → Slots_wf slots →
  slots = slots_at (holding w) → Reconcile h slots w = (res, w') → envelope w w'.
Proof.
  intros Ht Hs -> H. apply Reconcile_run in H as [->|(wr & err & E & _)]; [by apply quiet_envelope|].
  pose proof (Desired_wf (tou h) (assertToU h) _ (Now w) Ht Hs) as Hd.
  set (d := Desired _ _ _ _) in *.
  eapply (effects_envelope (λ r, 43143 ≤ Addr r ≤ 43170 ∧ 0 ≤ Value r ≤ 59));
    [unfold register_ok; lia|].
  eapply writeRegisters_effects; [| | |exact E].
  - apply Forall_forall. intros r [_ Hr]%list_elem_of_filter. by apply (schedule_regs_values d).
  - apply Forall_forall. intros r [_ Hr]%list_elem_of_filter.
    by apply (proj1 (Forall_forall _ _) (schedule_regs_word d Hd)).
  - eapply sublist_NoDup; [apply schedule_regs_NoDup|]. by apply fmap_sublist, sublist_filter.
Qed.

(** ** Both at once *)
Definition run_ok (w w' : W) : Prop := envelope w w' ∧ (safe_bank (holding w) → safe_run w w').

Lemma quiet_ok w w' : quiet w w' → run_ok w w'.
Proof. intros H. split; [by apply quiet_envelope|]. intros Hs. by apply safe_quiet. Qed.

#[export] Instance run_ok_preorder : PreOrder run_ok.
Proof.
  split; [intros w; by apply quiet_ok|]. intros w w1 w' [E1 S1] [E2 S2].
  split; [by transitivity w1|]. intros Hs. pose proof (S1 Hs) as R1.
  transitivity w1; [done|]. by apply S2, (safe_end w).
Qed.

Lemma route_ok (h : Handler (W := W)) key payload w out w' : Window_wf (tou h) →
  route h key payload w = (out, w') → run_ok w w'.
Proof. intros. split; [by eapply route_envelope|]. intros. by eapply route_safe. Qed.

Lemma SyncRTC_ok w out w' : SyncRTC w = (out, w') → run_ok w w'.
Proof.
  intros H. split; [by eapply SyncRTC_envelope|]. intros Hs. apply SyncRTC_effects in H.
  eapply safe_off; [|exact Hs|exact H]. cbv beta. lia.
Qed.

Lemma Reconcile_ok (h : Handler (W := W)) slots w res w' : Window_wf (tou h) → Slots_wf slots →
  slots = slots_at (holding w) → Reconcile h slots w = (res, w') → run_ok w w'.
Proof. intros. split; [by eapply Reconcile_envelope|]. intros. by eapply Reconcile_safe. Qed.
End Runs.
