(* ===== verification/Cmd.v ===== *)
(** * The running manager (internal/cmd)

    How [runServe] puts the components together: the state reader with its fallback
    to the cached setpoints, the freshness flag and the reconcile gate, the publish
    step, the command refresh, the republish and the shutdown.

    The world of the process is a record of what is outside (the bus, the broker,
    the clock and the context, one abstract state behind their classes) and of the
    process's own shared state: the status server, the freshness flag and the
    scheduler's cache. *)

From S2P Require Import Prelude GoInt GoString GoTime GoFloat Telemetry TimedSlots Schedule.
From S2P Require Import Sidecar Json HomeAssistant Server Publisher Controls Scheduler.

Record World (B : Type) : Type := {
  outside : B;
  status : Server;
  stale : bool;
  lastGood : Cache;
}.
Arguments outside {B} _.
Arguments status {B} _.
Arguments stale {B} _.
Arguments lastGood {B} _.

Definition set_outside {B} (b : B) (w : World B) : World B :=
  {| outside := b; status := status w; stale := stale w; lastGood := lastGood w |}.
Definition set_status {B} (s : Server) (w : World B) : World B :=
  {| outside := outside w; status := s; stale := stale w; lastGood := lastGood w |}.
Definition set_stale {B} (f : bool) (w : World B) : World B :=
  {| outside := outside w; status := status w; stale := f; lastGood := lastGood w |}.

(** A call that leaves the process. *)
Definition lift {B A} (m : State B A) : State (World B) A :=
  λ w, let '(a, b) := m (outside w) in (a, set_outside b w).

#[export] Instance World_bus {B} `{HoldingReadWriter B} : HoldingReadWriter (World B) := {
  ReadHolding a n := lift (ReadHolding a n);
  WriteHolding a v := lift (WriteHolding a v);
}.
#[export] Instance World_input {B} `{RegisterReader B} : RegisterReader (World B) :=
  λ a n, lift (ReadInput a n).
#[export] Instance World_publisher {B} `{Publisher B} : Publisher (World B) :=
  λ ctx topic payload retain, lift (Publish ctx topic payload retain).
#[export] Instance World_clock {B} `{Clock_ B} : Clock_ (World B) := λ w, Now (outside w).
#[export] Instance World_context {B} `{Context_ B} : Context_ (World B) := {
  ctx_Err w := ctx_Err (outside w);
  Wait d := lift (Wait d);
}.
#[export, refine] Instance World_cache {B} : HasCache (World B) := {
  cache := lastGood;
  put_cache c w := {| outside := outside w; status := status w; stale := stale w; lastGood := c |};
}.
Proof. done. Defined.

(** ** Configuration used by [runServe] *)

Record ServeConfig : Type := {
  haCfg : HAConfig;
  schedCfg : Scheduler.Config;
  TOUWindow : string;
  TOUWindowSet : bool;
}.

Definition touWarningApplies (c : ServeConfig) : bool :=
  TOUWindowSet c && negb (bool_decide (TOUWindow c = "")) && negb (ControlsEnabled (haCfg c)).

Definition healthExitError (err : option error) : option error :=
  match err with None => None | Some e => Some (Wrapf "health server" e) end.

(** ** Log attributes (serve.go)

    What the telemetry line of a run without a broker shows. *)
Definition touWindowAttr (slots : TimedSlots) : string :=
  match ToU slots with Some window => FormatWindow window | None => "unset" end.

Definition boostSelectAttr (slots : TimedSlots) : string :=
  match BoostSelectState slots with Some state => state | None => "null" end.

(** The log says what the state document says, and names what that leaves null. *)
Lemma log_attrs_match_document slots :
  touWindowAttr slots = default "unset" (touWindowLabel slots) ∧
  boostSelectAttr slots = default "null" (BoostSelectState slots).
Proof. unfold touWindowAttr, touWindowLabel, boostSelectAttr. by destruct (ToU slots), (BoostSelectState slots). Qed.

Section Cmd.
Context {B : Type} `{rw : HoldingReadWriter B} `{input : RegisterReader B} `{pub : Publisher B}.
Context `{clk : Clock_ B} `{ctx : Context_ B} `{tz : TimeZone} `{conv : FloatToUint16}.
Context (sprint : json → string).

(** ** Freshness (freshness.go) *)

Definition markFresh : State (World B) unit := λ w, (tt, set_stale false w).
Definition markStale : State (World B) unit := λ w, (tt, set_stale true w).
Definition isStale (w : World B) : bool := stale w.

(** A [gatedReconciler] is the reconciler it wraps: its freshness flag is the
    world's. *)
Definition gatedReconciler_Reconcile (inner : TimedSlots → State (World B) (bool * option error))
    (slots : TimedSlots) : State (World B) (bool * option error) :=
  f ← (λ w, (isStale w, w));
  if f : bool then mret (false, None) else inner slots.

Definition gate (inner : TimedSlots → State (World B) (bool * option error))
  : TimedSlots → State (World B) (bool * option error) := gatedReconciler_Reconcile inner.

(** ** Reading (serve.go) *)

Definition toHASetpoints (sp : Setpoints) (now : Time) : HASetpoints := {|
  HASetChargeCurrent := SetChargeCurrent sp; HASetDischargeCurrent := SetDischargeCurrent sp;
  HAMaxChargeCurrent := MaxChargeCurrent sp; HAMaxDischargeCurrent := MaxDischargeCurrent sp;
  HAOptimalIncome := OptimalIncome sp; HASlots := Slots sp;
  BoostEndsAt := EndsAt (BoostOf (Slots sp)) now |}.

Definition newStateReader : State (World B) (result (Telemetry * HASetpoints)) :=
  t ← Collect;
  match t with
  | Err e => mret (Err e)
  | Ok tel =>
      last ← (λ w, (LastState w, w));
      r ← ReadSetpoints;
      match r with
      | Err _ => _ ← markStale; mret (Ok (tel, last.1.2))
      | Ok sp =>
          now ← (λ w, (Now w, w));
          _ ← markFresh;
          mret (Ok (tel, toHASetpoints sp now))
      end
  end.

(** ** Publishing (state.go) *)

Definition record (payload : Payload) : State (World B) unit := λ w,
  (tt, set_status (RecordReading sprint (status w) (decoded payload) (isStale w) (Now w)).1 w).

(** [svc] is nil until the service is stored. *)
Definition statePublisher (svc : option HAConfig) (ctx : Ctx) (tel : Telemetry) (sp : HASetpoints)
  : State (World B) (option error) :=
  match svc with
  | None => mret (Some (Errorf "publisher not connected"))
  | Some c =>
      r ← PublishState c ctx tel sp;
      let '(msg, err) := r in
      _ ← match msg with Some m => record (MPayload m) | None => mret tt end;
      mret err
  end.

(** ** Assembly (serve.go, runServe) *)

Definition health_success : State (World B) unit := λ w, (tt, set_status (Server.MarkSuccess (status w)) w).
Definition health_failure : State (World B) unit := λ w, (tt, set_status (Server.MarkFailure (status w)) w).

(** The refresh after a command: a publish failure does not stop the cache update. *)
Definition refreshState (c : HAConfig) (ctx : Ctx) : State (World B) unit :=
  r ← newStateReader;
  match r with
  | Err _ => mret tt
  | Ok (tel, sp) => _ ← statePublisher (Some c) ctx tel sp; RememberState tel sp
  end.

(** The client delivers messages under [context.Background()]; a poll runs under the run
    context. *)
Definition handler (c : ServeConfig) (window : TimedWindow) (assert_ : bool) : Handler (W := World B) :=
  NewHandler true (Some (refreshState (haCfg c) Background)) [WithToU window assert_].

Definition scheduler_of (c : ServeConfig) (window : TimedWindow) (assert_ : bool) : Scheduler (World B) :=
  let h := handler c window assert_ in
  let on := ControlsEnabled (haCfg c) in
  Scheduler.New newStateReader (statePublisher (Some (haCfg c)) RunContext) health_success health_failure
    (if on then Some SyncRTC else None)
    (if on then Some (Apply h) else None)
    (if on then Some (gate (Reconcile h)) else None)
    (schedCfg c).

(** The error is that of a window [config.Load] should have rejected. *)
Definition assemble (c : ServeConfig) : result (Scheduler (World B)) :=
  w ← wrap_err "tou window" (ParseToUWindow (TOUWindow c));
  Ok (match w with
      | Some window => scheduler_of c window true
      | None => scheduler_of c Window0 false
      end).

(** ** Republish and shutdown (serve.go) *)

(** A step that may be nil; its error is only logged. *)
Definition logged (step : option (State (World B) (option error))) : State (World B) unit :=
  match step with Some f => _ ← f; mret tt | None => mret tt end.

(** [if tel, sp, have := r.lastState(); have { ... }] *)
Definition republish_state (c : HAConfig) (ctx : Ctx) : State (World B) unit := λ w,
  let '(tel, sp, have) := LastState w in
  if have : bool then logged (Some (r ← PublishState c ctx tel sp; mret r.2)) w else (tt, w).

Definition republish (svc : option HAConfig) (subscribe : option (Ctx → State (World B) (option error)))
    (ctx : Ctx) : State (World B) unit :=
  match svc with
  | None => mret tt
  | Some c =>
      _ ← PublishDiscovery c ctx;
      _ ← PublishDiscoveryRemovals c ctx;
      _ ← PublishAvailability c ctx true;
      _ ← republish_state c ctx;
      logged ((λ f, f ctx) <$> subscribe)
  end.

(** What the shutdown works on: the world, and whether the run context has ended.  A call
    that may block for ever returns [None] when it does. *)
Record Process : Type := { world : World B; run_ended : bool }.

Definition on_world {A} (m : State (World B) A) : State Process A := λ p,
  let '(a, w) := m (world p) in (a, {| world := w; run_ended := run_ended p |}).

(** [cancel], of runServe's [context.WithCancel]. *)
Definition cancel : State Process unit := λ p, (tt, {| world := world p; run_ended := true |}).

(** [<-t.schedDone]: the scheduler's [Run] returns, and the channel closes, once the run
    context has ended, and not before. *)
Definition schedDone : State Process (option unit) := λ p,
  (if run_ended p then Some tt else None, p).

(** Bounds the last publish and the disconnect. *)
Definition shutdownTimeout : Z := 5 * Second.

(** [offline] and [disconnect] are nil without a broker. *)
Record teardown : Type := {
  drain : State Process (option unit);
  offline : option (Ctx → State (World B) (option error));
  disconnect : option (Ctx → State (World B) (option error));
  stopHealth : State (World B) (option error);
}.

(** What follows the drain. *)
Definition teardown_steps (t : teardown) : State (World B) unit :=
  let ctx := TimeoutContext Background shutdownTimeout in
  _ ← logged ((λ f, f ctx) <$> offline t);
  _ ← logged ((λ f, f ctx) <$> disconnect t);
  logged (Some (stopHealth t)).

Definition teardown_run (t : teardown) : State Process (option unit) :=
  d ← drain t;
  match d with
  | None => mret None
  | Some _ => _ ← on_world (teardown_steps t); mret (Some tt)
  end.

(** The select between the health server's end and the end of the context. *)
Inductive ExitCause : Type := HealthEnded (err : option error) | ContextDone.

Definition waitForExit (cause : ExitCause) (cancel : State Process unit)
    (shutdown : State Process (option unit)) : State Process (option (option error)) :=
  match cause with
  | HealthEnded err => _ ← cancel; d ← shutdown; mret ((λ _, healthExitError err) <$> d)
  | ContextDone => d ← shutdown; mret ((λ _, None) <$> d)
  end.

(** [runServe]'s last line, entered while the scheduler runs: the context has ended when
    that is the cause. *)
Definition exits (cause : ExitCause) (t : teardown) : State (World B) (option (option error)) := λ w,
  let ended := match cause with ContextDone => true | HealthEnded _ => false end in
  let '(r, p) := waitForExit cause cancel (teardown_run t) {| world := w; run_ended := ended |} in
  (r, world p).

(** The error the process exits with. *)
Definition exit_error (cause : ExitCause) : option error :=
  match cause with HealthEnded err => healthExitError err | ContextDone => None end.

(** Whatever ends the run, the drain completes, because the health branch cancels the run
    context before it waits. *)
Lemma exits_eq cause t w : drain t = schedDone →
  exits cause t w = (Some (exit_error cause), (teardown_steps t w).2).
Proof.
  intros Hd. unfold exits, waitForExit, teardown_run, mbind, state_bind, mret, state_ret, on_world.
  destruct cause; rewrite Hd; cbn; by destruct (teardown_steps t w).
Qed.

(** Without the cancellation the health branch would block. *)
Lemma exits_needs_cancel err t (w : World B) : drain t = schedDone →
  waitForExit (HealthEnded err) (mret tt) (teardown_run t) {| world := w; run_ended := false |} =
    (None, {| world := w; run_ended := false |}).
Proof. intros Hd. unfold waitForExit, teardown_run, mbind, state_bind, mret, state_ret. by rewrite Hd. Qed.
End Cmd.
