(* ===== verification/CmdSafety.v ===== *)
(** * The manager over its whole life

    The world of [Cmd] satisfies the laws of the bus, so what is proved of the
    controls on any bus holds of the assembled process; composed along a run of
    polls and commands it gives the theorems of this file. *)

From Stdlib Require Import Ascii.
From S2P Require Import Prelude GoInt GoString GoTime GoFloat FloatFacts Amps Block WorkMode.
From S2P Require Import Registers TimedSlots Rtc Telemetry Schedule Sidecar Json HomeAssistant Server.
From S2P Require Import Publisher Controls ControlsSafety SafeRuns Scheduler Cmd.

(** ** What is outside *)

(** Reading inputs, publishing and waiting do not write holding registers. *)
Class OutsideLaws (B : Type) `{BusLaws B} `{RegisterReader B} `{Publisher B} `{Context_ B} : Prop := {
  input_quiet a n (b : B) r b' : ReadInput a n b = (r, b') → quiet b b';
  publish_quiet cx t p f (b : B) r b' : Publish cx t p f b = (r, b') → quiet b b';
  wait_quiet d (b : B) r b' : Wait d b = (r, b') → quiet b b';
}.

Lemma lift_inv {B A} (m : State B A) (w : World B) r w' : lift m w = (r, w') →
  m (outside w) = (r, outside w') ∧ w' = set_outside (outside w') w.
Proof. unfold lift. destruct (m (outside w)) as [a b]. by intros [= <- <-]. Qed.

#[export, refine] Instance World_laws {B} `{laws : BusLaws B} : BusLaws (World B) := {
  holding w := holding (outside w);
  landed w := landed (outside w);
  frames w := frames (outside w);
}.
Proof.
  - intros w a. apply bus_words.
  - intros a n w r w' [E _]%lift_inv. by apply bus_read in E.
  - intros a v w r w' Hv [E _]%lift_inv. by apply bus_write in E.
Defined.

(** ** Steps of the process *)

Section AnyOutside.
Context {B : Type} `{rw : HoldingReadWriter B} `{laws : !BusLaws B} `{input : RegisterReader B}.
Context `{pub : Publisher B} `{ctx : Context_ B} `{out : !OutsideLaws B}.
Context `{clk : Clock_ B} `{tz : TimeZone} `{conv : FloatToUint16}.
Context (sprint : json → string).

Definition same_process (w w' : World B) : Prop :=
  status w' = status w ∧ stale w' = stale w ∧ lastGood w' = lastGood w.

#[export] Instance same_process_preorder : PreOrder same_process.
Proof. split; [done|]. intros w w1 w2 (? & ? & ?) (? & ? & ?). split_and!; congruence. Qed.

(** [outward m]: [m] acts on nothing but the outside. *)
Definition outward {A} (m : State (World B) A) : Prop := ∀ w r w', m w = (r, w') → same_process w w'.

Lemma outward_ret {A} (a : A) : outward (mret a).
Proof. intros w r w' H. by injection H as _ <-. Qed.

Lemma outward_get {A} (f : World B → A) : outward (λ w, (f w, w)).
Proof. intros w r w' H. by injection H as _ <-. Qed.

Lemma outward_bind {A C} (m : State (World B) A) (f : A → State (World B) C) :
  outward m → (∀ a, outward (f a)) → outward (m ≫= f).
Proof.
  intros Hm Hf w r w' (a & w1 & E1 & E2)%state_bind_inv.
  etransitivity; [by eapply Hm|by eapply Hf].
Qed.

Lemma outward_lift {A} (m : State B A) : outward (lift m).
Proof. intros w r w' [_ ->]%lift_inv. done. Qed.

Hint Resolve outward_ret outward_get outward_lift : go.

Ltac outward_step := repeat first
  [ progress (auto with go)
  | apply outward_bind; [|intros ?]
  | apply outward_get
  | case_match
  | apply outward_lift ].

Lemma readOne_outward a : outward (readOne a).
Proof. unfold readOne. outward_step. Qed.
Hint Resolve readOne_outward : go.

Lemma Guard_outward a v : outward (Guard a v).
Proof. unfold Guard. outward_step. Qed.
Hint Resolve Guard_outward : go.

Lemma writeRegisters_outward regs : outward (writeRegisters regs).
Proof. induction regs as [|r regs IH]; cbn [writeRegisters]; unfold guardRetry; outward_step. Qed.
Hint Resolve writeRegisters_outward : go.

Lemma SyncRTC_outward : outward SyncRTC.
Proof. unfold SyncRTC, syncRTCTo. outward_step. Qed.

Lemma Reconcile_outward h slots : outward (Reconcile h slots).
Proof. unfold Reconcile. outward_step. Qed.

Lemma route_outward h key payload : outward (route h key payload).
Proof.
  unfold route, setCurrent, setOptimalIncome, setBoost, syncRTC, syncRTCTo, writeBoostSlot, guardOne.
  outward_step.
Qed.

Lemma ReadSetpoints_outward : outward ReadSetpoints.
Proof. unfold ReadSetpoints. outward_step. Qed.

Lemma Publish_outward cx t p f : outward (Publish cx t p f).
Proof. apply outward_lift. Qed.

Lemma PublishState_outward c cx t sp : outward (PublishState c cx t sp).
Proof. unfold PublishState. outward_step. Qed.

Lemma Collect_quiet (w : World B) r w' : Collect w = (r, w') → quiet w w' ∧ same_process w w'.
Proof.
  unfold Collect, ReadInput, World_input. intros H.
  destruct (lift (ReadInput block1Base block1Count) w) as [r1 w1] eqn:E1. apply lift_inv in E1 as [E1 W1].
  apply input_quiet in E1. assert (same_process w w1) as S1 by (by rewrite W1).
  destruct r1 as [regs1|e]; [|by injection H as <- <-].
  destruct (lift (ReadInput block2Base block2Count) w1) as [r2 w2] eqn:E2.
  apply lift_inv in E2 as [E2 W2]. apply input_quiet in E2.
  assert (same_process w1 w2) as S2 by (by rewrite W2).
  assert (quiet w w2 ∧ same_process w w2) as Hall.
  { split; [|by transitivity w1]. transitivity w1; [exact E1|exact E2]. }
  destruct r2; by injection H as <- <-.
Qed.

Lemma ReadSetpoints_post (w : World B) r w' : ReadSetpoints w = (r, w') →
  quiet w w' ∧ same_process w w' ∧
  ∀ sp, r = Ok sp → Slots sp = slots_at (holding w') ∧ Slots_wf (Slots sp).
Proof.
  intros H. pose proof (ReadSetpoints_quiet w r w' H) as Hq. split; [done|].
  split; [by eapply ReadSetpoints_outward|]. intros sp ->.
  apply ReadSetpoints_spec in H as (_ & _ & _ & _ & _ & E & Hwf & _). split; [|done].
  rewrite E. apply slots_at_ext. intros a. symmetry. apply Hq.
Qed.

(** *** Reading the state: what a reading's slots are worth *)

(** A reading with its freshness flag: cached setpoints and stale, or slots just
    decoded from the bank and fresh. *)
Definition reading_ok (v : Telemetry * HASetpoints) (w : World B) : Prop :=
  (stale w = true ∧ v.2 = CSp (lastGood w)) ∨
  (stale w = false ∧ HASlots v.2 = slots_at (holding w) ∧ Slots_wf (HASlots v.2)).

(** What reading leaves alone. *)
Definition reads_only (w w' : World B) : Prop :=
  quiet w w' ∧ status w' = status w ∧ lastGood w' = lastGood w.

#[local] Instance reads_only_preorder : PreOrder reads_only.
Proof.
  split; [done|]. intros w w1 w2 (Q1 & ? & ?) (Q2 & ? & ?). split; [by transitivity w1|].
  split; congruence.
Qed.

Lemma newStateReader_post w r w' : newStateReader w = (r, w') →
  reads_only w w' ∧ ∀ v, r = Ok v → reading_ok v w'.
Proof.
  unfold newStateReader. intros H. apply state_bind_inv in H as (t & w1 & E1 & H).
  apply Collect_quiet in E1 as [Q1 (S1 & _ & G1)].
  destruct t as [tel|e]; [|by injection H as <- <-].
  apply state_bind_inv in H as (last & w2 & E2 & H). injection E2 as <- <-.
  apply state_bind_inv in H as (sp & w2 & E2 & H).
  apply ReadSetpoints_post in E2 as (Q2 & (S2 & _ & G2) & Hsp).
  destruct sp as [sp|e].
  - apply state_bind_inv in H as (now & w3 & E3 & H). injection E3 as <- <-.
    apply state_bind_inv in H as (u & w3 & E3 & H). injection E3 as _ <-. injection H as <- <-.
    destruct (Hsp sp eq_refl) as [Hs Hwf].
    split; [|intros v [= <-]; right; done].
    split; [etransitivity; [exact Q1|exact Q2]|]. split; [by rewrite <- S1|by rewrite <- G1].
  - apply state_bind_inv in H as (u & w3 & E3 & H). injection E3 as _ <-. injection H as <- <-.
    split; [|intros v [= <-]; left; split; [done|]; cbn; by rewrite G2].
    split; [etransitivity; [exact Q1|exact Q2]|]. split; [by rewrite <- S1|by rewrite <- G1].
Qed.

Lemma readWithRetry_post s w r w' : Read s = newStateReader → readWithRetry s w = (r, w') →
  reads_only w w' ∧ ∀ v, r = Ok v → reading_ok v w'.
Proof.
  intros Hs H. unfold readWithRetry in H. rewrite Hs in H.
  eapply read_attempts_inv in H; [exact H|apply _| |exact newStateReader_post].
  intros d w1 c w2 [E ->]%lift_inv. apply wait_quiet in E. done.
Qed.

(** *** Publishing *)

Lemma statePublisher_post svc cx tel sp w r w' : statePublisher sprint svc cx tel sp w = (r, w') →
  quiet w w' ∧ stale w' = stale w ∧ lastGood w' = lastGood w.
Proof.
  unfold statePublisher. destruct svc as [c|]; [|by intros [= _ <-]].
  intros H. apply state_bind_inv in H as ([msg err] & w1 & E1 & H).
  assert (quiet w w1) as Q1.
  { unfold PublishState in E1. apply state_bind_inv in E1 as (now & w2 & E2 & E1). injection E2 as <- <-.
    destruct (BuildState _ _ _ _); [|by injection E1 as _ _ <-].
    apply state_bind_inv in E1 as (res & w2 & E2 & E1). injection E1 as _ _ <-.
    apply lift_inv in E2 as [E2 _]. by apply publish_quiet in E2. }
  destruct (PublishState_outward _ _ _ _ _ _ _ E1) as (_ & S1 & G1).
  apply state_bind_inv in H as (u & w2 & E2 & H). injection H as <- <-.
  destruct msg; injection E2 as _ <-; done.
Qed.

(** *** A poll of the assembled scheduler *)

Definition slots_fresh (sp : HASetpoints) (w : World B) : Prop :=
  stale w = false ∧ HASlots sp = slots_at (holding w) ∧ Slots_wf (HASlots sp).

Section Assembled.
Context (c : ServeConfig) (window : TimedWindow) (assert_ : bool).
Let s := scheduler_of sprint c window assert_.

(** Either a poll fails before it reaches the controls, or it reads, publishes and
    hands the controls the slots it read, fresh or marked stale. *)
Lemma poll_run w u w' : poll s w = (u, w') →
  quiet w w' ∨ ∃ tel sp w2 w3 u1 u2, quiet w w2 ∧ (stale w2 = true ∨ slots_fresh sp w2) ∧
    maybeSyncRTC s tel w2 = (u1, w3) ∧ maybeReconcile s (HASlots sp) w3 = (u2, w').
Proof.
  unfold poll. intros H. apply state_bind_inv in H as (r & w1 & E1 & H).
  apply readWithRetry_post in E1 as ((Q1 & _ & G1) & Hr); [|done]. destruct r as [[tel sp]|e].
  2: { left. apply state_bind_inv in H as (ce & w2 & E2 & H). injection E2 as <- <-.
       destruct (ctx_Err _); injection H as _ <-; exact Q1. }
  specialize (Hr _ eq_refl). apply state_bind_inv in H as (u1 & w2 & E2 & H). injection E2 as _ <-.
  apply state_bind_inv in H as (err & w3 & E3 & H).
  change (publishState s) with (statePublisher sprint (Some (haCfg c)) RunContext) in E3.
  apply statePublisher_post in E3 as (Q3 & S3 & _). cbn [put_cache World_cache stale] in S3.
  assert (quiet w w3) as Q13 by (etransitivity; [exact Q1|exact Q3]).
  destruct err as [e|]; [left; by injection H as _ <-|]. right.
  apply state_bind_inv in H as (u2 & w4 & E4 & H). injection E4 as _ <-.
  apply state_bind_inv in H as (u3 & w5 & E5 & H).
  exists tel, sp, (set_status (Server.MarkSuccess (status w3)) w3), w5, u3, u. split; [exact Q13|].
  split; [|done]. destruct Hr as [[Hst _]|(Hst & Hsl & Hwf)]; cbn in Hst; [left; by rewrite <- Hst|right].
  split; [by rewrite <- Hst|]. split; [|done]. cbn [snd] in Hsl. rewrite Hsl. apply slots_at_ext.
  intros a. symmetry. apply Q3.
Qed.

Lemma maybeSyncRTC_run tel w u w' : maybeSyncRTC s tel w = (u, w') →
  w' = w ∨ (ControlsEnabled (haCfg c) = true ∧ RTCSyncEnabled (schedCfg c) = true ∧
    ∃ r, SyncRTC w = (r, w') ∧ same_process w w').
Proof.
  unfold maybeSyncRTC. cbn [s scheduler_of Scheduler.New rtc Scheduler.cfg RTCSyncEnabled].
  destruct (ControlsEnabled (haCfg c)); [|intros [= _ <-]; by left].
  destruct (RTCSyncEnabled (schedCfg c)); cbn [negb]; [|intros [= _ <-]; by left].
  intros H. apply state_bind_inv in H as (now & w1 & E1 & H). injection E1 as <- <-.
  case_match; [injection H as _ <-; by left|]. right. split; [done|]. split; [done|].
  apply state_bind_inv in H as (r & w1 & E1 & H). injection H as _ <-.
  exists r. split; [exact E1|by eapply SyncRTC_outward].
Qed.

Lemma maybeReconcile_run slots w u w' : maybeReconcile s slots w = (u, w') →
  w' = w ∨ (ControlsEnabled (haCfg c) = true ∧ stale w = false ∧ same_process w w' ∧
    ∃ r, Reconcile (handler sprint c window assert_) slots w = (r, w')).
Proof.
  unfold maybeReconcile. cbn [s scheduler_of Scheduler.New reconciler].
  destruct (ControlsEnabled (haCfg c)); [|intros [= _ <-]; by left].
  intros H. apply state_bind_inv in H as (r & w1 & E1 & H). injection H as _ <-.
  unfold gate, gatedReconciler_Reconcile, isStale, mbind, state_bind in E1.
  destruct (stale w) eqn:Es; [injection E1 as _ <-; by left|]. right.
  split; [done|]. split; [done|]. split; [by eapply Reconcile_outward|by eexists].
Qed.

Context (Hwin : Window_wf window).

Lemma poll_ok w u w' : poll s w = (u, w') → run_ok w w'.
Proof.
  intros [Q|(tel & sp & w2 & w3 & u1 & u2 & Q & Hfresh & E3 & E4)]%poll_run; [by apply quiet_ok|].
  transitivity w2; [by apply quiet_ok|].
  assert (run_ok w2 w3 ∧ slots_at (holding w3) = slots_at (holding w2) ∧ stale w3 = stale w2)
    as (R3 & Hsl & Hst).
  { apply maybeSyncRTC_run in E3 as [->|(_ & _ & r & E & S)]; [done|].
    split; [by eapply SyncRTC_ok|]. split; [|apply S].
    eapply safe_slots_off; [|by eapply SyncRTC_effects]. cbv beta. lia. }
  transitivity w3; [done|].
  apply maybeReconcile_run in E4 as [->|(_ & Es & _ & r & E4)]; [done|].
  destruct Hfresh as [Hst2|(_ & Hslots & Hwf)]; [congruence|].
  apply (Reconcile_ok (handler sprint c window assert_) (HASlots sp) w3 r); try done. by rewrite Hsl.
Qed.

Lemma refresh_reads cx w u w' : refreshState sprint (haCfg c) cx w = (u, w') → quiet w w'.
Proof.
  unfold refreshState. intros H. apply state_bind_inv in H as (r & w1 & E1 & H).
  apply newStateReader_post in E1 as [(Q1 & _) _]. destruct r as [[tel sp]|e]; [|by injection H as _ <-].
  apply state_bind_inv in H as (err & w2 & E2 & H). apply statePublisher_post in E2 as (Q2 & _).
  injection H as _ <-. etransitivity; [exact Q1|exact Q2].
Qed.

(** A message runs a command and then perhaps the refresh. *)
Lemma command_cases topic payload w u w' : ApplyCommand s topic payload w = (u, w') →
  w' = w ∨ (ControlsEnabled (haCfg c) = true ∧ ∃ key r w1, commandKey topic = Some key ∧
    route (handler sprint c window assert_) key payload w = (r, w1) ∧
    (w' = w1 ∨ refreshState sprint (haCfg c) Background w1 = (u, w'))).
Proof.
  unfold ApplyCommand. cbn [s scheduler_of Scheduler.New commander].
  destruct (ControlsEnabled (haCfg c)); [|intros [= _ <-]; by left].
  unfold Apply, OnMessage. destruct (commandKey topic) as [key|]; [|intros [= _ <-]; by left].
  cbn [handler NewHandler foldl enabled negb refresh]. intros H. apply state_bind_inv in H as (r & w1 & E1 & H).
  right. split; [done|]. exists key, r, w1. split; [done|]. split; [exact E1|].
  destruct r as [[]|]; [by right|by injection H as _ <-; left..].
Qed.

Lemma command_run topic payload w u w' : ApplyCommand s topic payload w = (u, w') →
  w' = w ∨ (ControlsEnabled (haCfg c) = true ∧ ∃ key r w1, commandKey topic = Some key ∧
    route (handler sprint c window assert_) key payload w = (r, w1) ∧ quiet w1 w').
Proof.
  intros [->|(Hc & key & r & w1 & Hk & E & H)]%command_cases; [by left|right].
  split; [exact Hc|]. exists key, r, w1. split; [exact Hk|]. split; [exact E|].
  destruct H as [->|H]; [done|by apply refresh_reads in H].
Qed.

Lemma handle_ok e w u w' : handle s e w = (u, w') → run_ok w w'.
Proof.
  destruct e as [|topic payload]; cbn [handle]; [apply poll_ok|].
  intros [->|(_ & key & r & w1 & _ & E & Q)]%command_run; [done|].
  transitivity w1; [by apply (route_ok (handler sprint c window assert_)) in E|by apply quiet_ok].
Qed.

Lemma events_ok es w u w' : run_events s es w = (u, w') → run_ok w w'.
Proof.
  revert w. induction es as [|e es IH]; intros w H; cbn [run_events] in H.
  { by injection H as _ <-. }
  apply state_bind_inv in H as (u1 & w1 & E1 & H). transitivity w1; [by eapply handle_ok|by apply IH].
Qed.
End Assembled.

(** With controls disabled a run is quiet. *)
Lemma events_quiet c window a es w u w' : ControlsEnabled (haCfg c) = false →
  run_events (scheduler_of sprint c window a) es w = (u, w') → quiet w w'.
Proof.
  intros Hc. revert w. induction es as [|e es IH]; intros w H; cbn [run_events] in H; [by injection H as _ <-|].
  apply state_bind_inv in H as (u1 & w1 & E1 & H). transitivity w1; [|by apply IH].
  destruct e as [|topic payload]; cbn [handle] in E1.
  - apply poll_run in E1 as [Q|(tel & sp & w2 & w3 & v1 & v2 & Q & _ & E3 & E4)]; [done|].
    apply maybeSyncRTC_run in E3 as [->|(Hc' & _)]; [|congruence].
    apply maybeReconcile_run in E4 as [->|(Hc' & _)]; [done|congruence].
  - apply command_run in E1 as [->|(Hc' & _)]; [done|congruence].
Qed.

Lemma assemble_inv c s : assemble sprint c = Ok s → ∃ window a, Window_wf window ∧
  s = scheduler_of sprint c window a.
Proof.
  unfold assemble. intros H. apply bind_Ok_inv in H as ([w|] & E & H); injection H as <-.
  - apply wrap_err_Ok, ParseToUWindow_Some in E as (Hw & _). by exists w, true.
  - exists Window0, false. split; [apply Window0_wf|done].
Qed.

(** ** Properties of a whole run *)

(** The manager's whole life, on a bus that may lose, ignore or refuse any
    frame: started on a bank in which no timed slot has a charge and a discharge
    window at once, no sequence of polls and inbound messages, with any topics and
    payloads, makes any slot hold both after any write that lands. *)
Theorem history_never_both_set (c : ServeConfig) (s : Scheduler (World B)) (es : list event) (w w' : World B) :
  assemble sprint c = Ok s → Run s es w = (tt, w') → safe_bank (holding w) →
  ∃ L, landed w' = landed w ++ L ∧ (∀ a, holding w' a = write_regs (holding w) L a) ∧
    ∀ j i, 0 ≤ i ≤ 2 → both_set (slot_at (write_regs (holding w) (take j L)) i) = false.
Proof.
  intros (window & a & Hwf & ->)%assemble_inv H Hs.
  change (Run (scheduler_of sprint c window a) es)
    with (run_events (scheduler_of sprint c window a) (Tick :: es)) in H.
  by apply (events_ok c window a Hwf) in H as [_ H]; [apply H].
Qed.

(** The write envelope of the whole life, on any bus and for any messages:
    frames go only to the two timed-current registers with at most 62.5 A, the work
    mode, the timed slots' clocks with at most 59, and the inverter's clock; no other
    register ever changes, and of the work mode no bit but the timed one. *)
Theorem history_envelope (c : ServeConfig) (s : Scheduler (World B)) (es : list event) (w w' : World B) :
  assemble sprint c = Ok s → Run s es w = (tt, w') →
  (∃ fr, frames w' = frames w ++ fr ∧ Forall register_ok fr) ∧
  (∀ n, 0 ≤ n → n ≠ 1 → Z.testbit (holding w' 43110) n = Z.testbit (holding w 43110) n) ∧
  ∀ a, ¬ command_register a → holding w' a = holding w a.
Proof.
  intros (window & a & Hwf & ->)%assemble_inv H.
  change (Run (scheduler_of sprint c window a) es)
    with (run_events (scheduler_of sprint c window a) (Tick :: es)) in H.
  by apply (events_ok c window a Hwf) in H as [H _].
Qed.

(** CONTROLS_ENABLED=false is read-only: whatever is received or configured, no
    poll and no message ever issues a write frame or changes a register. *)
Theorem read_only_mode (c : ServeConfig) (s : Scheduler (World B)) (es : list event) (w w' : World B) :
  assemble sprint c = Ok s → ControlsEnabled (haCfg c) = false → Run s es w = (tt, w') →
  frames w' = frames w ∧ ∀ a, holding w' a = holding w a.
Proof.
  intros (window & a & _ & ->)%assemble_inv Hc H.
  change (Run (scheduler_of sprint c window a) es)
    with (run_events (scheduler_of sprint c window a) (Tick :: es)) in H.
  by apply events_quiet in H as [[U _] F].
Qed.

(** C7: Truth over optimism: when a poll could not read the control registers and
    goes on with the cached setpoints, it asserts no schedule from them.  Such a poll
    leaves every register but the inverter's clock alone, and without clock sync it
    issues no write frame at all. *)
Theorem stale_poll_writes_nothing (c : ServeConfig) (s : Scheduler (World B)) (w w' : World B) :
  assemble sprint c = Ok s → poll s w = (tt, w') → stale w' = true →
  (∀ a, ¬ (43000 ≤ a ≤ 43005) → holding w' a = holding w a) ∧
  (RTCSyncEnabled (schedCfg c) = false → frames w' = frames w).
Proof.
  intros (window & a & _ & ->)%assemble_inv H Hst.
  apply poll_run in H as [[[U _] F]|(tel & sp & w2 & w3 & v1 & v2 & [[U _] F] & _ & E3 & E4)]; [auto|].
  assert (w' = w3) as ->.
  { apply maybeReconcile_run in E4 as [->|(_ & Es & (_ & Es' & _) & _)]; congruence. }
  apply maybeSyncRTC_run in E3 as [->|(_ & Hr & r & E3 & _)]; [auto|]. split; [|congruence].
  intros b Hb. apply SyncRTC_effects in E3 as (fr & L & _ & _ & Hh & Hok).
  rewrite Hh, <- U. apply write_regs_other. intros (x & -> & Hx)%list_elem_of_fmap.
  apply Forall_app in Hok as [_ Hok]. rewrite Forall_forall in Hok. by apply Hb, (Hok x Hx).
Qed.
End AnyOutside.

(** ** A concrete plant

    The faulty device of [Sidecar] with an input bank, a broker that keeps what it
    is sent, and a context. *)

Record Plant : Type := {
  dev : Device;
  input_bank : mem;
  answering : bool;
  broker : Sent;
  ended : option error;
}.

Definition set_dev (d : Device) (p : Plant) : Plant := {|
  dev := d; input_bank := input_bank p; answering := answering p; broker := broker p; ended := ended p |}.

Definition on_dev {A} (m : State Device A) : State Plant A :=
  λ p, let '(a, d) := m (dev p) in (a, set_dev d p).

#[export] Instance Plant_rw : HoldingReadWriter Plant := {
  ReadHolding a n := on_dev (ReadHolding a n);
  WriteHolding a v := on_dev (WriteHolding a v);
}.
#[export] Instance Plant_input : RegisterReader Plant := λ a n p,
  (if answering p then Ok (bank_words (λ b, to_uint16 (input_bank p b)) a (Z.to_nat n)) else Err lost, p).
#[export] Instance Plant_publisher : Publisher Plant := λ _ topic payload retain p,
  (None, {| dev := dev p; input_bank := input_bank p; answering := answering p;
            broker := broker p ++ [({| MTopic := topic; MPayload := payload |}, retain)];
            ended := ended p |}).
#[export] Instance Plant_clock : Clock_ Plant := λ p, clock (dev p).
#[export] Instance Plant_context : Context_ Plant := {
  ctx_Err := ended;
  Wait d p := (ended p, set_dev (device_tick d (dev p)) p);
}.

Lemma on_dev_inv {A} (m : State Device A) p r p' : on_dev m p = (r, p') →
  m (dev p) = (r, dev p') ∧ p' = set_dev (dev p') p.
Proof. unfold on_dev. destruct (m (dev p)) as [a d]. by intros [= <- <-]. Qed.

#[export, refine] Instance Plant_laws : BusLaws Plant := {
  holding p := holding (dev p);
  landed p := landed (dev p);
  frames p := frames (dev p);
}.
Proof.
  - intros p a. apply bus_words.
  - intros a n p r p' [E _]%on_dev_inv. by apply bus_read in E.
  - intros a v p r p' Hv [E _]%on_dev_inv. by apply bus_write in E.
Defined.

#[export, refine] Instance Plant_healthy : HealthyBus Plant := {
  healthy p := healthy (dev p) ∧ answering p = true ∧ ended p = None;
}.
Proof.
  - intros a n p Hr Hn [H Ha]. destruct (healthy_read a n (dev p) Hr Hn H) as (d & E & H').
    exists (set_dev d p). unfold ReadHolding, Plant_rw, on_dev. rewrite E. done.
  - intros a v p [H Ha] Hr Hv. destruct (healthy_write a v (dev p) H Hr Hv) as (d & E & H' & Hh & Hl).
    exists (set_dev d p). unfold WriteHolding, Plant_rw, on_dev. rewrite E. done.
Defined.

#[export] Instance Plant_outside : OutsideLaws Plant.
Proof.
  split.
  - by intros a n p r p' [= _ <-].
  - by intros cx t f k p r p' [= _ <-].
  - by intros d p r p' [= _ <-].
Qed.

#[export] Instance Plant_sent : PublisherLaws Plant := {
  sent := broker;
  publish_sent cx t p f w r w' := ltac:(by intros [= _ <-]);
}.

Definition plant (f : list fault) : Plant := {|
  dev := device f; input_bank := λ a, if a =? 33135 then 1 else a mod 7; answering := true;
  broker := []; ended := None |}.

Definition demo_ha (controls : bool) : HAConfig := {|
  DiscoveryPrefix := "homeassistant"; TopicPrefix := "solis"; Serial := "1234567890";
  ObjectIDPrefix := ""; ControlsEnabled := controls |}.

Definition demo_config (controls : bool) : ServeConfig := {|
  haCfg := demo_ha controls;
  schedCfg := {| PollInterval := 60 * Second; MaxRetries := 3; RTCSyncEnabled := false;
                 RTCDriftThreshold := 60 * Second |};
  TOUWindow := "23:30-05:30"; TOUWindowSet := false |}.

Definition demo_world (f : list fault) : World Plant := {|
  outside := plant f;
  status := Server.New {| Server.FailureThreshold := 3; Server.PollInterval := 60 * Second |} zeroTime;
  stale := false;
  lastGood := {| CTel := zeroTelemetry; CSp := zeroHASetpoints; have := false |} |}.

Definition demo_sprint : json → string := λ _, "".

Definition demo_window : TimedWindow :=
  {| Start := {| ClockHour := 23; ClockMinute := 30 |}; End_ := {| ClockHour := 5; ClockMinute := 30 |} |}.

Definition demo_scheduler (controls : bool) : Scheduler (World Plant) :=
  scheduler_of (B := Plant) (tz := dst_zone) (conv := demo_conv) demo_sprint (demo_config controls) demo_window true.

Lemma demo_assemble controls :
  assemble (B := Plant) (tz := dst_zone) (conv := demo_conv) demo_sprint (demo_config controls) = Ok (demo_scheduler controls).
Proof. reflexivity. Qed.

Lemma unit_eta {A} (p : unit * A) : p = (tt, p.2).
Proof. by destruct p as [[] ?]. Qed.

Definition demo_events : list event :=
  [Inbound "solis/1234567890/boost_select/set" "Discharge 45 min"; Tick].

(** Replies get lost on the way; the run still writes slots. *)
Lemma history_never_both_set_witness :
  let _ : TimeZone := dst_zone in
  let w := demo_world [Fine; ReplyLost; Fine; NoReply] in
  let w' := (Run (demo_scheduler true) demo_events w).2 in
  landed w' ≠ [] ∧ ∃ L, landed w' = landed w ++ L ∧
    ∀ j i, 0 ≤ i ≤ 2 → both_set (slot_at (write_regs (holding w) (take j L)) i) = false.
Proof.
  intros tz w w'. split; [vm_compute; discriminate|].
  destruct (history_never_both_set (conv := demo_conv) demo_sprint (demo_config true) (demo_scheduler true)
    demo_events w w') as (L & H1 & _ & H2).
  - apply demo_assemble.
  - exact (unit_eta (Run (demo_scheduler true) demo_events w)).
  - intros i Hi. assert (i = 0 ∨ i = 1 ∨ i = 2) as [-> |[-> | ->]] by lia; vm_compute; reflexivity.
  - exists L. split; [exact H1|exact H2].
Defined.

Lemma history_envelope_witness :
  let _ : TimeZone := dst_zone in
  let w := demo_world [Fine; ReplyLost; Fine; NoReply] in
  let w' := (Run (demo_scheduler true) demo_events w).2 in
  frames w' ≠ [] ∧ (∃ fr, frames w' = frames w ++ fr ∧ Forall register_ok fr) ∧
  holding w' 43117 = holding w 43117.
Proof.
  intros tz w w'. split; [vm_compute; discriminate|].
  destruct (history_envelope (conv := demo_conv) demo_sprint (demo_config true) (demo_scheduler true)
    demo_events w w' (demo_assemble true) (unit_eta (Run (demo_scheduler true) demo_events w))) as (H1 & _ & H2).
  split; [exact H1|]. apply H2. unfold command_register. lia.
Defined.

Lemma read_only_mode_witness :
  let _ : TimeZone := dst_zone in
  let w := demo_world [] in
  let w' := (Run (demo_scheduler false) demo_events w).2 in
  frames w' = [] ∧ have (lastGood w') = true.
Proof.
  intros tz w w'. split; [|vm_compute; reflexivity].
  destruct (read_only_mode (conv := demo_conv) demo_sprint (demo_config false) (demo_scheduler false)
    demo_events w w' (demo_assemble false) eq_refl (unit_eta (Run (demo_scheduler false) demo_events w)))
    as [H _]. exact H.
Defined.

(** The setpoint frame of the poll is lost: the poll goes on stale. *)
Lemma stale_poll_writes_nothing_witness :
  let _ : TimeZone := dst_zone in
  let w := demo_world [NoReply] in
  let w' := (poll (demo_scheduler true) w).2 in
  stale w' = true ∧ frames w' = frames w ∧ Server.Ready (status w') = true.
Proof.
  intros tz w w'. assert (stale w' = true) as Hst by (vm_compute; reflexivity).
  split; [exact Hst|]. split; [|vm_compute; reflexivity].
  apply (stale_poll_writes_nothing (conv := demo_conv) demo_sprint (demo_config true) (demo_scheduler true)
    w w' (demo_assemble true) (unit_eta (poll (demo_scheduler true) w)) Hst). reflexivity.
Defined.
