(* ===== verification/HealthyRuns.v ===== *)
(** * The manager when everything works

    On a healthy bus with an answering broker a poll reads the inverter, publishes
    it, becomes ready and makes the slots the desired schedule; and whatever it is told,
    the bus stays healthy and the slots in range. *)

From Stdlib Require Import Ascii.
From S2P Require Import Prelude GoInt GoString GoTime GoFloat FloatFacts Amps Block WorkMode.
From S2P Require Import Registers TimedSlots Rtc Telemetry Schedule Sidecar Json HomeAssistant.
From S2P Require Import StateDocument Server Publisher Controls ControlsSafety SafeRuns Scheduler.
From S2P Require Import Cmd CmdSafety.

(** Input reads and publishes of a healthy outside succeed and keep it healthy. *)
Class HealthyOutside (B : Type) `{HealthyBus B} `{RegisterReader B} `{Publisher B} : Type := {
  inputs : B → mem;
  inputs_words b a : is_uint16 (inputs b a);
  healthy_input a n b : is_uint16 a → 1 ≤ n ≤ MaxCount → healthy b → ∃ b',
    ReadInput a n b = (Ok (bank_words (inputs b) a (Z.to_nat n)), b') ∧ healthy b' ∧
    ∀ x, inputs b' x = inputs b x;
  healthy_publish cx t p f b : healthy b → ∃ b', Publish cx t p f b = (None, b') ∧ healthy b';
}.

#[export, refine] Instance World_healthy {B} `{rw : HoldingReadWriter B} `{laws : !BusLaws B}
    `{hb : !HealthyBus B} : HealthyBus (World B) := { healthy w := healthy (outside w) }.
Proof.
  - intros a n w Ha Hn H. destruct (healthy_read a n (outside w) Ha Hn H) as (b & E & Hb).
    exists (set_outside b w). unfold ReadHolding, World_bus, lift. by rewrite E.
  - intros a v w H Ha Hv. destruct (healthy_write a v (outside w) H Ha Hv) as (b & E & Hb).
    exists (set_outside b w). unfold WriteHolding, World_bus, lift. by rewrite E.
Defined.

(** ** Commands keep a healthy bus healthy *)

Section Bus.
Context {W : Type} `{rw : HoldingReadWriter W} `{laws : !BusLaws W} `{hb : !HealthyBus W}.
Context `{clk : Clock_ W} `{tz : TimeZone} `{conv : FloatToUint16}.

(** Healthy after, with slots in range if they were. *)
Definition stays (w w' : W) : Prop :=
  healthy w → Slots_wf (slots_at (holding w)) →
  healthy w' ∧ Slots_wf (slots_at (holding w')).

#[export] Instance stays_preorder : PreOrder stays.
Proof.
  split; [by intros w|]. intros w w1 w' H1 H2 Hw Hs. destruct (H1 Hw Hs) as [Hw1 Hs1]. by apply H2.
Qed.

Lemma quiet_stays w w' : quiet w w' → (healthy w → healthy w') → stays w w'.
Proof. intros [[U _] _] H Hw Hs. split; [auto|]. by rewrite (slots_at_ext _ (holding w)). Qed.

Lemma readOne_stays a w r w' : is_uint16 a → readOne a w = (r, w') → stays w w'.
Proof.
  intros Ha E. apply quiet_stays; [by apply readOne_spec in E as (U & F & _)|].
  intros Hw. destruct (readOne_healthy a w Ha Hw) as (w1 & E1 & Hw1). congruence.
Qed.

Lemma guardOne_stays a v w r w' : is_uint16 a → is_uint16 v → ¬ (43143 ≤ a ≤ 43170) →
  guardOne a v w = (r, w') → stays w w'.
Proof.
  intros Hu Hv Ha E Hw Hs. destruct (guardOne_healthy a v w Hw Hu Hv) as (w1 & E1 & Hw1 & _).
  assert (w1 = w') as -> by congruence. split; [done|].
  rewrite (safe_slots_off w w' (λ r, Addr r = a)); [done| |].
  - intros x <-. exact Ha.
  - eapply guardOne_effects; [|exact Hv|exact E]. done.
Qed.

(** A sequence off the slots, and a boost's. *)
Lemma writeRegisters_stays regs w r w' : Forall addr_reg regs → Forall word_reg regs → NoDup (Addr <$> regs) →
  (Slots_wf (slots_at (holding w)) → Slots_wf (slots_at (write_regs (holding w) regs))) →
  writeRegisters regs w = (r, w') → stays w w'.
Proof.
  intros Had Hwd Hnd Hs E Hw Hs0.
  destruct (writeRegisters_healthy regs w Hw Had Hwd Hnd) as (w1 & E1 & Hw1 & _ & _ & Hh).
  assert (w1 = w') as -> by congruence. split; [done|]. rewrite (slots_at_ext _ _ Hh). auto.
Qed.

Lemma boost_slots_wf m slot : Slot_wf slot → Slots_wf (slots_at m) →
  Slots_wf (slots_at (write_regs m (slot_regs 2 slot))).
Proof.
  intros Hs (H0 & H1 & _). cbn in H0, H1. split; [|split]; cbn [slots_at slot0 slot1 slot2].
  - rewrite slot_at_foreign; [done|]. intros r Hr Ha.
    apply (slot_regs_values 2 slot) in Hr; [lia|lia|done].
  - rewrite slot_at_foreign; [done|]. intros r Hr Ha.
    apply (slot_regs_values 2 slot) in Hr; [lia|lia|done].
  - rewrite (slot_at_written m 2 slot); [done|apply slot_regs_eq; lia].
Qed.

Lemma setBoost_stays h payload w r w' : Handler_wf h → setBoost h payload w = (r, w') → stays w w'.
Proof.
  intros Hwf H. assert (∀ w1, peeked w w1 → stays w w1) as Hpeek.
  { intros w1 [->|(x & E)]; [done|by eapply (readOne_stays RegWorkMode)]. }
  apply (setBoost_run h payload w r w' Hwf) in H as [(Hp & _)|(slot & w1 & res & Hp & Hs & _ & E & _)];
    [auto|].
  transitivity w1; [auto|]. eapply writeRegisters_stays; [| | | |exact E].
  - apply (addr_reg_range 43163 43170); [lia..|]. intros x Hx.
    apply (slot_regs_values 2 slot) in Hx; [lia|lia|done].
  - apply slot_regs_word; [lia|done].
  - apply slot_regs_NoDup; lia.
  - by apply boost_slots_wf.
Qed.

Lemma SyncRTC_stays w r w' : SyncRTC w = (r, w') → stays w w'.
Proof.
  unfold SyncRTC, syncRTCTo. intros H. apply state_bind_inv in H as (now & w1 & E & H). injection E as <- <-.
  eapply writeRegisters_stays; [| | | |exact H].
  - apply (addr_reg_range 43000 43005); [lia..|]. intros x Hx.
    apply (list_elem_of_fmap_2 Addr) in Hx. rewrite RTCWriteRegisters_addrs in Hx.
    apply elem_of_seqZ in Hx. unfold RegRTCSet in Hx. lia.
  - apply Forall_forall, RTCWriteRegisters_uint16.
  - apply RTCWriteRegisters_NoDup.
  - intros Hs. assert (slots_at (write_regs (holding w) (RTCWriteRegisters (Now w))) = slots_at (holding w))
      as ->; [|done].
    unfold slots_at. f_equal; apply slot_at_foreign; intros x Hx Ha;
      apply (list_elem_of_fmap_2 Addr) in Hx; rewrite RTCWriteRegisters_addrs in Hx;
      apply elem_of_seqZ in Hx; unfold RegRTCSet in Hx; lia.
Qed.

Lemma setCurrent_stays addr payload w r w' : addr = 43141 ∨ addr = 43142 →
  setCurrent addr payload w = (r, w') → stays w w'.
Proof.
  intros Ha. unfold setCurrent. destruct (ParseFloat (TrimSpace payload)) as [x|e] eqn:E; [|by intros [= _ <-]].
  destruct (IsNaN x || IsInf x) eqn:En; [by intros [= _ <-]|].
  apply orb_false_iff in En as [En _]. intros H. state_inv. subst.
  assert (0 ≤ EncodeAmps (ClampHAChargeAmps x) ≤ 625)
    by (apply clamp_encode_range; [by eapply ParseFloat_ok|done]).
  eapply guardOne_stays; [| | |exact E0]; [int_solve..|lia].
Qed.

Lemma setOptimalIncome_stays payload w r w' : setOptimalIncome payload w = (r, w') → stays w w'.
Proof.
  unfold setOptimalIncome. destruct (parseRunStop payload) as [on|]; [|by intros [= _ <-]].
  intros H. apply state_bind_inv in H as (cur & w1 & E1 & H).
  transitivity w1; [by eapply (readOne_stays RegWorkMode)|].
  apply readOne_spec in E1 as (_ & _ & V). destruct cur as [cur|e]; [|by injection H as _ <-].
  specialize (V cur eq_refl). state_inv. subst.
  destruct (work_mode_facts (holding w RegWorkMode) on (bus_words w RegWorkMode)) as (_ & Hu & _).
  eapply (guardOne_stays RegWorkMode); [done|exact Hu| |exact E]. change RegWorkMode with 43110. lia.
Qed.

Lemma route_stays h key payload w r w' : Handler_wf h → route h key payload w = (r, w') → stays w w'.
Proof.
  intros Hwf. unfold route.
  case_decide; [apply setCurrent_stays; by left|]. case_decide; [apply setCurrent_stays; by right|].
  case_decide; [apply setOptimalIncome_stays|]. case_decide; [by apply setBoost_stays|].
  case_decide; [|by intros [= _ <-]].
  unfold syncRTC. intros Hrun. state_inv. subst. by eapply SyncRTC_stays.
Qed.
End Bus.

(** ** Reading and publishing *)

(** The control state a bank stands for, at an instant. *)
Definition setpoints_of `{TimeZone} (m : mem) (now : Time) : HASetpoints := {|
  HASetChargeCurrent := DecodeAmps (m 43141); HASetDischargeCurrent := DecodeAmps (m 43142);
  HAMaxChargeCurrent := DecodeAmps (m 43117); HAMaxDischargeCurrent := DecodeAmps (m 43118);
  HAOptimalIncome := Z.testbit (m 43110) 1; HASlots := slots_at m;
  BoostEndsAt := EndsAt (BoostOf (slots_at m)) now |}.

Lemma ReadSetpoints_healthy {W} `{rw : HoldingReadWriter W} `{laws : !BusLaws W} `{hb : !HealthyBus W} (w : W) :
  healthy w → Slots_wf (slots_at (holding w)) → ∃ sp w', ReadSetpoints w = (Ok sp, w') ∧ healthy w'.
Proof.
  intros Hw Hs. destruct (healthy_read RegWorkMode setpointBlockCount w ltac:(done) ltac:(done) Hw) as (w' & E & Hw').
  unfold ReadSetpoints. rewrite (state_bind_step _ _ _ _ _ E).
  change (Z.to_nat setpointBlockCount) with 61%nat. rewrite bank_words_length.
  change (Z.of_nat 61 <? setpointBlockCount) with false. cbv iota.
  assert (DecodeTimedSlots [ {| Base := RegWorkMode; Regs := bank_words (holding w) RegWorkMode 61 |} ]
    = Ok (slots_at (holding w))) as ->.
  { apply (DecodeTimedSlots_spec _ (holding w) 43110 43171); [|apply bus_words|lia|lia|done].
    apply holds_bank_single; unfold RegWorkMode; lia. }
  by eexists _, _.
Qed.

Section HealthyOutside.
Context {B : Type} `{rw : HoldingReadWriter B} `{laws : !BusLaws B} `{hb : !HealthyBus B}.
Context `{input : RegisterReader B} `{pub : Publisher B} `{ctx : Context_ B} `{out : !OutsideLaws B}.
Context `{ho : !HealthyOutside B}.
Context `{clk : Clock_ B} `{tz : TimeZone} `{conv : FloatToUint16}.
Context (sprint : json → string).

(** The reading a poll takes of a healthy outside. *)
Definition reading_of (w : World B) : Telemetry := telemetry_of (inputs (outside w)).

Lemma Collect_healthy (w : World B) : healthy w → ∃ w', Collect w = (Ok (reading_of w), w') ∧ healthy w'.
Proof.
  intros Hw. unfold Collect, ReadInput, World_input, lift.
  destruct (healthy_input block1Base block1Count (outside w) ltac:(done) ltac:(done) Hw) as (b1 & E1 & Hb1 & Hi1).
  rewrite E1. cbn [outside set_outside].
  destruct (healthy_input block2Base block2Count b1 ltac:(done) ltac:(done) Hb1) as (b2 & E2 & Hb2 & _).
  rewrite E2. exists (set_outside b2 (set_outside b1 w)). split; [|exact Hb2]. f_equal.
  assert (bank_words (inputs b1) block2Base (Z.to_nat block2Count) =
    bank_words (inputs (outside w)) block2Base (Z.to_nat block2Count)) as ->.
  { by apply bank_words_ext. }
  apply DecodeTelemetry_holds, two_blocks_hold, inputs_words.
Qed.

Lemma newStateReader_healthy (w : World B) : healthy w → Slots_wf (slots_at (holding w)) →
  ∃ now w', newStateReader w = (Ok (reading_of w, setpoints_of (holding w) now), w') ∧
    healthy w' ∧ reads_only w w' ∧ stale w' = false.
Proof.
  intros Hw Hs. destruct (Collect_healthy w Hw) as (w1 & E1 & Hw1).
  destruct (Collect_quiet w _ w1 E1) as [[[U1 _] _] _].
  assert (slots_at (holding w1) = slots_at (holding w)) as Es by (by apply slots_at_ext).
  destruct (ReadSetpoints_healthy w1 Hw1 ltac:(by rewrite Es)) as (sp & w2 & E2 & Hw2).
  assert (newStateReader w = (Ok (reading_of w, toHASetpoints sp (Now w2)), set_stale false w2)) as E.
  { unfold newStateReader. rewrite (state_bind_step _ _ _ _ _ E1). unfold mbind, state_bind.
    by rewrite E2. }
  assert (toHASetpoints sp (Now w2) = setpoints_of (holding w) (Now w2)) as Esp.
  { apply ReadSetpoints_spec in E2 as (S1 & S2 & S3 & S4 & S5 & S6 & _).
    unfold toHASetpoints, setpoints_of. by rewrite S1, S2, S3, S4, S5, S6, !U1, Es. }
  exists (Now w2), (set_stale false w2). rewrite E, Esp. split; [done|]. split; [exact Hw2|].
  split; [|done]. by apply (newStateReader_post w _ _ E).
Qed.

Lemma decodeValues_object fields : ∃ rs, decodeValues sprint (Ok (JObj fields, false)) = Ok rs.
Proof. by eexists. Qed.

(** A published state reaches the status page, and readiness is left to the poll. *)
Lemma statePublisher_healthy c cx m (sp : HASetpoints) (w : World B) : healthy w →
  (∀ a, is_uint16 (m a)) → setpoints_num sp →
  ∃ w', statePublisher sprint (Some c) cx (telemetry_of m) sp w = (None, w') ∧ healthy w' ∧
    stale w' = stale w ∧ lastGood w' = lastGood w ∧
    ready (status w') = ready (status w) ∧ threshold (status w') = threshold (status w) ∧
    consecutiveFailures (status w') = consecutiveFailures (status w) ∧
    let fields := state_fields (state_of (telemetry_of m) (Drift (TTime (telemetry_of m)) (Now w)) sp) in
    Publish cx (StateTopic c) (PStruct fields) true (outside w) = (None, outside w') ∧
    ∃ r, last (status w') = Some r ∧ Ok (rows r) = decodeValues sprint (Ok (JObj fields, false)).
Proof.
  intros Hw Hm Hsp. unfold statePublisher, PublishState, mbind, state_bind.
  rewrite (BuildState_ok c (telemetry_of m) _ sp (telemetry_of_num m Hm) (Sub_range _ _) Hsp).
  cbn [MTopic MPayload]. remember (state_fields _) as fields eqn:Hf.
  generalize (StateTopic c). intros topic. clear Hf.
  destruct (healthy_publish cx topic (PStruct fields) true (outside w) Hw) as (b & E & Hb).
  assert (Publish cx topic (PStruct fields) true w = (None, set_outside b w)) as ->.
  { change (lift (Publish cx topic (PStruct fields) true) w = (None, set_outside b w)).
    unfold lift. by rewrite E. }
  unfold record, RecordReading, mret, state_ret. cbn [MPayload decoded].
  destruct (decodeValues_object fields) as [rs Ed]. rewrite Ed.
  cbv beta iota. eexists. split; [reflexivity|]. split; [exact Hb|].
  do 5 (split; [reflexivity|]). split; [exact E|]. by eexists.
Qed.

Lemma readWithRetry_first s (w : World B) v w' : Read s w = (Ok v, w') → readWithRetry s w = (Ok v, w').
Proof.
  intros E. unfold readWithRetry. cbn [read_attempts]. unfold mbind, state_bind, mret, state_ret.
  by rewrite E.
Qed.

Lemma setpoints_of_num m now : (∀ a, is_uint16 (m a)) → setpoints_num (setpoints_of m now).
Proof. intros Hm. unfold setpoints_num, setpoints_of; cbn. auto with num. Qed.

(** Nothing outside the process moved. *)
Definition same_outside (w w' : World B) : Prop := outside w' = outside w.

Lemma maybeReconcile_outward c window assert_ slots (w : World B) u w' :
  maybeReconcile (scheduler_of sprint c window assert_) slots w = (u, w') → same_process w w'.
Proof. by intros [->|(_ & _ & H & _)]%maybeReconcile_run. Qed.

(** A clock sync, if it is due, keeps the slots and the process's own state. *)
Lemma maybeSyncRTC_healthy c window assert_ tel (w : World B) : healthy w → Slots_wf (slots_at (holding w)) →
  ∃ w', maybeSyncRTC (scheduler_of sprint c window assert_) tel w = (tt, w') ∧ healthy w' ∧
    slots_at (holding w') = slots_at (holding w) ∧ same_process w w'.
Proof.
  intros Hw Hs. destruct (maybeSyncRTC _ tel w) as [[] w'] eqn:E. exists w'. split; [done|].
  apply maybeSyncRTC_run in E as [->|(_ & _ & r & E & S)]; [done|].
  split; [by apply (SyncRTC_stays _ _ _ E)|]. split; [|exact S].
  eapply safe_slots_off; [|by eapply SyncRTC_effects]. cbv beta. lia.
Qed.

(** The reconcile of a poll, fresh and healthy. *)
Lemma maybeReconcile_healthy c window assert_ (w : World B) : healthy w → stale w = false → Window_wf window →
  Slots_wf (slots_at (holding w)) → ControlsEnabled (haCfg c) = true →
  ∃ w', maybeReconcile (scheduler_of sprint c window assert_) (slots_at (holding w)) w = (tt, w') ∧ healthy w' ∧
    slots_at (holding w') = Desired window assert_ (slots_at (holding w)) (Now w) ∧
    ∀ a, ¬ (43143 ≤ a ≤ 43170) → holding w' a = holding w a.
Proof.
  intros Hw Hst Hwin Hs Hc.
  destruct (Reconcile_healthy (handler sprint c window assert_) w Hw eq_refl Hwin Hs)
    as (wrote & w' & E & Hw' & Hd & _ & Hf & _).
  exists w'. split; [|done]. unfold maybeReconcile. cbn [scheduler_of Scheduler.New reconciler]. rewrite Hc.
  unfold gate, gatedReconciler_Reconcile, isStale, mbind, state_bind. by rewrite Hst, E.
Qed.

(** Both, as a poll ends with them. *)
Lemma controls_follow c window assert_ tel (w : World B) : healthy w → stale w = false → Window_wf window →
  Slots_wf (slots_at (holding w)) → ControlsEnabled (haCfg c) = true →
  let s := scheduler_of sprint c window assert_ in
  ∃ now w', (_ ← maybeSyncRTC s tel; maybeReconcile s (slots_at (holding w))) w = (tt, w') ∧ healthy w' ∧
    slots_at (holding w') = Desired window assert_ (slots_at (holding w)) now ∧ same_process w w'.
Proof.
  intros Hw Hst Hwin Hs Hc s.
  destruct (maybeSyncRTC_healthy c window assert_ tel w Hw Hs) as (w1 & E1 & Hw1 & Hsl & S1 & T1 & G1).
  rewrite <- Hsl in Hs |- *.
  destruct (maybeReconcile_healthy c window assert_ w1 Hw1 ltac:(congruence) Hwin Hs Hc)
    as (w2 & E2 & Hw2 & Hd & _).
  destruct (maybeReconcile_outward c window assert_ _ _ _ _ E2) as (S2 & T2 & G2).
  exists (Now w1), w2. split; [by rewrite (state_bind_step _ _ _ _ _ E1)|]. split; [exact Hw2|].
  split; [exact Hd|]. split; [|split]; congruence.
Qed.

(** A poll of a healthy outside reads and publishes, and reaches the controls ready and
    fresh with the bank as it was. *)
Lemma poll_controls (c : ServeConfig) (window : TimedWindow) (assert_ : bool) (w : World B) :
  let s := scheduler_of sprint c window assert_ in
  healthy w → Slots_wf (slots_at (holding w)) → ∃ read w1 w2 w3 w4,
    newStateReader w = (Ok (reading_of w, setpoints_of (holding w) read), w1) ∧ same_outside w1 w2 ∧
    statePublisher sprint (Some (haCfg c)) RunContext (reading_of w) (setpoints_of (holding w) read) w2 = (None, w3) ∧
    same_outside w3 w4 ∧
    poll s w = (_ ← maybeSyncRTC s (reading_of w); maybeReconcile s (slots_at (holding w))) w4 ∧
    healthy w4 ∧ (∀ a, holding w4 a = holding w a) ∧ stale w4 = false ∧ Ready (status w4) = true ∧
    LastState w4 = (reading_of w, setpoints_of (holding w) read, true) ∧
    ∃ r, last (status w4) = Some r ∧ Ok (rows r) = decodeValues sprint (Ok (JObj (state_fields
      (state_of (reading_of w) (Drift (TTime (reading_of w)) (Now w2)) (setpoints_of (holding w) read))), false)).
Proof.
  intros s Hw Hs.
  destruct (newStateReader_healthy w Hw Hs) as (now & w1 & E1 & Hw1 & ([[U1 _] _] & _ & _) & S1).
  set (w2 := put_cache {| CTel := reading_of w; CSp := setpoints_of (holding w) now; have := true |} w1).
  destruct (statePublisher_healthy (haCfg c) RunContext (inputs (outside w)) (setpoints_of (holding w) now) w2)
    as (w3 & E3 & Hw3 & S3 & G3 & _ & _ & _ & _ & r & Hr3 & Hrows); [exact Hw1|apply inputs_words| |].
  { apply setpoints_of_num, bus_words. }
  destruct (statePublisher_post _ _ _ _ _ _ _ _ E3) as ([[U3 _] _] & _).
  set (w4 := set_status (Server.MarkSuccess (status w3)) w3).
  exists now, w1, w2, w3, w4. split; [exact E1|]. split; [done|]. split; [exact E3|]. split; [done|].
  split; [|split; [exact Hw3|]; split; [|split; [|split; [done|]; split]]].
  - unfold poll. rewrite (state_bind_step _ _ _ _ _ (readWithRetry_first s w _ _ E1)).
    cbv beta iota. rewrite (state_bind_step (RememberState _ _) _ w1 tt w2 eq_refl).
    rewrite (state_bind_step _ _ w2 None w3 E3).
    by rewrite (state_bind_step (MarkSuccess s) _ w3 tt w4 eq_refl).
  - intros a. change (holding w3 a = holding w a). rewrite U3. apply U1.
  - change (stale w3 = false). rewrite S3. exact S1.
  - unfold LastState. change (cache w4) with (lastGood w3). rewrite G3. reflexivity.
  - exists r. split; [exact Hr3|exact Hrows].
Qed.

(** ** Properties *)

(** A poll when all is well.  On a healthy outside whose slots are in range, with
    controls enabled, one poll of the assembled manager ends ready
    and fresh, having cached exactly the reading of the input bank and the control
    state of the holding bank, recorded for the status page the rows of that very
    document, and made the three slots the desired schedule of the moment. *)
Theorem healthy_poll (c : ServeConfig) (window : TimedWindow) (assert_ : bool) (w : World B) :
  healthy w → Slots_wf (slots_at (holding w)) → Window_wf window →
  ControlsEnabled (haCfg c) = true →
  ∃ read published reconciled w',
    poll (scheduler_of sprint c window assert_) w = (tt, w') ∧ healthy w' ∧
    Ready (status w') = true ∧ stale w' = false ∧
    LastState w' = (reading_of w, setpoints_of (holding w) read, true) ∧
    slots_at (holding w') = Desired window assert_ (slots_at (holding w)) reconciled ∧
    ∃ r, last (status w') = Some r ∧ Ok (rows r) = decodeValues sprint (Ok (JObj (state_fields
      (state_of (reading_of w) (Drift (TTime (reading_of w)) published) (setpoints_of (holding w) read))), false)).
Proof.
  intros Hw Hs Hwin Hc.
  destruct (poll_controls c window assert_ w Hw Hs)
    as (now & w1 & w2 & w3 & w4 & _ & _ & _ & _ & E & Hw4 & U4 & S4 & R4 & L4 & r & Hr4 & Hrows).
  destruct (controls_follow c window assert_ (reading_of w) w4 Hw4 S4 Hwin
    ltac:(by rewrite (slots_at_ext _ _ U4)) Hc) as (when & w5 & E5 & Hw5 & Hd & S5 & T5 & G5).
  rewrite (slots_at_ext _ _ U4) in E5, Hd.
  exists now, (Now w2), when, w5. split; [by rewrite E|]. split; [exact Hw5|].
  split; [by rewrite S5|]. split; [by rewrite T5|]. split.
  { rewrite <- L4. unfold LastState. change (cache w5) with (lastGood w5). by rewrite G5. }
  split; [exact Hd|]. exists r. rewrite S5. split; [exact Hr4|exact Hrows].
Qed.

End HealthyOutside.

(** ** On the concrete plant *)

#[export, refine] Instance Plant_healthy_outside : HealthyOutside Plant := {
  inputs p b := to_uint16 (input_bank p b);
}.
Proof.
  - intros p a. int_unfold. Z.div_mod_to_equations. lia.
  - intros a n p _ _ (Hd & Ha & He). exists p. unfold ReadInput, Plant_input. rewrite Ha. done.
  - intros cx t p f b (Hd & Ha & He). eexists. split; [reflexivity|]. done.
Defined.

Lemma demo_world_healthy : healthy (demo_world []).
Proof. split; [reflexivity|split; reflexivity]. Qed.

Lemma demo_world_slots : Slots_wf (slots_at (holding (demo_world []))).
Proof. apply (bool_decide_unpack _). vm_compute. exact I. Qed.

Lemma demo_window_wf : Window_wf demo_window.
Proof. apply (bool_decide_unpack _). vm_compute. exact I. Qed.

Lemma healthy_poll_witness :
  let _ : TimeZone := dst_zone in
  ∃ read reconciled w', poll (demo_scheduler true) (demo_world []) = (tt, w') ∧ Ready (status w') = true ∧
    LastState w' = (reading_of (demo_world []), setpoints_of (holding (demo_world [])) read, true) ∧
    slots_at (holding w') = Desired demo_window true (slots_at (holding (demo_world []))) reconciled.
Proof.
  intros tz.
  destruct (healthy_poll (conv := demo_conv) demo_sprint (demo_config true) demo_window true (demo_world [])
    demo_world_healthy demo_world_slots demo_window_wf eq_refl)
    as (read & published & reconciled & w' & H1 & _ & H2 & _ & H3 & H4 & _).
  exists read, reconciled, w'. split; [exact H1|]. split; [exact H2|]. split; [exact H3|exact H4].
Defined.
