(* ===== verification/Panel.v ===== *)
(** * The control panel: what the commands and the reconcile are for

    An abstract specification of the controls.  A panel is the part of the inverter
    the manager controls: two currents, the work mode, the three slots and the clock.
    [tell] is what a message asks of it and [settle] what a poll does to it, as pure
    functions of an instant; neither mentions a register, a guard or a retry.  On a
    healthy bus the code does exactly that and touches nothing else
    ([commands_refine_panel]; a whole run is in [PanelRuns]). *)

From Stdlib Require Import Ascii.
From S2P Require Import Prelude GoInt GoString GoTime GoFloat FloatFacts Amps Block WorkMode.
From S2P Require Import Registers TimedSlots Rtc Schedule Sidecar Controls ControlsSafety HealthyRuns.

(** ** The panel *)

Record Panel : Type := {
  PCharge : Z;          (* tenths of an ampere *)
  PDischarge : Z;
  PMode : Z;            (* the work mode word; bit 1 is the optimal income *)
  PSlots : TimedSlots;
  PClock : list Z;      (* year - 2000, month, day, hour, minute, second *)
}.

Definition PBoost (p : Panel) : TimedSlot := slot2 (PSlots p).

Definition with_slots (s : TimedSlots) (p : Panel) : Panel := {|
  PCharge := PCharge p; PDischarge := PDischarge p; PMode := PMode p; PSlots := s; PClock := PClock p |}.
Definition with_boost (t : TimedSlot) (p : Panel) : Panel :=
  with_slots {| slot0 := slot0 (PSlots p); slot1 := slot1 (PSlots p); slot2 := t |} p.
Definition with_clock (c : list Z) (p : Panel) : Panel := {|
  PCharge := PCharge p; PDischarge := PDischarge p; PMode := PMode p; PSlots := PSlots p; PClock := c |}.

(** The panel a register bank shows. *)
Definition panel_of (m : mem) : Panel := {|
  PCharge := m 43141; PDischarge := m 43142; PMode := m 43110; PSlots := slots_at m;
  PClock := bank_words m 43000 6 |}.

Definition panel_addrs : list Z :=
  seqZ 43000 6 ++ [43110; 43141; 43142] ++ seqZ 43143 8 ++ seqZ 43153 8 ++ seqZ 43163 8.

(** ** What a message asks for *)

Inductive Intent : Type :=
| ChargeAt (tenths : Z)
| DischargeAt (tenths : Z)
| Income (on : bool)
| NoBoost
| BoostFor (mode : Mode) (minutes : Z)
| SetClock.

Section Spec.
Context `{tz : TimeZone} `{conv : FloatToUint16}.

(** A number that is one, in tenths of an ampere, inside 0 to 62.5 A. *)
Definition tenths_of (payload : string) : option Z :=
  match ParseFloat (TrimSpace payload) with
  | Ok x => if IsNaN x || IsInf x then None else Some (EncodeAmps (ClampHAChargeAmps x))
  | Err _ => None
  end.

Definition boost_of (payload : string) : option Intent :=
  '(mode, minutes) ← ParseBoostOption payload;
  Some (if decide (mode = Off) then NoBoost else BoostFor mode minutes).

Definition intents : list (string * (string → option Intent)) := [
  ("set_charge_current", λ payload, ChargeAt <$> tenths_of payload);
  ("set_discharge_current", λ payload, DischargeAt <$> tenths_of payload);
  ("optimal_income", λ payload, Income <$> parseRunStop payload);
  ("boost_select", boost_of);
  ("rtc_sync", λ _, Some SetClock) ].

(** [None]: not understood. *)
Definition intent (key payload : string) : option Intent :=
  f ← List.find (λ '(k, _), bool_decide (key = k)) intents;
  f.2 payload.

(** The window of a boost asked for at minute [start]: up to the end of the
    quarter-hour grid cell [minutes] away, within the day and outside the tariff. *)
Definition boost_window (tou : TimedWindow) (assert_ : bool) (minutes start : Z) : option TimedWindow :=
  let stop := start - start mod 15 + minutes in
  if 1440 <=? stop then None
  else if assert_ && existsb (in_window tou) (seqZ start (stop - start)) then None
  else Some {| Start := clockAt start; End_ := clockAt stop |}.

Definition tell (tou : TimedWindow) (assert_ : bool) (now : Time) (i : Intent) (p : Panel) : Panel :=
  match i with
  | ChargeAt k => {| PCharge := k; PDischarge := PDischarge p; PMode := PMode p;
                     PSlots := PSlots p; PClock := PClock p |}
  | DischargeAt k => {| PCharge := PCharge p; PDischarge := k; PMode := PMode p;
                        PSlots := PSlots p; PClock := PClock p |}
  | Income on => {| PCharge := PCharge p; PDischarge := PDischarge p;
                    PMode := (if on then Z.setbit else Z.clearbit) (PMode p) 1;
                    PSlots := PSlots p; PClock := PClock p |}
  | NoBoost => with_boost Slot0 p
  | BoostFor mode minutes =>
      if Z.testbit (PMode p) 1 then
        match boost_window tou assert_ minutes (minuteOf now) with
        | Some w => with_boost (boost_slot mode w) p
        | None => p
        end
      else p
  | SetClock => with_clock (EncodeRTC now) p
  end.

(** A poll: the schedule of the moment, and the clock if it is to be set. *)
Definition settle (tou : TimedWindow) (assert_ : bool) (now : Time) (set : option Time) (p : Panel) : Panel :=
  with_slots (Desired tou assert_ (PSlots p) now)
    match set with Some t => with_clock (EncodeRTC t) p | None => p end.
End Spec.

(** ** The panel of a bank after writes *)

Lemma panel_of_ext m m' : (∀ a, m a = m' a) → panel_of m = panel_of m'.
Proof.
  intros H. unfold panel_of. rewrite !H, (slots_at_ext m m' H). f_equal. by apply bank_words_ext.
Qed.

Lemma slots_at_off m l : Forall (λ r, ¬ (43143 ≤ Addr r ≤ 43170)) l →
  slots_at (write_regs m l) = slots_at m.
Proof.
  rewrite Forall_forall. intros H.
  unfold slots_at. f_equal; apply slot_at_foreign; intros r Hr Ha; specialize (H r Hr); lia.
Qed.

Lemma clock_off m l : Forall (λ r, ¬ (43000 ≤ Addr r ≤ 43005)) l →
  bank_words (write_regs m l) 43000 6 = bank_words m 43000 6.
Proof.
  rewrite Forall_forall. intros H. unfold bank_words. apply list_fmap_ext.
  intros i x Hx. apply list_elem_of_lookup_2, elem_of_seq in Hx. apply write_regs_other.
  intros (r & E & Hr)%list_elem_of_fmap. specialize (H r Hr). lia.
Qed.

(** One word off the slots and the clock. *)
Lemma panel_of_word m a v : ¬ (43143 ≤ a ≤ 43170) → ¬ (43000 ≤ a ≤ 43005) →
  panel_of (write_regs m [ {| Addr := a; Value := v |} ]) = {|
    PCharge := if 43141 =? a then v else m 43141; PDischarge := if 43142 =? a then v else m 43142;
    PMode := if 43110 =? a then v else m 43110; PSlots := slots_at m; PClock := bank_words m 43000 6 |}.
Proof.
  intros Hs Hc. unfold panel_of. rewrite slots_at_off, clock_off by (by repeat constructor). done.
Qed.

Lemma write_regs_outside m l a : Forall (λ r, a ≠ Addr r) l → write_regs m l a = m a.
Proof.
  rewrite Forall_forall. intros H. apply write_regs_other.
  intros (r & E & Hr)%list_elem_of_fmap. by apply (H r Hr).
Qed.

Lemma panel_of_boost m slot : panel_of (write_regs m (slot_regs 2 slot)) = with_boost slot (panel_of m).
Proof.
  assert (∀ x, x ∈ slot_regs 2 slot → 43163 ≤ Addr x ≤ 43170) as Hr.
  { intros x Hx. apply (list_elem_of_fmap_2 Addr) in Hx.
    apply (expansion_range 2 slot _ _ (slot_regs_eq 2 slot ltac:(lia))) in Hx. lia. }
  assert (∀ a, ¬ (43163 ≤ a ≤ 43170) → write_regs m (slot_regs 2 slot) a = m a) as Ho.
  { intros a Ha. apply write_regs_outside, Forall_forall. intros x Hx ->. by apply Ha, Hr. }
  unfold panel_of, with_boost, with_slots. cbn [PCharge PDischarge PMode PSlots PClock].
  rewrite !Ho, clock_off by (lia || (apply Forall_forall; intros x Hx; specialize (Hr x Hx); lia)).
  f_equal. unfold slots_at. cbn [slot0 slot1 slot2]. f_equal.
  - apply slot_at_foreign. intros r Hin. specialize (Hr r Hin). lia.
  - apply slot_at_foreign. intros r Hin. specialize (Hr r Hin). lia.
  - apply slot_at_written, slot_regs_eq. lia.
Qed.

Lemma RTC_regs_range `{TimeZone} t : Forall (λ r, 43000 ≤ Addr r ≤ 43005) (RTCWriteRegisters t).
Proof.
  apply Forall_forall. intros x Hx. apply (list_elem_of_fmap_2 Addr) in Hx.
  rewrite RTCWriteRegisters_addrs in Hx. apply elem_of_seqZ in Hx. unfold RegRTCSet in Hx. lia.
Qed.

Lemma panel_of_clock `{TimeZone} m t :
  panel_of (write_regs m (RTCWriteRegisters t)) = with_clock (EncodeRTC t) (panel_of m).
Proof.
  pose proof (RTC_regs_range t) as Hr.
  assert (∀ a, ¬ (43000 ≤ a ≤ 43005) → write_regs m (RTCWriteRegisters t) a = m a) as Ho.
  { intros a Ha. apply write_regs_outside. eapply Forall_impl; [exact Hr|]. intros x ? ->. done. }
  unfold panel_of, with_clock. cbn [PCharge PDischarge PMode PSlots PClock].
  rewrite !Ho, slots_at_off by (lia || (eapply Forall_impl; [exact Hr|]; cbv beta; lia)). done.
Qed.

(** ** A healthy bus does what the panel asks *)

Section Bus.
Context {W : Type} `{rw : HoldingReadWriter W} `{laws : !BusLaws W} `{hb : !HealthyBus W}.
Context `{clk : Clock_ W} `{tz : TimeZone} `{conv : FloatToUint16}.

(** The bank shows [p] and is otherwise as it was. *)
Definition becomes (p : Panel) (w w' : W) : Prop :=
  panel_of (holding w') = p ∧ ∀ a, a ∉ panel_addrs → holding w' a = holding w a.

Lemma becomes_written l p w w' : (∀ a, holding w' a = write_regs (holding w) l a) →
  Forall (λ r, Addr r ∈ panel_addrs) l → panel_of (write_regs (holding w) l) = p → becomes p w w'.
Proof.
  intros Hh Hl Hp. split; [by rewrite (panel_of_ext _ _ Hh)|]. intros a Ha. rewrite Hh.
  apply write_regs_outside. eapply Forall_impl; [exact Hl|]. cbv beta. by intros r Hr ->.
Qed.

Lemma becomes_same w w' : (∀ a, holding w' a = holding w a) → becomes (panel_of (holding w)) w w'.
Proof. intros H. split; [by apply panel_of_ext|]. auto. Qed.

Lemma becomes_after p w w1 w' : (∀ a, holding w1 a = holding w a) → becomes p w1 w' → becomes p w w'.
Proof. intros H [Hp Hf]. split; [done|]. intros a Ha. by rewrite Hf. Qed.

(** One state is on the way from another by calls on the bus. *)
Definition bus_call (w w' : W) : Prop :=
  (∃ a n r, ReadHolding a n w = (r, w')) ∨ (∃ a v r, WriteHolding a v w = (r, w')).

Definition on_bus {A} (m : State W A) : Prop := ∀ w r w', m w = (r, w') → rtc bus_call w w'.

Lemma on_bus_ret {A} (x : A) : on_bus (mret x).
Proof. intros w r w' H. by injection H as _ <-. Qed.

Lemma on_bus_get {A} (f : W → A) : on_bus (λ w, (f w, w)).
Proof. intros w r w' H. by injection H as _ <-. Qed.

Lemma on_bus_bind {A C} (m : State W A) (f : A → State W C) :
  on_bus m → (∀ x, on_bus (f x)) → on_bus (m ≫= f).
Proof.
  intros Hm Hf w r w' (x & w1 & E1 & E2)%state_bind_inv.
  etransitivity; [by eapply Hm|by eapply Hf].
Qed.

Lemma on_bus_read a n : on_bus (ReadHolding a n).
Proof. intros w r w' E. apply rtc_once. left. eauto. Qed.

Lemma on_bus_write a v : on_bus (WriteHolding a v).
Proof. intros w r w' E. apply rtc_once. right. eauto. Qed.

Hint Resolve on_bus_ret on_bus_get on_bus_read on_bus_write : go.

Ltac on_bus_step := repeat first
  [ progress (auto with go) | apply on_bus_bind; [|intros ?] | apply on_bus_get | case_match ].

Lemma readOne_on_bus a : on_bus (readOne a).
Proof. unfold readOne. on_bus_step. Qed.
Hint Resolve readOne_on_bus : go.

Lemma Guard_on_bus a v : on_bus (Guard a v).
Proof. unfold Guard. on_bus_step. Qed.
Hint Resolve Guard_on_bus : go.

Lemma writeRegisters_on_bus regs : on_bus (writeRegisters regs).
Proof. induction regs as [|r regs IH]; cbn [writeRegisters]; unfold guardRetry; on_bus_step. Qed.
Hint Resolve writeRegisters_on_bus : go.

Lemma guardOne_on_bus a v : on_bus (guardOne a v).
Proof. unfold guardOne. on_bus_step. Qed.

Lemma writeBoostSlot_on_bus slot : on_bus (writeBoostSlot slot).
Proof. unfold writeBoostSlot. on_bus_step. Qed.

Lemma SyncRTC_on_bus : on_bus SyncRTC.
Proof. unfold SyncRTC, syncRTCTo. on_bus_step. Qed.

Lemma Reconcile_on_bus h slots : on_bus (Reconcile h slots).
Proof. unfold Reconcile. on_bus_step. Qed.

Lemma peeked_on_bus w w1 : peeked w w1 → rtc bus_call w w1.
Proof. intros [->|(r & E)]; [done|by eapply readOne_on_bus]. Qed.

(** How a command runs: [w1] is the state in which it looks at the clock. *)
Definition carries_out (tou_ : TimedWindow) (a : bool) (i : option Intent) (m : State W (option bool))
    (w : W) : Prop :=
  ∃ w1 w', m w = (Some (bool_decide (is_Some i)), w') ∧ healthy w' ∧ peeked w w1 ∧ rtc bus_call w1 w' ∧
    becomes (match i with Some i => tell tou_ a (Now w1) i (panel_of (holding w))
             | None => panel_of (holding w) end) w w'.

Lemma carries_out_none t a w : healthy w → carries_out t a None (mret (Some false)) w.
Proof. intros Hw. exists w, w. split; [done|]. split; [done|]. split; [by left|]. split; [done|]. by apply becomes_same. Qed.

Lemma parsed_current payload k : tenths_of payload = Some k → 0 ≤ k ≤ 625.
Proof.
  unfold tenths_of. destruct (ParseFloat _) as [x|] eqn:E; [|done].
  destruct (IsNaN x || IsInf x) eqn:En; [done|]. intros [= <-].
  apply orb_false_iff in En as [En _]. apply clamp_encode_range; [by eapply ParseFloat_ok|done].
Qed.

(** Tenths are read exactly: any spelling of the number k/10 asks for k. *)
Lemma tenths_of_decoded payload k : 0 ≤ k ≤ 625 → ParseFloat (TrimSpace payload) = Ok (DecodeAmps k) →
  tenths_of payload = Some k.
Proof.
  intros Hk E. unfold tenths_of. rewrite E.
  pose proof (DecodeAmps_finite k ltac:(int_solve)) as [-> ->]. cbn [orb]. f_equal.
  rewrite clamp_decoded by done. apply EncodeAmps_DecodeAmps. int_solve.
Qed.

Lemma guarded_word w a v : healthy w → is_uint16 v → a ∈ [43110; 43141; 43142] →
  ∃ w', guardOne a v w = (tt, w') ∧ healthy w' ∧
    becomes (panel_of (write_regs (holding w) [ {| Addr := a; Value := v |} ])) w w'.
Proof.
  intros Hw Hv Ha. assert (is_uint16 a ∧ a ∈ panel_addrs) as [Hu Hp].
  { unfold panel_addrs. rewrite !elem_of_cons, elem_of_nil in Ha.
    destruct Ha as [-> |[-> |[-> | []]]]; (split; [done|]); apply (bool_decide_unpack _); vm_compute; exact I. }
  destruct (guardOne_healthy a v w Hw Hu Hv) as (w' & E & Hw' & Hh).
  exists w'. split; [done|]. split; [done|].
  apply (becomes_written [ {| Addr := a; Value := v |} ]); [done|by apply Forall_singleton|done].
Qed.

Lemma setCurrent_carries t a addr mk payload w : healthy w →
  (addr = RegTimedChargeCurrent ∧ mk = ChargeAt ∨ addr = RegTimedDischargeCurrent ∧ mk = DischargeAt) →
  carries_out t a (mk <$> tenths_of payload) (setCurrent addr payload) w.
Proof.
  intros Hw Ha. unfold setCurrent. destruct (tenths_of payload) as [k|] eqn:Ek.
  - pose proof (parsed_current _ _ Ek) as Hk. unfold tenths_of in Ek.
    destruct (ParseFloat _) as [x|]; [|done]. destruct (IsNaN x || IsInf x); [done|].
    injection Ek as Ek. rewrite Ek.
    destruct (guarded_word w addr k Hw ltac:(int_solve)) as (w' & E & Hw' & Hb).
    { destruct Ha as [[-> _]|[-> _]]; apply (bool_decide_unpack _); vm_compute; exact I. }
    exists w, w'. assert (rtc bus_call w w') as Hrun by (by eapply guardOne_on_bus).
    rewrite (state_bind_step _ _ _ _ _ E). split; [by destruct mk|].
    split; [done|]. split; [by left|]. split; [done|].
    destruct Ha as [[-> ->]|[-> ->]].
    + change RegTimedChargeCurrent with 43141 in Hb. rewrite panel_of_word in Hb by lia. exact Hb.
    + change RegTimedDischargeCurrent with 43142 in Hb. rewrite panel_of_word in Hb by lia. exact Hb.
  - unfold tenths_of in Ek. destruct (ParseFloat _) as [x|]; [|by apply carries_out_none].
    destruct (IsNaN x || IsInf x); [by apply carries_out_none|done].
Qed.

Lemma income_word v on : is_uint16 v →
  Encode (WithTimed (DecodeWorkMode v) on) = (if on then Z.setbit else Z.clearbit) v 1.
Proof.
  intros Hv. destruct (work_mode_facts v on Hv) as (_ & _ & Ht & Hb).
  rewrite timed_bit in Ht. apply Z.bits_inj'. intros n Hn.
  destruct (Z.eq_dec n 1) as [->|Hne].
  - rewrite Ht. destruct on; [by rewrite Z.setbit_eq|by rewrite Z.clearbit_eq].
  - rewrite Hb by done.
    destruct on; [rewrite Z.setbit_neq by lia|rewrite Z.clearbit_neq by lia]; done.
Qed.

Lemma setOptimalIncome_carries t a payload w : healthy w →
  carries_out t a (Income <$> parseRunStop payload) (setOptimalIncome payload) w.
Proof.
  intros Hw. unfold setOptimalIncome. destruct (parseRunStop payload) as [on|]; [|by apply carries_out_none].
  destruct (readOne_healthy RegWorkMode w ltac:(done) Hw) as (w1 & E1 & Hw1).
  destruct (readOne_spec _ _ _ _ E1) as ([Uh _] & _).
  set (v := holding w RegWorkMode) in *.
  destruct (work_mode_facts v on (bus_words w _)) as (_ & Hu & _).
  destruct (guarded_word w1 RegWorkMode _ Hw1 Hu) as (w' & E & Hw' & Hb); [by left|].
  assert (rtc bus_call w w') as Hrun.
  { etransitivity; [by eapply readOne_on_bus|].
    by eapply guardOne_on_bus. }
  exists w, w'. rewrite (state_bind_step _ _ _ _ _ E1). cbv zeta. rewrite (state_bind_step _ _ _ _ _ E).
  split; [done|]. split; [done|]. split; [by left|]. split; [done|].
  apply (becomes_after _ w w1 w' Uh). change RegWorkMode with 43110 in Hb.
  rewrite panel_of_word, income_word in Hb by (exact (bus_words w 43110) || lia).
  destruct Hb as [Hb Hf]. split; [|exact Hf]. rewrite Hb. unfold tell, panel_of, bank_words.
  cbn [fmap option_fmap option_map PCharge PDischarge PMode PSlots PClock]. cbn [Z.eqb Pos.eqb].
  rewrite !Uh, (slots_at_ext _ _ Uh). f_equal. apply list_fmap_ext. intros i x _. apply Uh.
Qed.

Lemma boost_regs_addrs slot : Forall (λ r, Addr r ∈ panel_addrs) (slot_regs 2 slot).
Proof.
  apply Forall_forall. intros x Hx. apply (list_elem_of_fmap_2 Addr) in Hx.
  apply (expansion_range 2 slot _ _ (slot_regs_eq 2 slot ltac:(lia))) in Hx.
  unfold panel_addrs. rewrite !elem_of_app, !elem_of_seqZ. lia.
Qed.

Lemma writeBoostSlot_becomes slot w : healthy w → Slot_wf slot →
  ∃ w', writeBoostSlot slot w = (Some true, w') ∧ healthy w' ∧
    becomes (with_boost slot (panel_of (holding w))) w w'.
Proof.
  intros Hw Hs.
  destruct (writeRegisters_healthy (slot_regs 2 slot) w Hw) as (w' & E & Hw' & _ & _ & Hh).
  { apply (addr_reg_range 43163 43170); [lia..|]. intros x Hx.
    apply (slot_regs_values 2 slot) in Hx; [lia|lia|done]. }
  { apply slot_regs_word; [lia|done]. }
  { apply slot_regs_NoDup. lia. }
  exists w'. unfold writeBoostSlot, boostSlot. rewrite slot_regs_eq by lia.
  rewrite (state_bind_step _ _ _ _ _ E). split; [done|]. split; [done|].
  eapply becomes_written; [exact Hh|apply boost_regs_addrs|apply panel_of_boost].
Qed.

(** The planner grants exactly the windows of the specification. *)
Lemma PlanBoost_window mode minutes now tou_ a : Window_wf tou_ →
  mode = Charge ∨ mode = Discharge → minutes ∈ boostDurations →
  match PlanBoost mode minutes now tou_ a with Ok slot => Some slot | Err _ => None end
  = boost_slot mode <$> boost_window tou_ a minutes (minuteOf now).
Proof.
  intros Ht Hm Hin. destruct (boostDurations_spec _ Hin) as [Hmin Hmod].
  pose proof (minuteOf_range now) as Hr.
  unfold boost_window. cbv zeta.
  destruct (PlanBoost_cases mode minutes now tou_ a Hm Hmin Hmod Ht) as
    [(Hs & ctx & ->)|[(Hs & -> & (m & Hmm & Hi) & ctx & ->)|(Hs & Hn & w & -> & Hw & H1 & H2)]].
  - by rewrite (proj2 (Z.leb_le _ _)).
  - rewrite (proj2 (Z.leb_gt _ _)) by done.
    assert (existsb (in_window tou_) (seqZ (minuteOf now)
      (minuteOf now - minuteOf now mod 15 + minutes - minuteOf now)) = true) as ->; [|done].
    apply existsb_exists. exists m. split; [|done]. apply list_elem_of_In, elem_of_seqZ. lia.
  - rewrite (proj2 (Z.leb_gt _ _)) by done.
    assert (a && existsb (in_window tou_) (seqZ (minuteOf now)
      (minuteOf now - minuteOf now mod 15 + minutes - minuteOf now)) = false) as ->.
    { destruct a; [|done]. cbn [andb]. apply not_true_is_false. intros (m & Hx & Hi)%existsb_exists.
      apply list_elem_of_In, elem_of_seqZ in Hx.
      rewrite (Hn eq_refl m) in Hi; [done|lia]. }
    cbn [fmap option_fmap option_map]. do 2 f_equal. destruct w as [ws we]. destruct Hw as [Hws Hwe].
    cbn [Start End_] in *.
    destruct (clockAt_wf (minuteOf now) Hr) as [W1 M1].
    destruct (clockAt_wf (minuteOf now - minuteOf now mod 15 + minutes)) as [W2 M2].
    { split; [|done]. pose proof (Z.mod_le (minuteOf now) 15 (proj1 Hr) eq_refl). clear - Hmin H. lia. }
    f_equal; apply minuteOfDay_inj; congruence || done.
Qed.

Lemma boost_window_wf mode minutes now tou_ a w : Window_wf tou_ → mode = Charge ∨ mode = Discharge →
  minutes ∈ boostDurations → boost_window tou_ a minutes (minuteOf now) = Some w → Slot_wf (boost_slot mode w).
Proof.
  intros Ht Hm Hin Hb. pose proof (PlanBoost_window mode minutes now tou_ a Ht Hm Hin) as H.
  rewrite Hb in H. destruct (PlanBoost mode minutes now tou_ a) as [slot|e] eqn:E; [|done].
  injection H as ->. by apply (PlanBoost_wf _ _ _ _ _ _ Ht E).
Qed.

Lemma setBoost_carries h payload w : healthy w → Handler_wf h →
  carries_out (tou h) (assertToU h) (boost_of payload) (setBoost h payload) w.
Proof.
  intros Hw Hwf. unfold setBoost, boost_of.
  destruct (ParseBoostOption payload) as [[mode minutes]|] eqn:Ep; [|by apply carries_out_none].
  cbn [mbind option_bind]. destruct (decide (mode = Off)) as [|Hoff].
  { destruct (writeBoostSlot_becomes Slot0 w Hw ltac:(apply Slot0_wf)) as (w' & E & Hw' & Hb).
    exists w, w'. split; [exact E|]. split; [done|]. split; [by left|].
    split; [by eapply writeBoostSlot_on_bus|exact Hb]. }
  assert ((mode = Charge ∨ mode = Discharge) ∧ minutes ∈ boostDurations) as [Hm Hin].
  { unfold ParseBoostOption in Ep. case_decide; [congruence|].
    apply find_some in Ep as [Hx _]. by apply list_elem_of_In, boost_candidates_spec in Hx. }
  destruct (readOne_healthy RegWorkMode w ltac:(done) Hw) as (w1 & E1 & Hw1).
  destruct (readOne_spec _ _ _ _ E1) as ([Uh _] & _).
  pose proof (PlanBoost_window mode minutes (Now w1) (tou h) (assertToU h) Hwf Hm Hin) as Hplan.
  assert (peeked w w1) as Hp by (right; by eexists).
  exists w1. rewrite (state_bind_step _ _ _ _ _ E1). rewrite timed_bit.
  cbn [tell bool_decide is_Some_dec]. change (PMode (panel_of (holding w))) with (holding w RegWorkMode).
  destruct (Z.testbit (holding w RegWorkMode) 1); cbn [negb].
  2: { exists w1. split; [done|]. split; [done|]. split; [done|]. split; [done|]. by apply becomes_same. }
  change (((λ w0, (Now w0, w0)) : State W Time) w1) with (Now w1, w1).
  unfold mbind at 1, state_bind at 1. cbv beta iota.
  destruct (PlanBoost mode minutes (Now w1) (tou h) (assertToU h)) as [slot|e].
  - destruct (boost_window _ _ _ _) as [win|] eqn:Ew; [|done]. injection Hplan as ->.
    destruct (writeBoostSlot_becomes (boost_slot mode win) w1 Hw1) as (w' & E & Hw' & Hb).
    { by eapply boost_window_wf. }
    exists w'. split; [exact E|]. split; [done|]. split; [done|].
    split; [by eapply writeBoostSlot_on_bus|]. apply (becomes_after _ w w1 w' Uh). by rewrite <- (panel_of_ext _ _ Uh).
  - destruct (boost_window _ _ _ _); [done|].
    exists w1. split; [done|]. split; [done|]. split; [done|]. split; [done|]. by apply becomes_same.
Qed.

(** Setting the clock, from a command or from a poll. *)
Lemma SyncRTC_becomes w : healthy w → ∃ wrote w', SyncRTC w = ((wrote, None), w') ∧ healthy w' ∧
  becomes (with_clock (EncodeRTC (Now w)) (panel_of (holding w))) w w'.
Proof.
  intros Hw.
  assert (∀ r, r ∈ RTCWriteRegisters (Now w) → 43000 ≤ Addr r ≤ 43005) as Hr
    by (apply Forall_forall, RTC_regs_range).
  destruct (writeRegisters_healthy (RTCWriteRegisters (Now w)) w Hw) as (w' & E & Hw' & _ & _ & Hh).
  { by apply (addr_reg_range 43000 43005). }
  { apply Forall_forall, RTCWriteRegisters_uint16. }
  { apply RTCWriteRegisters_NoDup. }
  eexists _, w'. split; [exact E|]. split; [done|].
  eapply becomes_written; [exact Hh| |apply panel_of_clock].
  apply Forall_forall. intros x Hx. specialize (Hr x Hx).
  unfold panel_addrs. rewrite !elem_of_app, !elem_of_seqZ. lia.
Qed.

Lemma syncRTC_carries t a w : healthy w → carries_out t a (Some SetClock) syncRTC w.
Proof.
  intros Hw. destruct (SyncRTC_becomes w Hw) as (wrote & w' & E & Hw' & Hb).
  exists w, w'. unfold syncRTC. rewrite (state_bind_step _ _ _ _ _ E).
  split; [done|]. split; [done|]. split; [by left|]. split; [by eapply SyncRTC_on_bus|exact Hb].
Qed.

Lemma route_carries h key payload w : healthy w → Handler_wf h →
  carries_out (tou h) (assertToU h) (intent key payload) (route h key payload) w.
Proof.
  intros Hw Hwf. unfold route, intent, intents. cbn [List.find].
  repeat (case_decide; [rewrite bool_decide_eq_true_2 by done; cbn [mbind option_bind snd]
                       |rewrite bool_decide_eq_false_2 by done]).
  - apply setCurrent_carries; [done|by left].
  - apply setCurrent_carries; [done|by right].
  - by apply setOptimalIncome_carries.
  - by apply setBoost_carries.
  - by apply syncRTC_carries.
  - by apply carries_out_none.
Qed.
End Bus.

(** ** Histories of the panel *)

Section Histories.
Context `{tz : TimeZone} `{conv : FloatToUint16}.
Context (tou_ : TimedWindow) (a : bool).

(** What happened, with the instants at which the manager looked at the clock. *)
Inductive Told : Type :=
| Said (topic payload : string) (at_ : Time)
| Polled (at_ : Time) (set : option Time).

Definition asked (topic payload : string) : option Intent :=
  key ← commandKey topic; intent key payload.

Definition follow (p : Panel) (t : Told) : Panel :=
  match t with
  | Said topic payload now => match asked topic payload with Some i => tell tou_ a now i p | None => p end
  | Polled now set => settle tou_ a now set p
  end.

(** A boost that is asked for is one of the options of the select. *)
Lemma asked_boost topic payload mode minutes : asked topic payload = Some (BoostFor mode minutes) →
  (mode = Charge ∨ mode = Discharge) ∧ minutes ∈ boostDurations.
Proof.
  unfold asked. destruct (commandKey topic) as [key|]; [|done]. cbn [mbind option_bind].
  unfold intent, intents. cbn [List.find].
  repeat (destruct (bool_decide (key = _)); cbn [mbind option_bind snd]).
  - by destruct (tenths_of payload).
  - by destruct (tenths_of payload).
  - by destruct (parseRunStop payload).
  - unfold boost_of. destruct (ParseBoostOption payload) as [[mo mi]|] eqn:E; [|done].
    cbn [mbind option_bind]. case_decide; [done|]. intros [= -> ->].
    unfold ParseBoostOption in E. case_decide; [congruence|].
    apply find_some in E as [Hx _]. by apply list_elem_of_In, boost_candidates_spec in Hx.
  - done.
  - done.
Qed.

Lemma boost_window_minutes minutes now w : minutes ∈ boostDurations →
  boost_window tou_ a minutes (minuteOf now) = Some w →
  let start := minuteOf now in let stop := start - start mod 15 + minutes in
  Window_wf w ∧ minuteOfDay (Start w) = start ∧ minuteOfDay (End_ w) = stop ∧ start < stop.
Proof.
  intros Hin. destruct (boostDurations_spec _ Hin) as [Hmin Hmod]. unfold boost_window. cbv zeta.
  pose proof (minuteOf_range now) as Hr. set (start := minuteOf now) in *.
  assert (start < start - start mod 15 + minutes) by (clear - Hmin Hmod Hr; Z.div_mod_to_equations; lia).
  set (stop := start - start mod 15 + minutes) in *.
  destruct (Z.leb_spec 1440 stop); [done|]. destruct (_ && _); [done|]. intros [= <-]. cbn [Start End_].
  destruct (clockAt_wf start ltac:(lia)) as [W1 M1], (clockAt_wf stop ltac:(lia)) as [W2 M2]. done.
Qed.

Definition about_boost (i : option Intent) : bool :=
  match i with Some (NoBoost | BoostFor _ _) => true | _ => false end.

(** Not a word about the boost, and every poll within the minutes [start, stop). *)
Definition undisturbed (t : Told) : bool :=
  match t with Said topic payload _ => negb (about_boost (asked topic payload)) | Polled _ _ => true end.
Definition within (start stop : Z) (t : Told) : bool :=
  match t with
  | Said _ _ _ => true
  | Polled now _ => (start <=? minuteOf now) && (minuteOf now <? stop)
  end.

Lemma follow_boost p t : undisturbed t = true →
  PBoost (follow p t) = match t with Said _ _ _ => PBoost p | Polled now _ => running (PBoost p) now end.
Proof.
  destruct t as [topic payload now|now set]; cbn [undisturbed follow].
  - destruct (asked topic payload) as [[k|k|on| |mode minutes|]|]; cbn; try done.
  - intros _. unfold settle, PBoost, with_slots, Desired. cbn [PSlots].
    by destruct (a && negb (IsZero tou_)), (ToUSlots tou_), set.
Qed.

Lemma running_Slot0 now : running Slot0 now = Slot0.
Proof. reflexivity. Qed.

(** A boost lasts while every poll falls within its minutes; the first poll that does
    not clears it for good. *)
Lemma boost_history mode w p ts : Window_wf w → minuteOfDay (Start w) < minuteOfDay (End_ w) →
  PBoost p = boost_slot mode w → Forall (λ t, undisturbed t = true) ts →
  PBoost (foldl follow p ts) =
    if forallb (within (minuteOfDay (Start w)) (minuteOfDay (End_ w))) ts then boost_slot mode w else Slot0.
Proof.
  intros Hw Hlt Hp Hts.
  assert (∀ p ts, PBoost p = Slot0 → Forall (λ t, undisturbed t = true) ts → PBoost (foldl follow p ts) = Slot0)
    as Hgone.
  { clear. intros p ts. revert p. induction ts as [|t ts IH]; intros p Hp Hts; [done|].
    apply Forall_cons in Hts as [Ht Hts]. cbn [foldl]. apply IH; [|done].
    rewrite follow_boost by done. destruct t; [done|]. by rewrite Hp, running_Slot0. }
  revert p Hp Hts. induction ts as [|t ts IH]; intros p Hp Hts; [done|].
  apply Forall_cons in Hts as [Ht Hts]. cbn [foldl forallb].
  pose proof (follow_boost p t Ht) as Hf. rewrite Hp in Hf.
  destruct t as [topic payload now|now set]; cbn [within andb]; [by apply IH|].
  rewrite running_boost_slot, boost_window_live in Hf by done.
  destruct (bool_decide_reflect (minuteOfDay (Start w) ≤ minuteOf now < minuteOfDay (End_ w))) as [[H1 H2]|Hout].
  - rewrite (proj2 (Z.leb_le _ _) H1), (proj2 (Z.ltb_lt _ _) H2). by apply IH.
  - rewrite Hgone; [|by rewrite Hf; unfold boost_slot; case_decide|done].
    destruct (Z.leb_spec (minuteOfDay (Start w)) (minuteOf now)), (Z.ltb_spec (minuteOf now) (minuteOfDay (End_ w)));
      [lia|done..].
Qed.
End Histories.

(** ** Properties *)

(** C4: Every command does what the panel says, on any healthy bus: a message that is
    understood changes exactly the control it names (a current, the optimal income
    bit, the boost, the clock), a boost that crosses midnight or meets the tariff or
    finds the optimal income off changes nothing, as does a message that is not
    understood; no other register changes. *)
Theorem commands_refine_panel {W} `{rw : HoldingReadWriter W} `{laws : !BusLaws W} `{hb : !HealthyBus W}
    `{clk : Clock_ W} `{tz : TimeZone} `{conv : FloatToUint16}
    (h : Handler (W := W)) (topic payload : string) (w : W) :
  healthy w → enabled h = true → Window_wf (tou h) → refresh h = None →
  ∃ w1 w', OnMessage h topic payload w = (tt, w') ∧ healthy w' ∧ peeked w w1 ∧
    becomes (match asked topic payload with
             | Some i => tell (tou h) (assertToU h) (Now w1) i (panel_of (holding w))
             | None => panel_of (holding w)
             end) w w'.
Proof.
  intros Hw He Hwf Hr. unfold OnMessage, asked.
  destruct (commandKey topic) as [key|]; cbn [mbind option_bind].
  - destruct (route_carries h key payload w Hw Hwf) as (w1 & w' & E & Hw' & Hp & _ & Hb).
    exists w1, w'. rewrite He. cbn [negb]. rewrite (state_bind_step _ _ _ _ _ E), Hr.
    by destruct (bool_decide _).
  - exists w, w. split; [done|]. split; [done|]. split; [by left|]. by apply becomes_same.
Qed.

Lemma commands_refine_panel_witness :
  let _ : TimeZone := dst_zone in
  let d := device [] in
  ∃ w', OnMessage (conv := demo_conv) demo_handler "solis/boost_select/set" "Discharge 45 min" d = (tt, w') ∧
    panel_of (holding w') = tell (tou demo_handler) true (clock d) (BoostFor Discharge 45) (panel_of (holding d)) ∧
    PBoost (panel_of (holding w')) ≠ PBoost (panel_of (holding d)).
Proof.
  intros tz d.
  destruct (commands_refine_panel (conv := demo_conv) demo_handler "solis/boost_select/set" "Discharge 45 min" d
    demo_healthy eq_refl demo_tou_wf eq_refl) as (w1 & w' & E & _ & Hp & Hb & _).
  assert (Now w1 = clock d) as Ht by (destruct Hp as [-> |(r & [= _ <-])]; reflexivity).
  exists w'. split; [exact E|]. rewrite Hb, Ht. split; [reflexivity|]. vm_compute. discriminate.
Defined.
