(* ===== verification/PanelRuns.v ===== *)
(** * The manager as a panel over time

    On a healthy outside every run of the assembled manager, polls and messages in
    any order, is a history of the panel of [Panel]: the inverter ends as the pure
    specification says, at instants that follow one another on a clock that is not
    set back.  From it, the life of a boost. *)

From Stdlib Require Import Ascii.
From S2P Require Import Prelude GoInt GoString GoTime GoFloat Block Registers TimedSlots Rtc Telemetry Schedule.
From S2P Require Import Sidecar Json HomeAssistant Server Publisher Controls ControlsSafety SafeRuns Scheduler.
From S2P Require Import Cmd CmdSafety HealthyRuns Panel.

(** ** A clock that is not set back *)

(** Readings of one clock: the same zone, and not earlier. *)
Definition later (t t' : Time) : Prop :=
  unixNano t ≤ unixNano t' ∧ GoTime.location t = GoTime.location t'.

#[export] Instance later_preorder : PreOrder later.
Proof.
  split; [by split|]. intros t t1 t2 [H1 L1] [H2 L2]. split; [lia|congruence].
Qed.

Class SteadyClock (B : Type) `{HoldingReadWriter B} `{RegisterReader B} `{Publisher B} `{Clock_ B} : Prop := {
  read_steady a n (b : B) r b' : ReadHolding a n b = (r, b') → later (Now b) (Now b');
  write_steady a v (b : B) r b' : WriteHolding a v b = (r, b') → later (Now b) (Now b');
  input_steady a n (b : B) r b' : ReadInput a n b = (r, b') → later (Now b) (Now b');
  publish_steady cx t p f (b : B) r b' : Publish cx t p f b = (r, b') → later (Now b) (Now b');
}.

(** The instants [l], in order, from [lo] to [hi]. *)
Fixpoint in_order (lo : Time) (l : list Time) (hi : Time) : Prop :=
  match l with [] => later lo hi | t :: l => later lo t ∧ in_order t l hi end.

Lemma in_order_later lo lo' l hi hi' : later lo lo' → in_order lo' l hi → later hi hi' → in_order lo l hi'.
Proof.
  revert lo lo'. induction l as [|t l IH]; intros lo lo' H1 H2 H3; cbn in *.
  - transitivity lo'; [done|by transitivity hi].
  - destruct H2 as [H2 Hl]. split; [by transitivity lo'|by eapply IH].
Qed.

Lemma in_order_app lo l1 mid l2 hi : in_order lo l1 mid → in_order mid l2 hi → in_order lo (l1 ++ l2) hi.
Proof.
  revert lo. induction l1 as [|t l1 IH]; intros lo; cbn.
  - intros H. destruct l2 as [|t l2]; cbn; [by transitivity mid|].
    intros [H1 H2]. split; [by transitivity mid|done].
  - intros [H1 H2] H. split; [done|by apply IH].
Qed.

(** A clock that stands still shows one time. *)
Lemma in_order_still t l : in_order t l t → Forall (λ x, x = t) l.
Proof.
  assert (∀ l lo hi, in_order lo l hi → later lo hi) as Hle.
  { clear. induction l as [|x l IH]; intros lo hi; cbn; [done|]. intros [H1 H2]. transitivity x; [done|by apply IH]. }
  revert l. assert (∀ l lo, later t lo → in_order lo l t → Forall (λ x, x = t) l) as H; [|by intros l; apply H].
  induction l as [|x l IH]; intros lo Hlo; cbn; [constructor|]. intros [H1 H2].
  assert (later t x) as Hx by (by transitivity lo). constructor; [|by apply (IH x)].
  apply Hle in H2. destruct Hx as [Hx1 Hx2], H2 as [H2 _], x, t. cbn in *. f_equal; [lia|done].
Qed.

(** Events of the scheduler and what is told of them. *)
Definition matches (sync : bool) (e : event) (t : Told) : Prop :=
  match e, t with
  | Tick, Polled _ set => is_Some set → sync = true
  | Inbound topic payload, Said topic' payload' _ => topic' = topic ∧ payload' = payload
  | _, _ => False
  end.

Definition stamps (t : Told) : list Time :=
  match t with Said _ _ now => [now] | Polled now set => option_list set ++ [now] end.

Section Runs.
Context {B : Type} `{rw : HoldingReadWriter B} `{laws : !BusLaws B} `{hb : !HealthyBus B}.
Context `{input : RegisterReader B} `{pub : Publisher B} `{ctx : Context_ B} `{out : !OutsideLaws B}.
Context `{ho : !HealthyOutside B}.
Context `{clk : Clock_ B} `{steady : !SteadyClock B} `{tz : TimeZone} `{conv : FloatToUint16}.
Context (sprint : json → string).

(** *** Steps take time *)

Definition elapses {A} (m : State (World B) A) : Prop :=
  ∀ w r w', m w = (r, w') → later (Now w) (Now w').

Lemma elapses_ret {A} (a : A) : elapses (mret a).
Proof. intros w r w' H. by injection H as _ <-. Qed.

Lemma elapses_get {A} (f : World B → A) : elapses (λ w, (f w, w)).
Proof. intros w r w' H. by injection H as _ <-. Qed.

Lemma elapses_inside {A} (m : State (World B) A) : (∀ w, outside (m w).2 = outside w) → elapses m.
Proof.
  intros Hm w r w' H. specialize (Hm w). rewrite H in Hm. cbn [snd] in Hm.
  unfold Now, World_clock. by rewrite Hm.
Qed.

Lemma elapses_bind {A C} (m : State (World B) A) (f : A → State (World B) C) :
  elapses m → (∀ a, elapses (f a)) → elapses (m ≫= f).
Proof.
  intros Hm Hf w r w' (a & w1 & E1 & E2)%state_bind_inv.
  apply Hm in E1. apply Hf in E2. by transitivity (Now w1).
Qed.

Lemma elapses_read a n : elapses (ReadHolding a n).
Proof. intros w r w' [E ->]%lift_inv. by apply read_steady in E. Qed.

Lemma elapses_write a v : elapses (WriteHolding a v).
Proof. intros w r w' [E ->]%lift_inv. by apply write_steady in E. Qed.

Lemma elapses_input a n : elapses (ReadInput a n).
Proof. intros w r w' [E ->]%lift_inv. by apply input_steady in E. Qed.

Lemma elapses_publish cx t p f : elapses (Publish cx t p f).
Proof. intros w r w' [E ->]%lift_inv. by apply publish_steady in E. Qed.

Hint Resolve elapses_ret elapses_get elapses_read elapses_write elapses_input elapses_publish : go.

Ltac elapses_step := repeat first
  [ progress (auto with go)
  | apply elapses_bind; [|intros ?]
  | apply elapses_get
  | case_match ].

Lemma bus_elapses (w w' : World B) : relations.rtc bus_call w w' → later (Now w) (Now w').
Proof.
  induction 1 as [w|w w1 w' [(a & n & r & E)|(a & v & r & E)] _ IH]; [done|..].
  - apply elapses_read in E. by transitivity (Now w1).
  - apply elapses_write in E. by transitivity (Now w1).
Qed.

Lemma newStateReader_elapses : elapses newStateReader.
Proof.
  unfold newStateReader. apply elapses_bind.
  { unfold Collect. intros w r w' H.
    destruct (ReadInput block1Base block1Count w) as [r1 w1] eqn:E1. apply elapses_input in E1.
    destruct r1 as [l|e]; [|by injection H as _ <-].
    destruct (ReadInput block2Base block2Count w1) as [r2 w2] eqn:E2. apply elapses_input in E2.
    destruct r2; injection H as _ <-; by transitivity (Now w1). }
  intros t. unfold ReadSetpoints, markStale, markFresh. elapses_step; by apply elapses_inside.
Qed.

Lemma statePublisher_elapses svc cx tel sp : elapses (statePublisher sprint svc cx tel sp).
Proof.
  unfold statePublisher, PublishState, record. elapses_step; by apply elapses_inside.
Qed.


(** *** A message and a poll, on the panel *)

Section Assembled.
Context (c : ServeConfig) (window : TimedWindow) (assert_ : bool).
Context (Hwin : Window_wf window) (Hctl : ControlsEnabled (haCfg c) = true).
Let s := scheduler_of sprint c window assert_.
Let sync := RTCSyncEnabled (schedCfg c).

(** The run that [ts] tells. *)
Definition told (ts : list Told) (w w' : World B) : Prop :=
  healthy w' ∧ Slots_wf (slots_at (holding w')) ∧
  becomes (foldl (follow window assert_) (panel_of (holding w)) ts) w w' ∧
  in_order (Now w) (ts ≫= stamps) (Now w').

Lemma refresh_elapses cx : elapses (refreshState sprint (haCfg c) cx).
Proof.
  unfold refreshState. apply elapses_bind; [apply newStateReader_elapses|]. intros [[tel sp]|e]; [|auto with go].
  apply elapses_bind; [apply statePublisher_elapses|]. intros _. by apply elapses_inside.
Qed.

Lemma becomes_ext p (w w1 w' : World B) : (∀ a, holding w' a = holding w1 a) → becomes p w w1 → becomes p w w'.
Proof.
  intros H [Hp Hf]. split; [by rewrite (panel_of_ext _ _ H)|]. intros a Ha. by rewrite H, Hf.
Qed.

Lemma refresh_healthy cx (w : World B) u w' : healthy w → Slots_wf (slots_at (holding w)) →
  refreshState sprint (haCfg c) cx w = (u, w') → healthy w'.
Proof.
  intros Hw Hs H.
  destruct (newStateReader_healthy w Hw Hs) as (now & w1 & E1 & Hw1 & ([[U1 _] _] & _ & _) & _).
  destruct (statePublisher_healthy sprint (haCfg c) cx (inputs (outside w)) (setpoints_of (holding w) now) w1)
    as (w2 & E2 & Hw2 & _); [exact Hw1|apply inputs_words| |].
  { apply setpoints_of_num, bus_words. }
  unfold refreshState in H. rewrite (state_bind_step _ _ _ _ _ E1) in H. cbv beta iota in H.
  rewrite (state_bind_step _ _ w1 None w2 E2) in H. injection H as _ <-. exact Hw2.
Qed.

Lemma command_told topic payload (w : World B) : healthy w → Slots_wf (slots_at (holding w)) →
  ∃ now w', ApplyCommand s topic payload w = (tt, w') ∧ told [Said topic payload now] w w'.
Proof.
  intros Hw Hs. set (h := handler sprint c window assert_).
  assert (∀ w', ApplyCommand s topic payload w = (tt, w') ↔ OnMessage h topic payload w = (tt, w')) as Happly.
  { intros w'. unfold ApplyCommand. cbn [s scheduler_of Scheduler.New commander]. by rewrite Hctl. }
  setoid_rewrite Happly. unfold OnMessage, told. cbn [foldl follow mbind list_bind app stamps asked].
  unfold asked. destruct (commandKey topic) as [key|]; cbn [mbind option_bind].
  2: { exists (Now w), w. split; [done|]. split; [done|]. split; [done|].
       split; [by apply becomes_same|]. done. }
  change (negb (enabled h)) with false. cbv iota.
  destruct (route_carries h key payload w Hw Hwin) as (w1 & w2 & E & Hw2 & Hp & Hr & Hb).
  assert (Slots_wf (slots_at (holding w2))) as Hs2 by (by eapply (route_stays h)).
  apply peeked_on_bus, bus_elapses in Hp. apply bus_elapses in Hr.
  rewrite (state_bind_step _ _ _ _ _ E). change (refresh h) with (Some (refreshState sprint (haCfg c) Background)).
  exists (Now w1). destruct (intent key payload) as [i|]; cbn [bool_decide is_Some_dec].
  - destruct (refreshState sprint (haCfg c) Background w2) as [[] w'] eqn:E2. exists w'. split; [done|].
    pose proof (refresh_healthy _ w2 _ w' Hw2 Hs2 E2). pose proof (refresh_elapses _ _ _ _ E2).
    apply refresh_reads in E2 as [[U2 _] _].
    split; [done|]. split; [by rewrite (slots_at_ext _ _ U2)|]. split; [by apply (becomes_ext _ w w2 w')|].
    cbn. split; [done|]. by transitivity (Now w2).
  - exists w2. split; [done|]. split; [done|]. split; [done|]. split; [done|]. done.
Qed.

(** The clock, when it is set. *)
Definition set_panel (set : option Time) (p : Panel) : Panel :=
  match set with Some t => with_clock (EncodeRTC t) p | None => p end.

Lemma maybeSyncRTC_told tel (w : World B) : healthy w → ∃ set w', maybeSyncRTC s tel w = (tt, w') ∧ healthy w' ∧
  stale w' = stale w ∧ becomes (set_panel set (panel_of (holding w))) w w' ∧
  (is_Some set → sync = true) ∧ in_order (Now w) (option_list set) (Now w').
Proof.
  intros Hw. unfold maybeSyncRTC. cbn [s scheduler_of Scheduler.New Scheduler.rtc Scheduler.cfg].
  rewrite Hctl. cbn [RTCSyncEnabled RTCDriftThreshold]. unfold sync.
  assert (stale w = stale w ∧ becomes (panel_of (holding w)) w w ∧ (is_Some (None : option Time) → RTCSyncEnabled (schedCfg c) = true) ∧
    in_order (Now w) [] (Now w)) as Hsame.
  { split; [done|]. split; [by apply becomes_same|]. split; [by intros []|done]. }
  destruct (RTCSyncEnabled (schedCfg c)); cbn [negb]; [|by exists None, w].
  change (((λ w0, (Now w0, w0)) : State (World B) Time) w) with (Now w, w).
  unfold mbind at 1, state_bind at 1. cbv beta iota zeta.
  destruct (abs _ <=? _); [by exists None, w|].
  destruct (SyncRTC_becomes w Hw) as (wrote & w' & E & Hw' & Hb).
  exists (Some (Now w)), w'. rewrite (state_bind_step _ _ _ _ _ E). split; [done|]. split; [done|].
  split; [by eapply SyncRTC_outward|]. split; [exact Hb|]. split; [done|].
  by apply SyncRTC_on_bus, bus_elapses in E.
Qed.

Lemma becomes_slots d (w w' : World B) : slots_at (holding w') = d →
  (∀ a, ¬ (43143 ≤ a ≤ 43170) → holding w' a = holding w a) →
  (∀ a, a ∉ panel_addrs → holding w' a = holding w a) →
  becomes (with_slots d (panel_of (holding w))) w w'.
Proof.
  intros Hd Hf Ho. split; [|done]. unfold panel_of, with_slots. cbn [PCharge PDischarge PMode PClock].
  rewrite !Hf, Hd by lia. f_equal. apply list_fmap_ext. intros i x Hx.
  apply list_elem_of_lookup_2, elem_of_seq in Hx. apply Hf. lia.
Qed.

Lemma schedule_regs_addrs d : Forall (λ r, Addr r ∈ panel_addrs) (schedule_regs d).
Proof.
  assert (∀ i t, 0 ≤ i ≤ 2 → Forall (λ r, Addr r ∈ panel_addrs) (slot_regs i t)) as H.
  { intros i t Hi. apply Forall_forall. intros x Hx. apply (list_elem_of_fmap_2 Addr) in Hx.
    apply (expansion_range i t _ _ (slot_regs_eq i t Hi)) in Hx.
    unfold panel_addrs. rewrite !elem_of_app, !elem_of_seqZ. lia. }
  unfold schedule_regs. rewrite !Forall_app. split_and!; apply H; lia.
Qed.

Lemma maybeReconcile_told (w : World B) : healthy w → stale w = false → Slots_wf (slots_at (holding w)) →
  ∃ w', maybeReconcile s (slots_at (holding w)) w = (tt, w') ∧ healthy w' ∧ later (Now w) (Now w') ∧
    becomes (with_slots (Desired window assert_ (slots_at (holding w)) (Now w)) (panel_of (holding w))) w w'.
Proof.
  intros Hw Hst Hs.
  destruct (maybeReconcile_healthy sprint c window assert_ w Hw Hst Hwin Hs Hctl) as (w' & E & Hw' & Hd & Hf).
  exists w'. split; [exact E|]. split; [done|].
  apply maybeReconcile_run in E as [->|(_ & _ & _ & res & E)].
  { split; [done|]. by apply becomes_slots. }
  split; [by apply Reconcile_on_bus, bus_elapses in E|]. apply becomes_slots; [done..|].
  apply Reconcile_run in E as [->|(wr & err & E & _)]; [done|].
  match type of E with context [schedule_regs ?x] => set (d := x) in * end.
  assert (Slots_wf d) as Hdw by (by apply Desired_wf).
  intros a Ha. eapply writeRegisters_effects with (ok := λ r, Addr r ∈ panel_addrs) in E as (fr & L & _ & _ & Hh & Hok).
  - rewrite Hh. apply write_regs_outside. apply Forall_app in Hok as [_ Hok].
    eapply Forall_impl; [exact Hok|]. cbv beta. by intros x [Hx _] ->.
  - apply Forall_forall. intros x [_ Hr]%list_elem_of_filter.
    by apply (proj1 (Forall_forall _ _) (schedule_regs_addrs d)).
  - apply Forall_forall. intros x [_ Hr]%list_elem_of_filter.
    by apply (proj1 (Forall_forall _ _) (schedule_regs_word d Hdw)).
  - eapply sublist_NoDup; [apply schedule_regs_NoDup|]. apply fmap_sublist, sublist_filter.
Qed.

Lemma poll_told (w : World B) : healthy w → Slots_wf (slots_at (holding w)) →
  ∃ now set w', poll s w = (tt, w') ∧ (is_Some set → sync = true) ∧ told [Polled now set] w w'.
Proof.
  intros Hw Hs.
  destruct (poll_controls sprint c window assert_ w Hw Hs)
    as (read & w1 & w2 & w3 & w4 & E1 & O2 & E3 & O4 & E & Hw4 & U4 & S4 & _).
  apply newStateReader_elapses in E1. apply statePublisher_elapses in E3.
  assert (later (Now w) (Now w4)) as T4.
  { unfold Now, World_clock in *. rewrite O4. rewrite O2 in E3. by transitivity (Now (outside w1)). }
  destruct (maybeSyncRTC_told (reading_of w) w4 Hw4) as (set & w5 & E5 & Hw5 & S5 & [P5 F5] & Hset & T5).
  assert (slots_at (holding w5) = slots_at (holding w)) as Es.
  { rewrite <- (slots_at_ext _ _ U4). apply (f_equal PSlots) in P5. by destruct set. }
  destruct (maybeReconcile_told w5 Hw5 ltac:(congruence) ltac:(by rewrite Es)) as (w' & E6 & Hw6 & T6 & P6 & F6).
  rewrite Es in E6, P6. exists (Now w5), set, w'. fold s in E.
  split; [rewrite E, (state_bind_step _ _ _ _ _ E5); exact E6|].
  split; [done|]. split; [done|]. split.
  { apply (f_equal PSlots) in P6. cbn [with_slots PSlots panel_of] in P6. rewrite P6. by apply Desired_wf. }
  split; [split|].
  - cbn [foldl follow]. rewrite P6, P5, (panel_of_ext _ _ U4). done.
  - intros a Ha. by rewrite F6, F5, U4.
  - cbn [mbind list_bind stamps]. rewrite app_nil_r.
    apply (in_order_app _ _ (Now w5)); [|done].
    destruct set; cbn in T5 |- *; [destruct T5; split; [|done]|]; by transitivity (Now w4).
Qed.

Lemma told_app ts ts' (w w1 w' : World B) : told ts w w1 → told ts' w1 w' → told (ts ++ ts') w w'.
Proof.
  intros (_ & _ & [P F] & O) (Hw & Hs & [P' F'] & O'). split; [done|]. split; [done|]. split; [split|].
  - by rewrite foldl_app, <- P.
  - intros a Ha. by rewrite F', F.
  - rewrite bind_app. by apply (in_order_app _ _ (Now w1)).
Qed.

Lemma events_told es (w : World B) : healthy w → Slots_wf (slots_at (holding w)) →
  ∃ ts w', run_events s es w = (tt, w') ∧ Forall2 (matches sync) es ts ∧ told ts w w'.
Proof.
  revert w. induction es as [|e es IH]; intros w Hw Hs.
  { exists [], w. split; [done|]. split; [done|]. split; [done|]. split; [done|].
    split; [by apply becomes_same|done]. }
  assert (∃ t w1, handle s e w = (tt, w1) ∧ matches sync e t ∧ told [t] w w1) as (t & w1 & E & Hm & Ht).
  { destruct e as [|topic payload]; cbn [handle].
    - destruct (poll_told w Hw Hs) as (now & set & w1 & E & Hset & Ht). by exists (Polled now set), w1.
    - destruct (command_told topic payload w Hw Hs) as (now & w1 & E & Ht).
      by exists (Said topic payload now), w1. }
  destruct (IH w1) as (ts & w' & E' & Hms & Hts); [apply Ht..|].
  exists (t :: ts), w'. cbn [run_events]. rewrite (state_bind_step _ _ _ _ _ E).
  split; [done|]. split; [by constructor|]. by apply (told_app [t] ts w w1).
Qed.
End Assembled.

(** ** Properties *)

(** The manager refines the panel.  On a healthy outside with slots in range, the
    first poll and then any sequence of polls and messages completes, stays healthy and
    leaves the inverter as the pure specification says: each message the panel as told,
    each poll the schedule of its moment, and the clock set only where that is enabled;
    the instants are those of a clock running from start to end, and no other
    register changes. *)
Theorem run_refines_panel (c : ServeConfig) (window : TimedWindow) (assert_ : bool) (es : list event)
    (w : World B) :
  healthy w → Slots_wf (slots_at (holding w)) → Window_wf window → ControlsEnabled (haCfg c) = true →
  ∃ ts w', Run (scheduler_of sprint c window assert_) es w = (tt, w') ∧ healthy w' ∧
    Forall2 (matches (RTCSyncEnabled (schedCfg c))) (Tick :: es) ts ∧
    in_order (Now w) (ts ≫= stamps) (Now w') ∧
    becomes (foldl (follow window assert_) (panel_of (holding w)) ts) w w'.
Proof.
  intros Hw Hs Hwin Hc.
  destruct (events_told c window assert_ Hwin Hc (Tick :: es) w Hw Hs) as (ts & w' & E & Hm & Hw' & _ & Hb & Ho).
  by exists ts, w'.
Qed.

(** C6: The life of a boost.  On a healthy outside with the optimal income on, after a
    boost that is granted and any polls and other commands, the boost slot holds the
    granted window, from the minute of the command to the grid minute it was asked to
    last to, for as long as every poll falls inside it, and is cleared for good by the
    first poll that does not. *)
Theorem boost_lifecycle (c : ServeConfig) (window : TimedWindow) (assert_ : bool) (topic payload : string)
    (mode : Mode) (minutes : Z) (es : list event) (w : World B) :
  healthy w → Slots_wf (slots_at (holding w)) → Window_wf window → ControlsEnabled (haCfg c) = true →
  asked topic payload = Some (BoostFor mode minutes) → Z.testbit (holding w 43110) 1 = true →
  Forall (λ e, match e with Tick => True | Inbound t p => about_boost (asked t p) = false end) es →
  ∃ t0 ts w', run_events (scheduler_of sprint c window assert_) (Inbound topic payload :: es) w = (tt, w') ∧
    Forall2 (matches (RTCSyncEnabled (schedCfg c))) es ts ∧
    in_order (Now w) (t0 :: (ts ≫= stamps)) (Now w') ∧
    let start := minuteOf t0 in let stop := start - start mod 15 + minutes in
    ∀ win, boost_window window assert_ minutes start = Some win →
      minuteOfDay (Start win) = start ∧ minuteOfDay (End_ win) = stop ∧
      slot_at (holding w') 2 = if forallb (within start stop) ts then boost_slot mode win else Slot0.
Proof.
  intros Hw Hs Hwin Hc Ha Hon Hes.
  destruct (command_told c window assert_ Hwin Hc topic payload w Hw Hs) as (t0 & w1 & E1 & T1).
  destruct T1 as (Hw1 & Hs1 & [P1 _] & O1).
  destruct (events_told c window assert_ Hwin Hc es w1 Hw1 Hs1) as (ts & w' & E2 & Hm & _ & _ & [P2 _] & O2).
  exists t0, ts, w'. cbn [run_events handle]. rewrite (state_bind_step _ _ _ _ _ E1).
  split; [exact E2|]. split; [exact Hm|].
  split; [exact (in_order_app _ [t0] _ _ _ O1 O2)|].
  set (start := minuteOf t0). set (stop := start - start mod 15 + minutes). intros win Hwd.
  destruct (asked_boost _ _ _ _ Ha) as [Hmode Hin].
  destruct (boost_window_minutes window assert_ minutes t0 win Hin Hwd) as (Hww & H1 & H2 & Hlt).
  fold start in H1, H2, Hlt. fold stop in H2, Hlt. split; [done|]. split; [done|].
  cbn [foldl follow] in P1. rewrite Ha in P1. cbn [tell] in P1.
  change (PMode (panel_of (holding w))) with (holding w 43110) in P1. rewrite Hon in P1.
  fold start in P1. rewrite Hwd in P1.
  change (slot_at (holding w') 2) with (PBoost (panel_of (holding w'))). rewrite P2.
  rewrite <- H1, <- H2. apply boost_history; [done|lia|by rewrite P1|].
  clear - Hm Hes. revert Hes. induction Hm as [|e t es ts He Hm IH]; intros Hes; [constructor|].
  apply Forall_cons in Hes as [H Hes]. constructor; [|by apply IH].
  destruct e, t; try done. destruct He as [-> ->]. cbn [undisturbed]. by rewrite H.
Qed.
(** *** What has been published *)

(** Only a publish adds to what the broker was sent. *)
Class SentFrame `{sl : !PublisherLaws B} : Prop := {
  read_unsent a n (b : B) r b' : ReadHolding a n b = (r, b') → sent b' = sent b;
  write_unsent a v (b : B) r b' : WriteHolding a v b = (r, b') → sent b' = sent b;
  input_unsent a n (b : B) r b' : ReadInput a n b = (r, b') → sent b' = sent b;
}.

Section Sent.
Context `{sl : !PublisherLaws B} `{sf : !SentFrame}.

Lemma bus_unsent (w w' : World B) : relations.rtc bus_call w w' → sent (outside w') = sent (outside w).
Proof.
  induction 1 as [w|w w1 w' [(a & n & r & E)|(a & v & r & E)] _ IH]; [done|..]; apply lift_inv in E as [E _].
  - rewrite IH. by eapply read_unsent.
  - rewrite IH. by eapply write_unsent.
Qed.

Lemma newStateReader_unsent (w : World B) r w' : newStateReader w = (r, w') → sent (outside w') = sent (outside w).
Proof.
  unfold newStateReader. intros (t & w1 & E1 & H)%state_bind_inv.
  assert (sent (outside w1) = sent (outside w)) as <-.
  { unfold Collect in E1. destruct (ReadInput block1Base block1Count w) as [r1 w2] eqn:Ea.
    apply lift_inv in Ea as [Ea _]. apply input_unsent in Ea.
    destruct r1 as [l|e]; [|by injection E1 as _ <-].
    destruct (ReadInput block2Base block2Count w2) as [r2 w3] eqn:Eb.
    apply lift_inv in Eb as [Eb _]. apply input_unsent in Eb.
    destruct r2; injection E1 as _ <-; congruence. }
  destruct t as [tel|e]; [|by injection H as _ <-].
  apply state_bind_inv in H as (l & w2 & E2 & H). injection E2 as _ <-.
  apply state_bind_inv in H as (sp & w2 & E2 & H).
  assert (sent (outside w2) = sent (outside w1)) as <-.
  { unfold ReadSetpoints in E2. apply state_bind_inv in E2 as (r2 & w3 & E2 & E3).
    apply lift_inv in E2 as [E2 _]. apply read_unsent in E2.
    assert (w2 = w3) as ->; [|exact E2].
    repeat (case_match; try (by injection E3 as _ <-)). }
  destruct sp as [sp|e].
  - apply state_bind_inv in H as (now & w3 & E3 & H). injection E3 as _ <-.
    apply state_bind_inv in H as (u & w3 & E3 & H). by injection E3 as _ <-; injection H as _ <-.
  - apply state_bind_inv in H as (u & w3 & E3 & H). by injection E3 as _ <-; injection H as _ <-.
Qed.

(** C10: A command is shown when it returns.  On a healthy outside whose slots are in
    range, any message the manager routes to a command writes what the command writes,
    after which nothing more is written; then it publishes exactly one message, retained,
    on the state topic: the document of the inputs it has just read and of the control
    registers as the command left them.  The cache a reconnect republishes from holds the
    same reading, the status page the rows of that very document, and the reading counts
    as fresh. *)
Theorem command_reflected (c : ServeConfig) (window : TimedWindow) (assert_ : bool)
    (topic key payload : string) (w w' : World B) :
  healthy w → Slots_wf (slots_at (holding w)) → Window_wf window → ControlsEnabled (haCfg c) = true →
  commandKey topic = Some key →
  (route (handler sprint c window assert_) key payload w).1 = Some true →
  ApplyCommand (scheduler_of sprint c window assert_) topic payload w = (tt, w') →
  let w1 := (route (handler sprint c window assert_) key payload w).2 in
  healthy w' ∧ Slots_wf (slots_at (holding w')) ∧ (∀ a, holding w' a = holding w1 a) ∧
  ∃ read published,
    let sp := setpoints_of (holding w') read in
    let doc := state_fields (state_of (reading_of w1) (Drift (TTime (reading_of w1)) published) sp) in
    sent (outside w') = sent (outside w) ++
      [({| MTopic := StateTopic (haCfg c); MPayload := PStruct doc |}, true)] ∧
    LastState w' = (reading_of w1, sp, true) ∧ stale w' = false ∧
    ∃ r, last (status w') = Some r ∧ Ok (rows r) = decodeValues sprint (Ok (JObj doc, false)).
Proof.
  intros Hw Hs Hwin Hc Hkey Hroute H w1. unfold ApplyCommand in H.
  cbn [scheduler_of Scheduler.New commander] in H. rewrite Hc in H. unfold Apply, OnMessage in H.
  rewrite Hkey in H. set (h := handler sprint c window assert_) in *. change (enabled h) with true in H.
  change (refresh h) with (Some (refreshState sprint (haCfg c) Background)) in H. cbn [negb] in H.
  destruct (route_carries h key payload w Hw Hwin) as (wp & wr & E1 & Hw1 & Hp & Hr & _).
  rewrite (state_bind_step _ _ _ _ _ E1) in H. rewrite E1 in Hroute. cbn [fst] in Hroute.
  injection Hroute as Hroute. rewrite Hroute in E1, H. clear Hroute.
  assert (w1 = wr) as -> by (unfold w1; by rewrite E1).
  destruct (route_stays h _ _ _ _ _ Hwin E1 Hw Hs) as [_ Hs1].
  assert (sent (outside wr) = sent (outside w)) as Hsent.
  { apply bus_unsent. etransitivity; [by eapply peeked_on_bus|exact Hr]. }
  destruct (newStateReader_healthy wr Hw1 Hs1) as (now & w2 & E2 & Hw2 & ([[U2 _] _] & _ & _) & S2).
  unfold refreshState in H. rewrite (state_bind_step _ _ _ _ _ E2) in H. cbv beta iota in H.
  apply newStateReader_unsent in E2 as N2.
  destruct (statePublisher_healthy sprint (haCfg c) Background (inputs (outside wr)) (setpoints_of (holding wr) now) w2)
    as (w3 & E3 & Hw3 & S3 & _ & _ & _ & _ & P3 & r & Hr3 & Hrows); [exact Hw2|apply inputs_words| |].
  { apply setpoints_of_num, bus_words. }
  destruct (statePublisher_post _ _ _ _ _ _ _ _ E3) as ([[U3 _] _] & _).
  rewrite (state_bind_step _ _ w2 None w3 E3) in H. injection H as <-.
  assert (∀ a, holding w3 a = holding wr a) as U by (intros a; by rewrite U3).
  assert (setpoints_of (holding w3) now = setpoints_of (holding wr) now) as Esp.
  { unfold setpoints_of. by rewrite (slots_at_ext _ _ U), !U. }
  match goal with |- healthy ?x ∧ _ => set (w4 := x) end.
  change (holding w4) with (holding w3). change (outside w4) with (outside w3).
  split; [exact Hw3|]. split; [by rewrite (slots_at_ext _ _ U)|]. split; [exact U|].
  exists now, (Now w2). cbv zeta. rewrite Esp. apply publish_sent in P3.
  split; [by rewrite P3, N2, Hsent|]. split; [done|]. split; [by rewrite <- S2, <- S3|].
  exists r. split; [exact Hr3|exact Hrows].
Qed.
End Sent.
End Runs.

(** ** On the concrete plant *)

#[export] Instance Plant_steady : SteadyClock Plant.
Proof.
  split.
  - intros a n p r p' [E _]%on_dev_inv. unfold ReadHolding in E; cbn in E.
    destruct (next_fault (dev p)). injection E as _ E. unfold Now, Plant_clock. by rewrite <- E.
  - intros a v p r p' [E _]%on_dev_inv. unfold WriteHolding in E; cbn in E.
    destruct (next_fault (dev p)). injection E as _ E. unfold Now, Plant_clock. by rewrite <- E.
  - by intros a n p r p' [= _ <-].
  - by intros cx t f k p r p' [= _ <-].
Qed.

Definition demo_run : list event :=
  [Inbound "solis/1234567890/set_charge_current/set" "30"; Tick; Inbound "solis/1234567890/rtc_sync/set" ""].

Lemma boost_lifecycle_witness :
  let _ : TimeZone := dst_zone in
  let w := demo_world [] in
  let run := run_events (demo_scheduler true) [Inbound "solis/1234567890/boost_select/set" "Discharge 45 min"; Tick] w in
  let win := {| Start := clockAt 900; End_ := clockAt 945 |} in
  minuteOf (Now w) = 900 ∧ slot_at (holding run.2) 2 = boost_slot Discharge win.
Proof.
  intros tz w run win. split; [vm_compute; reflexivity|].
  destruct (boost_lifecycle (conv := demo_conv) demo_sprint (demo_config true) demo_window true
    "solis/1234567890/boost_select/set" "Discharge 45 min" Discharge 45 [Tick] w
    demo_world_healthy demo_world_slots demo_window_wf eq_refl) as (t0 & ts & w' & E & Hm & O & H).
  - vm_compute. reflexivity.
  - vm_compute. reflexivity.
  - by repeat constructor.
  - assert (run.2 = w') as Er by (apply (f_equal snd) in E; exact E). rewrite Er.
    assert (Now w' = Now w) as Ew by (rewrite <- Er; vm_compute; reflexivity).
    rewrite Ew in O. apply in_order_still, Forall_cons in O as [-> O].
    destruct (H win ltac:(vm_compute; reflexivity)) as (_ & _ & Hslot). rewrite Hslot.
    inversion Hm as [|? t ? ts' Ht Hm' E1 E2]; subst. inversion Hm'; subst.
    destruct t as [|now set]; [done|]. cbn [mbind list_bind stamps] in O.
    apply Forall_app in O as [O _]. apply Forall_app in O as [_ O]. apply Forall_singleton in O as ->.
    vm_compute. reflexivity.
Defined.

#[export] Instance Plant_sent_frame : SentFrame (B := Plant).
Proof.
  split.
  - by intros a n p r p' [_ ->]%on_dev_inv.
  - by intros a v p r p' [_ ->]%on_dev_inv.
  - by intros a n p r p' [= _ <-].
Qed.

Lemma command_reflected_witness :
  let _ : TimeZone := dst_zone in
  let topic := "solis/1234567890/set_charge_current/set" in
  let w' := (ApplyCommand (demo_scheduler true) topic "62.5" (demo_world [])).2 in
  holding w' 43141 = 625 ∧ ∃ tel read drift,
    sent (outside w') = sent (outside (demo_world [])) ++ [({| MTopic := StateTopic (demo_ha true);
      MPayload := PStruct (state_fields (state_of tel drift (setpoints_of (holding w') read))) |}, true)] ∧
    LastState w' = (tel, setpoints_of (holding w') read, true).
Proof.
  intros tz topic w'. split; [vm_compute; reflexivity|].
  destruct (command_reflected (conv := demo_conv) demo_sprint (demo_config true) demo_window true topic
    "set_charge_current" "62.5" (demo_world []) w' demo_world_healthy demo_world_slots demo_window_wf
    eq_refl eq_refl) as (_ & _ & _ & read & published & Hsent & Hlast & _).
  - vm_compute. reflexivity.
  - exact (unit_eta (ApplyCommand (demo_scheduler true) topic "62.5" (demo_world []))).
  - eexists _, read, _. split; [exact Hsent|exact Hlast].
Defined.
