(* ===== verification/Recovery.v ===== *)
(** * Recovery: what faults cannot leave behind

    Whatever the bus, the broker and the sidecar do, the manager writes only clock
    values to the clock registers of the slots, so the slots stay readable; and one
    poll after everything answers again the manager is ready, fresh and the inverter
    holds the desired schedule, whatever writes were lost or half done before. *)

From Stdlib Require Import Ascii.
From S2P Require Import Prelude GoInt GoString GoTime GoFloat Block Registers TimedSlots Rtc Telemetry Schedule.
From S2P Require Import Sidecar Json HomeAssistant StateDocument Server Publisher Controls ControlsSafety SafeRuns Scheduler.
From S2P Require Import Cmd CmdSafety HealthyRuns.

(** ** Slots register by register *)

(** The registers of the slots; hours and minutes alternate. *)
Definition slot_registers : list Z := seqZ 43143 8 ++ seqZ 43153 8 ++ seqZ 43163 8.

Definition clock_limit (a : Z) : Z := if Z.even a then 59 else 23.

Definition clock_value (a v : Z) : Prop := a ∈ slot_registers → 0 ≤ v ≤ clock_limit a.

Lemma slots_wf_registers m : Slots_wf (slots_at m) ↔ Forall (λ a, 0 ≤ m a ≤ clock_limit a) slot_registers.
Proof.
  let l := eval vm_compute in slot_registers in change slot_registers with l.
  rewrite !Forall_cons, Forall_nil.
  repeat match goal with |- context [clock_limit ?a] =>
    let v := eval vm_compute in (clock_limit a) in change (clock_limit a) with v end.
  unfold Slots_wf, Slot_wf, Window_wf, Clock_wf, slots_at, slot_at, window_at.
  cbn [slot0 slot1 slot2 Charge_ Discharge_ Start End_ ClockHour ClockMinute].
  repeat match goal with |- context [?m (timedSlotBase ?i + ?x)] =>
    let v := eval vm_compute in (timedSlotBase i + x) in change (timedSlotBase i + x) with v end.
  tauto.
Qed.

Lemma slots_wf_all m : Slots_wf (slots_at m) ↔ ∀ a, clock_value a (m a).
Proof. rewrite slots_wf_registers, Forall_forall. done. Qed.

Lemma slot_regs_clock i t r : 0 ≤ i ≤ 2 → Slot_wf t → r ∈ slot_regs i t → clock_value (Addr r) (Value r).
Proof.
  intros Hi [[[? ?] [? ?]] [[? ?] [? ?]]] Hr _.
  apply (expansion_mem i t _ r (slot_regs_eq i t Hi)) in Hr. revert r Hr. apply Forall_forall.
  assert (i = 0 ∨ i = 1 ∨ i = 2) as [-> |[-> | ->]] by lia; unfold timedWindowRegisters; cbn [app];
    repeat (constructor; [cbn [Addr Value];
      match goal with |- context [clock_limit ?a] =>
        let v := eval vm_compute in (clock_limit a) in change (clock_limit a) with v end; done|]);
    constructor.
Qed.

(** ** Writes keep the slots readable *)

Section Bus.
Context {W : Type} `{rw : HoldingReadWriter W} `{laws : !BusLaws W}.

Definition keeps (w w' : W) : Prop := Slots_wf (slots_at (holding w)) → Slots_wf (slots_at (holding w')).

#[export] Instance keeps_preorder : PreOrder keeps.
Proof. split; [intros w H; exact H|]. intros w w1 w' H1 H2 H. by apply H2, H1. Qed.

Lemma quiet_keeps w w' : quiet w w' → keeps w w'.
Proof. intros [[U _] _] H. by rewrite (slots_at_ext _ (holding w)). Qed.

Lemma effects_keeps (ok : Register → Prop) w w' : (∀ r, ok r → clock_value (Addr r) (Value r)) →
  effects ok w w' → keeps w w'.
Proof.
  intros Hok (fr & L & _ & _ & Hh & [_ HL]%Forall_app) Hs.
  rewrite slots_wf_all in Hs. apply slots_wf_all. intros a. rewrite Hh.
  destruct (write_regs_cases (holding w) L a) as [->|(r & Hr & <- & ->)]; [apply Hs|].
  rewrite Forall_forall in HL. by apply Hok, HL.
Qed.

Lemma off_slots r : ¬ (43143 ≤ Addr r ≤ 43170) → clock_value (Addr r) (Value r).
Proof.
  intros H Ha. exfalso. apply H. unfold slot_registers in Ha. rewrite !elem_of_app, !elem_of_seqZ in Ha. lia.
Qed.

Context `{clk : Clock_ W} `{tz : TimeZone} `{conv : FloatToUint16}.

Lemma writeRegisters_keeps regs w out w' : Forall word_reg regs → NoDup (Addr <$> regs) →
  (∀ r, r ∈ regs → clock_value (Addr r) (Value r)) → writeRegisters regs w = (out, w') → keeps w w'.
Proof.
  intros Hw Hn Hok E. eapply (effects_keeps (λ r, r ∈ regs)); [exact Hok|].
  eapply writeRegisters_effects; [|done..|exact E]. by apply Forall_forall.
Qed.

Lemma route_keeps h key payload w out w' : Handler_wf h → route h key payload w = (out, w') → keeps w w'.
Proof.
  intros Hwf [[H _]|H]%route_cases.
  - eapply effects_keeps; [|exact H]. intros r [_ Hr]. by apply off_slots.
  - apply setBoost_run in H; [|done].
    destruct H as [(Hp & _)|(slot & w1 & res & Hp & Hs & _ & E & _)]; [by apply quiet_keeps, peeked_quiet|].
    transitivity w1; [by apply quiet_keeps, peeked_quiet|].
    eapply writeRegisters_keeps; [by apply (slot_regs_word 2 slot)|by apply (slot_regs_NoDup 2 slot)| |exact E].
    intros r Hr. eapply slot_regs_clock; [|exact Hs|exact Hr]. lia.
Qed.

Lemma SyncRTC_keeps w out w' : SyncRTC w = (out, w') → keeps w w'.
Proof. intros H%SyncRTC_effects. eapply effects_keeps; [|exact H]. intros r Hr. cbv beta in Hr.
  apply off_slots. lia. Qed.

Lemma Reconcile_keeps h w res w' : Handler_wf h →
  Reconcile h (slots_at (holding w)) w = (res, w') → keeps w w'.
Proof.
  intros Hwf [->|(wr & err & E & _)]%Reconcile_run Hs; [done|].
  pose proof (Desired_wf (tou h) (assertToU h) _ (Now w) Hwf Hs) as Hd. set (d := Desired _ _ _ _) in *.
  eapply writeRegisters_keeps; [| | |exact E|exact Hs].
  - apply Forall_forall. intros r [_ Hr]%list_elem_of_filter.
    by apply (proj1 (Forall_forall _ _) (schedule_regs_word d Hd)).
  - eapply sublist_NoDup; [apply schedule_regs_NoDup|]. apply fmap_sublist, sublist_filter.
  - intros r [_ Hr]%list_elem_of_filter. destruct Hd as (H0 & H1 & H2).
    unfold schedule_regs in Hr. rewrite !elem_of_app in Hr.
    destruct Hr as [Hr|[Hr|Hr]]; eapply slot_regs_clock; try exact Hr; done || lia.
Qed.
End Bus.

(** ** Along a run, and after it *)

Section Runs.
Context {B : Type} `{rw : HoldingReadWriter B} `{laws : !BusLaws B} `{input : RegisterReader B}.
Context `{pub : Publisher B} `{ctx : Context_ B} `{out : !OutsideLaws B}.
Context `{clk : Clock_ B} `{tz : TimeZone} `{conv : FloatToUint16}.
Context (sprint : json → string).

Lemma poll_keeps c window a w u w' : Window_wf window →
  poll (scheduler_of sprint c window a) w = (u, w') → keeps w w'.
Proof.
  intros Hwin [Q|(tel & sp & w2 & w3 & u1 & u2 & Q & Hfresh & E3 & E4)]%poll_run; [by apply quiet_keeps|].
  transitivity w2; [by apply quiet_keeps|].
  assert (keeps w2 w3 ∧ slots_at (holding w3) = slots_at (holding w2) ∧ stale w3 = stale w2) as (K3 & Hsl & Hst).
  { apply maybeSyncRTC_run in E3 as [->|(_ & _ & r & E & S)]; [done|].
    split; [by eapply SyncRTC_keeps|]. split; [|apply S].
    eapply safe_slots_off; [|by eapply SyncRTC_effects]. cbv beta. lia. }
  transitivity w3; [done|].
  apply maybeReconcile_run in E4 as [->|(_ & Es & _ & r & E4)]; [done|].
  destruct Hfresh as [Hst2|(_ & Hslots & _)]; [congruence|]. rewrite Hslots, <- Hsl in E4.
  by apply (Reconcile_keeps (handler sprint c window a) w3 r).
Qed.

Lemma handle_keeps c window a e w u w' : Window_wf window →
  handle (scheduler_of sprint c window a) e w = (u, w') → keeps w w'.
Proof.
  intros Hwin. destruct e as [|topic payload]; cbn [handle]; [by apply poll_keeps|].
  intros [->|(_ & key & r & w1 & _ & E & Q)]%command_run; [done|].
  transitivity w1; [by eapply (route_keeps (handler sprint c window a))|by apply quiet_keeps].
Qed.

Lemma events_keeps c window a es w u w' : Window_wf window →
  run_events (scheduler_of sprint c window a) es w = (u, w') → keeps w w'.
Proof.
  intros Hwin. revert w. induction es as [|e es IH]; intros w H; cbn [run_events] in H; [by injection H as _ <-|].
  apply state_bind_inv in H as (u1 & w1 & E1 & H). transitivity w1; [by eapply handle_keeps|by apply IH].
Qed.

(** C9: The slots stay readable through every fault.  From slots in range, after any polls
    and messages on a bus and a broker failing anywhere, each register of the three
    slots still holds an hour or a minute of the day, so no failure of the manager's own
    making can make the control state undecodable. *)
Theorem slots_stay_readable (c : ServeConfig) (s : Scheduler (World B)) (es : list event) (w w' : World B) :
  assemble sprint c = Ok s → Slots_wf (slots_at (holding w)) → Run s es w = (tt, w') →
  ∀ a, a ∈ slot_registers → 0 ≤ holding w' a ≤ clock_limit a.
Proof.
  intros (window & a & Hwin & ->)%assemble_inv Hs H.
  pose proof (events_keeps c window a (Tick :: es) w tt w' Hwin H Hs) as Hs'.
  intros x Hx. rewrite slots_wf_all in Hs'. by apply Hs'.
Qed.

Context `{hb : !HealthyBus B} `{ho : !HealthyOutside B}.

(** C8: One good poll recovers.  Whatever went wrong in a run before (lost frames and
    replies, failed publishes, half-written schedules, stale setpoints), if the outside
    answers again then the next poll, with the clock to sync or not, completes and leaves
    the manager ready and fresh, its cache the reading of the inverter as it is, the
    status page the rows of the document published from it, and the three slots the
    desired schedule of the moment. *)
Theorem one_poll_recovers (c : ServeConfig) (s : Scheduler (World B)) (es : list event) (w w1 : World B) :
  assemble sprint c = Ok s → ControlsEnabled (haCfg c) = true →
  Slots_wf (slots_at (holding w)) → Run s es w = (tt, w1) → healthy w1 →
  ∃ read published now w2, poll s w1 = (tt, w2) ∧ healthy w2 ∧ Ready (status w2) = true ∧ stale w2 = false ∧
    LastState w2 = (reading_of w1, setpoints_of (holding w1) read, true) ∧
    (∃ r, last (status w2) = Some r ∧ Ok (rows r) = decodeValues sprint (Ok (JObj (state_fields (state_of
      (reading_of w1) (Drift (TTime (reading_of w1)) published) (setpoints_of (holding w1) read))), false))) ∧
    ∃ window a, ParseToUWindow (TOUWindow c) = Ok (if a : bool then Some window else None) ∧
      slots_at (holding w2) = Desired window a (slots_at (holding w1)) now.
Proof.
  intros Ha Hc Hs H Hw1.
  assert (∃ window a, Window_wf window ∧ ParseToUWindow (TOUWindow c) = Ok (if a : bool then Some window else None) ∧
    s = scheduler_of sprint c window a) as (window & a & Hwin & Hp & ->).
  { unfold assemble in Ha. apply bind_Ok_inv in Ha as ([win|] & E & Ha); injection Ha as <-.
    - apply wrap_err_Ok in E. pose proof (proj1 (ParseToUWindow_Some _ _) E) as (Hw & _). by exists win, true.
    - apply wrap_err_Ok in E. exists Window0, false. split; [apply Window0_wf|done]. }
  pose proof (events_keeps c window a (Tick :: es) w tt w1 Hwin H Hs) as Hs1.
  destruct (poll_controls sprint c window a w1 Hw1 Hs1)
    as (read & v1 & v2 & v3 & w4 & _ & _ & _ & _ & E & Hw4 & U4 & S4 & R4 & L4 & r & Hr4 & Hrows).
  destruct (controls_follow sprint c window a (reading_of w1) w4 Hw4 S4 Hwin
    ltac:(by rewrite (slots_at_ext _ _ U4)) Hc) as (when & w5 & E5 & Hw5 & Hd & S5 & T5 & G5).
  rewrite (slots_at_ext _ _ U4) in E5, Hd. exists read, (Now v2), when, w5.
  split; [|split; [exact Hw5|]; split; [by rewrite S5|]; split; [by rewrite T5|]; split; [|split]].
  - by rewrite E.
  - rewrite <- L4. unfold LastState. change (cache w5) with (lastGood w5). rewrite G5. reflexivity.
  - exists r. rewrite S5. split; [exact Hr4|exact Hrows].
  - exists window, a. split; [exact Hp|exact Hd].
Qed.
End Runs.

(** ** On the concrete plant *)

(** Frames and replies are lost in the first reconcile, and the last setpoint read fails. *)
Definition bad_day : list fault :=
  [Fine; Fine; NoReply; Empty; ReplyLost; Ignored] ++ replicate 14 Fine ++ [NoReply].

Definition bad_events : list event := [Inbound "solis/1234567890/boost_select/set" "Charge 30 min"; Tick].

Lemma bad_day_slots : Slots_wf (slots_at (holding (demo_world bad_day))).
Proof. apply (bool_decide_unpack _). vm_compute. exact I. Qed.

Lemma slots_stay_readable_witness :
  let _ : TimeZone := dst_zone in
  let w := demo_world bad_day in
  let w' := (Run (demo_scheduler true) bad_events w).2 in
  frames w' ≠ [] ∧ 0 ≤ holding w' 43143 ≤ 23.
Proof.
  intros tz w w'. split; [vm_compute; discriminate|].
  apply (slots_stay_readable (conv := demo_conv) demo_sprint (demo_config true) (demo_scheduler true)
    bad_events w w' (demo_assemble true) bad_day_slots (unit_eta (Run (demo_scheduler true) bad_events w)) 43143).
  apply (bool_decide_unpack _). vm_compute. exact I.
Defined.
