(* ===== verification/Contract.v ===== *)
(** * What is announced is understood

    Home Assistant sends what the discovery payloads of [HomeAssistant] tell it to;
    the handler of [Controls] must take it.  The two packages share no code for it. *)

From Stdlib Require Import Ascii.
From S2P Require Import Prelude GoInt GoString GoTime GoFloat FloatFacts Amps Block WorkMode.
From S2P Require Import Registers TimedSlots Rtc Telemetry Schedule Sidecar Json HomeAssistant Controls.
From S2P Require Import ControlsSafety.

Section Contract.
Context {W : Type} `{rw : HoldingReadWriter W} `{clk : Clock_ W} `{tz : TimeZone} `{conv : FloatToUint16}.

(** The handler recognises the command: it is not reported as ignored. *)
Definition accepted (h : Handler (W := W)) (key payload : string) : Prop :=
  ∀ w, (route h key payload w).1 ≠ Some false.

Lemma then_some {A} (m : State W A) (w : W) : ((_ ← m; mret (Some true)) w).1 ≠ Some false.
Proof. unfold mbind, state_bind. by destruct (m w). Qed.

Lemma setCurrent_accepted addr payload x w : ParseFloat (TrimSpace payload) = Ok x →
  IsNaN x || IsInf x = false → (setCurrent addr payload w).1 ≠ Some false.
Proof. intros Hp Hx. unfold setCurrent. rewrite Hp, Hx. apply then_some. Qed.

Lemma setOptimalIncome_accepted payload on w : parseRunStop payload = Some on →
  (setOptimalIncome payload w).1 ≠ Some false.
Proof.
  intros Hp. unfold setOptimalIncome. rewrite Hp. unfold mbind at 1, state_bind.
  destruct (readOne RegWorkMode w) as [[cur|e] w1]; [apply then_some|done].
Qed.

Lemma writeBoostSlot_accepted slot w : (writeBoostSlot slot w).1 ≠ Some false.
Proof. unfold writeBoostSlot. destruct (TimedSlotWriteRegisters _ _); [apply then_some|done]. Qed.

Lemma setBoost_accepted h payload v w : ParseBoostOption payload = Some v →
  (setBoost h payload w).1 ≠ Some false.
Proof.
  intros Hp. unfold setBoost. rewrite Hp. destruct v as [mode minutes].
  case_decide; [apply writeBoostSlot_accepted|]. unfold mbind at 1, state_bind.
  destruct (readOne RegWorkMode w) as [[cur|e] w1]; [|done].
  destruct (negb _); [done|]. unfold mbind, state_bind.
  destruct (PlanBoost _ _ _ _ _); [apply writeBoostSlot_accepted|done].
Qed.

Lemma setCurrent_route h key : key = "set_charge_current" ∨ key = "set_discharge_current" →
  ∃ addr, route h key = setCurrent addr.
Proof. intros [-> | ->]; eexists; reflexivity. Qed.

(** The command entities, one by one. *)
Definition known_command (e : Entity) : Prop :=
  (Component e = Number ∧ (Key e = "set_charge_current" ∨ Key e = "set_discharge_current") ∧
     Min e = haChargeAmpsMin ∧ Max e = haChargeAmpsMax ∧ Options e = []) ∨
  (Component e = Select ∧ Key e = "optimal_income" ∧ Options e = ["Run"; "Stop"]) ∨
  (Component e = Select ∧ Key e = "boost_select" ∧ Options e = BoostOptions) ∨
  (Component e = Button ∧ Key e = "rtc_sync" ∧ Options e = []).

#[local] Instance known_command_dec e : Decision (known_command e).
Proof. unfold known_command. solve_decision. Defined.

Lemma command_entities e : e ∈ Entities → Command e = true → known_command e.
Proof.
  assert (Forall (λ e, Command e = true → known_command e) Entities) as H.
  { apply (bool_decide_unpack _). vm_compute. exact I. }
  rewrite Forall_forall in H. intros He. by apply H.
Qed.

Lemma command_key_ok e : e ∈ Entities → Command e = true → Key e ≠ "".
Proof.
  intros He Hc.
  destruct (command_entities e He Hc) as [(_ & [-> | ->] & _)|[(_ & -> & _)|[(_ & -> & _)|(_ & -> & _)]]]; done.
Qed.

(** ** Property *)

(** C27: Every control announced to Home Assistant is one the handler takes, for any
    topic prefix and serial: its command topic is under the base topic and carries its
    own key; every option of a select and the press of a button is recognised; a number
    entity's bounds are those of the clamp, and every finite number, in any spelling
    and with surrounding space, is recognised. *)
Theorem controls_understood (c : HAConfig) (h : Handler (W := W)) (e : Entity) :
  e ∈ Entities → Command e = true →
  buildEntityPayload c e !! "command_topic" = Some (JStr ("~/" +:+ Key e +:+ "/set")) ∧
  commandKey (BaseTopic c +:+ "/" +:+ Key e +:+ "/set") = Some (Key e) ∧
  (∀ o, o ∈ Options e → accepted h (Key e) o) ∧
  (Component e = Button → ∀ o, accepted h (Key e) o) ∧
  (Component e = Number → Min e = haChargeAmpsMin ∧ Max e = haChargeAmpsMax ∧
     ∀ o x, ParseFloat (TrimSpace o) = Ok x → IsNaN x || IsInf x = false → accepted h (Key e) o).
Proof.
  intros He Hc. split; [by rewrite payload_command_topic, Hc|]. split.
  { apply commandKey_spec. split; [by apply command_key_ok|]. split; [by apply entity_no_slash|].
    right. by exists (BaseTopic c). }
  destruct (command_entities e He Hc) as [(Ek & K & M1 & M2 & O)|[(Ek & K & O)|[(Ek & K & O)|(Ek & K & O)]]].
  - rewrite O. split; [by intros o ?%elem_of_nil|]. split; [by rewrite Ek|].
    intros _. split; [done|]. split; [done|]. intros o x Hp Hx w.
      destruct (setCurrent_route h (Key e) K) as [addr ->]. by apply (setCurrent_accepted addr o x).
  - rewrite Ek, K, O. split; [|done]. intros o Ho w.
    change (route h "optimal_income") with (setOptimalIncome (W := W)).
    assert (is_Some (parseRunStop o)) as [on Hp].
    { revert o Ho. apply Forall_forall. repeat constructor; vm_compute; by eexists. }
    by apply (setOptimalIncome_accepted o on).
  - rewrite Ek, K, O. split; [|done]. intros o Ho w.
    change (route h "boost_select") with (setBoost h).
    assert (is_Some (ParseBoostOption o)) as [v Hp].
    { revert o Ho. apply Forall_forall. apply (bool_decide_unpack _). vm_compute. exact I. }
    by apply (setBoost_accepted h o v).
  - rewrite Ek, K, O. split; [by intros o ?%elem_of_nil|]. split; [|done]. intros _ o w. apply then_some.
Qed.
End Contract.

Lemma controls_understood_witness :
  let _ : TimeZone := dst_zone in
  let c := {| DiscoveryPrefix := "homeassistant"; TopicPrefix := "home/solis"; Serial := "42";
              ObjectIDPrefix := ""; ControlsEnabled := true |} in
  ∃ e, Entities !! 60%nat = Some e ∧ Key e = "boost_select" ∧
    commandKey "home/solis/42/boost_select/set" = Some "boost_select" ∧
    accepted (conv := demo_conv) demo_handler "boost_select" "Charge 45 min".
Proof.
  intros tz c. destruct (Entities !! 60%nat) as [e|] eqn:E; [|vm_compute in E; discriminate E].
  exists e. split; [reflexivity|].
  assert (Key e = "boost_select" ∧ Command e = true ∧ "Charge 45 min" ∈ Options e) as (K & Hc & Ho).
  { vm_compute in E. injection E as <-. cbn [Key Command Options]. split; [done|]. split; [done|].
    apply (bool_decide_unpack _). vm_compute. exact I. }
  destruct (controls_understood (conv := demo_conv) c demo_handler e) as (_ & H2 & H3 & _).
  - exact (list_elem_of_lookup_2 Entities 60%nat e E).
  - exact Hc.
  - rewrite K in H2, H3. split; [exact K|]. split; [exact H2|exact (H3 _ Ho)].
Defined.
