(* ===== verification/Startup.v ===== *)
(** * The process from start to exit (cmd/serve.go runServe, cmd/root.go)

    What [serve] does with an environment: load it, wait for the sidecar, connect,
    announce, poll and obey until told to stop, and tear down. *)

From S2P Require Import Prelude GoInt GoString GoTime GoFloat GoHttp Json TimedSlots Rtc Telemetry Schedule.
From S2P Require Import Sidecar HomeAssistant Server Publisher Controls ControlsSafety SafeRuns.
From S2P Require Import Config Mqtt SidecarClient Scheduler Cmd CmdSafety.

(** ** From the configuration *)

(** [newLogger]: the level and whether lines are text. *)
Inductive Level : Type := LevelDebug | LevelInfo | LevelWarn | LevelError.

Definition newLogger (level format : string) : Level * bool :=
  (if bool_decide (level = "debug") then LevelDebug
   else if bool_decide (level = "warn") then LevelWarn
   else if bool_decide (level = "error") then LevelError
   else LevelInfo,
   bool_decide (format = "text")).

Definition haConfig (c : Config.Config) : HAConfig := {|
  DiscoveryPrefix := HADiscoveryPrefix c; TopicPrefix := MQTTTopicPrefix c; Serial := InverterSerial c;
  ObjectIDPrefix := HAObjectIDPrefix c; HomeAssistant.ControlsEnabled := Config.ControlsEnabled c |}.

Definition schedConfig (c : Config.Config) : Scheduler.Config := {|
  Scheduler.PollInterval := Config.PollInterval c; Scheduler.MaxRetries := PollMaxRetries c;
  Scheduler.RTCSyncEnabled := Config.RTCSyncEnabled c;
  Scheduler.RTCDriftThreshold := Config.RTCDriftThreshold c |}.

Definition statusConfig (c : Config.Config) : ServerConfig := {|
  Server.FailureThreshold := Config.FailureThreshold c; Server.PollInterval := Config.PollInterval c |}.

Definition mqttOptions (c : Config.Config) : Options := {|
  BrokerURL := MQTTBrokerURL c; Username := MQTTUsername c; Password := MQTTPassword c;
  ClientID := MQTTClientID c; OAvailabilityTopic := AvailabilityTopic (haConfig c) |}.

Definition serveConfig (c : Config.Config) : ServeConfig := {|
  haCfg := haConfig c; schedCfg := schedConfig c;
  Cmd.TOUWindow := Config.TOUWindow c; Cmd.TOUWindowSet := Config.TOUWindowSet c |}.

Definition with_broker (c : Config.Config) : bool := negb (bool_decide (MQTTBrokerURL c = "")).

Definition commandTopic (c : Config.Config) : string := BaseTopic (haConfig c) +:+ "/+/set".

Section Serve.
Context {B : Type} `{rw : HoldingReadWriter B} `{input : RegisterReader B} `{cm : Autopaho B}.
Context `{doer : httpDoer B} `{up : UrlParse} `{clk : Clock_ B} `{ctx : Context_ B}.
Context `{tz : TimeZone} `{conv : FloatToUint16}.
Context (sprint : json → string).

(** The transport: the broker's client, or [Discard] without one. *)
Definition publisher_of (c : Config.Config) : Publisher B :=
  if with_broker c then client_publisher else Discard_Publish.

(** Enough probes for the whole startup timeout. *)
Definition startup_fuel (c : Config.Config) : nat :=
  Z.to_nat (SidecarStartupTimeout c / sidecarProbeInterval) + 2.

(** What can happen to a running manager: a tick or an inbound message for the
    scheduler, or the broker connection coming (back) up.  The reconnect hook reads the
    cache and publishes; it takes no part in [apiMu], and is a step of its own here. *)
Inductive happening : Type := Sched (e : event) | ConnectionUp.

(** Messages and reconnects come from the broker only, so there are none without one;
    and before the scheduler's goroutine starts there are no ticks. *)
Definition delivered (c : Config.Config) (h : happening) : bool :=
  match h with Sched Tick => true | _ => with_broker c end.
Definition before_poll (h : happening) : bool := match h with Sched Tick => false | _ => true end.

Definition subscribe (c : Config.Config) : option (Ctx → State (World B) (option error)) :=
  if Config.ControlsEnabled c then Some (λ ctx, lift (Subscribe ctx (commandTopic c))) else None.

(** The drain is the wait for the scheduler's goroutine.  A reconnect hook is a whole step
    of a life here, so [mc.Disconnect] finds none to wait for; with hooks between other
    steps that wait is [Lifecycle]'s, and bounded by the shutdown's own context. *)
Definition teardown_of (c : Config.Config) (stopHealth : State (World B) (option error)) : teardown (B := B) := {|
  drain := schedDone;
  offline := if with_broker c
             then Some (λ ctx, PublishAvailability (pub := World_publisher (H := publisher_of c)) (haConfig c) ctx false)
             else None;
  disconnect := if with_broker c then Some (λ ctx, lift (cm_Disconnect ctx)) else None;
  stopHealth := stopHealth |}.

Definition happen (c : Config.Config) (s : Scheduler (World B)) (h : happening) : State (World B) unit :=
  match h with
  | Sched e => handle s e
  | ConnectionUp => republish (pub := publisher_of c) (Some (haConfig c)) (subscribe c) HookContext
  end.

Fixpoint happens (c : Config.Config) (s : Scheduler (World B)) (l : list happening) : State (World B) unit :=
  match l with [] => mret tt | h :: l => _ ← happen c s h; happens c s l end.

(** One life of the process: [early] is what happens between the eager republish, which
    subscribes, and the scheduler's first poll; [es] what happens after it; [cause] what
    ends it.  [None] when the startup wait outlasts its fuel or the shutdown blocks for
    ever, which never happens ([serve_exit]). *)
Definition runServe (env : Env) (early es : list happening) (cause : ExitCause)
    (stopHealth : State (World B) (option error)) : State (World B) (option (option error)) :=
  match Load env with
  | Err e => mret (Some (Some (Wrapf "config" e)))
  | Ok c =>
      _ ← (λ w, (tt, set_status (Server.New (statusConfig c) (Now w)) w));
      r ← lift (waitForSidecar (startup_fuel c) (SidecarClient.New (SidecarURL c) [] []).1
                  (SidecarStartupTimeout c));
      match r with
      | None => mret None
      | Some _ =>
          m ← (if with_broker c then lift (Connect RunContext (mqttOptions c)) else mret (Ok tt));
          match m with
          | Err e => mret (Some (Some (Wrapf "mqtt" e)))
          | Ok _ =>
              match assemble (pub := publisher_of c) sprint (serveConfig c) with
              | Err e => mret (Some (Some e))
              | Ok s =>
                  _ ← (if with_broker c
                       then republish (pub := publisher_of c) (Some (haConfig c)) (subscribe c) RunContext
                       else mret tt);
                  _ ← happens c s (List.filter (delivered c)
                        (List.filter before_poll early ++ Sched Tick :: es));
                  exits cause (teardown_of c stopHealth)
              end
          end
      end
  end.

(** [main]: the exit status and what is printed on the standard error. *)
Definition main (err : option error) : Z * string :=
  match err with Some e => (1, "error: " +:+ error_text e +:+ bytes [10]) | None => (0, "") end.

Lemma happen_up c s :
  happen c s ConnectionUp = republish (pub := publisher_of c) (Some (haConfig c)) (subscribe c) HookContext.
Proof. reflexivity. Qed.

Lemma happen_sched c s e : happen c s (Sched e) = handle s e.
Proof. reflexivity. Qed.

(** Ticks and messages alone are a run of the scheduler. *)
Lemma happens_Run c s es : happens c s (Sched <$> Tick :: es) = Run s es.
Proof.
  change (Run s es) with (run_events s (Tick :: es)). generalize (Tick :: es). intros l.
  induction l as [|e l IH]; [done|]. rewrite fmap_cons.
  cbn [happens happen run_events]. by rewrite IH.
Qed.

(** ** What the outside does

    Nothing but register writes touches the inverter, and time passes. *)
Class ServeLaws `{laws : !BusLaws B} : Prop := {
  serve_input a n (b : B) r b' : Telemetry.ReadInput a n b = (r, b') → quiet b b';
  serve_wait d (b : B) r b' : Wait d b = (r, b') → quiet b b';
  serve_probe h req (b : B) r b' : Method req = "GET" → Do h req b = (r, b') → quiet b b';
  serve_new cx cfg (b : B) r b' : NewConnection cx cfg b = (r, b') → quiet b b';
  serve_await cx (b : B) r b' : AwaitConnection cx b = (r, b') → quiet b b';
  serve_publish cx m (b : B) r b' : cm_Publish cx m b = (r, b') → quiet b b';
  serve_subscribe cx t q (b : B) r b' : cm_Subscribe cx t q b = (r, b') → quiet b b';
  serve_disconnect cx (b : B) r b' : cm_Disconnect cx b = (r, b') → quiet b b';
}.

Section Laws.
Context `{laws : !BusLaws B} `{sl : !ServeLaws} `{tp : !TimePasses (W := B)} `{cl : !ContextLaws B}.

(** [calm m]: [m] leaves the inverter alone. *)
Definition calm {W A} `{BusLaws W} (m : State W A) : Prop := ∀ w r w', m w = (r, w') → quiet w w'.

Lemma calm_ret {W A} `{BusLaws W} (a : A) : calm (mret a).
Proof. intros w r w' E. by injection E as _ <-. Qed.

Lemma calm_bind {W A C} `{BusLaws W} (m : State W A) (f : A → State W C) :
  calm m → (∀ a, calm (f a)) → calm (m ≫= f).
Proof.
  intros Hm Hf w r w' (a & w1 & E1 & E2)%state_bind_inv. transitivity w1; [by eapply Hm|by eapply Hf].
Qed.

Lemma calm_lift {A} (m : State B A) : calm m → calm (lift (B := B) m).
Proof. intros Hm w r w' [E _]%lift_inv. exact (Hm _ _ _ E). Qed.

Lemma calm_publish c cx topic payload retain :
  calm (Publisher.Publish (Publisher := publisher_of c) cx topic payload retain).
Proof.
  unfold Publisher.Publish, publisher_of. destruct (with_broker c); [|apply calm_ret].
  unfold client_publisher, Mqtt.Publish. apply calm_bind; [|intros; apply calm_ret].
  intros w r w'. apply serve_publish.
Qed.

#[local] Instance serve_outside c : OutsideLaws (H2 := publisher_of c) B.
Proof.
  split; [apply serve_input| |apply serve_wait]. intros cx t p f b r b'. apply calm_publish.
Qed.

Lemma calm_probe dl c : calm (probeServing (W := B) dl c).
Proof.
  unfold probeServing. destruct (wrap_err _ _) as [req|e] eqn:E; [|apply calm_ret].
  apply calm_bind; [|by intros []; [destruct (negb _)|]; apply calm_ret].
  intros w r w' H. eapply serve_probe; [|exact H]. apply wrap_err_Ok in E.
  unfold NewRequest in E. apply bind_Ok_inv in E as (p & _ & E). by injection E as <-.
Qed.

Lemma calm_startup fuel c timeout : calm (waitForSidecar (W := B) fuel c timeout).
Proof.
  intros w r w'. unfold waitForSidecar. destruct (timeout <=? 0); [by intros [= _ <-]|].
  generalize (unixNano (Now w) + timeout). intros dl. destruct (WaitUntilServing _ _ _ _ w) as [r1 w1] eqn:E. intros [= _ <-].
  revert w r1 w1 E. induction fuel as [|fuel IH]; intros w r1 w1 E; cbn [WaitUntilServing] in E.
  { by injection E as _ <-. }
  apply state_bind_inv in E as (e & w2 & E2 & E). apply calm_probe in E2.
  destruct e as [e|]; [|by injection E as _ <-].
  apply state_bind_inv in E as (st & w3 & E3 & E). transitivity w2; [done|].
  assert (quiet w2 w3) as Q3.
  { cbn [Wait WithDeadline] in E3. destruct (_ <=? 0); [by injection E3 as _ <-|].
    destruct (_ <? _); [|by eapply serve_wait]. destruct (Wait _ w2) as [r2 w4] eqn:E4.
    injection E3 as _ <-. by eapply serve_wait. }
  destruct st; [by injection E as _ <-|]. transitivity w3; [done|by eapply IH].
Qed.

Lemma calm_status (f : World B → Server) : calm (λ w, (tt, set_status (f w) w)).
Proof. by intros w r w' [= _ <-]. Qed.

Lemma calm_connect cx opts : calm (W := B) (Connect cx opts).
Proof.
  unfold Connect. destruct (url_Parse _); [|apply calm_ret].
  apply calm_bind; [intros w r w'; apply serve_new|]. intros [e|]; [apply calm_ret|].
  apply calm_bind; [intros w r w'; apply serve_await|]. intros; apply calm_ret.
Qed.

Section Loaded.
Context (c : Config.Config).
#[local] Instance pub : Publisher B := publisher_of c.

Lemma calm_world_publish cx t p f : calm (Publisher.Publish (W := World B) cx t p f).
Proof. apply calm_lift, calm_publish. Qed.

Lemma calm_publish_all what cx msgs : calm (W := World B) (publish_all what cx msgs).
Proof.
  induction msgs as [|m msgs IH]; cbn [publish_all]; [apply calm_ret|].
  apply calm_bind; [apply calm_world_publish|]. intros [e|]; [apply calm_ret|apply IH].
Qed.

Lemma calm_availability cfg cx on : calm (W := World B) (PublishAvailability cfg cx on).
Proof. apply calm_bind; [apply calm_world_publish|]. intros; apply calm_ret. Qed.

Lemma calm_state cfg cx t sp : calm (W := World B) (PublishState cfg cx t sp).
Proof.
  unfold PublishState. apply calm_bind; [by intros w r w' [= _ <-]|]. intros now.
  destruct (BuildState _ _ _ _) as [msg|e]; [|apply calm_ret].
  apply calm_bind; [apply calm_world_publish|]. intros; apply calm_ret.
Qed.

Lemma calm_logged step : (∀ f, step = Some f → calm f) → calm (W := World B) (logged step).
Proof.
  intros H. destruct step as [f|]; cbn; [|apply calm_ret].
  apply calm_bind; [by apply H|]. intros; apply calm_ret.
Qed.

Lemma calm_republish cx : calm (W := World B) (republish (Some (haConfig c)) (subscribe c) cx).
Proof.
  unfold republish. apply calm_bind; [apply calm_publish_all|]. intros _.
  apply calm_bind; [apply calm_publish_all|]. intros _. apply calm_bind; [apply calm_availability|]. intros _.
  apply calm_bind.
  - intros w r w'. unfold republish_state. destruct (LastState w) as [[tel sp] []]; [|by intros [= _ <-]].
    apply calm_logged. intros f [= <-]. apply calm_bind; [apply calm_state|]. intros; apply calm_ret.
  - intros _. apply calm_logged. unfold subscribe. destruct (Config.ControlsEnabled c); [|done].
    intros f [= <-]. apply calm_lift. unfold Subscribe. apply calm_bind; [|intros; apply calm_ret].
    intros w r w'. apply serve_subscribe.
Qed.

Lemma calm_teardown stopHealth : calm (W := World B) stopHealth →
  calm (W := World B) (teardown_steps (teardown_of c stopHealth)).
Proof.
  intros Hs. unfold teardown_steps, teardown_of; cbn [offline disconnect Cmd.stopHealth].
  apply calm_bind.
  { apply calm_logged. destruct (with_broker c); [|done]. intros f [= <-]. apply calm_availability. }
  intros _. apply calm_bind.
  { apply calm_logged. destruct (with_broker c); [|done]. intros f [= <-]. apply calm_lift.
    intros w r w'. apply serve_disconnect. }
  intros _. apply calm_logged. by intros f [= <-].
Qed.

Lemma calm_exit cause stopHealth : calm (W := World B) stopHealth →
  calm (W := World B) (exits cause (teardown_of c stopHealth)).
Proof.
  intros Hs w r w'. rewrite exits_eq by done. intros [= _ <-].
  destruct (teardown_steps _ w) as [u w1] eqn:E. by eapply calm_teardown.
Qed.

(** A loaded configuration's window parses again. *)
Lemma assembles : is_Ok (ParseToUWindow (Config.TOUWindow c)) = true →
  ∃ window a, Window_wf window ∧ ParseToUWindow (Config.TOUWindow c) = Ok (if a : bool then Some window else None) ∧
    assemble sprint (serveConfig c) = Ok (scheduler_of sprint (serveConfig c) window a).
Proof.
  unfold assemble; cbn [serveConfig Cmd.TOUWindow].
  destruct (ParseToUWindow (Config.TOUWindow c)) as [[w|]|e] eqn:E; [| |done]; intros _; cbn.
  - pose proof (proj1 (ParseToUWindow_Some _ _) E) as [Hw _]. by exists w, true.
  - exists Window0, false. split; [apply Window0_wf|done].
Qed.

End Loaded.

(** What happens one at a time keeps the contract, and with controls disabled is quiet. *)
Lemma happens_ok c window a l w u w' : Window_wf window →
  happens c (scheduler_of (pub := publisher_of c) sprint (serveConfig c) window a) l w = (u, w') → run_ok w w'.
Proof.
  intros Hwf. revert w. induction l as [|h l IH]; intros w H; cbn [happens] in H; [by injection H as _ <-|].
  apply state_bind_inv in H as (u1 & w1 & E1 & H). transitivity w1; [|exact (IH w1 H)].
  destruct h as [e|]; [rewrite happen_sched in E1|rewrite happen_up in E1; apply quiet_ok; by apply calm_republish in E1].
  eapply (handle_ok (pub := publisher_of c)); [exact Hwf|exact E1].
Qed.

Lemma happens_quiet c window a l w u w' : Config.ControlsEnabled c = false →
  happens c (scheduler_of (pub := publisher_of c) sprint (serveConfig c) window a) l w = (u, w') → quiet w w'.
Proof.
  intros Hc. revert w. induction l as [|h l IH]; intros w H; cbn [happens] in H; [by injection H as _ <-|].
  apply state_bind_inv in H as (u1 & w1 & E1 & H). transitivity w1; [|exact (IH w1 H)].
  destruct h as [e|]; [rewrite happen_sched in E1|rewrite happen_up in E1; by apply calm_republish in E1].
  eapply (events_quiet (pub := publisher_of c) sprint (serveConfig c) window a [e]); [exact Hc|].
  cbn [run_events]. rewrite (state_bind_step _ _ _ _ _ E1). reflexivity.
Qed.

(** The whole life: it ends, and every part of it but the run is calm. *)
Lemma runServe_cases env early es cause stopHealth w : calm (W := World B) stopHealth →
  ∃ err w', runServe env early es cause stopHealth w = (Some err, w') ∧
  match Load env with
  | Err e => err = Some (Wrapf "config" e) ∧ w' = w
  | Ok c =>
      (with_broker c = true ∧ quiet w w' ∧ ∃ e, err = Some (Wrapf "mqtt" e)) ∨
      (err = exit_error cause ∧
       ∃ window a l w1 w2 u, Window_wf window ∧ quiet w w1 ∧
         happens c (scheduler_of (pub := publisher_of c) sprint (serveConfig c) window a) l w1 = (u, w2) ∧
         quiet w2 w')
  end.
Proof.
  intros Hstop. unfold runServe. pose proof (Load_cases env) as HL.
  destruct (Load env) as [c|e]; [|by eexists _, _]. destruct HL as [Hc Hb].
  set (w0 := set_status (Server.New (statusConfig c) (Now w)) w).
  rewrite (state_bind_step _ _ _ tt w0) by done.
  destruct (waitForSidecar_total (SidecarClient.New (SidecarURL c) [] []).1 (SidecarStartupTimeout c) (outside w0))
    as (b1 & E1). fold (startup_fuel c) in E1.
  assert (quiet (outside w0) b1) as Q1 by (by eapply calm_startup).
  assert (lift (waitForSidecar (startup_fuel c) (SidecarClient.New (SidecarURL c) [] []).1
    (SidecarStartupTimeout c)) w0 = (Some tt, set_outside b1 w0)) as El by (unfold lift; by rewrite E1).
  rewrite (state_bind_step _ _ _ _ _ El). set (w1 := set_outside b1 w0).
  assert (quiet w w1) as Q by exact Q1. clearbody w1. clear El E1 Q1 b1 w0.
  destruct ((if with_broker c then lift (Connect RunContext (mqttOptions c)) else mret (Ok tt)) w1) as [m w2] eqn:E2.
  rewrite (state_bind_step _ _ _ _ _ E2).
  assert (quiet w1 w2) as Q2.
  { destruct (with_broker c); [by apply (calm_lift _ (calm_connect _ _)) in E2|by injection E2 as _ <-]. }
  destruct m as [[]|e].
  2:{ eexists _, _. split; [done|]. left. destruct (with_broker c); [|by injection E2].
      split; [done|]. split; [by transitivity w1|eauto]. }
  destruct (assembles c) as (window & a & Hwf & _ & Ea); [by apply (Load_window_of env)|]. unfold pub in Ea. rewrite Ea.
  destruct ((if with_broker c then republish (pub := publisher_of c) (Some (haConfig c)) (subscribe c) RunContext else mret tt) w2)
    as [u3 w3] eqn:E3. rewrite (state_bind_step _ _ _ _ _ E3).
  assert (quiet w2 w3) as Q3.
  { destruct (with_broker c); [by apply calm_republish in E3|by injection E3 as _ <-]. }
  set (l := List.filter (delivered c) _).
  destruct (happens c (scheduler_of (pub := publisher_of c) sprint (serveConfig c) window a) l w3)
    as [u4 w4] eqn:E4. rewrite (state_bind_step _ _ _ _ _ E4).
  destruct (exits cause (teardown_of c stopHealth) w4) as [err w5] eqn:E5.
  exists (exit_error cause), w5. pose proof (calm_exit c cause stopHealth Hstop _ _ _ E5) as Q5.
  rewrite exits_eq in E5 by done. injection E5 as <- <-. split; [done|]. right. split; [done|].
  exists window, a, l, w3, w4, u4. split; [done|]. split; [transitivity w1; [done|by transitivity w2]|].
    split; [exact E4|exact Q5].
Qed.

(** ** Properties of the process *)

(** C16: Every life of the process ends, and with the right exit error: neither the
    startup wait nor the shutdown's wait for the scheduler, which returns only once the
    run context has ended, blocks it for ever.  Whatever the sidecar, the broker and the
    bus do: an environment that does not load is reported
    before anything else is touched; a broker that cannot be connected is reported; and
    otherwise the exit error is the health server's, if that is what ended the run, and
    none if the run was told to stop.  In particular the window [Load] accepted is
    accepted again, so no run fails on it.  [early] and [es] are whatever happens to the
    manager: ticks, messages and reconnects in any order.  The exit status is 0 only
    after a run that started and was told to stop or whose health server ended without
    an error. *)
Theorem serve_exit (env : Env) (early es : list happening) (cause : ExitCause)
    (stopHealth : State (World B) (option error)) (w : World B) :
  calm (W := World B) stopHealth →
  ∃ err w', runServe env early es cause stopHealth w = (Some err, w') ∧
  match Load env with
  | Err e => err = Some (Wrapf "config" e) ∧ w' = w
  | Ok c =>
      (MQTTBrokerURL c ≠ "" ∧ ∃ e, err = Some (Wrapf "mqtt" e)) ∨
      err = match cause with
            | HealthEnded (Some e) => Some (Wrapf "health server" e)
            | HealthEnded None | ContextDone => None
            end
  end ∧
  ((main err).1 = 0 → is_Ok (Load env) = true ∧ (cause = ContextDone ∨ cause = HealthEnded None)).
Proof.
  intros Hs. destruct (runServe_cases env early es cause stopHealth w Hs) as (err & w' & E & H).
  exists err, w'. split; [exact E|]. split.
  - destruct (Load env) as [c|e]; [|done].
    destruct H as [(Hb & _ & H)|(-> & _)]; [left|right; by destruct cause as [[]|]].
    split; [|exact H]. unfold with_broker in Hb. by apply negb_true_iff, bool_decide_eq_false in Hb.
  - intros H0. destruct (Load env) as [c|e]; [|destruct H as [-> _]; discriminate H0].
    destruct H as [(_ & _ & e & ->)|(-> & _)]; [discriminate H0|]. split; [done|].
    destruct cause as [[e|]|]; [discriminate H0|by right|by left].
Qed.

(** A whole life of the process is safe, from its environment to its exit, on a bus, a
    broker and a sidecar that may fail anywhere and for any ticks, messages and
    reconnects.  [Deployment.end_to_end_safe] says what it comes to for the two processes
    together. *)
Lemma life_safe (env : Env) (early es : list happening) (cause : ExitCause)
    (stopHealth : State (World B) (option error)) (w w' : World B) err :
  calm (W := World B) stopHealth →
  runServe env early es cause stopHealth w = (Some err, w') → safe_bank (holding w) →
  (∃ L, landed w' = landed w ++ L ∧ (∀ a, holding w' a = write_regs (holding w) L a) ∧
     ∀ j i, 0 ≤ i ≤ 2 → both_set (slot_at (write_regs (holding w) (take j L)) i) = false) ∧
  (∃ fr, frames w' = frames w ++ fr ∧ Forall register_ok fr) ∧
  (∀ n, 0 ≤ n → n ≠ 1 → Z.testbit (holding w' 43110) n = Z.testbit (holding w 43110) n) ∧
  (∀ a, ¬ command_register a → holding w' a = holding w a) ∧
  (∀ c, Load env = Ok c → Config.ControlsEnabled c = false → frames w' = frames w).
Proof.
  intros Hs Hrun Hsafe. destruct (runServe_cases env early es cause stopHealth w Hs) as (err' & w1 & E & H).
  assert (w1 = w') as -> by congruence. clear E Hrun.
  assert (run_ok w w' ∧ ∀ c, Load env = Ok c → Config.ControlsEnabled c = false → frames w' = frames w)
    as [[(Hf & Hm & Ho) Hok] Hro].
  { destruct (Load env) as [c|e]; [|destruct H as [_ ->]; by split].
    destruct H as [(_ & Q & _)|(_ & window & a & l & w2 & w3 & u & Hwf & Q2 & Hr & Q3)].
    { split; [by apply quiet_ok|]. intros _ _ _. apply Q. }
    split.
    - transitivity w2; [by apply quiet_ok|]. transitivity w3; [|by apply quiet_ok].
      eapply happens_ok; [exact Hwf|exact Hr].
    - intros c0 [= <-] Hc. eapply happens_quiet in Hr as [_ Fr]; [|exact Hc].
      destruct Q2 as [_ F2], Q3 as [_ F3]. congruence. }
  split; [exact (Hok Hsafe)|]. by split_and!.
Qed.
End Laws.
End Serve.

(** ** The plant, with a broker and a sidecar that answers *)

#[export] Instance Plant_cm : Autopaho Plant := {
  NewConnection _ _ p := (None, p);
  AwaitConnection _ p := (None, p);
  cm_Publish ctx m := Publisher.Publish ctx (PTopic m) (PPayload m) (PRetain m);
  cm_Subscribe _ _ _ p := (None, p);
  cm_Disconnect _ p := (None, p);
}.
#[export] Instance Plant_doer : httpDoer Plant := λ _ _ p,
  (Ok {| StatusCode := 200; StatusText := "200 OK"; Body := Ok (JObj [], false); BodyErr := None |}, p).
#[export] Instance Plant_serve : ServeLaws (B := Plant).
Proof.
  split.
  - by intros a n p r p' [= _ <-].
  - by intros d p r p' [= _ <-].
  - by intros h req p r p' _ [= _ <-].
  - by intros cx cfg p r p' [= _ <-].
  - by intros cx p r p' [= _ <-].
  - by intros cx m p r p' [= _ <-].
  - by intros cx t q p r p' [= _ <-].
  - by intros cx p r p' [= _ <-].
Qed.
#[export] Instance Plant_time : TimePasses (W := Plant).
Proof.
  split; [|by intros h req p r p' [= _ <-]].
  intros d p p'. unfold Wait, Plant_context. intros [= _ <-]. apply Z.le_refl.
Qed.
#[export] Instance Plant_context_laws : ContextLaws Plant.
Proof. split. intros d p e p'. cbn. by intros [= He <-]. Qed.

Definition any_url : UrlParse := λ s, Ok s.

Definition live_env : Env := env_of [("INVERTER_IP", "192.0.2.7"); ("INVERTER_SERIAL", "1234567890");
  ("MQTT_BROKER_URL", "mqtt://localhost:1883")].

Definition no_listener : State (World Plant) (option error) := mret None.

Lemma no_listener_calm : calm (W := World Plant) no_listener.
Proof. apply calm_ret. Qed.

(** A reconnect and a message before the first poll, and more of both after it. *)
Definition demo_early : list happening := [ConnectionUp; Sched Tick; Sched (Inbound "solis/1234567890/optimal_income/set" "Run")].
Definition demo_late : list happening := (Sched <$> demo_events) ++ [ConnectionUp].

Definition demo_life (f : list fault) : option (option error) * World Plant :=
  runServe (up := any_url) (tz := dst_zone) (conv := demo_conv) demo_sprint live_env demo_early demo_late ContextDone
    no_listener (demo_world f).

Lemma serve_exit_witness : (demo_life [NoReply]).1 = Some None.
Proof.
  destruct (serve_exit (up := any_url) (tz := dst_zone) (conv := demo_conv) demo_sprint live_env demo_early demo_late
    ContextDone no_listener (demo_world [NoReply]) no_listener_calm) as (err & w' & E & _).
  unfold demo_life. rewrite E. cbn [fst]. f_equal.
  assert ((demo_life [NoReply]).1 = Some None) as Hv by (vm_compute; reflexivity).
  unfold demo_life in Hv. rewrite E in Hv. by injection Hv.
Defined.
