(* ===== verification/CommandLine.v ===== *)
(** * The command line (internal/cmd/root.go, cmd/main.go)

    The binary's commands and what running them comes to.  cobra and godotenv are
    libraries, so they are classes with what their documentation says as laws; a signal
    is what ends the run context, one of the causes a life of [serve] ends by. *)

From Stdlib Require Import Ascii.
From S2P Require Import Prelude GoInt GoString GoTime GoFloat GoHttp Json Block TimedSlots Schedule Telemetry.
From S2P Require Import Sidecar HomeAssistant Server Publisher Controls ControlsSafety Config Mqtt Scheduler SidecarClient.
From S2P Require Import Cmd CmdSafety Startup.

(** ** Commands *)

(** The members of a [cobra.Command] the program sets. *)
Inductive Command (P : Type) : Type := {
  Use : string;
  Short : string;
  SilenceErrors : bool;
  SilenceUsage : bool;
  PersistentPreRun : option (State P unit);
  RunE : option (State P (option error));
  Commands : list (Command P);
}.
Arguments Use {P} _.
Arguments Short {P} _.
Arguments SilenceErrors {P} _.
Arguments SilenceUsage {P} _.
Arguments PersistentPreRun {P} _.
Arguments RunE {P} _.
Arguments Commands {P} _.

Definition AddCommand {P} (root sub : Command P) : Command P := {|
  Use := Use root; Short := Short root; SilenceErrors := SilenceErrors root; SilenceUsage := SilenceUsage root;
  PersistentPreRun := PersistentPreRun root; RunE := RunE root; Commands := Commands root ++ [sub] |}.

Class Cobra (P : Type) : Type := ExecuteContext : Command P → list string → State P (option error).

Definition pre_run {P} (c : Command P) : State P unit := default (mret tt) (PersistentPreRun c).

(** A word that can only name a command: no flag, and none of cobra's own. *)
Definition command_word (w : string) : bool :=
  negb (bool_decide (w ∈ [""; "help"; "completion"; "__complete"; "__completeNoDesc"])) &&
  match w with String "-" _ => false | _ => true end.

(** A subcommand named by the only argument runs after the root's persistent hook; a word
    that names none is an error; and a root that runs nothing itself prints its help. *)
Class CobraLaws (P : Type) `{Cobra P} : Prop := {
  execute_sub root sub run : sub ∈ Commands root → (∀ c, c ∈ Commands root → Use c = Use sub → c = sub) →
    PersistentPreRun sub = None → RunE sub = Some run →
    ExecuteContext root [Use sub] = (_ ← pre_run root; run);
  execute_unknown root w p : command_word w = true → RunE root = None → (∀ c, c ∈ Commands root → Use c ≠ w) →
    ∃ e, ExecuteContext root [w] p = (Some e, p);
  execute_bare root p : RunE root = None → ExecuteContext root [] p = (None, p);
}.

(** [godotenv.Load()]: the variables of a .env file, where there is one, beside those
    already set.  Its error is dropped, as an absent file is usual. *)
Class DotEnv : Type := {
  dotenv_Load : Env → Env;
  dotenv_keeps env key value : env key = Some value → dotenv_Load env key = Some value;
}.

(** ** The process *)

Record Process (B : Type) : Type := { environ : Env; running : World B }.
Arguments environ {B} _.
Arguments running {B} _.

Section Binary.
Context {B : Type} `{rw : HoldingReadWriter B} `{input : RegisterReader B} `{cm : Autopaho B}.
Context `{doer : httpDoer B} `{up : UrlParse} `{clk : Clock_ B} `{ctx : Context_ B}.
Context `{tz : TimeZone} `{conv : FloatToUint16} `{dot : DotEnv} `{cobra : Cobra (Process B)}.
Context (sprint : json → string).

(** What the run of [serve] meets, as in [Startup.runServe]. *)
Context (early es : list happening) (cause : ExitCause) (stopHealth : State (World B) (option error)).

(** A life always comes to an end ([Startup.runServe_cases]): the last case never is. *)
Definition serveCmd : Command (Process B) := {|
  Use := "serve"; Short := "Run the poll -> sidecar -> MQTT manager";
  SilenceErrors := false; SilenceUsage := false; PersistentPreRun := None;
  RunE := Some (λ p,
    let '(r, w) := runServe sprint (environ p) early es cause stopHealth (running p) in
    (match r with Some err => err | None => None end, {| environ := environ p; running := w |}));
  Commands := [] |}.

(** [rootCmd] before [init] adds to it. *)
Definition rootCmd : Command (Process B) := {|
  Use := "solis-inverter-manager";
  Short := "Poll a Solis inverter (via a localhost sidecar) and publish to MQTT with Home Assistant autodiscovery";
  SilenceErrors := true; SilenceUsage := true;
  PersistentPreRun := Some (λ p, (tt, {| environ := dotenv_Load (environ p); running := running p |}));
  RunE := None; Commands := [] |}.

Definition init : Command (Process B) := AddCommand rootCmd serveCmd.

Definition Execute (args : list string) : State (Process B) (option error) := ExecuteContext init args.

(** The binary: its exit status and what it prints on the standard error. *)
Definition binary (args : list string) : State (Process B) (Z * string) := err ← Execute args; mret (main err).

(** *** What it comes to *)

Context `{cl : !CobraLaws (Process B)}.

Lemma binary_serve p err w :
  runServe sprint (dotenv_Load (environ p)) early es cause stopHealth (running p) = (Some err, w) →
  binary ["serve"] p = (main err, {| environ := dotenv_Load (environ p); running := w |}).
Proof.
  intros E. unfold binary, Execute. change "serve" with (Use serveCmd).
  erewrite (execute_sub init serveCmd); [|by apply list_elem_of_singleton| |done|done].
  - unfold mbind, state_bind, pre_run. cbn. by rewrite E.
  - by intros c ->%list_elem_of_singleton.
Qed.

(** Anything but [serve] fails, and nothing is run; no command prints the help. *)
Lemma binary_other word p : command_word word = true → word ≠ "serve" → ∃ text, binary [word] p = ((1, text), p).
Proof.
  intros Hc Hw. destruct (execute_unknown init word p Hc eq_refl) as (e & E).
  { intros c ->%list_elem_of_singleton. by apply not_eq_sym. }
  unfold binary, Execute, mbind, state_bind. rewrite E. by eexists.
Qed.

Lemma binary_bare p : binary [] p = ((0, ""), p).
Proof. unfold binary, Execute, mbind, state_bind. by rewrite (execute_bare init p). Qed.
End Binary.

(** ** A command line to run *)

#[local, refine] Instance demo_dot : DotEnv := {
  dotenv_Load env key := match env key with Some v => Some v | None => env_of [("LOG_LEVEL", "debug"); ("MODE", "mock")] key end;
}.
Proof. by intros env key v ->. Defined.

(** Finding the command by its name, and nothing else of cobra. *)
#[local] Instance demo_cobra {P} : Cobra P := λ root args,
  match args with
  | [] => mret None
  | w :: _ =>
      match List.find (λ c, bool_decide (Use c = w)) (Commands root) with
      | Some sub => _ ← pre_run root; default (mret None) (RunE sub)
      | None => mret (Some (Errorf ("unknown command " +:+ GoString.fmt_q w)))
      end
  end.

#[local] Instance demo_cobra_laws {P} : CobraLaws P.
Proof.
  split.
  - intros root sub run Hin Huniq _ Hrun. unfold ExecuteContext, demo_cobra.
    destruct (List.find _ (Commands root)) as [c|] eqn:E.
    + apply List.find_some in E as [Hc%list_elem_of_In E%bool_decide_eq_true].
      by rewrite (Huniq c Hc E), Hrun.
    + apply List.find_none with (x := sub) in E; [|by apply list_elem_of_In]. by rewrite bool_decide_eq_true_2 in E.
  - intros root w p _ _ Hno. unfold ExecuteContext, demo_cobra.
    destruct (List.find _ (Commands root)) as [c|] eqn:E; [|by eexists].
    apply List.find_some in E as [Hc%list_elem_of_In E%bool_decide_eq_true]. by destruct (Hno c Hc).
  - done.
Qed.

(** The binary serves from an environment completed by the .env file, and exits clean. *)
Example binary_run : (binary (up := any_url) (tz := dst_zone) (conv := demo_conv) demo_sprint demo_early demo_late
  ContextDone no_listener ["serve"] {| environ := live_env; running := demo_world [NoReply] |}).1 = (0, "").
Proof. vm_compute. reflexivity. Qed.
