(* ===== verification/HealthyLife.v ===== *)
(** * A whole life when things work

    From the environment to the exit, on an outside that answers: the manager gets past
    its startup, and between its first poll and its end everything it is told is carried
    out as [Panel] specifies, whatever the order of polls, messages and reconnects. *)

From S2P Require Import Prelude GoInt GoString GoTime GoFloat GoHttp Json Block TimedSlots Rtc Telemetry Schedule.
From S2P Require Import Sidecar HomeAssistant Server Publisher Controls ControlsSafety SafeRuns.
From S2P Require Import Config Mqtt SidecarClient Scheduler Cmd CmdSafety HealthyRuns Panel PanelRuns Startup.

(** ** An outside that answers *)

(** Every call but the register bus's, which is [HealthyBus]: the sidecar the client
    [cl] probes is there, input registers are read, the broker takes what it is given. *)
Class Working (B : Type) `{HealthyBus B} `{RegisterReader B} `{Autopaho B} `{httpDoer B} `{UrlParse} `{Clock_ B}
    (cl : SidecarClient.Client) : Type := {
  work_inputs : B → mem;
  work_inputs_words b a : is_uint16 (work_inputs b a);
  work_input a n b : is_uint16 a → 1 ≤ n ≤ MaxCount → healthy b → ∃ b',
    Telemetry.ReadInput a n b = (Ok (bank_words (work_inputs b) a (Z.to_nat n)), b') ∧ healthy b' ∧
    ∀ x, work_inputs b' x = work_inputs b x;
  work_probe dl b : healthy b → unixNano (Now b) < dl → ∃ b', probeServing (Some dl) cl b = (None, b') ∧ healthy b';
  work_new cx cfg b : healthy b → ∃ b', NewConnection cx cfg b = (None, b') ∧ healthy b';
  work_await cx b : healthy b → ∃ b', AwaitConnection cx b = (None, b') ∧ healthy b';
  work_publish cx m b : healthy b → ∃ b', cm_Publish cx m b = (None, b') ∧ healthy b';
  work_subscribe cx t q b : healthy b → ∃ b', cm_Subscribe cx t q b = (None, b') ∧ healthy b';
  work_disconnect cx b : healthy b → ∃ b', cm_Disconnect cx b = (None, b') ∧ healthy b';
}.

(** Its clock is not set back. *)
Class SteadyServe (B : Type) `{HoldingReadWriter B} `{RegisterReader B} `{Autopaho B} `{httpDoer B} `{Clock_ B} : Prop := {
  steady_read a n (b : B) r b' : Sidecar.ReadHolding a n b = (r, b') → later (Now b) (Now b');
  steady_write a v (b : B) r b' : Sidecar.WriteHolding a v b = (r, b') → later (Now b) (Now b');
  steady_input a n (b : B) r b' : Telemetry.ReadInput a n b = (r, b') → later (Now b) (Now b');
  steady_do h req (b : B) r b' : Do h req b = (r, b') → later (Now b) (Now b');
  steady_new cx cfg (b : B) r b' : NewConnection cx cfg b = (r, b') → later (Now b) (Now b');
  steady_await cx (b : B) r b' : AwaitConnection cx b = (r, b') → later (Now b) (Now b');
  steady_publish cx m (b : B) r b' : cm_Publish cx m b = (r, b') → later (Now b) (Now b');
  steady_subscribe cx t q (b : B) r b' : cm_Subscribe cx t q b = (r, b') → later (Now b) (Now b');
  steady_disconnect cx (b : B) r b' : cm_Disconnect cx b = (r, b') → later (Now b) (Now b');
}.

Section Life.
Context {B : Type} `{rw : HoldingReadWriter B} `{laws : !BusLaws B} `{hb : !HealthyBus B}.
Context `{input : RegisterReader B} `{cm : Autopaho B} `{doer : httpDoer B} `{up : UrlParse}.
Context `{clk : Clock_ B} `{ctx : Context_ B} `{tz : TimeZone} `{conv : FloatToUint16}.
Context `{sl : !ServeLaws (B := B)} `{st : !SteadyServe B}.
Context (sprint : json → string).

(** [smooth m]: on a healthy outside [m] leaves the inverter, the process and the health
    as they were, and takes no time back. *)
Definition smooth {A} (m : State (World B) A) : Prop := ∀ w r w', m w = (r, w') → healthy w →
  healthy w' ∧ quiet w w' ∧ same_process w w' ∧ later (Now w) (Now w').

Lemma smooth_inside {A} (m : State (World B) A) : (∀ w, (m w).2 = w) → smooth m.
Proof. intros Hm w r w' E Hw. specialize (Hm w). rewrite E in Hm. cbn in Hm. by subst w'. Qed.

Lemma smooth_ret {A} (a : A) : smooth (mret a).
Proof. by apply smooth_inside. Qed.

Lemma smooth_get {A} (f : World B → A) : smooth (λ w, (f w, w)).
Proof. by apply smooth_inside. Qed.

Lemma smooth_bind {A C} (m : State (World B) A) (f : A → State (World B) C) :
  smooth m → (∀ a, smooth (f a)) → smooth (m ≫= f).
Proof.
  intros Hm Hf w r w' (a & w1 & E1 & E2)%state_bind_inv Hw.
  destruct (Hm _ _ _ E1 Hw) as (H1 & Q1 & P1 & L1). destruct (Hf a _ _ _ E2 H1) as (H2 & Q2 & P2 & L2).
  split; [exact H2|]. split; [by transitivity w1|]. split; [by transitivity w1|by transitivity (Now w1)].
Qed.

Lemma smooth_lift {A} (m : State B A) : (∀ b r b', m b = (r, b') → healthy b →
  healthy b' ∧ quiet b b' ∧ later (Now b) (Now b')) → smooth (lift m).
Proof. intros Hm w r w' [E ->]%lift_inv Hw. by destruct (Hm _ _ _ E Hw) as (H1 & Q1 & L1). Qed.

Lemma smooth_logged step : (∀ f, step = Some f → smooth f) → smooth (logged step).
Proof.
  intros H. destruct step as [f|]; cbn; [|apply smooth_ret].
  apply smooth_bind; [by apply H|]. intros; apply smooth_ret.
Qed.

Section Loaded.
Context (c : Config.Config) `{wk : !Working B (SidecarClient.New (SidecarURL c) [] []).1}.
#[local] Instance life_pub : Publisher B := publisher_of c.

Lemma publisher_answers cx t p f b : healthy b → ∃ b', Publisher.Publish cx t p f b = (None, b') ∧ healthy b'.
Proof.
  intros Hb. unfold Publisher.Publish, life_pub, publisher_of.
  destruct (with_broker c); [|by exists b].
  destruct (work_publish cx {| QoS := 1; PTopic := t; PPayload := p; PRetain := f |} b Hb) as (b' & E & Hb').
  exists b'. split; [|exact Hb']. unfold client_publisher, Mqtt.Publish. by rewrite (state_bind_step _ _ _ _ _ E).
Qed.

Lemma publisher_steady cx t p f b r b' : Publisher.Publish cx t p f b = (r, b') → later (Now b) (Now b').
Proof.
  unfold Publisher.Publish, life_pub, publisher_of. destruct (with_broker c); [|by intros [= _ <-]].
  intros H. apply state_bind_inv in H as (x & b1 & E & H). injection H as _ <-. by apply steady_publish in E.
Qed.

#[local] Instance life_outside : OutsideLaws B.
Proof.
  split; [apply serve_input| |apply serve_wait]. intros cx t p f b r b'. apply calm_publish.
Qed.

#[local, refine] Instance life_healthy : HealthyOutside B := { inputs := work_inputs }.
Proof. apply work_inputs_words. apply work_input. apply publisher_answers. Defined.

#[local] Instance life_steady : SteadyClock B.
Proof. split; [apply steady_read|apply steady_write|apply steady_input|apply publisher_steady]. Qed.

(** A call that is answered, and what it answers. *)
Lemma smooth_answered {A} (m : State B A) x : (∀ b r b', m b = (r, b') → quiet b b') →
  (∀ b r b', m b = (r, b') → later (Now b) (Now b')) →
  (∀ b, healthy b → ∃ b', m b = (x, b') ∧ healthy b') →
  smooth (lift m) ∧ ∀ w : World B, healthy w → ∃ w', lift m w = (x, w') ∧ healthy w'.
Proof.
  intros Hq Hl Ha. split.
  - apply smooth_lift. intros b r b' E Hb. destruct (Ha b Hb) as (b1 & E1 & Hb1). assert (b1 = b') as <- by congruence.
    split; [exact Hb1|]. split; [by eapply Hq|by eapply Hl].
  - intros w Hw. destruct (Ha _ Hw) as (b' & E & Hb'). exists (set_outside b' w). unfold lift. by rewrite E.
Qed.

Lemma smooth_publish cx t p f : smooth (Publisher.Publish (W := World B) cx t p f).
Proof.
  apply (smooth_answered (Publisher.Publish cx t p f) None);
    [intros b r b'; apply publish_quiet|intros b r b'; apply publisher_steady|intros b; apply publisher_answers].
Qed.

Lemma smooth_publish_all what cx msgs : smooth (publish_all (W := World B) what cx msgs).
Proof.
  induction msgs as [|m msgs IH]; cbn [publish_all]; [apply smooth_ret|].
  apply smooth_bind; [apply smooth_publish|]. intros [e|]; [apply smooth_ret|exact IH].
Qed.

Lemma smooth_availability cfg cx on : smooth (PublishAvailability (W := World B) cfg cx on).
Proof. apply smooth_bind; [apply smooth_publish|]. intros; apply smooth_ret. Qed.

Lemma smooth_state cfg cx t sp : smooth (PublishState (W := World B) cfg cx t sp).
Proof.
  unfold PublishState. apply smooth_bind; [apply smooth_get|]. intros now.
  destruct (BuildState _ _ _ _) as [msg|e]; [|apply smooth_ret].
  apply smooth_bind; [apply smooth_publish|]. intros; apply smooth_ret.
Qed.

Lemma smooth_subscribe cx step : (λ f, f cx) <$> subscribe c = Some step → smooth step.
Proof.
  unfold subscribe. destruct (Config.ControlsEnabled c); [|done]. intros [= <-]. unfold Subscribe.
  apply smooth_lift. intros b r b' H Hb. apply state_bind_inv in H as (x & b1 & E & H). injection H as _ <-.
  destruct (work_subscribe cx (commandTopic c) 1 b Hb) as (b2 & E2 & Hb2). assert (b2 = b1) as <- by congruence.
  split; [exact Hb2|]. split; [by eapply serve_subscribe|by eapply steady_subscribe].
Qed.

Lemma smooth_republish cx : smooth (republish (Some (haConfig c)) (subscribe c) cx).
Proof.
  unfold republish. apply smooth_bind; [apply smooth_publish_all|]. intros _.
  apply smooth_bind; [apply smooth_publish_all|]. intros _. apply smooth_bind; [apply smooth_availability|]. intros _.
  apply smooth_bind; [|intros _; apply smooth_logged; intros f; apply smooth_subscribe].
  intros w r w'. unfold republish_state. destruct (LastState w) as [[tel sp] []]; [|by intros [= _ <-]].
  apply smooth_logged. intros f [= <-]. apply smooth_bind; [apply smooth_state|]. intros; apply smooth_ret.
Qed.

Lemma smooth_teardown stopHealth : (∀ w : World B, (stopHealth w).2 = w) →
  smooth (teardown_steps (teardown_of c stopHealth)).
Proof.
  intros Hs. unfold teardown_steps, teardown_of; cbn [offline disconnect Cmd.stopHealth].
  apply smooth_bind.
  { apply smooth_logged. destruct (with_broker c); [|done]. intros f [= <-]. apply smooth_availability. }
  intros _. apply smooth_bind.
  { apply smooth_logged. destruct (with_broker c); [|done]. intros f [= <-].
    apply (smooth_answered (cm_Disconnect _) None); [intros b r b'; apply serve_disconnect|intros b r b'; apply steady_disconnect|
      intros b; apply work_disconnect]. }
  intros _. apply smooth_logged. intros f [= <-]. by apply smooth_inside.
Qed.

Lemma smooth_exits cause stopHealth : (∀ w : World B, (stopHealth w).2 = w) →
  smooth (exits cause (teardown_of c stopHealth)).
Proof.
  intros Hs w r w'. rewrite exits_eq by done. intros [= _ <-].
  destruct (teardown_steps _ w) as [u w1] eqn:E. by eapply smooth_teardown.
Qed.

(** *** What happens, told to the panel *)

(** The events among what happens. *)
Definition heard (l : list happening) : list event :=
  omap (λ h, match h with Sched e => Some e | ConnectionUp => None end) l.

(** Ready, fresh and with a reading. *)
Definition reports (w : World B) : Prop :=
  Ready (status w) = true ∧ stale w = false ∧ have (lastGood w) = true.

Lemma reports_same w w' : same_process w w' → reports w → reports w'.
Proof. unfold reports. by intros (-> & -> & ->). Qed.

Section Assembled.
Context (window : TimedWindow) (assert_ : bool) (Hwin : Window_wf window).
Context (Hctl : Config.ControlsEnabled c = true).
Let s := scheduler_of sprint (serveConfig c) window assert_.
Let sync := Config.RTCSyncEnabled c.

Lemma poll_reports w u w' : healthy w → Slots_wf (slots_at (holding w)) → poll s w = (u, w') → reports w'.
Proof.
  intros Hw Hs H.
  destruct (poll_controls sprint (serveConfig c) window assert_ w Hw Hs)
    as (read & w1 & w2 & w3 & w4 & _ & _ & _ & _ & E & _ & _ & S4 & R4 & L4 & _).
  fold s in E. rewrite E in H. apply state_bind_inv in H as (u5 & w5 & E5 & H).
  assert (reports w4) as H4 by (split; [exact R4|split; [exact S4|]]; by injection L4).
  apply maybeReconcile_outward in H. apply (reports_same w5); [exact H|].
  apply maybeSyncRTC_run in E5 as [->|(_ & _ & r & _ & P)]; [exact H4|by apply (reports_same w4)].
Qed.

Lemma refresh_reports w u w' : healthy w → Slots_wf (slots_at (holding w)) → reports w →
  refreshState sprint (haConfig c) Background w = (u, w') → reports w'.
Proof.
  intros Hw Hs (Hr & _) H.
  destruct (newStateReader_healthy w Hw Hs) as (now & w1 & E1 & Hw1 & (_ & S1 & _) & F1).
  destruct (statePublisher_healthy sprint (haConfig c) Background (inputs (outside w)) (setpoints_of (holding w) now) w1)
    as (w2 & E2 & _ & F2 & _ & R2 & _); [exact Hw1|apply inputs_words| |].
  { apply setpoints_of_num, bus_words. }
  unfold refreshState in H. rewrite (state_bind_step _ _ _ _ _ E1) in H. cbv beta iota in H.
  rewrite (state_bind_step _ _ w1 None w2 E2) in H. injection H as _ <-.
  split; [|split; [|done]]; cbn; [unfold Ready in *; by rewrite R2, S1|by rewrite F2].
Qed.

Lemma command_reports topic payload w u w' : healthy w → Slots_wf (slots_at (holding w)) → reports w →
  ApplyCommand s topic payload w = (u, w') → reports w'.
Proof.
  intros Hw Hs Hr [->|(_ & key & r & w1 & _ & E & H)]%command_cases; [exact Hr|].
  assert (reports w1) as H1 by (eapply reports_same; [by eapply route_outward|exact Hr]).
  destruct H as [->|H]; [exact H1|]. refine (refresh_reports w1 u w' _ _ H1 H).
  all: by eapply (route_stays (handler sprint (serveConfig c) window assert_)).
Qed.

Lemma republish_told cx w u w' : healthy w → Slots_wf (slots_at (holding w)) →
  republish (Some (haConfig c)) (subscribe c) cx w = (u, w') →
  told window assert_ [] w w' ∧ (reports w → reports w').
Proof.
  intros Hw Hs E. destruct (smooth_republish _ _ _ _ E Hw) as (Hw' & [[U L] F] & P & T).
  split; [|by apply reports_same]. split; [exact Hw'|]. split; [by rewrite (slots_at_ext _ _ U)|].
  split; [|exact T]. apply (becomes_ext _ w w); [exact U|by apply becomes_same].
Qed.

Lemma happens_told l w : healthy w → Slots_wf (slots_at (holding w)) →
  ∃ ts w', happens c s l w = (tt, w') ∧ Forall2 (matches sync) (heard l) ts ∧
    told window assert_ ts w w' ∧ (reports w ∨ Sched Tick ∈ l → reports w').
Proof.
  revert w. induction l as [|h l IH]; intros w Hw Hs.
  { exists [], w. split; [done|]. split; [constructor|]. split; [|by intros [H|H%elem_of_nil]].
    split; [done|]. split; [done|]. split; [by apply becomes_same|done]. }
  assert (∃ ts1 w1, happen c s h w = (tt, w1) ∧ Forall2 (matches sync) (heard [h]) ts1 ∧
    told window assert_ ts1 w w1 ∧ (reports w ∨ h = Sched Tick → reports w1))
    as (ts1 & w1 & E & Hm & Ht & Hr).
  { destruct h as [[|topic payload]|].
    - destruct (poll_told sprint (serveConfig c) window assert_ Hwin Hctl w Hw Hs) as (now & set & w1 & E & Hset & Ht).
      exists [Polled now set], w1. split; [exact E|]. split; [by repeat constructor|]. split; [exact Ht|].
      intros _. by eapply poll_reports.
    - destruct (command_told sprint (serveConfig c) window assert_ Hwin Hctl topic payload w Hw Hs) as (now & w1 & E & Ht).
      exists [Said topic payload now], w1. split; [exact E|]. split; [by repeat constructor|]. split; [exact Ht|].
      intros [Hr|?]; [|done]. by eapply command_reports.
    - destruct (happen c s ConnectionUp w) as [[] w1] eqn:E. exists [], w1. split; [done|]. split; [constructor|].
      rewrite happen_up in E. destruct (republish_told _ w tt w1 Hw Hs E) as [Ht Hr].
      split; [exact Ht|]. intros [H|?]; [auto|done]. }
  destruct (IH w1) as (ts & w' & E' & Hms & Hts & Hrs); [apply Ht..|].
  exists (ts1 ++ ts), w'. cbn [happens]. rewrite (state_bind_step _ _ _ _ _ E). split; [exact E'|].
  split; [change (heard (h :: l)) with (heard ([h] ++ l)); unfold heard; rewrite omap_app; by apply Forall2_app|].
  split; [by eapply told_app|]. rewrite elem_of_cons. intros H. apply Hrs. naive_solver.
Qed.
End Assembled.

(** *** Startup *)

Lemma startup_answered (w : World B) : healthy w → ∃ w',
  lift (waitForSidecar (startup_fuel c) (SidecarClient.New (SidecarURL c) [] []).1 (SidecarStartupTimeout c)) w
    = (Some tt, w') ∧ healthy w' ∧ quiet w w' ∧ later (Now w) (Now w').
Proof.
  intros Hw. set (cl := (SidecarClient.New (SidecarURL c) [] []).1) in *.
  destruct (Z.leb_spec (SidecarStartupTimeout c) 0) as [Ht|Ht].
  { exists (set_outside (outside w) w). split; [|done]. unfold lift, waitForSidecar.
    by rewrite (proj2 (Z.leb_le _ _) Ht). }
  set (dl := unixNano (Now (outside w)) + SidecarStartupTimeout c).
  assert (unixNano (Now (outside w)) < dl) as Hdl by (apply Z.lt_add_pos_r; exact Ht).
  destruct (work_probe (cl := cl) dl (outside w) Hw Hdl) as (b & E & Hb).
  assert (later (Now (outside w)) (Now b)) as T.
  { revert E. unfold probeServing. destruct (wrap_err _ _) as [req|e]; [|done]. intros E.
    apply state_bind_inv in E as (x & b1 & E1 & E). apply steady_do in E1.
    unfold mret, state_ret in E. destruct x as [resp|e]; [destruct (negb _)|]; simplify_eq E; by intros <-. }
  assert (waitForSidecar (startup_fuel c) cl (SidecarStartupTimeout c) (outside w) = (Some tt, b)) as Ew.
  { unfold waitForSidecar. rewrite (proj2 (Z.leb_gt _ _) Ht). unfold startup_fuel. rewrite Nat.add_comm.
    cbn [Nat.add WaitUntilServing]. fold dl. by rewrite (state_bind_step _ _ _ _ _ E). }
  exists (set_outside b w). unfold lift. rewrite Ew. split; [done|]. apply calm_startup in Ew.
  split; [exact Hb|]. split; [exact Ew|exact T].
Qed.

Lemma connect_answered env (w : World B) : Load env = Ok c → healthy w → ∃ w',
  (if with_broker c then lift (Connect RunContext (mqttOptions c)) else mret (Ok tt)) w = (Ok tt, w') ∧
  healthy w' ∧ quiet w w' ∧ later (Now w) (Now w').
Proof.
  intros HL Hw. unfold with_broker. case_bool_decide as Hb; cbn [negb]; [by exists w|].
  pose proof (Load_cases env) as Hc. rewrite HL in Hc. destruct Hc as [Hc Hok].
  destruct (url_Parse (MQTTBrokerURL c)) as [u|e] eqn:Eu.
  2: { destruct (Hok "MQTT_BROKER_URL"). rewrite Hc in Hb, Eu. constructor; [exact Hb|].
       change (is_Ok (url_Parse (MQTTBrokerURL (config_of env))) = false). by rewrite Eu. }
  set (cfg := buildClientConfig (MQTTBrokerURL c) (mqttOptions c)).
  destruct (work_new RunContext cfg (outside w) Hw) as (b1 & E1 & H1). destruct (work_await RunContext b1 H1) as (b2 & E2 & H2).
  exists (set_outside b2 w). split; [|split; [exact H2|split]].
  - unfold lift, Connect. cbn [BrokerURL mqttOptions]. rewrite Eu. fold cfg.
    by rewrite (state_bind_step _ _ _ _ _ E1), (state_bind_step _ _ _ _ _ E2).
  - apply serve_new in E1. apply serve_await in E2. change (quiet (outside w) b2). by transitivity b1.
  - apply steady_new in E1. apply steady_await in E2. change (later (Now (outside w)) (Now b2)). by transitivity (Now b1).
Qed.
End Loaded.

(** ** Properties *)

(** C3: A whole life of the process does what it is asked.  Started from an environment
    that loads with controls enabled, on an outside that answers and with slots in
    range, the manager gets through its startup, every poll completes and every message
    is obeyed, whatever their order and wherever the broker reconnects, and the process
    ends with the exit error of what ended it.  The inverter is then as the pure
    specification says: each message has changed the panel as told, each poll has left
    it with the schedule of its moment, the clock was set only where that is enabled,
    the instants are those of a clock running from start to end, and no other register
    has changed.  The manager ends ready, its reading fresh and its cache filled. *)
Theorem life_refines_panel (env : Env) (early es : list happening) (cause : ExitCause)
    (stopHealth : State (World B) (option error)) (c : Config.Config)
    `{wk : !Working B (SidecarClient.New (SidecarURL c) [] []).1} (w : World B) :
  Load env = Ok c → Config.ControlsEnabled c = true → (∀ w, (stopHealth w).2 = w) →
  healthy w → Slots_wf (slots_at (holding w)) →
  ∃ window a ts w',
    ParseToUWindow (Config.TOUWindow c) = Ok (if a : bool then Some window else None) ∧
    runServe sprint env early es cause stopHealth w =
      (Some match cause with HealthEnded e => healthExitError e | ContextDone => None end, w') ∧
    Forall2 (matches (Config.RTCSyncEnabled c))
      (heard (List.filter (delivered c) (List.filter before_poll early ++ Sched Tick :: es))) ts ∧
    in_order (Now w) (ts ≫= stamps) (Now w') ∧
    becomes (foldl (follow window a) (panel_of (holding w)) ts) w w' ∧
    healthy w' ∧ reports w'.
Proof.
  intros HL Hctl Hstop Hw Hs.
  destruct (assembles sprint c) as (window & a & Hwin & Hp & Ha).
  { pose proof (Load_cases env) as Hc. rewrite HL in Hc. destruct Hc as [-> Hb]. by apply (Load_window_of env). }
  exists window, a.
  set (w0 := set_status (Server.New (statusConfig c) (Now w)) w).
  destruct (startup_answered c w0 Hw) as (w1 & E1 & H1 & Q1 & T1).
  destruct (connect_answered c env w1 HL H1) as (w2 & E2 & H2 & Q2 & T2).
  set (up_ := if with_broker c then republish (pub := publisher_of c) (Some (haConfig c)) (subscribe c) RunContext
            else mret tt).
  assert (smooth up_) as Hup.
  { unfold up_. destruct (with_broker c); [by apply smooth_republish|apply smooth_ret]. }
  destruct (up_ w2) as [[] w3] eqn:E3. destruct (Hup _ _ _ E3 H2) as (H3 & Q3 & _ & T3).
  assert (quiet w w3) as Q by (transitivity w1; [exact Q1|by transitivity w2]).
  set (l := List.filter (delivered c) (List.filter before_poll early ++ Sched Tick :: es)).
  destruct (happens_told c window a Hwin Hctl l w3 H3) as (ts & w4 & E4 & Hm & (H4 & _ & B4 & O4) & R4).
  { by rewrite (slots_at_ext _ (holding w) (proj1 (proj1 Q))). }
  destruct (exits cause (teardown_of c stopHealth) w4) as [err w'] eqn:E5.
  destruct (smooth_exits c cause stopHealth Hstop _ _ _ E5 H4) as (H5 & Q5 & P5 & T5).
  exists ts, w'. split; [exact Hp|]. split; [|split; [exact Hm|split; [|split; [|split; [exact H5|]]]]].
  - unfold runServe. rewrite HL, (state_bind_step _ _ _ tt w0) by done.
    rewrite (state_bind_step _ _ _ _ _ E1), (state_bind_step _ _ _ _ _ E2).
    unfold pub in Ha. rewrite Ha, (state_bind_step _ _ _ _ _ E3), (state_bind_step _ _ _ _ _ E4).
    rewrite exits_eq in E5 |- * by done. by injection E5 as _ <-.
  - apply (in_order_later (Now w) (Now w3) _ (Now w4)); [|exact O4|exact T5].
    transitivity (Now w1); [exact T1|by transitivity (Now w2)].
  - destruct Q as [[U _] _], Q5 as [[U5 _] _]. rewrite (panel_of_ext _ _ U) in B4.
    apply (becomes_ext _ w w4); [exact U5|]. destruct B4 as [Hb Hf]. split; [exact Hb|].
    intros x Hx. by rewrite Hf, U.
  - apply (reports_same w4); [exact P5|]. apply R4. right. unfold l.
    apply list_elem_of_In, List.filter_In. split; [|done]. apply list_elem_of_In, elem_of_app. right. by left.
Qed.
End Life.
