(* ===== verification/Interference.v ===== *)
(** * Reconnect hooks in the middle of things

    The reconnect hook of cmd/serve.go runs on a goroutine of its own and takes no part
    in the scheduler's mutex: its publications and its subscription fall between any two
    calls of a poll, a command or the startup.  [Busy B] is the outside [B] in which,
    before every call the manager makes, any messages are published and any topics
    subscribed; it keeps every law [B] keeps, so what [Startup] and [CmdSafety] prove of
    every outside holds with hooks firing anywhere.  When hooks leave a healthy bus
    healthy and the clock going, so do [Recovery]'s and [PanelRuns]'s theorems. *)

From S2P Require Import Prelude GoInt GoString GoTime GoFloat GoHttp Json Block Registers TimedSlots Telemetry Schedule.
From S2P Require Import Sidecar HomeAssistant Server Publisher Controls ControlsSafety SafeRuns.
From S2P Require Import Config Mqtt SidecarClient Scheduler Cmd CmdSafety HealthyRuns Panel PanelRuns Recovery Startup.

(** ** The busy outside *)

(** What a hook does to the outside; the results are only logged. *)
Inductive hook_call : Type := HookPublish (m : PahoPublish) | HookSubscribe (topic : string) (qos : Z).

(** [hooks]: what happens before each of the next calls. *)
Record Busy (B : Type) : Type := { undisturbed_ : B; hooks : list (list hook_call) }.
Arguments undisturbed_ {B} _.
Arguments hooks {B} _.

Section Busy.
Context {B : Type} `{cm : Autopaho B}.

Definition hook_run (b : B) (h : hook_call) : B :=
  match h with
  | HookPublish m => (cm_Publish HookContext m b).2
  | HookSubscribe t q => (cm_Subscribe HookContext t q b).2
  end.

Definition interrupt (w : Busy B) : Busy B := {|
  undisturbed_ := foldl hook_run (undisturbed_ w) (default [] (head (hooks w))); hooks := tail (hooks w) |}.

(** A call, hooks first. *)
Definition around {A} (m : State B A) : State (Busy B) A := λ w,
  let w1 := interrupt w in
  let '(a, b) := m (undisturbed_ w1) in (a, {| undisturbed_ := b; hooks := hooks w1 |}).

Lemma around_inv {A} (m : State B A) w r w' : around m w = (r, w') →
  m (undisturbed_ (interrupt w)) = (r, undisturbed_ w').
Proof. unfold around. destruct (m _) as [a b]. by intros [= <- <-]. Qed.

#[export] Instance Busy_rw `{rw : HoldingReadWriter B} : HoldingReadWriter (Busy B) := {
  Sidecar.ReadHolding a n := around (Sidecar.ReadHolding a n);
  Sidecar.WriteHolding a v := around (Sidecar.WriteHolding a v);
}.
#[export] Instance Busy_input `{RegisterReader B} : RegisterReader (Busy B) := λ a n, around (Telemetry.ReadInput a n).
#[export] Instance Busy_publisher `{Publisher B} : Publisher (Busy B) :=
  λ cx t p f, around (Publisher.Publish cx t p f).
#[export] Instance Busy_cm : Autopaho (Busy B) := {
  NewConnection cx cfg := around (NewConnection cx cfg);
  AwaitConnection cx := around (AwaitConnection cx);
  cm_Publish cx m := around (cm_Publish cx m);
  cm_Subscribe cx t q := around (cm_Subscribe cx t q);
  cm_Disconnect cx := around (cm_Disconnect cx);
}.
#[export] Instance Busy_doer `{doer : httpDoer B} : httpDoer (Busy B) := λ h req, around (Do h req).
#[export] Instance Busy_clock `{Clock_ B} : Clock_ (Busy B) := λ w, Now (undisturbed_ w).
#[export] Instance Busy_context `{Context_ B} : Context_ (Busy B) := {
  ctx_Err w := ctx_Err (undisturbed_ w);
  Wait d := around (Wait d);
}.

(** *** It keeps the laws *)

Section Laws.
Context `{rw : HoldingReadWriter B} `{input : RegisterReader B} `{doer : httpDoer B} `{clk : Clock_ B}.
Context `{ctx : Context_ B} `{laws : !BusLaws B} `{sl : !ServeLaws (B := B)}.

Lemma hooks_quiet l (b : B) : quiet b (foldl hook_run b l).
Proof.
  revert b. induction l as [|h l IH]; intros b; [done|]. cbn [foldl]. transitivity (hook_run b h); [|apply IH].
  destruct h as [m|t q]; cbn [hook_run].
  - destruct (cm_Publish HookContext m b) as [r b'] eqn:E. by eapply serve_publish.
  - destruct (cm_Subscribe HookContext t q b) as [r b'] eqn:E. by eapply serve_subscribe.
Qed.

Lemma interrupt_quiet w : quiet (undisturbed_ w) (undisturbed_ (interrupt w)).
Proof. apply hooks_quiet. Qed.

#[export, refine] Instance Busy_laws : BusLaws (Busy B) := {
  holding w := holding (undisturbed_ w);
  landed w := landed (undisturbed_ w);
  frames w := frames (undisturbed_ w);
}.
Proof.
  - intros w a. apply bus_words.
  - intros a n w r w' E%around_inv. destruct (interrupt_quiet w) as [[U L] F].
    apply bus_read in E as (H1 & H2 & H3 & H4). split; [intros b; by rewrite H1|].
    split; [congruence|]. split; [congruence|]. intros l Hl. destruct (H4 l Hl) as [t Ht]. exists t.
    rewrite <- Ht. by apply bank_words_ext.
  - intros a v w r w' Hv E%around_inv. destruct (interrupt_quiet w) as [[U L] F].
    apply bus_write in E; [|done]. cbv zeta in E |- *. destruct E as [H1 [[H2 H3]|[H2 H3]]].
    + split; [congruence|]. left. split; [intros b; by rewrite H2|congruence].
    + split; [congruence|]. right. split; [|congruence]. intros b. rewrite H2. unfold write_reg. by rewrite U.
Defined.

Lemma around_quiet {A} (m : State B A) : (∀ b r b', m b = (r, b') → quiet b b') →
  ∀ w r w', around m w = (r, w') → quiet w w'.
Proof.
  intros Hm w r w' E%around_inv%Hm. change (quiet (undisturbed_ w) (undisturbed_ w')).
  by transitivity (undisturbed_ (interrupt w)); [apply interrupt_quiet|].
Qed.

#[export] Instance Busy_serve : ServeLaws (B := Busy B).
Proof.
  split.
  - intros a n. apply around_quiet. intros b r b'. apply serve_input.
  - intros d. apply around_quiet. intros b r b'. apply serve_wait.
  - intros h req b r b' Hreq. apply (around_quiet (Do h req)). intros c r1 c'. by apply serve_probe.
  - intros cx cfg. apply around_quiet. intros b r b'. apply serve_new.
  - intros cx. apply around_quiet. intros b r b'. apply serve_await.
  - intros cx m. apply around_quiet. intros b r b'. apply serve_publish.
  - intros cx t q. apply around_quiet. intros b r b'. apply serve_subscribe.
  - intros cx. apply around_quiet. intros b r b'. apply serve_disconnect.
Qed.

(** Hooks do not set the clock back. *)
Class HookTime : Prop := hook_time h (b : B) : later (Now b) (Now (hook_run b h)).
Context `{ht : !HookTime} `{tp : !TimePasses (W := B)} `{cl : !ContextLaws B}.

Lemma hooks_time l (b : B) : later (Now b) (Now (foldl hook_run b l)).
Proof. revert b. induction l as [|h l IH]; intros b; [done|]. transitivity (Now (hook_run b h)); [apply hook_time|apply IH]. Qed.

Lemma interrupt_time w : later (Now w) (Now (undisturbed_ (interrupt w))).
Proof. apply (hooks_time _ (undisturbed_ w)). Qed.

Lemma around_time {A} (m : State B A) : (∀ b r b', m b = (r, b') → later (Now b) (Now b')) →
  ∀ w r w', around m w = (r, w') → later (Now w) (Now w').
Proof.
  intros Hm w r w' E%around_inv%Hm. change (later (Now w) (Now (undisturbed_ w'))).
  by transitivity (Now (undisturbed_ (interrupt w))); [apply interrupt_time|].
Qed.

#[export] Instance Busy_time : TimePasses (W := Busy B).
Proof.
  split.
  - intros d w w' E%around_inv%wait_time. pose proof (proj1 (interrupt_time w)).
    change (Now w') with (Now (undisturbed_ w')). lia.
  - intros h req w r w' E%around_inv%do_time. pose proof (proj1 (interrupt_time w)).
    change (Now w') with (Now (undisturbed_ w')). lia.
Qed.

#[export] Instance Busy_context_laws : ContextLaws (Busy B).
Proof. split. intros d w e w' E%around_inv%wait_err. exact E. Qed.

(** *** What publishes keeps its own laws *)

Section Published.
Context `{pub : Publisher B}.

#[export] Instance Busy_outside `{out : !OutsideLaws B} : OutsideLaws (Busy B).
Proof.
  split.
  - intros a n. apply around_quiet. intros b r b'. apply input_quiet.
  - intros cx t p f. apply around_quiet. intros b r b'. apply publish_quiet.
  - intros d. apply around_quiet. intros b r b'. apply wait_quiet.
Qed.

#[export] Instance Busy_steady `{st : !SteadyClock B} : SteadyClock (Busy B).
Proof.
  split.
  - intros a n. apply around_time. intros b r b'. apply read_steady.
  - intros a v. apply around_time. intros b r b'. apply write_steady.
  - intros a n. apply around_time. intros b r b'. apply input_steady.
  - intros cx t p f. apply around_time. intros b r b'. apply publish_steady.
Qed.

Context `{hb : !HealthyBus B} `{ho : !HealthyOutside B}.

(** A hook leaves a healthy outside healthy, and the input bank alone. *)
Class HookHealth : Prop := hook_health h (b : B) :
  healthy b → healthy (hook_run b h) ∧ ∀ x, inputs (hook_run b h) x = inputs b x.
Context `{hh : !HookHealth}.

Lemma interrupt_health w : healthy (undisturbed_ w) →
  healthy (undisturbed_ (interrupt w)) ∧ ∀ x, inputs (undisturbed_ (interrupt w)) x = inputs (undisturbed_ w) x.
Proof.
  unfold interrupt; cbn [undisturbed_]. generalize (default [] (head (hooks w))), (undisturbed_ w). intros l.
  induction l as [|h l IH]; intros b Hb; cbn [foldl]; [done|].
  destruct (hook_health h b Hb) as [H1 H2]. destruct (IH _ H1) as [H3 H4].
  split; [exact H3|]. intros x. by rewrite H4.
Qed.

(** A call that succeeds after the hooks succeeds. *)
Lemma around_step {A} (m : State B A) w r b : m (undisturbed_ (interrupt w)) = (r, b) →
  around m w = (r, {| undisturbed_ := b; hooks := hooks (interrupt w) |}).
Proof. intros E. unfold around. by rewrite E. Qed.

#[export, refine] Instance Busy_healthy : HealthyBus (Busy B) := { healthy w := healthy (undisturbed_ w) }.
Proof.
  - intros a n w Ha Hn [Hw _]%interrupt_health. destruct (healthy_read a n _ Ha Hn Hw) as (b & E & Hb).
    exists {| undisturbed_ := b; hooks := hooks (interrupt w) |}. split; [|exact Hb]. unfold Sidecar.ReadHolding, Busy_rw. rewrite (around_step _ _ _ _ E).
    do 2 f_equal. apply bank_words_ext, (interrupt_quiet w).
  - intros a v w [Hw _]%interrupt_health Ha Hv. destruct (healthy_write a v _ Hw Ha Hv) as (b & E & Hb & Hh & Hl).
    exists {| undisturbed_ := b; hooks := hooks (interrupt w) |}. split; [exact (around_step _ _ _ _ E)|]. split; [exact Hb|].
    destruct (interrupt_quiet w) as [[U L] _]. split; [|by rewrite L in Hl].
    intros x. cbn. rewrite Hh. unfold write_reg. by rewrite U.
Defined.

#[export, refine] Instance Busy_healthy_outside : HealthyOutside (Busy B) := { inputs w := inputs (undisturbed_ w) }.
Proof.
  - intros w. apply inputs_words.
  - intros a n w Ha Hn [Hw Hi]%interrupt_health. destruct (healthy_input a n _ Ha Hn Hw) as (b & E & Hb & Hx).
    exists {| undisturbed_ := b; hooks := hooks (interrupt w) |}. unfold Telemetry.ReadInput, Busy_input. rewrite (around_step _ _ _ _ E). split; [|split; [exact Hb|]].
    + do 2 f_equal. by apply bank_words_ext.
    + intros x. cbn. by rewrite Hx.
  - intros cx t p f w [Hw _]%interrupt_health. destruct (healthy_publish cx t p f _ Hw) as (b & E & Hb).
    exists {| undisturbed_ := b; hooks := hooks (interrupt w) |}. split; [exact (around_step _ _ _ _ E)|exact Hb].
Defined.
End Published.
End Laws.
End Busy.

(** ** On the plant *)

#[export] Instance Plant_hook_time : HookTime (B := Plant).
Proof. intros [m|t q] b; reflexivity. Qed.

#[export] Instance Plant_hook_health : HookHealth (B := Plant).
Proof. intros [m|t q] b Hb; (split; [exact Hb|done]). Qed.

(** A hook announces the manager online before each of the next [n] calls. *)
Definition busy_world (n : nat) (f : list fault) : World (Busy Plant) := {|
  outside := {| undisturbed_ := plant f; hooks := replicate n [HookPublish {| QoS := 1;
    PTopic := "solis/1234567890/availability"; PPayload := PText "online"; PRetain := true |}] |};
  status := status (demo_world f); stale := false; lastGood := lastGood (demo_world f) |}.

Definition busy_life (f : list fault) : option (option error) * World (Busy Plant) :=
  runServe (B := Busy Plant) (up := any_url) (tz := dst_zone) (conv := demo_conv) demo_sprint live_env demo_early
    demo_late ContextDone (mret None) (busy_world 12 f).

Lemma busy_listener_calm : calm (W := World (Busy Plant)) (mret None : State _ (option error)).
Proof. apply calm_ret. Qed.

(** Replies get lost on the way and hooks fire in between; the life still writes slots. *)
Lemma life_safe_witness :
  let w' := (busy_life [Fine; ReplyLost; Fine; NoReply]).2 in
  landed w' ≠ [] ∧ hooks (outside w') = [] ∧ (∃ fr, frames w' = [] ++ fr ∧ Forall register_ok fr).
Proof.
  cbv zeta. split; [vm_compute; discriminate|]. split; [vm_compute; reflexivity|].
  destruct (busy_life [Fine; ReplyLost; Fine; NoReply]) as [[err|] w'] eqn:E;
    [|exfalso; assert ((busy_life [Fine; ReplyLost; Fine; NoReply]).1 = Some None) as Hv
        by (vm_compute; reflexivity); rewrite E in Hv; discriminate Hv].
  destruct (life_safe (B := Busy Plant) (up := any_url) (tz := dst_zone) (conv := demo_conv) demo_sprint live_env
    demo_early demo_late ContextDone (mret None) (busy_world 12 [Fine; ReplyLost; Fine; NoReply]) w' err
    busy_listener_calm E) as (_ & Hf & _).
  - intros i Hi. assert (i = 0 ∨ i = 1 ∨ i = 2) as [-> |[-> | ->]] by lia; vm_compute; reflexivity.
  - exact Hf.
Defined.

Definition busy_scheduler : Scheduler (World (Busy Plant)) :=
  scheduler_of (B := Busy Plant) (tz := dst_zone) (conv := demo_conv) demo_sprint (demo_config true) demo_window true.

Lemma busy_assemble :
  assemble (B := Busy Plant) (tz := dst_zone) (conv := demo_conv) demo_sprint (demo_config true) = Ok busy_scheduler.
Proof. reflexivity. Qed.

Lemma busy_slots n f : Slots_wf (slots_at (holding (plant f))) → Slots_wf (slots_at (holding (busy_world n f))).
Proof. done. Qed.

(** The run of [bad_day], reconnecting before every call of it and of the poll after. *)
Lemma one_poll_recovers_witness :
  let _ : TimeZone := dst_zone in
  let w1 := (Run busy_scheduler bad_events (busy_world 60 bad_day)).2 in
  stale w1 = true ∧ ∃ w2 now, poll busy_scheduler w1 = (tt, w2) ∧ stale w2 = false ∧
    slots_at (holding w2) = Desired demo_window true (slots_at (holding w1)) now ∧
    (length (hooks (outside w2)) < length (hooks (outside w1)))%nat.
Proof.
  intros tz w1. split; [vm_compute; reflexivity|].
  destruct (one_poll_recovers (conv := demo_conv) demo_sprint (demo_config true) busy_scheduler
    bad_events (busy_world 60 bad_day) w1 busy_assemble eq_refl (busy_slots 60 _ bad_day_slots)
    (unit_eta (Run busy_scheduler bad_events (busy_world 60 bad_day))))
    as (read & published & now & w2 & E & _ & _ & S & _ & _ & window & a & Hp & Hd).
  - split; [vm_compute; reflexivity|]. split; vm_compute; reflexivity.
  - exists w2, now. split; [exact E|]. split; [exact S|]. split.
    + rewrite Hd. destruct a; [injection Hp as <-; reflexivity|discriminate Hp].
    + apply (f_equal snd) in E. cbn [snd] in E. rewrite <- E. vm_compute. lia.
Defined.

Lemma busy_world_healthy : healthy (busy_world 60 []).
Proof. split; [reflexivity|split; reflexivity]. Qed.

(** Commands are carried out to the letter while hooks fire. *)
Lemma run_refines_panel_witness :
  let _ : TimeZone := dst_zone in
  let w := busy_world 60 [] in
  ∃ ts w', Run busy_scheduler demo_run w = (tt, w') ∧ length ts = 4%nat ∧
    panel_of (holding w') =
      foldl (follow (conv := demo_conv) demo_window true) (panel_of (holding w)) ts ∧
    PCharge (panel_of (holding w')) = 300 ∧ (length (hooks (outside w')) < 60)%nat.
Proof.
  intros tz w.
  destruct (run_refines_panel (conv := demo_conv) demo_sprint (demo_config true) demo_window true demo_run w
    busy_world_healthy (busy_slots 60 _ demo_world_slots) demo_window_wf eq_refl)
    as (ts & w' & E & _ & Hm & _ & P & _).
  exists ts, w'. split; [exact E|]. split; [exact (eq_sym (Forall2_length _ _ _ Hm))|]. split; [exact P|].
  apply (f_equal snd) in E. cbn [snd] in E. rewrite <- E.
  split; [vm_compute; reflexivity|vm_compute; lia].
Defined.
