(* ===== verification/Deployment.v ===== *)
(** * The two processes together

    The manager over its own client, a connection that loses messages or delivers them
    late, the sidecar's server and a transport: every register call and the startup's
    health probe cross the same connection.  What is left outside is the broker, the
    clock and the context.  The stack keeps the laws the rest of the development assumes
    of the outside, so what is proved of any outside is proved of it; and when the
    connection and the transport work it is a healthy one. *)

From S2P Require Import Prelude GoInt GoString GoTime GoFloat GoHttp Json Block Registers TimedSlots Telemetry Schedule.
From S2P Require Import Sidecar HomeAssistant Server Publisher Controls ControlsSafety SafeRuns.
From S2P Require Import Config PyText SidecarConfig Mqtt Scheduler SidecarClient SidecarServer SidecarWire LateWire.
From S2P Require Import Cmd CmdSafety HealthyRuns Panel PanelRuns Recovery Startup HealthyLife Interference.

(** ** A transport that works

    [serving] states answer every read with the words of their bank and take every
    write, and stay serving. *)
Class Serving (D : Type) `{TransportLaws D} : Type := {
  serving : D → Prop;
  tinputs : D → mem;
  tinputs_words d a : is_uint16 (tinputs d a);
  serving_holding a n d : in_range a n → serving d → ∃ d',
    read_holding a n d = (Returns (bank_words (tbank d) a (Z.to_nat n)), d') ∧ serving d';
  serving_input a n d : in_range a n → serving d → ∃ d',
    read_input a n d = (Returns (bank_words (tinputs d) a (Z.to_nat n)), d') ∧ serving d' ∧
    ∀ x, tinputs d' x = tinputs d x;
  serving_write a v d : is_uint16 a → is_uint16 v → serving d → ∃ d',
    write_holding a v d = (Returns v, d') ∧ serving d' ∧
    (∀ b, tbank d' b = write_reg (tbank d) {| Addr := a; Value := v |} b) ∧
    tlanded d' = tlanded d ++ [ {| Addr := a; Value := v |} ];
  serving_health d : serving d → ∃ d', health d = (true, d') ∧ serving d';
}.

Lemma mock_bank_words m a n : map_Forall (λ _ v, is_uint16 v) (_regs m) → Forall is_uint16 (bank_words (mock_get m) a n).
Proof.
  intros Hm. unfold bank_words. apply Forall_fmap, Forall_forall. intros i _. cbn. unfold mock_get.
  destruct (_regs m !! _) as [v|] eqn:E; [by apply Hm in E|done].
Qed.

(** The mock works when its fixtures hold words, as they do. *)
#[export, refine] Instance Mock_serving : Serving (Traced MockTransport) := {
  serving t := map_Forall (λ _ v, is_uint16 v) (_regs (traced t));
  tinputs t a := to_uint16 (mock_get (traced t) a);
}.
Proof.
  - intros t a. int_unfold. Z.div_mod_to_equations. lia.
  - intros a n t _ Ht. exists t. split; [|exact Ht]. destruct t as [m l]; cbn.
    unfold on_traced; cbn. rewrite mock_words, (uint16_words (mock_get m)); [done|].
    apply mock_bank_words, Ht.
  - intros a n t _ Ht. exists t. split; [|done]. destruct t as [m l]; cbn.
    unfold on_traced; cbn. rewrite mock_words, (uint16_words (mock_get m)); [done|].
    apply mock_bank_words, Ht.
  - intros a v t Ha Hv Ht. eexists. split; [reflexivity|]. split; [|split; [|done]].
    + cbn. apply map_Forall_insert_2; [by rewrite land_word|exact Ht].
    + intros b. cbn in *. rewrite mock_get_insert, land_word by done. unfold write_reg; cbn.
      destruct (b =? a); [|done]. apply Z.mod_small. exact Hv.
  - intros t Ht. by exists {| traced := traced t; log := log t |}.
Defined.

(** So a mock that the sidecar's entry point starts works. *)
Lemma mock_starts_serving `{Files} paths t : MockTransport_new paths = Returns t → serving {| traced := t; log := [] |}.
Proof. apply mock_words_start. Qed.

(** The live transport works when the library does; a closed socket is opened again. *)
Class SolarmanUp (S : Type) `{SolarmanLaws S} : Type := {
  s_up : S → Prop;
  s_inputs : S → mem;
  s_inputs_words s a : is_uint16 (s_inputs s a);
  up_connect s : s_up s → ∃ s', connect s = (None, s') ∧ s_up s' ∧ ∀ x, s_inputs s' x = s_inputs s x;
  up_holding a n s : in_range a n → s_up s → ∃ l s', read_holding_registers a n s = (inr l, s') ∧ s_up s';
  up_input a n s : in_range a n → s_up s → ∃ s',
    read_input_registers a n s = (inr (bank_words (s_inputs s) a (Z.to_nat n)), s') ∧ s_up s' ∧
    ∀ x, s_inputs s' x = s_inputs s x;
  up_write a v s : is_uint16 a → is_uint16 v → s_up s → ∃ s',
    write_holding_register a v s = (inr v, s') ∧ s_up s' ∧
    (∀ b, sbank s' b = write_reg (sbank s) {| Addr := a; Value := v |} b) ∧
    slanded s' = slanded s ++ [ {| Addr := a; Value := v |} ];
}.

Section Live.
Context {S : Type} `{lib : PySolarmanV5 S} `{sl : !SolarmanLaws S} `{su : !SolarmanUp S}.

Lemma call_up {A} (fn : State S (exception + A)) t : s_up (wire t) → ∃ s1,
  s_up s1 ∧ same_bank (wire t) s1 ∧ (∀ x, s_inputs s1 x = s_inputs (wire t) x) ∧
  ∀ a s2, fn s1 = (inr a, s2) → ∃ t', _call fn t = (Returns a, t') ∧ wire t' = s2.
Proof.
  intros Ht. unfold _call, _connect_if_needed, on_wire, mbind, state_bind, mret, state_ret.
  destruct (_solarman t).
  - exists (wire t). split; [exact Ht|]. split; [done|]. split; [done|].
    intros a s2 E. cbn. rewrite E. eexists. split; reflexivity.
  - destruct (up_connect (wire t) Ht) as (s1 & E & H1 & Hx). exists s1.
    split; [exact H1|]. split; [by apply s_connect in E|]. split; [exact Hx|].
    intros a s2 Ef. rewrite E. cbn. rewrite Ef. eexists. split; reflexivity.
Qed.

#[export, refine] Instance Live_serving : Serving (LiveTransport S) := {
  serving t := s_up (wire t);
  tinputs t := s_inputs (wire t);
}.
Proof.
  - intros t a. apply s_inputs_words.
  - intros a n t Hin Ht. destruct (call_up (read_holding_registers a n) t Ht) as (s1 & H1 & [Hb _] & _ & Hc).
    destruct (up_holding a n s1 Hin H1) as (l & s2 & E & H2). destruct (Hc l s2 E) as (t' & Ec & Ew).
    exists t'. split; [|by rewrite Ew].
    apply s_holding in E as (_ & _ & Hl). rewrite (Hl l eq_refl) in Ec. rewrite <- (bank_words_ext _ _ a _ Hb). exact Ec.
  - intros a n t Hin Ht. destruct (call_up (read_input_registers a n) t Ht) as (s1 & H1 & _ & Hx & Hc).
    destruct (up_input a n s1 Hin H1) as (s2 & E & H2 & Hx2). destruct (Hc _ s2 E) as (t' & Ec & Ew).
    exists t'. rewrite Ew. split; [|split; [exact H2|intros x; by rewrite Hx2]].
    rewrite <- (bank_words_ext _ _ a _ Hx). exact Ec.
  - intros a v t Ha Hv Ht. destruct (call_up (write_holding_register a v) t Ht) as (s1 & H1 & [Hb Hl] & _ & Hc).
    destruct (up_write a v s1 Ha Hv H1) as (s2 & E & H2 & U & L). destruct (Hc v s2 E) as (t' & Ec & Ew).
    exists t'. cbn [tbank tlanded Live_laws]. rewrite Ew. split; [exact Ec|]. split; [exact H2|]. split; [|congruence].
    intros b. rewrite U. unfold write_reg. by rewrite Hb.
  - intros t Ht. destruct (call_up (read_input_registers _HEALTH_PROBE_ADDR 1) t Ht) as (s1 & H1 & _ & _ & Hc).
    destruct (up_input _HEALTH_PROBE_ADDR 1 s1 ltac:(done) H1) as (s2 & E & H2 & _).
    destruct (Hc _ s2 E) as (t' & Ec & Ew). exists t'. rewrite Ew. split; [|exact H2].
    unfold health, Live. by rewrite (state_bind_step _ _ _ _ _ Ec).
Defined.
End Live.

(** ** A GET leaves the inverter alone *)

Section Get.
Context {D : Type} `{up : UrlParse} `{tr : Transport D} `{tl : !TransportLaws D} (mode : string).
#[local] Instance get_doer : httpDoer (LateWire D) := Late_doer mode.
#[local] Instance get_wire_doer : httpDoer (Wire D) := Wire_doer mode.

Lemma serve_get path req d : Method req = "GET" →
  (∀ b, tbank (serve mode path req d).2 b = tbank d b) ∧ tlanded (serve mode path req d).2 = tlanded d.
Proof.
  intros Hm. unfold serve. rewrite bool_decide_eq_true_2 by done. unfold do_GET.
  case_bool_decide; [|done]. unfold _handle_health, mbind, state_bind, mret, state_ret.
  destruct (health d) as [r d'] eqn:E. by apply t_health in E.
Qed.

Lemma written_get req : Method req = "GET" → written req = [].
Proof. intros Hm. unfold written. by rewrite Hm. Qed.

Lemma get_calm h req w r w' : Method req = "GET" → Do h req w = (r, w') →
  calm_between mode w w' ∧ lrequests w' = lrequests w.
Proof.
  intros Hm H%(Do_forget mode). revert H. unfold Do, on_wire_doer, Wire_doer. cbn [forget server plan requests].
  destruct (next_delivery ((λ '(_, f), kept f) <$> lplan w)) as [f fs]. rewrite written_get, app_nil_r by done. unfold calm_between.
  assert (∀ x : result Response * D, x = match url_Parse (URL req) with
      | Ok path => let '(resp, d) := serve mode path req (settled mode w) in (Ok resp, d)
      | Err e => (Err e, settled mode w) end →
    (∀ b, tbank x.2 b = tbank (settled mode w) b) ∧ tlanded x.2 = tlanded (settled mode w)) as Hs.
  { intros x ->. destruct (url_Parse _) as [path|e]; [|done].
    pose proof (serve_get path req (settled mode w) Hm) as H. by destruct (serve mode path req _). }
  specialize (Hs _ eq_refl). destruct (match url_Parse _ with Ok _ => _ | Err _ => _ end) as [x d]. cbn [snd] in Hs |- *.
  destruct f; intros H; apply (f_equal snd) in H; cbn [snd] in H; injection H as Hd _ Hr; by rewrite <- Hd, <- Hr.
Qed.
End Get.

(** ** The client over a link that delivers *)

Section Link.
Context {D : Type} `{up : UrlParse} `{tr : Transport D} `{tl : !TransportLaws D} `{sv : !Serving D}.
Context (mode : string) (c : Client) (Hu : sidecar_url c).
#[local] Instance link_doer : httpDoer (LateWire D) := Late_doer mode.
#[local] Instance forgotten_doer : httpDoer (Wire D) := Wire_doer mode.

(** From here on every request is delivered and answered in time, by a transport that
    works once what waits is done. *)
Definition delivers (w : LateWire D) : Prop := Forall (λ f, f.2 = Kept Delivered) (lplan w).
Definition works (w : LateWire D) : Prop := delivers w ∧ serving (settled mode w).

Lemma forget_prompt w : delivers w → prompt (forget mode w).
Proof. intros H. unfold prompt; cbn. apply Forall_fmap. eapply Forall_impl; [exact H|]. intros [n f] Hf. cbn in Hf |- *. by rewrite Hf. Qed.

(** What a prompt call leaves, seen in the real link. *)
Lemma forget_left w w' d rq : delivers w →
  forget mode w' = {| server := d; plan := tail (plan (forget mode w)); requests := rq |} →
  settled mode w' = d ∧ lrequests w' = rq ∧ delivers w'.
Proof.
  intros Hw [= Hd Hp Hr]. split; [done|]. split; [done|]. unfold delivers.
  assert (Forall (eq Delivered) ((λ '(_, f), kept f) <$> lplan w')) as H.
  { rewrite Hp. pose proof (forget_prompt w Hw) as H. unfold prompt in H. cbn in H.
    destruct H; [constructor|done]. }
  rewrite Forall_fmap in H. eapply Forall_impl; [exact H|]. intros [n [[]|]] Hf; by cbn in Hf.
Qed.

(** A run of the real link, from one of the wire it stands for. *)
Lemma run_left {A} (m : State (LateWire D) A) (m' : State (Wire D) A) w x d rq : delivers w →
  (∀ r w', m w = (r, w') → m' (forget mode w) = (r, forget mode w')) →
  m' (forget mode w) = (x, {| server := d; plan := tail (plan (forget mode w)); requests := rq |}) →
  ∃ w', m w = (x, w') ∧ settled mode w' = d ∧ lrequests w' = rq ∧ delivers w'.
Proof.
  intros Hw Hf E. destruct (m w) as [r w'] eqn:Em. rewrite (Hf r w' eq_refl) in E.
  pose proof (f_equal snd E) as Es. apply (f_equal fst) in E. cbn [fst snd] in E, Es. subst r.
  exists w'. split; [done|]. by apply (forget_left w).
Qed.

Lemma client_holding a n w : works w → in_range a n → ∃ w',
  SidecarClient.ReadHolding c a n w = (Ok (bank_words (tbank (settled mode w)) a (Z.to_nat n)), w') ∧
  works w' ∧ lrequests w' = lrequests w.
Proof.
  intros [Hw Hs] Hin. destruct (serving_holding a n _ Hin Hs) as (d & E & Hd).
  destruct (run_left (SidecarClient.ReadHolding c a n) (SidecarClient.ReadHolding c a n) w
    (Ok (bank_words (tbank (settled mode w)) a (Z.to_nat n))) d (lrequests w) Hw) as (w' & Ew & Es & Er & Hw').
  - intros r w'. apply ReadHolding_forget.
  - apply (client_read_delivered mode c "/read_holding" read_holding); try done; [constructor|by apply forget_prompt|].
    apply Forall_fmap, Forall_forall. intros i _. apply tbank_words.
  - exists w'. split; [exact Ew|]. split; [|exact Er]. split; [exact Hw'|]. by rewrite Es.
Qed.

Lemma client_input a n w : works w → in_range a n → ∃ w',
  SidecarClient.ReadInput c a n w = (Ok (bank_words (tinputs (settled mode w)) a (Z.to_nat n)), w') ∧
  works w' ∧ lrequests w' = lrequests w ∧ ∀ x, tinputs (settled mode w') x = tinputs (settled mode w) x.
Proof.
  intros [Hw Hs] Hin. destruct (serving_input a n _ Hin Hs) as (d & E & Hd & Hx).
  destruct (run_left (SidecarClient.ReadInput c a n) (SidecarClient.ReadInput c a n) w
    (Ok (bank_words (tinputs (settled mode w)) a (Z.to_nat n))) d (lrequests w) Hw) as (w' & Ew & Es & Er & Hw').
  - intros r w'. apply ReadInput_forget.
  - apply (client_read_delivered mode c "/read_input" read_input); try done; [constructor|by apply forget_prompt|].
    apply Forall_fmap, Forall_forall. intros i _. apply tinputs_words.
  - exists w'. rewrite Es. split; [exact Ew|]. split; [|split; [exact Er|exact Hx]]. split; [exact Hw'|]. by rewrite Es.
Qed.

Lemma client_write a v w : works w → is_uint16 a → is_uint16 v → ∃ w',
  SidecarClient.WriteHolding c a v w = (Ok tt, w') ∧ works w' ∧
  lrequests w' = lrequests w ++ [ {| Addr := a; Value := v |} ] ∧
  (∀ b, tbank (settled mode w') b = write_reg (tbank (settled mode w)) {| Addr := a; Value := v |} b) ∧
  tlanded (settled mode w') = tlanded (settled mode w) ++ [ {| Addr := a; Value := v |} ].
Proof.
  intros [Hw Hs] Ha Hv. destruct (serving_write a v _ Ha Hv Hs) as (d & E & Hd & U & L).
  destruct (run_left (SidecarClient.WriteHolding c a v) (SidecarClient.WriteHolding c a v) w
    (Ok tt) d (lrequests w ++ [ {| Addr := a; Value := v |} ]) Hw) as (w' & Ew & Es & Er & Hw').
  - intros r w'. apply WriteHolding_forget.
  - eapply (client_write_delivered mode); [done|by apply forget_prompt|done..|exact E].
  - exists w'. rewrite Es. split; [exact Ew|]. split; [split; [exact Hw'|by rewrite Es]|]. done.
Qed.

Lemma client_probe dl w : works w → ∃ w', probeServing dl c w = (None, w') ∧ works w' ∧ lrequests w' = lrequests w.
Proof.
  intros [Hw Hs]. destruct (serving_health _ Hs) as (d & E & Hd).
  assert (Hp : url_Parse (baseURL c +:+ "/health") = Ok "/health") by (apply Hu; by apply (bool_decide_unpack _)).
  destruct (run_left (probeServing dl c) (probeServing dl c) w None d (lrequests w) Hw) as (w' & Ew & Es & Er & Hw').
  - intros r w'. unfold probeServing. destruct (wrap_err _ _) as [req|e]; [|by intros [= <- <-]].
    intros (x & w1 & E1 & H)%state_bind_inv. rewrite (state_bind_step _ _ _ _ _ (Do_forget mode _ _ _ _ _ E1)).
    destruct x as [resp|e]; [destruct (negb _)|]; by injection H as <- <-.
  - unfold probeServing, NewRequest. rewrite Hp. cbn [wrap_err mbind result_bind].
    set (req := {| Method := "GET"; URL := _; ReqBody := _; Header := _; ReqDeadline := _ |}).
    pose proof (Do_delivered mode (http c) req "/health" (forget mode w) Hp (forget_prompt w Hw)) as Ed.
    assert (serve mode "/health" req (settled mode w) = (_send_json 200
      [("ok", JBool true); ("inverter_reachable", JBool true); ("mode", JStr mode)], d)) as Es.
    { change (serve mode "/health" req) with (r ← _handle_health mode; mret (answer r)). unfold _handle_health.
      unfold mbind, state_bind at 1 2. by rewrite E. }
    cbn [server forget] in Ed. rewrite Es in Ed. rewrite (state_bind_step _ _ _ _ _ Ed).
    cbn. by rewrite app_nil_r.
  - exists w'. split; [exact Ew|]. split; [split; [exact Hw'|by rewrite Es]|exact Er].
Qed.
End Link.

(** ** The manager's outside *)

(** The link to the inverter, and the rest: broker, clock and context. *)
Record Deployment (D R : Type) : Type := { link : LateWire D; rest : R }.
Arguments link {D R} _.
Arguments rest {D R} _.

(** What goes on in the rest while a call is out on the link. *)
Class Elsewhere (R : Type) : Type := meanwhile : R → R.

(** Time passes in the rest, and no call sets its clock back. *)
Class RestTime (R : Type) `{Autopaho R} `{Clock_ R} `{Context_ R} `{Elsewhere R} : Prop := {
  meanwhile_later (r : R) : later (Now r) (Now (meanwhile r));
  rest_wait_time d (r : R) r' : Wait d r = (None, r') → unixNano (Now r) + d ≤ unixNano (Now r');
  rest_new_time cx cfg (r : R) x r' : NewConnection cx cfg r = (x, r') → later (Now r) (Now r');
  rest_await_time cx (r : R) x r' : AwaitConnection cx r = (x, r') → later (Now r) (Now r');
  rest_publish_time cx m (r : R) x r' : cm_Publish cx m r = (x, r') → later (Now r) (Now r');
  rest_subscribe_time cx t q (r : R) x r' : cm_Subscribe cx t q r = (x, r') → later (Now r) (Now r');
  rest_disconnect_time cx (r : R) x r' : cm_Disconnect cx r = (x, r') → later (Now r) (Now r');
}.

(** A broker that takes what it is given, from the states in [rest_ok] on. *)
Class RestWorks (R : Type) `{Autopaho R} `{Elsewhere R} : Type := {
  rest_ok : R → Prop;
  rest_meanwhile r : rest_ok r → rest_ok (meanwhile r);
  rest_new cx cfg r : rest_ok r → ∃ r', NewConnection cx cfg r = (None, r') ∧ rest_ok r';
  rest_await cx r : rest_ok r → ∃ r', AwaitConnection cx r = (None, r') ∧ rest_ok r';
  rest_publish cx m r : rest_ok r → ∃ r', cm_Publish cx m r = (None, r') ∧ rest_ok r';
  rest_subscribe cx t q r : rest_ok r → ∃ r', cm_Subscribe cx t q r = (None, r') ∧ rest_ok r';
  rest_disconnect cx r : rest_ok r → ∃ r', cm_Disconnect cx r = (None, r') ∧ rest_ok r';
}.

Section Deployed.
Context {D R : Type} `{up : UrlParse} `{tr : Transport D} `{cm : Autopaho R} `{clk : Clock_ R} `{ctx : Context_ R}.
Context `{els : Elsewhere R} (mode : string) (c : Client).

Definition on_link {A} (m : State (LateWire D) A) : State (Deployment D R) A := λ w,
  let '(a, l) := m (link w) in (a, {| link := l; rest := meanwhile (rest w) |}).
Definition on_rest {A} (m : State R A) : State (Deployment D R) A := λ w,
  let '(a, r) := m (rest w) in (a, {| link := link w; rest := r |}).

Lemma on_link_inv {A} (m : State (LateWire D) A) w a w' : on_link m w = (a, w') →
  m (link w) = (a, link w') ∧ rest w' = meanwhile (rest w).
Proof. unfold on_link. destruct (m (link w)). by intros [= <- <-]. Qed.

Lemma on_rest_inv {A} (m : State R A) w a w' : on_rest m w = (a, w') →
  m (rest w) = (a, rest w') ∧ link w' = link w.
Proof. unfold on_rest. destruct (m (rest w)). by intros [= <- <-]. Qed.

#[local] Instance link_late_doer : httpDoer (LateWire D) := Late_doer mode.

Definition deployed_bus : HoldingReadWriter (Deployment D R) := {|
  Sidecar.ReadHolding a n := on_link (SidecarClient.ReadHolding c a n);
  Sidecar.WriteHolding a v := on_link (SidecarClient.WriteHolding c a v) |}.
Definition deployed_input : RegisterReader (Deployment D R) := λ a n, on_link (SidecarClient.ReadInput c a n).
Definition deployed_doer : httpDoer (Deployment D R) := λ h req, on_link (Do h req).
#[export] Instance deployed_cm : Autopaho (Deployment D R) := {
  NewConnection cx cfg := on_rest (NewConnection cx cfg);
  AwaitConnection cx := on_rest (AwaitConnection cx);
  cm_Publish cx m := on_rest (cm_Publish cx m);
  cm_Subscribe cx t q := on_rest (cm_Subscribe cx t q);
  cm_Disconnect cx := on_rest (cm_Disconnect cx);
}.
#[export] Instance deployed_clock : Clock_ (Deployment D R) := λ w, Now (rest w).
#[export] Instance deployed_context : Context_ (Deployment D R) := {
  ctx_Err w := ctx_Err (rest w);
  Wait d := on_rest (Wait d);
}.

(** *** It keeps the laws *)

Context `{tl : !TransportLaws D} (Hu : sidecar_url c).
#[local] Existing Instance deployed_bus.
#[local] Existing Instance deployed_input.
#[local] Existing Instance deployed_doer.

#[refine] Definition deployed_laws : BusLaws (Deployment D R) := {|
  holding w := tbank (settled mode (link w));
  landed w := tlanded (settled mode (link w));
  frames w := lrequests (link w);
|}.
Proof.
  - intros w. apply tbank_words.
  - intros a n w r w' [H _]%on_link_inv. exact (bus_read (BusLaws := late_laws mode c Hu) a n _ _ _ H).
  - intros a v w r w' Hv [H _]%on_link_inv. exact (bus_write (BusLaws := late_laws mode c Hu) a v _ _ _ Hv H).
Defined.
#[local] Existing Instance deployed_laws.

Lemma link_quiet w w' : calm_between mode (link w) (link w') → lrequests (link w') = lrequests (link w) → quiet w w'.
Proof. intros [E1 E2] E3. by split. Qed.

Lemma rest_quiet {A} (m : State R A) w r w' : on_rest m w = (r, w') → quiet w w'.
Proof. intros [_ E]%on_rest_inv. by apply link_quiet; rewrite E. Qed.

Lemma deployed_serve : ServeLaws (B := Deployment D R).
Proof.
  split.
  - intros a n w r w' [E _]%on_link_inv. apply (ReadInput_forget mode), (input_laws mode c) in E as (H1 & H2 & _); [|done].
    by apply link_quiet.
  - intros d. apply rest_quiet.
  - intros h req w r w' Hm [E _]%on_link_inv. apply (get_calm mode) in E as [H1 H2]; [|done]. by apply link_quiet.
  - intros cx cfg. apply rest_quiet.
  - intros cx. apply rest_quiet.
  - intros cx m. apply rest_quiet.
  - intros cx t q. apply rest_quiet.
  - intros cx. apply rest_quiet.
Qed.

Section Time.
Context `{rt : !RestTime R}.

Lemma deployed_time : TimePasses (W := Deployment D R).
Proof.
  split.
  - intros d w w' [E _]%on_rest_inv. by apply rest_wait_time in E.
  - intros h req w r w' [_ E]%on_link_inv. change (Now w') with (Now (rest w')). rewrite E. exact (proj1 (meanwhile_later (rest w))).
Qed.

Lemma link_time {A} (m : State (LateWire D) A) w r w' : on_link m w = (r, w') → later (Now w) (Now w').
Proof. intros [_ E]%on_link_inv. change (Now w') with (Now (rest w')). rewrite E. exact (meanwhile_later (rest w)). Qed.

Lemma rest_time {A} (m : State R A) : (∀ r x r', m r = (x, r') → later (Now r) (Now r')) →
  ∀ w x w', on_rest m w = (x, w') → later (Now w) (Now w').
Proof. intros Hm w x w' [E _]%on_rest_inv. exact (Hm _ _ _ E). Qed.

Lemma deployed_steady : SteadyServe (Deployment D R).
Proof.
  split.
  - intros a n. apply link_time.
  - intros a v. apply link_time.
  - intros a n. apply link_time.
  - intros h req. apply link_time.
  - intros cx cfg. apply rest_time, rest_new_time.
  - intros cx. apply rest_time, rest_await_time.
  - intros cx m. apply rest_time, rest_publish_time.
  - intros cx t q. apply rest_time, rest_subscribe_time.
  - intros cx. apply rest_time, rest_disconnect_time.
Qed.
End Time.

Lemma deployed_context_laws `{!ContextLaws R} : ContextLaws (Deployment D R).
Proof. split. intros d w e w' [E _]%on_rest_inv. by apply wait_err in E. Qed.

(** *** It answers when its parts work *)

Section Works.
Context `{sv : !Serving D} `{rk : !RestWorks R}.

Lemma on_link_step {A} (m : State (LateWire D) A) w a l : m (link w) = (a, l) →
  on_link m w = (a, {| link := l; rest := meanwhile (rest w) |}).
Proof. intros E. unfold on_link. by rewrite E. Qed.

Lemma in_range_of a n : is_uint16 a → 1 ≤ n ≤ MaxCount → in_range a n.
Proof. unfold in_range, _U16_MAX, _MAX_COUNT, MaxCount. int_unfold. lia. Qed.

#[refine] Definition deployed_healthy : HealthyBus (Deployment D R) := {|
  healthy w := works mode (link w) ∧ rest_ok (rest w) |}.
Proof.
  - intros a n w Ha Hn [Hw Hr].
    destruct (client_holding mode c Hu a n (link w) Hw (in_range_of a n Ha Hn)) as (l & E & Hl & _).
    eexists. split; [exact (on_link_step _ _ _ _ E)|]. split; [exact Hl|by apply rest_meanwhile].
  - intros a v w [Hw Hr] Ha Hv. destruct (client_write mode c Hu a v (link w) Hw Ha Hv) as (l & E & Hl & _ & U & L).
    eexists. split; [exact (on_link_step _ _ _ _ E)|]. split; [split; [exact Hl|by apply rest_meanwhile]|done].
Defined.
#[local] Existing Instance deployed_healthy.

Lemma rest_answered {A} (m : State R A) x (w : Deployment D R) :
  (∀ r, rest_ok r → ∃ r', m r = (x, r') ∧ rest_ok r') → healthy w → ∃ w', on_rest m w = (x, w') ∧ healthy w'.
Proof.
  intros Hm [Hw Hr]. destruct (Hm _ Hr) as (r' & E & Hr'). exists {| link := link w; rest := r' |}.
  unfold on_rest. by rewrite E.
Qed.

#[refine] Definition deployed_working : Working (Deployment D R) c := {|
  work_inputs w := tinputs (settled mode (link w)) |}.
Proof.
  - intros w a. apply tinputs_words.
  - intros a n w Ha Hn [Hw Hr].
    destruct (client_input mode c Hu a n (link w) Hw (in_range_of a n Ha Hn)) as (l & E & Hl & _ & Hx).
    eexists. split; [exact (on_link_step _ _ _ _ E)|]. split; [split; [exact Hl|by apply rest_meanwhile]|exact Hx].
  - intros dl w [Hw Hr] _. destruct (client_probe mode c Hu (Some dl) (link w) Hw) as (l & E & Hl & _).
    exists {| link := l; rest := meanwhile (rest w) |}. split; [|split; [exact Hl|by apply rest_meanwhile]].
    revert E. unfold probeServing. destruct (wrap_err _ _) as [req|e]; [|by intros [=]].
    intros (x & l1 & E1 & E)%state_bind_inv. rewrite (state_bind_step _ _ _ _ _ (on_link_step (Do (SidecarClient.http c) req) _ _ _ E1)).
    destruct x as [resp|e]; [destruct (negb _)|]; unfold mret, state_ret in *; [done| |done]. by injection E as ->.
  - intros cx cfg w. apply rest_answered, rest_new.
  - intros cx w. apply rest_answered, rest_await.
  - intros cx m w. apply rest_answered, rest_publish.
  - intros cx t q w. apply rest_answered, rest_subscribe.
  - intros cx w. apply rest_answered, rest_disconnect.
Defined.
End Works.
End Deployed.

(** ** Properties *)

(** C1: End to end, a whole life of the deployment is safe.  Take the manager over its
    own client, any loss and delay of its requests on the way, the sidecar's server and
    any transport that keeps its laws, with a broker that may refuse anything, and any
    ticks, messages and reconnects.  The life ends, and with the bank of the inverter as
    it is once what waits at the sidecar is carried out: started without a timed slot
    that has a charge and a discharge window at once, none ever has after any write that
    lands; every write request sent stays within the command registers and their ranges;
    of the work mode no bit but the timed one changes, and no other register does; and
    with CONTROLS_ENABLED=false no write is requested at all. *)
Theorem end_to_end_safe {D R : Type} `{up : UrlParse} `{tr : Transport D} `{tl : !TransportLaws D}
    `{cm : Autopaho R} `{clk : Clock_ R} `{ctx : Context_ R} `{els : Elsewhere R} `{rt : !RestTime R}
    `{cl : !ContextLaws R} `{tz : TimeZone} `{conv : FloatToUint16} (sprint : json → string) (mode : string)
    (env : Env) (early es : list happening) (cause : ExitCause)
    (stopHealth : State (World (Deployment D R)) (option error)) (c : Config.Config) (w : World (Deployment D R)) :
  let client := (SidecarClient.New (SidecarURL c) [] []).1 in
  let sidecar w := settled mode (link (outside w)) in
  let bank w := tbank (sidecar w) in
  Load env = Ok c → sidecar_url client → (∀ w, (stopHealth w).2 = w) → safe_bank (bank w) →
  ∃ err w',
    runServe (rw := deployed_bus mode client) (input := deployed_input mode client) (doer := deployed_doer mode)
      sprint env early es cause stopHealth w = (Some err, w') ∧
    (∃ L, tlanded (sidecar w') = tlanded (sidecar w) ++ L ∧ (∀ a, bank w' a = write_regs (bank w) L a) ∧
       ∀ j i, 0 ≤ i ≤ 2 → both_set (slot_at (write_regs (bank w) (take j L)) i) = false) ∧
    (∃ fr, lrequests (link (outside w')) = lrequests (link (outside w)) ++ fr ∧ Forall register_ok fr) ∧
    (∀ n, 0 ≤ n → n ≠ 1 → Z.testbit (bank w' 43110) n = Z.testbit (bank w 43110) n) ∧
    (∀ a, ¬ command_register a → bank w' a = bank w a) ∧
    (Config.ControlsEnabled c = false → lrequests (link (outside w')) = lrequests (link (outside w))).
Proof.
  intros client sidecar bank HL Hu Hstop Hsafe.
  pose (rw := deployed_bus (D := D) (R := R) mode client). pose (input := deployed_input (D := D) (R := R) mode client).
  pose (doer := deployed_doer (D := D) (R := R) mode). pose (laws := deployed_laws (R := R) mode client Hu).
  pose proof (deployed_serve (R := R) mode client Hu) as sl. pose proof (deployed_time (D := D) (R := R) mode) as tp.
  pose proof (deployed_context_laws (D := D) (R := R)) as cw.
  assert (calm (W := World (Deployment D R)) stopHealth) as Hcalm.
  { intros v x v' E. specialize (Hstop v). rewrite E in Hstop. cbn in Hstop. by subst v'. }
  destruct (runServe_cases sprint env early es cause stopHealth w Hcalm) as (err & w' & E & _).
  exists err, w'. split; [exact E|].
  destruct (life_safe sprint env early es cause stopHealth w w' err Hcalm E Hsafe) as (H1 & H2 & H3 & H4 & H5).
  split; [exact H1|]. split; [exact H2|]. split; [exact H3|]. split; [exact H4|]. exact (H5 c HL).
Qed.

(** ** A house

    The mock sidecar behind the link, and a broker that keeps what it is sent; every call
    on the link takes a millisecond. *)

Record House : Type := { hclock : Z; hsent : list PahoPublish }.

#[export] Instance House_clock : Clock_ House := λ r, {| unixNano := hclock r; GoTime.location := UTC |}.
#[export] Instance House_context : Context_ House := {
  ctx_Err _ := None;
  Wait d r := (None, {| hclock := hclock r + d; hsent := hsent r |});
}.
#[export] Instance House_elsewhere : Elsewhere House := λ r,
  {| hclock := hclock r + Millisecond; hsent := hsent r |}.
#[export] Instance House_cm : Autopaho House := {
  NewConnection _ _ r := (None, r);
  AwaitConnection _ r := (None, r);
  cm_Publish _ m r := (None, {| hclock := hclock r; hsent := hsent r ++ [m] |});
  cm_Subscribe _ _ _ r := (None, r);
  cm_Disconnect _ r := (None, r);
}.

#[export] Instance House_time : RestTime House.
Proof.
  assert (∀ r r' : House, hclock r ≤ hclock r' → later (Now r) (Now r')) as H by done.
  split.
  - intros r. apply H. cbn. unfold Millisecond. lia.
  - intros d r r' [= <-]. cbn. lia.
  - by intros cx cfg r x r' [= _ <-].
  - by intros cx r x r' [= _ <-].
  - by intros cx m r x r' [= _ <-].
  - by intros cx t q r x r' [= _ <-].
  - by intros cx r x r' [= _ <-].
Qed.
#[export] Instance House_context_laws : ContextLaws House.
Proof. split. by intros d r e r' [=]. Qed.

#[export, refine] Instance House_works : RestWorks House := { rest_ok _ := True }.
Proof.
  - done.
  - intros cx cfg r _. by eexists.
  - intros cx r _. by eexists.
  - intros cx m r _. by eexists.
  - intros cx t q r _. by eexists.
  - intros cx r _. by eexists.
Defined.

Definition house_url : UrlParse := λ s, match demo_url s with Ok path => Ok path | Err _ => Ok s end.

Definition house_env : Env := env_of [("MODE", "mock"); ("INVERTER_SERIAL", "1234567890");
  ("MQTT_BROKER_URL", "mqtt://localhost:1883")].
Definition house_config : Config.Config := config_of house_env.
Definition house_client : SidecarClient.Client := (SidecarClient.New (SidecarURL house_config) [] []).1.

Lemma house_loads : Load (H := house_url) house_env = Ok house_config.
Proof. vm_compute. reflexivity. Qed.

Lemma house_sidecar : sidecar_url (up := house_url) house_client.
Proof. intros p. rewrite !elem_of_cons, elem_of_nil. by intros [->|[->|[->|[->|[]]]]]. Qed.

(** The optimal income is on, the slots are empty. *)
Definition house (plan : list (nat * late_delivery)) : World (Deployment (Traced MockTransport) House) := {|
  outside := {| link := {| lserver := {| traced := MockTransport_init [[(43110, 35); (43141, 625)]]; log := [] |};
                           waiting := []; lplan := plan; lrequests := [] |};
                rest := {| hclock := 1757599200000000000; hsent := [] |} |};
  status := Server.New (statusConfig house_config) zeroTime; stale := false;
  lastGood := {| CTel := zeroTelemetry; CSp := zeroHASetpoints; have := false |} |}.

Definition house_early : list happening := [ConnectionUp; Sched (Inbound "solis/1234567890/set_charge_current/set" "30")].
Definition house_late : list happening :=
  [Sched (Inbound "solis/1234567890/boost_select/set" "Discharge 45 min"); ConnectionUp; Sched Tick].

Definition house_life (plan : list (nat * late_delivery)) :=
  runServe (rw := deployed_bus (up := house_url) "mock" house_client)
    (input := deployed_input (up := house_url) "mock" house_client) (doer := deployed_doer (up := house_url) "mock")
    (up := house_url) (tz := dst_zone) (conv := demo_conv) demo_sprint house_env house_early house_late ContextDone
    (mret None) (house plan).

(** Answers get lost and requests are carried out late. *)
Definition stormy : list (nat * late_delivery) :=
  [(0%nat, Kept Delivered); (0%nat, Kept Delivered); (0%nat, Late); (1%nat, Kept AnswerLost); (0%nat, Kept RequestLost);
   (0%nat, Late); (0%nat, Kept Delivered); (0%nat, Kept Delivered); (0%nat, Kept Delivered); (0%nat, Kept Delivered);
   (0%nat, Late); (0%nat, Late); (2%nat, Kept Delivered)].

Lemma house_safe : safe_bank (tbank (settled "mock" (link (outside (house stormy))))).
Proof. intros i Hi. assert (i = 0 ∨ i = 1 ∨ i = 2) as [-> |[-> | ->]] by lia; vm_compute; reflexivity. Qed.

(** All writes land in the storm, one of them in the middle of the others' sequence. *)
Lemma end_to_end_safe_witness :
  ∃ err w', house_life stormy = (Some err, w') ∧
    (∃ fr, lrequests (link (outside w')) = [] ++ fr ∧ Forall register_ok fr) ∧
    Addr <$> lrequests (link (outside w')) = [43141; 43143; 43167; 43169; 43170; 43144; 43155; 43156].
Proof.
  destruct (end_to_end_safe (up := house_url) (tz := dst_zone) (conv := demo_conv) demo_sprint "mock" house_env
    house_early house_late ContextDone (mret None) house_config (house stormy) house_loads house_sidecar
    ltac:(done) house_safe) as (err & w' & E & _ & Hf & _).
  exists err, w'. split; [exact E|]. split; [exact Hf|].
  apply (f_equal snd) in E. cbn [snd] in E. rewrite <- E. vm_compute. reflexivity.
Defined.

#[local] Instance house_tz : TimeZone := dst_zone.

Lemma house_works : works "mock" (link (outside (house []))) ∧ rest_ok (rest (outside (house []))).
Proof. split; [split; [constructor|by apply (bool_decide_unpack _); vm_compute]|done]. Qed.

(** The mock deployment does what it is told. *)
Lemma life_refines_panel_witness :
  let bank w := tbank (settled "mock" (link (outside w))) in
  ∃ ts w', house_life [] = (Some None, w') ∧ length ts = 4%nat ∧
    panel_of (bank w') = foldl (follow (conv := demo_conv) demo_window true) (panel_of (bank (house []))) ts ∧
    reports w' ∧ PCharge (panel_of (bank w')) = 300.
Proof.
  intros bank.
  pose (laws := deployed_laws (up := house_url) (D := Traced MockTransport) (R := House) "mock" house_client house_sidecar).
  pose (hb := deployed_healthy (up := house_url) (D := Traced MockTransport) (R := House) "mock" house_client house_sidecar).
  pose (wk := deployed_working (up := house_url) (D := Traced MockTransport) (R := House) "mock" house_client house_sidecar).
  destruct (life_refines_panel (laws := laws) (hb := hb) (up := house_url) (tz := dst_zone) (conv := demo_conv)
    (sl := deployed_serve (up := house_url) "mock" house_client house_sidecar)
    (st := deployed_steady (up := house_url) "mock" house_client)
    demo_sprint house_env house_early house_late ContextDone (mret None) house_config (wk := wk) (house []))
    as (window & a & ts & w' & Hp & E & Hm & _ & [P _] & _ & Hr).
  - exact house_loads.
  - vm_compute. reflexivity.
  - done.
  - exact house_works.
  - apply (bool_decide_unpack _). vm_compute. exact I.
  - exists ts, w'. split; [exact E|]. split; [exact (eq_sym (Forall2_length _ _ _ Hm))|].
    destruct a; [|vm_compute in Hp; discriminate Hp].
    assert (window = demo_window) as -> by (vm_compute in Hp; by injection Hp as <-).
    split; [exact P|]. split; [exact Hr|].
    apply (f_equal snd) in E. cbn [snd] in E. rewrite <- E. vm_compute. reflexivity.
Defined.
